(* ===== verification/_CoqProject ===== *)
-Q . S2P
Prelude.v
Task.v
JsValue.v
ApiServer.v
Driver.v
Browser.v
Selenium.v
Suite.v
Wpts.v
Fixtures.v
Checks.v
Scripts.v
Lifecycle.v
Subscribe.v
Notify.v
Service.v
Ownership.v
Contract.v
Counters.v
Delivery.v
Scenarios.v
Async.v
Turns.v
Interleave.v
Answers.v
Identifiers.v
Unique.v
Handover.v
Exclusive.v
Shutdown.v
Range.v
Lasting.v
Independent.v
Permissions.v
