(* ===== verification/Prelude.v ===== *)
(** * Verification of the web-push-testing-service orchestrator

    The program is a test orchestrator for Web Push: class [WPTS] of
    [src/src/index.js] serves four operations over HTTP (start-test-suite,
    end-test-suite, get-subscription, get-notification-status), keeps a
    registry of test suites, launches a browser for each test instance,
    drives the page of the test harness in it until the page has a push
    subscription, and later polls the page for the push messages it
    received.  The transport ([server/api-server.js]), the suites
    ([model/test-suite.js]), the browsers (selenium-assistant, WebDriver)
    and the harness page are outside [src/]; they are modelled from the
    specification, as far as [index.js] uses them.

    ** The model

    A shallow embedding: each method of [WPTS] is a definition with the
    method's name, whose body follows the method statement by statement
    (guards and early returns included).  A promise is a function from the
    state to an outcome and a state, [Promise E S A] of this file, with
    [then_], [catch_] and [Promise.all]; an outcome is [Resolved],
    [Rejected] or [Pending], the last for a promise that does not settle.
    A handler takes the response object and the arguments of the request
    and returns the response object; [res] is the list of responses sent
    on it.

    - [Prelude] (this file): outcomes, promises and their laws; the array
      methods [indexOf], [splice], [join]; [++] on a double ([js_incr],
      exact up to 2^53 - 1, without effect from 2^53).
    - [JsValue]: JSON values, [typeof], truthiness, string conversion,
      property reads (a read on [undefined] or [null] is a [TypeError]).
    - [ApiServer]: the response envelope and the server's life cycle
      (module [APIServer]; from the specification).
    - [Driver]: the WebDriver session as a type class [Driver] with its
      laws [DriverLaws]; [driver.wait] as the polling loop [wait_loop],
      with its timeout (0: none) and with fuel for the number of polls.
    - [Browser]: an implementation of the class, [session]: a browser on a
      clock in milliseconds, whose page loads, registers a service worker,
      subscribes and receives messages at the times its environment
      ([harnessEnv]) fixes; every command takes the latency of the
      environment.  [session_laws] proves the laws for it.
    - [Selenium]: browser objects, downloads, launching, and the store of
      sessions by handle ([World]); a suite refers to its sessions by
      handle, so that closing a session through one reference is seen
      through all.
    - [Suite]: module [TestSuite] (from the specification): instance ids,
      [addTestInstance], [getTestInstance], [end_].
    - [Wpts]: the fields of [WPTS], the constructor, the system state [Sys]
      (orchestrator and world) and its invariant [sys_wf].
    - [Fixtures]: concrete environments and systems for the witnesses.
    - [Checks]: [missingRequiredArgs], [validTestSuiteId], [validTestId].
    - [Scripts]: the functions passed to [executeScript].
    - [Lifecycle]: [startTestSuite], [endTestSuite], [downloadBrowsers],
      [startService], [endService].
    - [Subscribe]: [getSubscription], [initiateTestInstance].
    - [Notify]: [getNotificationStatus].
    - [Service]: the four operations as requests ([request], [handle]), a
      run of the service as a sequence of requests served one after the
      other and of waits ([step], [run]), and the states reached from the
      construction ([reaches]).
    - [Ownership]: the sessions that are open and that no suite owns
      ([orphan]), which no request can close.
    - [Contract]: what a client may rely on, as a transition system
      [contract] on the ids in use ([astate]) with the replies a client
      sees ([reply]); [abs] takes a state of the orchestrator to the ids
      in use, [observed] a run to its requests and replies.
    - [Counters]: the id counters at the limit of exact doubles.
    - [Delivery]: the messages of one session along a run: those the
      polls of the session hand over ([delivered]) and those it holds.
    - [Scenarios]: the inputs and the assertions of the tests of
      [src/test/get-test-subscription.js], and the test of a subscription
      as a run of the service.
    - [Task]: a promise chain with its suspension points ([task]): a tree
      whose nodes are pieces of code that run without interruption
      ([now]) or operations outside the process that are awaited
      ([await]); [run_task] runs a chain alone, [advance] and [resume] run
      it from one suspension to the next.
    - [Async]: the four handlers again, as tasks ([handle_task]) that are
      suspended at every call of the source that waits for a browser, a
      launch, the file system or a timer.
    - [Turns]: the pieces of the handlers that change the state (a suite
      is started, ended or removed, the temporary directory is deleted, a
      browser is launched and registered, a command runs on a session,
      time passes), as the classes [Piece] and [Turn] of the relations on
      states that hold of each of them; [Piece] leaves out the end and
      the removal of a suite.
    - [Interleave]: the event loop of section 5 of the specification: the
      tasks in flight over the one shared state ([config]), and schedules
      of arrivals of requests, completions of awaited operations and
      waits ([ievent], [istep], [irun]); the requests of a schedule
      ([requests_of]).
    - [Identifiers]: the session a pair of ids refers to ([session_of]),
      and what the registry keeps of the ids it has given out ([keeps]).
    - [Exclusive]: the sessions of the instances, each owned by one
      ([exclusive]).
    - [Answers]: the shape of what the task of each request of a
      schedule settles with ([shaped]).
    - [Unique]: the test id a request was answered with ([test_of]), and
      the stages of a subscription in flight: [Waiting] for the launch,
      [Holds] an id, or [Mute].
    - [Handover]: the messages of one session of [Browser] through a
      schedule: the session each request polls ([sources]), the messages
      the answers hand over ([collected]), and what every turn keeps
      ([kept]).
    - [Shutdown]: [endService] among requests: the call makes the promises
      of the suites ([endService_call], [end_one_task]), which complete
      one by one, and the chain ends when the server has closed and all
      have settled ([conclude]); a [service] is a configuration with the
      shutdown in progress, its events ([sevent], [sstep], [srun]) those
      of the requests, the call, and the completions of its promises.
    - [Range]: the counters in the range of exact doubles ([exact]).
    - [Lasting]: the instances of one suite that are registered
      ([held]), the steps that leave them registered ([spares]), and the
      stages of the subscriptions with the instances they hold
      ([in_stage]).
    - [Independent]: the tasks all of whose pieces read and change one
      session only ([local]), the chain of a poll on its instance
      ([poll_chain]), and the pools in which such tasks are on sessions
      of their own ([apart]).
    - [Permissions]: what the preferences set by [initiateTestInstance]
      mean to the browser ([allows_notifications]).

    ** The theorems

    - Promises and arrays ([Prelude]): the monad laws of [then_], what
      [catch_] catches, [indexOf] and [splice] against [filter]; the rules
      of assertions on promises ([hoare], [preserves]) with which the
      invariants of the handlers are proved.
    - Waiting ([Driver]), for every driver that satisfies the laws: a wait
      resolves only with a truthy value; a wait with a timeout whose
      condition costs [c] milliseconds settles within [timeout / c + 1]
      polls, and when it rejects, at least [timeout] has passed; a wait
      without timeout whose condition stays false never settles; a wait
      whose condition becomes true at a time [T], and whose polls take
      time, resolves within [T] polls.
    - Sessions ([Browser]): delivery of messages keeps and orders them;
      commands on an open, connected session reach the page.
    - Suites ([Suite], [Lifecycle]): instance and suite ids are fresh and
      increasing; ending a suite closes all its sessions, also when some
      fail to close, and touches no other; starting the service asks for
      every supported browser and version, and the server listens exactly
      when all downloads succeeded; ending the service closes the sessions
      of all suites and stops the server.
    - The service ([Service]): every state reached by at most 2^53
      requests is well formed ([reaches_wf]); the suite ids given out
      along a run increase strictly; a request that names a suite that is
      not registered, or one that has been ended, is refused and changes
      nothing; a handler that resolves has sent exactly one response.
    - The contract ([Contract], [Counters]): every run of the service is
      a trace of the contract ([run_refines]); what follows from the
      contract alone holds of the service: a test id that was answered
      stays valid until its suite is ended, a refused request changes
      nothing, the answers have the shape of their operation; the
      counters stay between 0 and 2^53 along every run, and at 2^53 a
      suite id is given out again and the suite that had it is replaced.
      [Lasting] and [Range] show the first and the last but one of
      every schedule.
    - Ownership ([Ownership]): when requests are served one after the
      other, every open session is owned by a suite in every state
      reached.
    - Concurrency ([Task], [Async], [Interleave]): a handler as a task,
      run alone, is the handler ([handle_task_run]); a schedule that
      completes every request before the next arrives is a run of
      [Service] ([serial_run]); under every schedule the system stays well
      formed and every request that is answered is answered once
      ([interleaved_wf], [interleaved_one_response]); but when a suite is
      ended while a browser is launched for it, both requests succeed and
      the new session is left open and owned by no suite
      ([overlap_orphans_session]).  The invariants of the schedules are
      proved once for all relations of the class [Turn], from seven facts
      on the pieces of the handlers ([handle_task_steady], [irun_turn]),
      and for the schedules whose requests end only some suites from
      the facts on those ([handle_task_spares], [irun_steady]);
      [ServiceTurn] adds the two pieces of [endService] ([srun_turn]).
      The relation is what a task guarantees of its turns and what it
      relies on of the turns of the others ([turns], which takes the two
      apart where they differ): a task resumed may use what it read
      before it was suspended, as far as the relation keeps it
      ([steady_read_await_now]).  What a task settles with does not
      depend on the states it is resumed in: under every schedule the
      answers have the shape of their operation ([interleaved_typed]).
    - Identifiers and sessions ([Identifiers], [Exclusive]), under every
      schedule: while the counters are below 2^53, an id that has stopped
      referring to a suite or to a session never refers to one again, and
      an instance id refers to the session it was given for as long as it
      refers to one ([retired_forever]); no two instances ever refer to
      the same session, whatever the counters, and also when [endService]
      has reset the counter of the suites ([service_exclusive]).
    - Test ids ([Unique]), under every schedule that leaves the counters
      below 2^53: two requests that name the same suite and are both
      answered with a test id are answered with different ids
      ([test_ids_unique]).  The instance is registered, and the counter of
      the suite advanced, in the one turn in which the launch completes
      ([initiateTestInstance_task_fresh]); the turns of a chain up to
      such a turn are followed with [until] of [Task].
    - Validity of test ids ([Lasting]), under every schedule in which no
      request asks to end the suite and which leaves the counters below
      2^53: the instance of a test id that a request was answered with
      is registered; a poll that arrives with the id finds it, and then,
      whatever follows, is answered with the messages or with
      [web_driver_error], or not at all ([test_id_stays_valid]).  The
      turns of the requests that do not end the suite are shown to spare
      it from the five facts of [Piece] and the end and removal of other
      suites ([handle_task_lasts], [irun_steady]).
    - Independence ([Independent]): the task of a poll that has found
      its instance is local to the session of the instance
      ([getNotificationStatus_task_local]); a turn of a local task goes
      through a change of another session ([resume_frame]), so that the
      turns of tasks on different sessions commute ([istep_swap]) and
      every permutation of a schedule of their completions leaves the
      same configuration ([irun_permutation]); since no two instances
      share a session, the polls of different instances do not interfere
      ([polls_independent], [polls_in_turn]).  The arrival of a poll
      commutes with the turns of a task on another session as well
      ([arrive_swap]): two polls of different instances that overlap,
      once the operations of both have completed, have been answered as
      [handle] answers them one after the other, and leave the state
      that run leaves ([polls_serializable]).
    - Counters ([Range]), under every schedule of requests and of the
      shutdown: the suite counter and the instance counters are between
      0 and 2^53 ([service_counters_exact]).
    - Messages ([Handover]), under every schedule: the messages that the
      polls of a session have been answered with and those the session
      holds are those it held at the start ([schedule_conserves]).  Every
      turn of every task keeps the messages of the session, but the turn
      in which a poll of the session runs the script that reads and
      clears the buffer; a subscription relies on the handle of the
      session being in use when its browser is launched, which gets
      another handle.  Polls of one session may overlap: the first to
      read takes the messages, the other is answered with an empty list
      ([two_polls_answers]).
    - Shutdown ([Shutdown]): a call of [endService] that no request
      overlaps, whose promises complete in the order of the suites,
      settles as [endService] of [Lifecycle] and leaves the same state
      ([endService_alone]); a subscription in flight at the call is
      answered with success and its browser is left open, owned by no
      suite, when [endService] has resolved ([shutdown_orphans_session]).
    - Permissions ([Permissions]): the preferences [initiateTestInstance]
      sets grant the pages of the server the permission to show
      notifications in a Chrome, an Opera and a Firefox, whatever their
      options held before, and every browser launched under any schedule
      has been given them, for the URL of the server; a browser of
      another name is launched as it came ([launched_with_permission]).
    - The tests ([Scenarios]): the requests of the tests of bad inputs
      get what the tests expect, in every state in which the suite of the
      test is registered; the test of a subscription passes on the model.
    - Checks ([Checks], [Subscribe]): [missingRequiredArgs] against its
      specification; the checks of [getSubscription] against the decision
      [validate], in the order of the specification; a refused request
      changes nothing.
    - Subscriptions ([Subscribe]), on the sessions of [Browser]: with a
      cooperating harness [getSubscription] answers with the subscription
      and registers the instance; an error of the service worker or of
      the subscription is reported under its code, a failure to open the
      page as [webdriver_issue], and in each case the browser stays open
      and registered; a harness that never loads makes the handler wait
      for ever, since its waits have no timeout; a VAPID key that is falsy
      is taken for no key; the Firefox check refuses the versions up to
      48, with a message that names 49; the code of an error thrown by
      the launch is sent as the error id, whatever it is.
    - Notifications ([Notify]): [getNotificationStatus] settles within 121
      polls on every lawful driver; messages on the page are returned in
      full and the buffer is cleared; when none arrives in 60 seconds the
      answer is the error [web_driver_error]; whatever the handler does,
      the messages it answers with and those the session still holds are
      those the session held before: none is lost, none handed over twice.
    - Delivery ([Delivery]): the same along a whole run of requests
      served one after the other, for every session ([run_conserves]);
      [Handover] shows it of every schedule.

    ** Bounds and fuel

    The polling loops take fuel, the number of polls; spent fuel is
    [Pending].  The wait of [getNotificationStatus] has a timeout of 60000
    ms and sleeps 500 ms after each poll that finds nothing, so 121 polls
    always settle it ([getNotificationStatus_settles]), and 120 polls
    reach the timeout on a quiet page.  The waits of
    [initiateTestInstance] have no timeout; on a [session] each poll takes
    the latency of the environment, at least 1 ms in a cooperating
    environment, so fuel above the delay in milliseconds resolves each
    wait ([getSubscription_subscribes]), and no fuel does when the harness
    never loads ([getSubscription_hangs]).  Numbers are integers ([Z]);
    the id counters are exact up to 2^53 - 1: the theorems on fresh ids
    assume that the counter is in that range, and the invariant is stated
    for runs of at most 2^53 requests, in which it is; [Counters] shows
    what happens beyond.  A task is a finite tree: the polling loops of
    the tasks take the same fuel as those of the handlers, and a schedule
    is a finite list of events; a task whose fuel is spent stays in
    flight.

    ** Not modelled

    Logging; HTTP routing and the parsing of requests; what a download of
    a browser does (only which downloads are asked for, and whether one
    fails) and the expiry of downloaded versions; the harness page itself
    (only its contract, [window.PUSH_TESTING_SERVICE]); non-integer and
    non-finite numbers.  In the schedules of [Interleave] and [Shutdown]
    the closing of the sessions of a suite is one suspension: the
    completions of the single [quit]s are not interleaved with other
    tasks.  [startService] is not scheduled against requests, and a call
    of [endService] while another is in progress is not modelled (the
    event changes nothing); whether the server still takes requests
    while it closes is left open: the schedules of [Shutdown] let them
    arrive, and the schedule of its finding uses none that arrives after
    the call.
    The tests of [src/test/get-test-subscription.js] drive the service
    over HTTP: [Scenarios] has their requests and assertions, not the HTTP
    calls, the library that sends the push message, or the variant of the
    test with a VAPID key. *)

From stdpp Require Import base option list strings gmap.

(** ** Outcomes of promises

    A JavaScript promise settles by resolving with a value, by rejecting
    with a thrown value, or it never settles.  [Pending] is the third case:
    in the model it is what a polling loop returns when its fuel is spent,
    and it propagates through [then_] like a promise that never settles. *)

Inductive outcome (E A : Type) : Type :=
| Resolved (a : A)
| Rejected (e : E)
| Pending.

Arguments Resolved {E A} a.
Arguments Rejected {E A} e.
Arguments Pending {E A}.

#[export] Instance outcome_eq_dec {E A} `{EqDecision E, EqDecision A} :
  EqDecision (outcome E A).
Proof. solve_decision. Defined.

Definition is_settled {E A} (o : outcome E A) : bool :=
  match o with Pending => false | _ => true end.

Definition outcome_map {E A B} (f : A -> B) (o : outcome E A) : outcome E B :=
  match o with
  | Resolved a => Resolved (f a)
  | Rejected e => Rejected e
  | Pending => Pending
  end.

(** ** The promise monad

    A computation over a mutable state [S]: it returns how it settled and
    the state it left behind.  Mutations made before a rejection stay (as
    in JavaScript, nothing is rolled back). *)

Definition Promise (E S A : Type) : Type := S -> outcome E A * S.

Section promise.
Context {E S : Type}.

Definition resolve {A} (a : A) : Promise E S A := fun s => (Resolved a, s).

Definition reject {A} (e : E) : Promise E S A := fun s => (Rejected e, s).

Definition pending {A} : Promise E S A := fun s => (Pending, s).

(** [p.then(k)] *)
Definition then_ {A B} (m : Promise E S A) (k : A -> Promise E S B) : Promise E S B :=
  fun s =>
    match m s with
    | (Resolved a, s') => k a s'
    | (Rejected e, s') => (Rejected e, s')
    | (Pending, s') => (Pending, s')
    end.

(** [p.catch(h)] *)
Definition catch_ {A} (m : Promise E S A) (h : E -> Promise E S A) : Promise E S A :=
  fun s =>
    match m s with
    | (Rejected e, s') => h e s'
    | r => r
    end.

Definition get_state : Promise E S S := fun s => (Resolved s, s).

Definition gets {A} (f : S -> A) : Promise E S A := fun s => (Resolved (f s), s).

Definition put_state (s : S) : Promise E S unit := fun _ => (Resolved tt, s).

Definition modify (f : S -> S) : Promise E S unit := fun s => (Resolved tt, f s).

(** Settle with an outcome computed elsewhere. *)
Definition settle {A} (o : outcome E A) : Promise E S A := fun s => (o, s).

(** [Promise.all]: every promise of the list runs (a rejection of one does
    not stop the others); the aggregate rejects with the first rejection in
    list order, else stays pending when one is pending, else resolves with
    the list of values. *)
Definition all_outcomes {A} (o : outcome E A) (os : outcome E (list A)) : outcome E (list A) :=
  match o, os with
  | Rejected e, _ => Rejected e
  | _, Rejected e => Rejected e
  | Pending, _ => Pending
  | _, Pending => Pending
  | Resolved a, Resolved l => Resolved (a :: l)
  end.

Fixpoint promise_all {A} (ms : list (Promise E S A)) : Promise E S (list A) :=
  match ms with
  | [] => resolve []
  | m :: ms' =>
      fun s =>
        let '(o, s1) := m s in
        let '(os, s2) := promise_all ms' s1 in
        (all_outcomes o os, s2)
  end.

End promise.

(** Run a computation on a part of the state, given a getter and a setter. *)
Definition zoom {E S T A} (get : S -> T) (set : T -> S -> S)
    (m : Promise E T A) : Promise E S A :=
  fun s => let '(o, t) := m (get s) in (o, set t s).

Declare Scope promise_scope.
Delimit Scope promise_scope with promise.

Notation "x <- c1 ;; c2" := (then_ c1 (fun x => c2))
  (at level 100, c1 at next level, right associativity) : promise_scope.
Notation "c1 ;; c2" := (then_ c1 (fun _ => c2))
  (at level 100, right associativity) : promise_scope.

(** ** Lists as JavaScript arrays *)

(** [Array.prototype.indexOf]: the first index of [x], or [-1]. *)
Definition indexOf {A} `{EqDecision A} (x : A) (l : list A) : Z :=
  match list_find (x =.) l with
  | Some (i, _) => Z.of_nat i
  | None => (-1)%Z
  end.

(** [Array.prototype.splice(i, 1)] on an index in range. *)
Definition splice1 {A} (i : Z) (l : list A) : list A :=
  if decide (0 ≤ i)%Z then delete (Z.to_nat i) l else l.

(** [Array.prototype.join] on an array of strings. *)
Definition join (sep : string) (l : list string) : string := String.concat sep l.

(** ** Numbers

    A JavaScript number is a double.  The counters of this program start at
    [0] and only grow by [++], so they stay integers; [n + 1] is exact below
    [2^53] and rounds back to [2^53] at [2^53]. *)

Definition MAX_SAFE_INTEGER : Z := 2 ^ 53 - 1.

Definition js_incr (n : Z) : Z :=
  if decide (n ≤ MAX_SAFE_INTEGER)%Z then (n + 1)%Z else n.

(** ** Automation *)

Create HintDb wpts discriminated.
Create Rewrite HintDb promise_rw.

(** Unfold the monad's operations in the goal and in the hypotheses. *)
Ltac promise_unfold :=
  unfold then_, catch_, resolve, reject, pending, settle, get_state, gets,
    put_state, modify, zoom in *.

(** Case analysis on the next monadic step of the goal. *)
Ltac promise_step :=
  match goal with
  | |- context [match ?m ?s with (o, _) => _ end] => destruct (m s) as [[?|?|] ?] eqn:?
  | |- context [let '(_, _) := ?x in _] => destruct x as [? ?] eqn:?
  end.

(** * Laws *)

Section promise_laws.
Context {E S : Type}.
Implicit Types s : S.

Lemma then_resolve_l {A B} (a : A) (k : A -> Promise E S B) s :
  then_ (resolve a) k s = k a s.
Proof. reflexivity. Qed.

Lemma then_resolve_r {A} (m : Promise E S A) s :
  then_ m resolve s = m s.
Proof. unfold then_, resolve. by destruct (m s) as [[?|?|] ?]. Qed.

Lemma then_assoc {A B C} (m : Promise E S A) (k : A -> Promise E S B)
    (h : B -> Promise E S C) s :
  then_ (then_ m k) h s = then_ m (fun a => then_ (k a) h) s.
Proof. unfold then_. by destruct (m s) as [[?|?|] ?]. Qed.

Lemma then_reject_l {A B} (e : E) (k : A -> Promise E S B) s :
  then_ (reject e) k s = (Rejected e, s).
Proof. reflexivity. Qed.

Lemma then_pending_l {A B} (k : A -> Promise E S B) s :
  then_ pending k s = (Pending, s).
Proof. reflexivity. Qed.

Lemma catch_resolve {A} (a : A) (h : E -> Promise E S A) s :
  catch_ (resolve a) h s = (Resolved a, s).
Proof. reflexivity. Qed.

Lemma catch_reject {A} (e : E) (h : E -> Promise E S A) s :
  catch_ (reject e) h s = h e s.
Proof. reflexivity. Qed.

(** A handler that never rejects makes the caught promise never reject. *)
Lemma catch_not_rejected {A} (m : Promise E S A) (h : E -> Promise E S A) s :
  (forall e s', forall e', (h e s').1 <> Rejected e') ->
  forall e', (catch_ m h s).1 <> Rejected e'.
Proof.
  intros Hh e'. unfold catch_.
  destruct (m s) as [[a|e|] s']; simpl; [done | apply Hh | done].
Qed.

(** One step of a chain, by the outcome of its first promise. *)
Lemma then_resolved {A B} (m : Promise E S A) (k : A -> Promise E S B) s a s1 :
  m s = (Resolved a, s1) -> then_ m k s = k a s1.
Proof. unfold then_. by intros ->. Qed.

Lemma then_rejected {A B} (m : Promise E S A) (k : A -> Promise E S B) s e s1 :
  m s = (Rejected e, s1) -> then_ m k s = (Rejected e, s1).
Proof. unfold then_. by intros ->. Qed.

Lemma then_pending {A B} (m : Promise E S A) (k : A -> Promise E S B) s s1 :
  m s = (Pending, s1) -> then_ m k s = (Pending, s1).
Proof. unfold then_. by intros ->. Qed.

(** Chains that agree piece by piece agree. *)
Lemma then_ext {A B} (m m' : Promise E S A) (k k' : A -> Promise E S B) s :
  m s = m' s -> (forall a s1, k a s1 = k' a s1) -> then_ m k s = then_ m' k' s.
Proof. unfold then_. intros -> Hk. by destruct (m' s) as [[a|e|] s1]. Qed.

Lemma catch_ext {A} (m m' : Promise E S A) (h h' : E -> Promise E S A) s :
  m s = m' s -> (forall e s1, h e s1 = h' e s1) -> catch_ m h s = catch_ m' h' s.
Proof. unfold catch_. intros -> Hh. by destruct (m' s) as [[a|e|] s1]. Qed.

Lemma then_inv_resolved {A B} (m : Promise E S A) (k : A -> Promise E S B) s b s2 :
  then_ m k s = (Resolved b, s2) ->
  exists a s1, m s = (Resolved a, s1) /\ k a s1 = (Resolved b, s2).
Proof.
  unfold then_. destruct (m s) as [[a|e|] s1]; try done. eauto.
Qed.

Lemma promise_all_nil {A} s : promise_all (@nil (Promise E S A)) s = (Resolved [], s).
Proof. reflexivity. Qed.

Lemma promise_all_cons {A} (m : Promise E S A) ms s :
  promise_all (m :: ms) s =
  (all_outcomes (m s).1 (promise_all ms (m s).2).1, (promise_all ms (m s).2).2).
Proof.
  cbn [promise_all]. destruct (m s) as [o s1]. cbn [fst snd].
  by destruct (promise_all ms s1).
Qed.

(** The aggregate resolves exactly when every promise does. *)
Lemma all_outcomes_resolved {A} (o : outcome E A) os :
  (exists l, all_outcomes o os = Resolved l) <->
  (exists a, o = Resolved a) /\ (exists l, os = Resolved l).
Proof.
  destruct o as [a|e|], os as [l|e'|]; simpl; split;
    try (by intros [? ?]); try (by intros [[? ?] [? ?]]); eauto.
Qed.

Lemma promise_all_resolved_length {A} (ms : list (Promise E S A)) s l s' :
  promise_all ms s = (Resolved l, s') -> length l = length ms.
Proof.
  revert s l s'. induction ms as [|m ms IH]; intros s l s' H; simpl in H.
  - by inversion H.
  - destruct (m s) as [o s1]. destruct (promise_all ms s1) as [os s2] eqn:Hall.
    destruct o, os; simpl in H; inversion H; subst. simpl. f_equal. eauto.
Qed.

End promise_laws.

#[export] Hint Rewrite @then_resolve_l @then_reject_l @then_pending_l
  @catch_resolve @catch_reject : promise_rw.

(** Altering a key that is there is inserting the altered value. *)
Lemma alter_as_insert `{Countable K} {A} (f : A -> A) (m : gmap K A) i x :
  m !! i = Some x -> alter f i m = <[i := f x]> m.
Proof.
  intros Hi. apply map_eq. intros j. destruct (decide (i = j)) as [<-|Hne].
  - by rewrite lookup_alter_eq, lookup_insert_eq, Hi.
  - by rewrite lookup_alter_ne, lookup_insert_ne.
Qed.

(** A filter keeps a list all of whose elements pass. *)
Lemma filter_all {A} (P : A -> Prop) `{forall x, Decision (P x)} (l : list A) :
  Forall P l -> filter P l = l.
Proof.
  induction 1 as [|x l Hx Hl IH]; [done|].
  by rewrite filter_cons, decide_True, IH.
Qed.

Section arrays.
Context {A : Type} `{EqDecision A}.
Implicit Types (x : A) (l : list A).

Lemma indexOf_nonneg_iff x l : (0 ≤ indexOf x l)%Z <-> x ∈ l.
Proof.
  unfold indexOf. destruct (list_find (x =.) l) as [[i y]|] eqn:Hf.
  - apply list_find_Some in Hf as (Hi & -> & _).
    split; [intros _; by eapply list_elem_of_lookup_2 | lia].
  - apply list_find_None in Hf. split; [lia|].
    intros Hin. rewrite Forall_forall in Hf. by destruct (Hf x Hin).
Qed.

Lemma indexOf_absent_iff x l : indexOf x l = (-1)%Z <-> x ∉ l.
Proof.
  rewrite <- indexOf_nonneg_iff. unfold indexOf.
  destruct (list_find (x =.) l) as [[i y]|]; lia.
Qed.

Lemma indexOf_lookup x l :
  (0 ≤ indexOf x l)%Z -> l !! Z.to_nat (indexOf x l) = Some x.
Proof.
  unfold indexOf. destruct (list_find (x =.) l) as [[i y]|] eqn:Hf; [|lia].
  intros _. apply list_find_Some in Hf as (Hi & -> & _). by rewrite Nat2Z.id.
Qed.

Lemma indexOf_first x l j y :
  l !! j = Some y -> (Z.of_nat j < indexOf x l)%Z -> x <> y.
Proof.
  unfold indexOf. destruct (list_find (x =.) l) as [[i z]|] eqn:Hf; [|lia].
  apply list_find_Some in Hf as (_ & _ & Hmin). intros Hj Hlt. eapply Hmin; eauto. lia.
Qed.

Lemma indexOf_cons x y l :
  indexOf x (y :: l) =
  if decide (x = y) then 0%Z
  else if decide (0 ≤ indexOf x l)%Z then (indexOf x l + 1)%Z else (-1)%Z.
Proof.
  unfold indexOf. simpl. case_decide; [done|].
  destruct (list_find (x =.) l) as [[i z]|]; simpl; repeat case_decide; lia.
Qed.

(** Without duplicates, removing the first occurrence removes them all. *)
Lemma splice1_indexOf_filter x l :
  NoDup l -> splice1 (indexOf x l) l = filter (fun y => y <> x) l.
Proof.
  induction 1 as [|y l Hy Hl IH]; [done|].
  rewrite indexOf_cons, filter_cons. unfold splice1 in *.
  destruct (decide (x = y)) as [->|Hne].
  - rewrite decide_True by done. simpl. rewrite decide_False by (by intros []).
    symmetry. apply filter_all. rewrite Forall_forall. by intros z Hz ->.
  - rewrite (decide_True (P := y <> x)) by done.
    destruct (decide (0 ≤ indexOf x l)%Z) as [Hi|Hi].
    + rewrite decide_True by lia.
      replace (Z.to_nat (indexOf x l + 1)) with (S (Z.to_nat (indexOf x l))) by lia.
      simpl. by rewrite IH.
    + rewrite decide_False by lia. by rewrite <- IH.
Qed.

Lemma splice1_length x l :
  x ∈ l -> length (splice1 (indexOf x l) l) = pred (length l).
Proof.
  intros Hin. pose proof (proj2 (indexOf_nonneg_iff x l) Hin) as H0.
  unfold splice1. rewrite decide_True by done.
  rewrite length_delete; [lia|]. rewrite indexOf_lookup; eauto.
Qed.

End arrays.

Lemma filter_nil_iff_Forall {A} (P : A -> Prop) `{forall x, Decision (P x)} (l : list A) :
  filter P l = [] <-> Forall (fun x => ~ P x) l.
Proof.
  induction l as [|x l IH]; [done|]. rewrite filter_cons, Forall_cons.
  case_decide; [|tauto]. split; [done | tauto].
Qed.

(** Filtering what a filter rejected leaves nothing. *)
Lemma filter_filter_complement {A} (P : A -> Prop) `{forall x, Decision (P x)} (l : list A) :
  filter P (filter (fun x => ¬ P x) l) = [].
Proof.
  induction l as [|x l IH]; [done|]. rewrite filter_cons.
  case_decide; [|done]. rewrite filter_cons. by case_decide.
Qed.

Lemma js_incr_exact n : (0 ≤ n ≤ MAX_SAFE_INTEGER)%Z -> js_incr n = (n + 1)%Z.
Proof. intros [_ H]. unfold js_incr. repeat case_decide; lia. Qed.

Lemma js_incr_below n : (n ≤ MAX_SAFE_INTEGER)%Z -> js_incr n = (n + 1)%Z.
Proof. intros Hn. unfold js_incr. repeat case_decide; lia. Qed.

Lemma js_incr_mono n : (n ≤ js_incr n)%Z.
Proof. unfold js_incr. repeat case_decide; lia. Qed.

Lemma js_incr_stuck : js_incr (2 ^ 53) = (2 ^ 53)%Z.
Proof. reflexivity. Qed.

(** ** Assertions on promises

    [hoare P m Q X]: from a state that satisfies [P], the promise [m]
    leaves a state that satisfies [Q a] when it resolves with [a], and [X]
    when it rejects or stays pending. *)

Section hoare.
Context {E S : Type}.
Implicit Types (P X : S -> Prop).

Definition hoare {A} P (m : Promise E S A) (Q : A -> S -> Prop) X : Prop :=
  forall s, P s ->
    match (m s).1 with
    | Resolved a => Q a (m s).2
    | _ => X (m s).2
    end.

(** [m] keeps the invariant [I], however it settles. *)
Definition preserves {A} (I : S -> Prop) (m : Promise E S A) : Prop :=
  hoare I m (fun _ => I) I.

Lemma preserves_state {A} I (m : Promise E S A) s : preserves I m -> I s -> I (m s).2.
Proof. intros Hm Hs. specialize (Hm s Hs). by destruct (m s).1. Qed.

Lemma preserves_state_post {A} P (m : Promise E S A) I s :
  hoare P m (fun _ => I) I -> P s -> I (m s).2.
Proof. intros Hm Hs. specialize (Hm s Hs). by destruct (m s).1. Qed.

Lemma hoare_weaken {A} P P' (m : Promise E S A) (Q Q' : A -> S -> Prop) X X' :
  hoare P' m Q' X' -> (forall s, P s -> P' s) -> (forall a s, Q' a s -> Q a s) ->
  (forall s, X' s -> X s) -> hoare P m Q X.
Proof.
  intros Hm HP HQ HX s Hs%HP. specialize (Hm s Hs). destruct (m s).1; auto.
Qed.

Lemma hoare_resolve {A} P (a : A) (Q : A -> S -> Prop) X :
  (forall s, P s -> Q a s) -> hoare P (resolve a) Q X.
Proof. intros HQ s Hs. by apply HQ. Qed.

Lemma hoare_reject {A} P (e : E) (Q : A -> S -> Prop) X :
  (forall s, P s -> X s) -> hoare P (reject e) Q X.
Proof. intros HX s Hs. by apply HX. Qed.

Lemma hoare_settle {A} P (o : outcome E A) (Q : A -> S -> Prop) X :
  (forall s, P s -> X s) -> (forall a s, P s -> Q a s) -> hoare P (settle o) Q X.
Proof. intros HX HQ s Hs. destruct o; simpl; auto. Qed.

Lemma hoare_gets {A} P (f : S -> A) X :
  hoare P (gets f) (fun a s => a = f s /\ P s) X.
Proof. by intros s Hs. Qed.

Lemma hoare_modify P (f : S -> S) (Q : unit -> S -> Prop) X :
  (forall s, P s -> Q tt (f s)) -> hoare P (modify f) Q X.
Proof. intros HQ s Hs. by apply HQ. Qed.

Lemma hoare_then {A B} P (m : Promise E S A) (k : A -> Promise E S B)
    (Q : A -> S -> Prop) (Q' : B -> S -> Prop) X :
  hoare P m Q X -> (forall a, hoare (Q a) (k a) Q' X) -> hoare P (then_ m k) Q' X.
Proof.
  intros Hm Hk s Hs. specialize (Hm s Hs). unfold then_.
  destruct (m s) as [[a|e|] s1]; simpl in *; [by apply Hk | done | done].
Qed.

Lemma hoare_catch {A} P (m : Promise E S A) (h : E -> Promise E S A)
    (Q : A -> S -> Prop) X X' :
  hoare P m Q X' -> (forall e, hoare X' (h e) Q X) -> (forall s, X' s -> X s) ->
  hoare P (catch_ m h) Q X.
Proof.
  intros Hm Hh HX s Hs. specialize (Hm s Hs). unfold catch_.
  destruct (m s) as [[a|e|] s1]; simpl in *; [done | by apply Hh | by apply HX].
Qed.

Lemma preserves_then {A B} I (m : Promise E S A) (k : A -> Promise E S B) :
  preserves I m -> (forall a, preserves I (k a)) -> preserves I (then_ m k).
Proof. intros Hm Hk. by apply (hoare_then _ _ _ (fun _ => I)). Qed.

Lemma preserves_catch {A} I (m : Promise E S A) (h : E -> Promise E S A) :
  preserves I m -> (forall e, preserves I (h e)) -> preserves I (catch_ m h).
Proof. intros Hm Hh. by apply (hoare_catch _ _ _ _ _ I). Qed.

Lemma preserves_pure {A} I (m : Promise E S A) :
  (forall s, (m s).2 = s) -> preserves I m.
Proof. intros Hm s Hs. rewrite Hm. by destruct (m s).1. Qed.

Lemma preserves_resolve {A} I (a : A) : preserves I (resolve a).
Proof. by intros s Hs. Qed.

Lemma preserves_reject {A} I (e : E) : preserves (A:=A) I (reject e).
Proof. by intros s Hs. Qed.

Lemma preserves_gets {A} I (f : S -> A) : preserves I (gets f).
Proof. by intros s Hs. Qed.

Lemma preserves_get_state I : preserves I get_state.
Proof. by intros s Hs. Qed.

Lemma preserves_pure_state {A} I (m : Promise E S A) :
  (forall s, I s -> I (m s).2) -> preserves I m.
Proof. intros Hm s Hs. specialize (Hm s Hs). by destruct (m s).1. Qed.

Lemma preserves_promise_all {A} I (ms : list (Promise E S A)) :
  Forall (preserves I) ms -> preserves I (promise_all ms).
Proof.
  induction 1 as [|m ms Hm _ IH]; [by intros s Hs|]. intros s Hs. simpl.
  pose proof (preserves_state I m s Hm Hs) as H1. destruct (m s) as [o s1].
  pose proof (preserves_state I _ s1 IH H1) as H2. destruct (promise_all ms s1) as [os s2].
  simpl in *. by destruct (all_outcomes o os).
Qed.

End hoare.

#[export] Hint Resolve preserves_resolve preserves_reject preserves_gets
  preserves_get_state : wpts.

(** Advance a chain over its first promise, whose result [H] gives. *)
Ltac promise_next H := erewrite then_resolved; [|exact H].
