(* ===== verification/Task.v ===== *)
(** * Tasks: promises with their suspension points

    The orchestrator runs on one thread: a handler runs until it waits for
    an operation outside the process (a command of a browser session, the
    launch of a browser, a timer), and the callback it chained on that
    operation runs when the operation has completed; in between, other
    handlers run.  [Promise] of [Prelude] runs a chain from its start to
    its end.  A [task] is the same chain with the places marked at which
    it is suspended, so that chains of several requests can be
    interleaved: [Now] is a piece that runs at once, [Later] a piece that
    runs when the operation the task waits for has completed.

    [run_task] runs a task from start to end, as [Promise] does;
    [advance] and [resume] run it from one suspension to the next.
    [turns R G t] says that every turn of [t] (what runs between two
    suspensions) takes the state to one related by [G], in whatever state
    the task is resumed that steps related by [R] lead to: [G] is what
    the task guarantees of its turns and [R] what it relies on of the
    turns of the others; for most properties the two are the same
    relation ([steady]).  [until R X t] asks the same up to a turn after which
    [X] holds of the parked task, and nothing from then on. *)

From stdpp Require Import base option list.
From S2P Require Import Prelude.

Section task.
Context {E S : Type}.

(** A task: settled, or a piece of work that takes the state [s] to
    [upd s] and goes on as [next s]. *)
Inductive task (A : Type) : Type :=
| Settled (o : outcome E A)
| Now (next : S -> task A) (upd : S -> S)
| Later (next : S -> task A) (upd : S -> S).

Arguments Settled {A} o.
Arguments Now {A} next upd.
Arguments Later {A} next upd.

Definition ret {A} (a : A) : task A := Settled (Resolved a).

Definition throw {A} (e : E) : task A := Settled (Rejected e).

(** A promise run in the current turn: a read or an update of the state,
    a call that returns at once. *)
Definition now {A} (m : Promise E S A) : task A :=
  Now (fun s => Settled (m s).1) (fun s => (m s).2).

(** A promise of an operation outside: the task is suspended until the
    operation has completed; its effect on the state is that of [m] on the
    state at that time. *)
Definition await {A} (m : Promise E S A) : task A :=
  Later (fun s => Settled (m s).1) (fun s => (m s).2).

(** [t.then(f)] *)
Fixpoint task_then {A B} (t : task A) (f : A -> task B) : task B :=
  match t with
  | Settled (Resolved a) => f a
  | Settled (Rejected e) => Settled (Rejected e)
  | Settled Pending => Settled Pending
  | Now next upd => Now (fun s => task_then (next s) f) upd
  | Later next upd => Later (fun s => task_then (next s) f) upd
  end.

(** [t.catch(h)] *)
Fixpoint task_catch {A} (t : task A) (h : E -> task A) : task A :=
  match t with
  | Settled (Rejected e) => h e
  | Settled o => Settled o
  | Now next upd => Now (fun s => task_catch (next s) h) upd
  | Later next upd => Later (fun s => task_catch (next s) h) upd
  end.

(** The task run from start to end, nothing else running in between. *)
Fixpoint run_task {A} (t : task A) (s : S) : outcome E A * S :=
  match t with
  | Settled o => (o, s)
  | Now next upd | Later next upd => run_task (next s) (upd s)
  end.

(** The task run to its next suspension. *)
Fixpoint advance {A} (t : task A) (s : S) : task A * S :=
  match t with
  | Now next upd => advance (next s) (upd s)
  | _ => (t, s)
  end.

(** The operation a suspended task waits for completes: the task runs to
    its next suspension.  A settled task stays as it is. *)
Definition resume {A} (t : task A) (s : S) : task A * S :=
  match t with
  | Later next upd => advance (next s) (upd s)
  | _ => (t, s)
  end.

(** The number of suspensions of the task when it runs alone from [s]. *)
Fixpoint suspensions {A} (t : task A) (s : S) : nat :=
  match t with
  | Settled _ => 0
  | Now next upd => suspensions (next s) (upd s)
  | Later next upd => Datatypes.S (suspensions (next s) (upd s))
  end.

(** A task between turns: settled or suspended. *)
Definition parked {A} (t : task A) : bool :=
  match t with Now _ _ => false | _ => true end.

Definition outcome_of {A} (t : task A) : outcome E A :=
  match t with Settled o => o | _ => Pending end.

(** ** Turns

    [turns R G t from s K]: the task [t] is in a turn that began in the
    state [from] and has reached the state [s].  When the task suspends,
    [G] relates the two (what the task guarantees of a turn); when it is
    resumed, in any state that [R] relates to the one in which it was
    suspended (what the task relies on of the turns of the others), the
    same holds of its next turn; when it settles, with the outcome [o],
    [K o] relates the state in which its last turn began and the state it
    left. *)
Fixpoint turns (R G : relation S) {A} (t : task A) (from s : S)
    (K : outcome E A -> relation S) : Prop :=
  match t with
  | Settled o => K o from s
  | Now next upd => turns R G (next s) from (upd s) K
  | Later next upd => G from s /\ forall s1, R s s1 -> turns R G (next s1) s1 (upd s1) K
  end.

(** The same up to a turn after which the parked task satisfies [X] (of
    the state in which the turn began and the state it left): from then on
    nothing more is asked of the task. *)
Fixpoint until (R : relation S) {A} (X : task A -> relation S) (t : task A) (from s : S)
    (K : outcome E A -> relation S) : Prop :=
  match t with
  | Settled o => K o from s
  | Now next upd => until R X (next s) from (upd s) K
  | Later next upd =>
      R from s /\
      (X (Later next upd) from s \/
       forall s1, R s s1 -> until R X (next s1) s1 (upd s1) K)
  end.

(** Every piece of the task, taken alone, takes any state to a state
    related by [R]. *)
Fixpoint pieces (R : relation S) {A} (t : task A) : Prop :=
  match t with
  | Settled _ => True
  | Now next upd | Later next upd => forall s, R s (upd s) /\ pieces R (next s)
  end.

(** However the task runs, it settles only with an outcome that satisfies
    [Q]. *)
Fixpoint leaves {A} (Q : outcome E A -> Prop) (t : task A) : Prop :=
  match t with
  | Settled o => Q o
  | Now next _ | Later next _ => forall s, leaves Q (next s)
  end.

(** A task parked in the state [s], or in a state that has led to [s],
    all of whose coming turns are related by [R], and which settles only
    with an outcome that satisfies [Q]. *)
Definition safe (R : relation S) {A} (Q : outcome E A -> Prop) (t : task A) (s : S) : Prop :=
  match t with
  | Settled o => Q o
  | Now _ _ => False
  | Later next upd =>
      forall s1, R s s1 ->
        turns R R (next s1) s1 (upd s1) (fun o from s' => R from s' /\ Q o)
  end.

(** A continuation that asks no more of a turn than [R]. *)
Definition closed (R : relation S) {A} (K : outcome E A -> relation S) : Prop :=
  forall o from s, R from s -> K o from s.

(** A task whose turns are related by [R], in whichever turn it is
    started: whatever has run in the turn before it, and whatever runs in
    the turn after it settles, as long as those are related by [R]. *)
Definition steady (R : relation S) {A} (t : task A) : Prop :=
  forall from s K, R from s -> closed R K -> turns R R t from s K.

End task.

Arguments task E S A : clear implicits.
Arguments Settled {E S A} o.
Arguments Now {E S A} next upd.
Arguments Later {E S A} next upd.

(** A task on a part of the state, given a getter and a setter: each
    piece reads the part as it is when the piece runs. *)
Fixpoint task_zoom {E S T A} (get : S -> T) (set : T -> S -> S) (t : task E T A) :
    task E S A :=
  match t with
  | Settled o => Settled o
  | Now next upd =>
      Now (fun s => task_zoom get set (next (get s))) (fun s => set (upd (get s)) s)
  | Later next upd =>
      Later (fun s => task_zoom get set (next (get s))) (fun s => set (upd (get s)) s)
  end.

(** A task that has work left. *)
Definition unsettled {E S A} (t : task E S A) : Prop :=
  match t with Settled _ => False | _ => True end.

Declare Scope task_scope.
Delimit Scope task_scope with task.

Notation "x <- c1 ;; c2" := (task_then c1 (fun x => c2))
  (at level 100, c1 at next level, right associativity) : task_scope.
Notation "c1 ;; c2" := (task_then c1 (fun _ => c2))
  (at level 100, right associativity) : task_scope.

(** * Properties *)

Section task_facts.
Context {E S : Type}.
Implicit Types (s : S) (R : relation S).

(** ** Running a task alone is running the promise *)

Lemma run_now {A} (m : Promise E S A) s : run_task (now m) s = m s.
Proof. simpl. by destruct (m s). Qed.

Lemma run_await {A} (m : Promise E S A) s : run_task (await m) s = m s.
Proof. simpl. by destruct (m s). Qed.

Lemma run_then {A B} (t : task E S A) (f : A -> task E S B) s :
  run_task (task_then t f) s = then_ (run_task t) (fun a => run_task (f a)) s.
Proof.
  revert s. induction t as [[a|e|]|next IH upd|next IH upd]; intros s; simpl; try done;
    by rewrite IH.
Qed.

Lemma run_catch {A} (t : task E S A) (h : E -> task E S A) s :
  run_task (task_catch t h) s = catch_ (run_task t) (fun e => run_task (h e)) s.
Proof.
  revert s. induction t as [[a|e|]|next IH upd|next IH upd]; intros s; simpl; try done;
    by rewrite IH.
Qed.

Lemma run_zoom {T A} (get : S -> T) (set : T -> S -> S) (t : task E T A) s :
  (forall x s, get (set x s) = x) -> (forall x y s, set y (set x s) = set y s) ->
  (forall s, set (get s) s = s) ->
  run_task (task_zoom get set t) s = zoom get set (run_task t) s.
Proof.
  intros Hgs Hss Hsg. unfold zoom. revert s.
  induction t as [o|next IH upd|next IH upd]; intros s; simpl.
  - by rewrite Hsg.
  - rewrite IH, Hgs. destruct (run_task _ _). by rewrite Hss.
  - rewrite IH, Hgs. destruct (run_task _ _). by rewrite Hss.
Qed.

Lemma pieces_zoom R {T A} (get : S -> T) (set : T -> S -> S) (t : task E T A) :
  (forall x s, R s (set x s)) -> pieces R (task_zoom get set t).
Proof. intros HR. induction t as [o|next IH upd|next IH upd]; simpl; auto. Qed.

(** ** From suspension to suspension *)

(** A chain that starts with a piece of the current turn. *)
Lemma advance_now_then {A B} (m : Promise E S A) (f : A -> task E S B) s :
  advance (task_then (now m) f) s = advance (task_then (Settled (m s).1) f) (m s).2.
Proof. reflexivity. Qed.

Lemma advance_parked {A} (t : task E S A) s : parked (advance t s).1 = true.
Proof. revert s. induction t; intros s; simpl; auto. Qed.

Lemma advance_of_parked {A} (t : task E S A) s : parked t = true -> advance t s = (t, s).
Proof. by destruct t. Qed.

Lemma resume_parked {A} (t : task E S A) s : parked t = true -> parked (resume t s).1 = true.
Proof. destruct t; simpl; try done. intros _. apply advance_parked. Qed.

Lemma resume_settled {A} (o : outcome E A) s : resume (Settled o) s = (Settled o, s).
Proof. reflexivity. Qed.

Lemma run_advance {A} (t : task E S A) s :
  run_task (advance t s).1 (advance t s).2 = run_task t s.
Proof. revert s. induction t; intros s; simpl; auto. Qed.

Lemma run_resume {A} (t : task E S A) s :
  run_task (resume t s).1 (resume t s).2 = run_task t s.
Proof. destruct t; simpl; try done. apply run_advance. Qed.

Lemma suspensions_advance {A} (t : task E S A) s :
  suspensions (advance t s).1 (advance t s).2 = suspensions t s.
Proof. revert s. induction t; intros s; simpl; auto. Qed.

Lemma suspensions_resume {A} (t : task E S A) s :
  parked t = true ->
  suspensions (resume t s).1 (resume t s).2 = pred (suspensions t s).
Proof. destruct t; simpl; try done. intros _. apply suspensions_advance. Qed.

Lemma suspensions_0 {A} (t : task E S A) s :
  parked t = true -> suspensions t s = 0 -> t = Settled (run_task t s).1.
Proof. by destruct t. Qed.

(** Resumed as often as it suspends, and nothing else running, a task has
    settled with the outcome and in the state of [run_task]. *)
Lemma resume_iter {A} (n : nat) (t : task E S A) s :
  parked t = true -> suspensions t s <= n ->
  Nat.iter n (fun c => resume c.1 c.2) (t, s) = (Settled (run_task t s).1, (run_task t s).2).
Proof.
  revert t s. induction n as [|n IH]; intros t s Hp Hn.
  - destruct t; simpl in *; (done || lia).
  - rewrite Nat.iter_succ_r. cbv beta. cbn [fst snd].
    destruct (resume t s) as [t' s'] eqn:Hr.
    pose proof (resume_parked t s Hp) as Hp'. pose proof (suspensions_resume t s Hp) as Hs.
    pose proof (run_resume t s) as Hrun. rewrite Hr in Hp', Hs, Hrun. simpl in *.
    rewrite IH by (done || lia). by rewrite Hrun.
Qed.

(** ** Turns of composed tasks *)

Lemma turns_weaken R G {A} (t : task E S A) from s (K K' : outcome E A -> relation S) :
  (forall o from' s', K o from' s' -> K' o from' s') ->
  turns R G t from s K -> turns R G t from s K'.
Proof.
  intros HK. revert from s. induction t as [o|next IH upd|next IH upd]; intros from s; simpl.
  - apply HK.
  - apply IH.
  - intros [HR Hn]. split; [done|]. intros s1 Hs1. by apply IH, Hn.
Qed.

Lemma turns_then R G {A B} (t : task E S A) (f : A -> task E S B) from s K :
  turns R G t from s (fun o from' s' =>
    match o with
    | Resolved a => turns R G (f a) from' s' K
    | Rejected e => K (Rejected e) from' s'
    | Pending => K Pending from' s'
    end) ->
  turns R G (task_then t f) from s K.
Proof.
  revert from s. induction t as [[a|e|]|next IH upd|next IH upd]; intros from s; simpl;
    try done.
  - apply IH.
  - intros [HR Hn]. split; [done|]. intros s1 Hs1. by apply IH, Hn.
Qed.

Lemma turns_catch R G {A} (t : task E S A) (h : E -> task E S A) from s K :
  turns R G t from s (fun o from' s' =>
    match o with
    | Rejected e => turns R G (h e) from' s' K
    | o => K o from' s'
    end) ->
  turns R G (task_catch t h) from s K.
Proof.
  revert from s. induction t as [[a|e|]|next IH upd|next IH upd]; intros from s; simpl;
    try done.
  - apply IH.
  - intros [HR Hn]. split; [done|]. intros s1 Hs1. by apply IH, Hn.
Qed.

Lemma turns_now R G {A} (m : Promise E S A) from s (K : outcome E A -> relation S) :
  K (m s).1 from (m s).2 -> turns R G (now m) from s K.
Proof. done. Qed.

Lemma turns_await R G {A} (m : Promise E S A) from s (K : outcome E A -> relation S) :
  G from s -> (forall s1, R s s1 -> K (m s1).1 s1 (m s1).2) -> turns R G (await m) from s K.
Proof. by split. Qed.

(** A chain that begins with a suspension, or with a piece that runs at
    once. *)
Lemma turns_await_then R G {A B} (m : Promise E S A) (f : A -> task E S B) from s K :
  G from s ->
  (forall s1, R s s1 ->
     match (m s1).1 with
     | Resolved a => turns R G (f a) s1 (m s1).2 K
     | Rejected e => K (Rejected e) s1 (m s1).2
     | Pending => K Pending s1 (m s1).2
     end) ->
  turns R G (task_then (await m) f) from s K.
Proof.
  intros HG Hn. simpl. split; [done|]. intros s1 Hs1. specialize (Hn s1 Hs1).
  by destruct (m s1).1.
Qed.

Lemma turns_now_then R G {A B} (m : Promise E S A) (f : A -> task E S B) from s K :
  match (m s).1 with
  | Resolved a => turns R G (f a) from (m s).2 K
  | Rejected e => K (Rejected e) from (m s).2
  | Pending => K Pending from (m s).2
  end ->
  turns R G (task_then (now m) f) from s K.
Proof. simpl. by destruct (m s).1. Qed.

(** A task whose pieces are each related by a transitive [G] has its
    turns related by [G], whatever it relies on. *)
Lemma pieces_turns R G `{!Transitive G} {A} (t : task E S A) from s
    (K : outcome E A -> relation S) :
  pieces G t -> G from s -> (forall o from' s', G from' s' -> K o from' s') ->
  turns R G t from s K.
Proof.
  intros Ht HR HK. revert from s HR Ht.
  induction t as [o|next IH upd|next IH upd]; intros from s HR Ht; simpl in *.
  - by apply HK.
  - destruct (Ht s) as [Hu Hn]. apply IH; [by etrans|done].
  - split; [done|]. intros s1 _. destruct (Ht s1) as [Hu Hn]. by apply IH.
Qed.

Lemma pieces_then R {A B} (t : task E S A) (f : A -> task E S B) :
  pieces R t -> (forall a, pieces R (f a)) -> pieces R (task_then t f).
Proof.
  intros Ht Hf. induction t as [[a|e|]|next IH upd|next IH upd]; simpl in *; try done;
    intros s; destruct (Ht s); split; auto.
Qed.

Lemma pieces_catch R {A} (t : task E S A) (h : E -> task E S A) :
  pieces R t -> (forall e, pieces R (h e)) -> pieces R (task_catch t h).
Proof.
  intros Ht Hh. induction t as [[a|e|]|next IH upd|next IH upd]; simpl in *; try done;
    intros s; destruct (Ht s); split; auto.
Qed.

Lemma pieces_now R {A} (m : Promise E S A) : (forall s, R s (m s).2) -> pieces R (now m).
Proof. intros Hm s. by split. Qed.

Lemma pieces_await R {A} (m : Promise E S A) : (forall s, R s (m s).2) -> pieces R (await m).
Proof. intros Hm s. by split. Qed.

Lemma pieces_settled R {A} (o : outcome E A) : pieces R (Settled o).
Proof. done. Qed.

(** ** Outcomes of composed tasks *)

Lemma leaves_weaken {A} (Q Q' : outcome E A -> Prop) (t : task E S A) :
  (forall o, Q o -> Q' o) -> leaves Q t -> leaves Q' t.
Proof. intros HQ. induction t; simpl; auto. Qed.

Lemma leaves_then {A B} (Q : outcome E B -> Prop) (t : task E S A) (f : A -> task E S B) :
  leaves (fun o => match o with
                   | Resolved a => leaves Q (f a)
                   | Rejected e => Q (Rejected e)
                   | Pending => Q Pending
                   end) t ->
  leaves Q (task_then t f).
Proof. induction t as [[a|e|]|next IH upd|next IH upd]; simpl; auto. Qed.

Lemma leaves_catch {A} (Q : outcome E A -> Prop) (t : task E S A) (h : E -> task E S A) :
  leaves (fun o => match o with
                   | Rejected e => leaves Q (h e)
                   | o => Q o
                   end) t ->
  leaves Q (task_catch t h).
Proof. induction t as [[a|e|]|next IH upd|next IH upd]; simpl; auto. Qed.

Lemma leaves_any {A} (t : task E S A) : leaves (fun _ => True) t.
Proof. induction t; simpl; auto. Qed.

(** A chain settles as its last link does, when [Q] asks nothing of a
    task that rejects or stays pending. *)
Lemma leaves_then_any {A B} (Q : outcome E B -> Prop) (t : task E S A) (f : A -> task E S B) :
  (forall a, leaves Q (f a)) -> (forall e, Q (Rejected e)) -> Q Pending ->
  leaves Q (task_then t f).
Proof.
  intros Hf He Hp. apply leaves_then, (leaves_weaken (fun _ => True)), leaves_any.
  by intros [a|e|] _.
Qed.

Lemma leaves_catch_weak {A} (Q : outcome E A -> Prop) (t : task E S A) (h : E -> task E S A) :
  (forall e, leaves Q (h e)) -> leaves Q t -> leaves Q (task_catch t h).
Proof.
  intros Hh Ht. apply leaves_catch, (leaves_weaken Q); [|done]. by intros [a|e|].
Qed.

Lemma leaves_now {A} (Q : outcome E A -> Prop) (m : Promise E S A) :
  (forall s, Q (m s).1) -> leaves Q (now m).
Proof. done. Qed.

Lemma leaves_await {A} (Q : outcome E A -> Prop) (m : Promise E S A) :
  (forall s, Q (m s).1) -> leaves Q (await m).
Proof. done. Qed.

Lemma leaves_zoom {T A} (Q : outcome E A -> Prop) (get : S -> T) (set : T -> S -> S)
    (t : task E T A) :
  leaves Q t -> leaves Q (task_zoom get set t).
Proof. induction t; simpl; auto. Qed.

Lemma advance_leaves {A} (Q : outcome E A -> Prop) (t : task E S A) s :
  leaves Q t -> leaves Q (advance t s).1.
Proof. revert s. induction t; intros s; simpl; auto. Qed.

Lemma resume_leaves {A} (Q : outcome E A -> Prop) (t : task E S A) s :
  leaves Q t -> leaves Q (resume t s).1.
Proof. destruct t; simpl; try done. intros Hn. apply advance_leaves, Hn. Qed.

Lemma run_leaves {A} (Q : outcome E A -> Prop) (t : task E S A) s :
  leaves Q t -> Q (run_task t s).1.
Proof. revert s. induction t; intros s; simpl; auto. Qed.

(** ** What the turns say of [advance] and [resume] *)

Lemma advance_until R {A} (X : task E S A -> relation S) (t : task E S A) from s K :
  until R X t from s K -> until R X (advance t s).1 from (advance t s).2 K.
Proof. revert from s. induction t as [o|next IH upd|next IH upd]; intros from s; simpl; auto. Qed.

Lemma until_weaken R {A} (X X' : task E S A -> relation S) (t : task E S A) from s
    (K K' : outcome E A -> relation S) :
  (forall t0 from s, X t0 from s -> X' t0 from s) ->
  (forall o from s, K o from s -> K' o from s) ->
  until R X t from s K -> until R X' t from s K'.
Proof.
  intros HX HK. revert from s.
  induction t as [o|next IH upd|next IH upd]; intros from s; simpl; auto.
  intros [HR [Hx|Hn]]; (split; [done|]); [left|right]; auto.
Qed.

(** A chain, up to the turn after which [X'] holds: of the first link
    when [X] holds of it, or of a later link. *)
Lemma until_then R {A B} (X : task E S A -> relation S) (X' : task E S B -> relation S)
    (t : task E S A) (f : A -> task E S B) from s K :
  (forall t0 from s, X t0 from s -> X' (task_then t0 f) from s) ->
  until R X t from s (fun o from s =>
    match o with
    | Resolved a => until R X' (f a) from s K
    | Rejected e => K (Rejected e) from s
    | Pending => K Pending from s
    end) ->
  until R X' (task_then t f) from s K.
Proof.
  intros HX. revert from s.
  induction t as [[a|e|]|next IH upd|next IH upd]; intros from s; simpl; auto.
  intros [HR [Hx|Hn]]; (split; [done|]); [left; by apply (HX (Later next upd))|right; auto].
Qed.

Lemma until_catch R {A} (X X' : task E S A -> relation S)
    (t : task E S A) (h : E -> task E S A) from s K :
  (forall t0 from s, X t0 from s -> X' (task_catch t0 h) from s) ->
  until R X t from s (fun o from s =>
    match o with
    | Rejected e => until R X' (h e) from s K
    | o => K o from s
    end) ->
  until R X' (task_catch t h) from s K.
Proof.
  intros HX. revert from s.
  induction t as [[a|e|]|next IH upd|next IH upd]; intros from s; simpl; auto.
  intros [HR [Hx|Hn]]; (split; [done|]); [left; by apply (HX (Later next upd))|right; auto].
Qed.

(** A chain that begins with a suspension, or with a piece that runs at
    once, when [X] is not to hold yet. *)
Lemma until_await_then R {A B} (X : task E S B -> relation S) (m : Promise E S A)
    (f : A -> task E S B) from s K :
  R from s ->
  (forall s1, R s s1 ->
     match (m s1).1 with
     | Resolved a => until R X (f a) s1 (m s1).2 K
     | Rejected e => K (Rejected e) s1 (m s1).2
     | Pending => K Pending s1 (m s1).2
     end) ->
  until R X (task_then (await m) f) from s K.
Proof.
  intros HR Hn. simpl. split; [done|]. right. intros s1 Hs1. specialize (Hn s1 Hs1).
  by destruct (m s1).1.
Qed.

Lemma until_now_then R {A B} (X : task E S B -> relation S) (m : Promise E S A)
    (f : A -> task E S B) from s K :
  match (m s).1 with
  | Resolved a => until R X (f a) from (m s).2 K
  | Rejected e => K (Rejected e) from (m s).2
  | Pending => K Pending from (m s).2
  end ->
  until R X (task_then (now m) f) from s K.
Proof. simpl. by destruct (m s).1. Qed.

(** The turns of a task that settles only with outcomes that satisfy
    [Q]. *)
Lemma turns_leaves R G {A} (Q : outcome E A -> Prop) (t : task E S A) from s K :
  turns R G t from s K -> leaves Q t ->
  turns R G t from s (fun o from' s' => K o from' s' /\ Q o).
Proof.
  revert from s. induction t as [o|next IH upd|next IH upd]; intros from s; simpl.
  - done.
  - intros Ht Hl. by apply IH.
  - intros [HR Hn] Hl. split; [done|]. intros s1 Hs1. by apply IH; [apply Hn|].
Qed.

Lemma advance_turns R G {A} (t : task E S A) from s K :
  turns R G t from s K -> turns R G (advance t s).1 from (advance t s).2 K.
Proof. revert from s. induction t as [o|next IH upd|next IH upd]; intros from s; simpl; auto. Qed.

Lemma advance_safe R {A} (Q : outcome E A -> Prop) (t : task E S A) from s :
  turns R R t from s (fun o from' s' => R from' s' /\ Q o) ->
  R from (advance t s).2 /\ safe R Q (advance t s).1 (advance t s).2.
Proof.
  revert from s. induction t as [o|next IH upd|next IH upd]; intros from s; simpl.
  - done.
  - apply IH.
  - by intros [HR Hn].
Qed.

Lemma resume_safe R `{!Reflexive R} {A} (Q : outcome E A -> Prop) (t : task E S A) s :
  safe R Q t s -> R s (resume t s).2 /\ safe R Q (resume t s).1 (resume t s).2.
Proof.
  destruct t as [o|next upd|next upd]; simpl; try done.
  intros Hn. by apply advance_safe, Hn.
Qed.

(** A task that is safe in a state is safe in the states [R] leads to
    from it. *)
Lemma safe_mono R `{!Transitive R} {A} (Q : outcome E A -> Prop) (t : task E S A) s s' :
  R s s' -> safe R Q t s -> safe R Q t s'.
Proof.
  intros Hs. destruct t as [o|next upd|next upd]; simpl; try done.
  intros Hn s1 Hs1. apply Hn. by etrans.
Qed.

(** ** Steady tasks *)

Section steady.
Context (R : relation S) `{!PreOrder R}.

Lemma steady_settled {A} (o : outcome E A) : steady R (Settled o).
Proof. intros from s K HR HK. by apply HK. Qed.

Lemma steady_pieces {A} (t : task E S A) : pieces R t -> steady R t.
Proof. intros Ht from s K HR HK. by apply (pieces_turns R R t from s K). Qed.

Lemma steady_now {A} (m : Promise E S A) : (forall s, R s (m s).2) -> steady R (now m).
Proof. intros Hm. by apply steady_pieces, pieces_now. Qed.

Lemma steady_await {A} (m : Promise E S A) : (forall s, R s (m s).2) -> steady R (await m).
Proof. intros Hm. by apply steady_pieces, pieces_await. Qed.

Lemma steady_then {A B} (t : task E S A) (f : A -> task E S B) :
  steady R t -> (forall a, steady R (f a)) -> steady R (task_then t f).
Proof.
  intros Ht Hf from s K HR HK. apply turns_then, Ht; [done|].
  intros [a|e|] from' s' HR'; [by apply Hf | by apply HK..].
Qed.

Lemma steady_catch {A} (t : task E S A) (h : E -> task E S A) :
  steady R t -> (forall e, steady R (h e)) -> steady R (task_catch t h).
Proof.
  intros Ht Hh from s K HR HK. apply turns_catch, Ht; [done|].
  intros [a|e|] from' s' HR'; [by apply HK | by apply Hh | by apply HK].
Qed.

(** An operation awaited and a step taken in the turn in which it
    completes: it is enough that the two together are related by [R]. *)
Lemma steady_await_now {A B C} (m1 : Promise E S A) (m2 : A -> Promise E S B)
    (rest : A -> B -> task E S C) :
  (forall s, R s (then_ m1 m2 s).2) -> (forall a b, steady R (rest a b)) ->
  steady R (task_then (await m1) (fun a => task_then (now (m2 a)) (rest a))).
Proof.
  intros Hm Hrest from s K HR HK. split; [done|]. intros s1 _.
  specialize (Hm s1). unfold then_ in Hm. cbv beta.
  destruct (m1 s1) as [[a|e|] s2]; cbn [fst snd task_then turns now] in *;
    [|by apply HK..].
  destruct (m2 a s2) as [[b|e|] s3]; cbn [fst snd task_then turns] in *;
    [by apply Hrest | by apply HK..].
Qed.

(** A steady task that arrives runs a turn related by [R], and stays with
    turns related by [R]; so does one that is resumed. *)
(** The same for an operation that depends on what the task has read of
    the state in the turn in which it began to wait: the state in which
    the operation completes is one [R] has led to from the state that was
    read. *)
Lemma steady_read_await_now {X A B C} (f : S -> X) (m1 : X -> Promise E S A)
    (m2 : X -> A -> Promise E S B) (rest : X -> A -> B -> task E S C) :
  (forall s0 s, R s0 s -> R s (then_ (m1 (f s0)) (m2 (f s0)) s).2) ->
  (forall x a b, steady R (rest x a b)) ->
  steady R (task_then (now (gets f))
              (fun x => task_then (await (m1 x))
                          (fun a => task_then (now (m2 x a)) (rest x a)))).
Proof.
  intros Hm Hrest from s K HR HK. cbn. split; [done|]. intros s1 Hs1.
  specialize (Hm s s1 Hs1). unfold then_ in Hm.
  destruct (m1 (f s) s1) as [[a|e|] s2]; cbn [fst snd task_then turns now] in *;
    [|by apply HK..].
  destruct (m2 (f s) a s2) as [[b|e|] s3]; cbn [fst snd task_then turns] in *;
    [by apply Hrest | by apply HK..].
Qed.

Lemma steady_advance {A} (t : task E S A) s :
  steady R t ->
  R s (advance t s).2 /\ safe R (fun _ => True) (advance t s).1 (advance t s).2.
Proof. intros Ht. apply advance_safe, Ht; [reflexivity|]. by intros o from s'. Qed.

End steady.

End task_facts.

#[export] Hint Resolve pieces_settled : wpts.
