(* ===== verification/JsValue.v ===== *)
(** * JavaScript values

    The values the orchestrator handles: request arguments parsed from JSON,
    results of scripts run in the page, thrown errors.  Only what the code
    of [src/src/index.js] uses of them is modelled: [typeof], truthiness,
    conversion to a string (template literals and [+]), property access,
    [Object.keys], strict equality against strings.  Numbers are the
    integers (the program only compares them with its integer counters). *)

From stdpp Require Import base option list strings gmap pretty.
From S2P Require Import Prelude.

Set Warnings "-register-all".

Inductive jsval : Type :=
| JUndefined
| JNull
| JBool (b : bool)
| JNum (n : Z)
| JStr (s : string)
| JObj (fields : list (string * jsval))
| JArr (elems : list jsval).

#[export] Instance jsval_inhabited : Inhabited jsval := populate JUndefined.

#[export] Instance jsval_eq_dec : EqDecision jsval.
Proof.
  refine (fix go (x y : jsval) {struct x} : Decision (x = y) :=
    match x, y with
    | JUndefined, JUndefined => left _
    | JNull, JNull => left _
    | JBool a, JBool b => cast_if (decide (a = b))
    | JNum a, JNum b => cast_if (decide (a = b))
    | JStr a, JStr b => cast_if (decide (a = b))
    | JObj a, JObj b =>
        cast_if (@list_eq_dec _ (@prod_eq_dec _ _ _ go) a b)
    | JArr a, JArr b => cast_if (@list_eq_dec _ go a b)
    | _, _ => right _
    end); abstract congruence.
Defined.

(** An object as the list of its own enumerable properties, in insertion
    order. *)
Definition jsobj : Type := list (string * jsval).

(** [typeof v] *)
Definition typeof (v : jsval) : string :=
  match v with
  | JUndefined => "undefined"
  | JNull => "object"
  | JBool _ => "boolean"
  | JNum _ => "number"
  | JStr _ => "string"
  | JObj _ => "object"
  | JArr _ => "object"
  end.

(** Truthiness: what [if (v)], [!v] and [&&] test. *)
Definition truthy (v : jsval) : bool :=
  match v with
  | JUndefined | JNull => false
  | JBool b => b
  | JNum n => negb (n =? 0)%Z
  | JStr s => negb (String.eqb s "")
  | JObj _ | JArr _ => true
  end.

(** Conversion to a string, as a template literal or [+] with a string
    does it. *)
Fixpoint toString (v : jsval) : string :=
  match v with
  | JUndefined => "undefined"
  | JNull => "null"
  | JBool true => "true"
  | JBool false => "false"
  | JNum n => pretty n
  | JStr s => s
  | JObj _ => "[object Object]"
  | JArr l =>
      join "," (map (fun x => match x with
                              | JUndefined | JNull => ""
                              | _ => toString x
                              end) l)
  end.

(** [undefined] or [null]: what a required argument may not be. *)
Definition nullish (v : jsval) : Prop := v = JUndefined \/ v = JNull.

#[export] Instance nullish_dec v : Decision (nullish v).
Proof. unfold nullish. apply _. Defined.

(** [o[k]] on an object given by its properties. *)
Fixpoint lookup_prop (k : string) (o : jsobj) : jsval :=
  match o with
  | [] => JUndefined
  | (k', v) :: o' => if decide (k = k') then v else lookup_prop k o'
  end.

(** [Object.keys(o)] *)
Definition keys (o : jsobj) : list string := o.*1.

(** [v.k]: a property read.  Reading a property of [undefined] or [null]
    throws a [TypeError] ([None]); the primitives and arrays have none of
    the properties this program reads. *)
Definition get_prop (v : jsval) (k : string) : option jsval :=
  match v with
  | JUndefined | JNull => None
  | JObj o => Some (lookup_prop k o)
  | _ => Some JUndefined
  end.

(** [a.indexOf(v)] on an array of strings: strict equality, so only a
    string can be found. *)
Definition indexOf_str (v : jsval) (a : list string) : Z :=
  match v with
  | JStr s => indexOf s a
  | _ => (-1)%Z
  end.

(** An [Error] object: the program reads its [message] (and [code], which
    an [Error] does not have). *)
Definition mkError (message : string) : jsval :=
  JObj [("message", JStr message)].

(** The [TypeError] of a property read on [undefined] or [null]. *)
Definition TypeError (v : jsval) (k : string) : jsval :=
  JObj [("name", JStr "TypeError");
        ("message", JStr ("Cannot read property '" +:+ k +:+ "' of " +:+ toString v))].

(** [v.k] inside a promise chain: a [TypeError] rejects the chain. *)
Definition read_prop {S} (v : jsval) (k : string) : Promise jsval S jsval :=
  match get_prop v k with
  | Some x => resolve x
  | None => reject (TypeError v k)
  end.

(** The double quote, for messages that quote a value. *)
Definition dquote : string := String (Ascii.ascii_of_nat 34) EmptyString.

(** * Properties *)

Lemma typeof_number v : typeof v = "number" <-> exists n, v = JNum n.
Proof. split; [destruct v; try done; eauto | by intros [n ->]]. Qed.

Lemma typeof_string v : typeof v = "string" <-> exists s, v = JStr s.
Proof. split; [destruct v; try done; eauto | by intros [s ->]]. Qed.

Lemma typeof_undefined v : typeof v = "undefined" <-> v = JUndefined.
Proof. split; [by destruct v | by intros ->]. Qed.

Lemma nullish_typeof v : nullish v <-> ~ (typeof v <> "undefined" /\ v <> JNull).
Proof.
  unfold nullish. rewrite typeof_undefined.
  destruct (decide (v = JUndefined)), (decide (v = JNull)); naive_solver.
Qed.

Lemma truthy_not_nullish v : truthy v = true -> ~ nullish v.
Proof. by destruct v; intros ? [|]. Qed.

Lemma truthy_str s : truthy (JStr s) = true <-> s <> "".
Proof.
  simpl. rewrite negb_true_iff. destruct (String.eqb_spec s ""); split; congruence.
Qed.

Lemma get_prop_truthy v k : truthy v = true -> is_Some (get_prop v k).
Proof. destruct v; simpl; try done; eauto. Qed.

Lemma lookup_prop_keys k o : lookup_prop k o <> JUndefined -> k ∈ keys o.
Proof.
  unfold keys. induction o as [|[k' v] o IH]; simpl; [done|].
  case_decide as Hk; [subst; intros _; apply list_elem_of_here|].
  intros Hv. apply list_elem_of_further, IH, Hv.
Qed.

Lemma lookup_prop_not_key k o : k ∉ keys o -> lookup_prop k o = JUndefined.
Proof.
  intros Hk. destruct (decide (lookup_prop k o = JUndefined)) as [|Hne]; [done|].
  by apply lookup_prop_keys in Hne.
Qed.

Lemma indexOf_str_found v a :
  (0 ≤ indexOf_str v a)%Z <-> exists s, v = JStr s /\ s ∈ a.
Proof.
  destruct v; simpl; try (split; [lia | by intros (? & ? & ?)]).
  rewrite indexOf_nonneg_iff. split; [eauto | by intros (? & [= ->] & ?)].
Qed.

Lemma indexOf_str_absent v a :
  indexOf_str v a = (-1)%Z <-> forall s, v = JStr s -> s ∉ a.
Proof.
  destruct v; simpl; try (split; [by intros | done]).
  rewrite indexOf_absent_iff. split; [by intros ? ? [= <-] | eauto].
Qed.

Lemma read_prop_truthy {S} v k (s : S) :
  truthy v = true -> exists x, read_prop v k s = (Resolved x, s) /\ get_prop v k = Some x.
Proof.
  intros Hv. destruct (get_prop_truthy v k Hv) as [x Hx].
  exists x. unfold read_prop. by rewrite Hx.
Qed.

Lemma read_prop_state {S} v k (s : S) : (read_prop v k s).2 = s.
Proof. unfold read_prop. by destruct (get_prop v k). Qed.

Lemma read_prop_settles {S} v k (s : S) : (read_prop v k s).1 <> Pending.
Proof. unfold read_prop. by destruct (get_prop v k). Qed.

Lemma read_prop_preserves {S} (I : S -> Prop) v k : preserves I (read_prop v k).
Proof. apply preserves_pure, read_prop_state. Qed.

#[export] Hint Resolve read_prop_preserves : wpts.

Lemma toString_str s : toString (JStr s) = s.
Proof. reflexivity. Qed.

Example toString_examples :
  toString (JNum (-1)) = "-1" /\ toString (JNum 99999999) = "99999999" /\
  toString (JArr [JNum 1; JNull; JStr "a"]) = "1,,a" /\
  toString (JObj [("a", JNum 1)]) = "[object Object]".
Proof. by vm_compute. Qed.

Example mkError_message m :
  get_prop (mkError m) "message" = Some (JStr m) /\
  get_prop (mkError m) "code" = Some JUndefined.
Proof. done. Qed.
