(* ===== verification/ApiServer.v ===== *)
(** * The transport, as the orchestrator sees it

    [src/src/index.js] requires [./server/api-server.js], which is not part
    of the sources: the response envelope and the server's life cycle are
    modelled from the specification (sections 4.4 and 6) and from what the
    tests of [src/test/get-test-subscription.js] observe (an error response
    has HTTP status 400).  A response object [res] is modelled by the list
    of responses sent on it, so that "exactly one response per request" is
    a statement about its length. *)

From stdpp Require Import base option list strings gmap pretty.
From S2P Require Import Prelude JsValue.

Module APIServer.

(** One HTTP response: status and JSON body. *)
Record response : Type := Response { status : Z; body : jsval }.

#[export] Instance response_eq_dec : EqDecision response.
Proof. solve_decision. Defined.

(** The [res] object of a request: what has been sent on it so far. *)
Record res : Type := Res { sent : list response }.

Definition fresh_res : res := Res [].

(** [{data: ...}] *)
Definition valid_body (data : jsval) : jsval := JObj [("data", data)].

(** [{error: {id, message}}] *)
Definition error_body (id : jsval) (message : string) : jsval :=
  JObj [("error", JObj [("id", id); ("message", JStr message)])].

(** [APIServer.sendValidResponse(res, data)]; [data] is [undefined] when
    the caller passes none. *)
Definition sendValidResponse (r : res) (data : jsval) : res :=
  Res (sent r ++ [Response 200 (valid_body data)]).

(** [APIServer.sendErrorResponse(res, id, message)] *)
Definition sendErrorResponse (r : res) (id : jsval) (message : string) : res :=
  Res (sent r ++ [Response 400 (error_body id message)]).

(** The server object: its port, the operations registered with [on], and
    whether it is listening. *)
Record t : Type := Server {
  port : Z;
  routes : list string;
  listening : bool
}.

(** [new APIServer(port)] *)
Definition create (p : Z) : t := Server p [] false.

(** [apiServer.on(name, handler)] *)
Definition on (name : string) (a : t) : t :=
  Server (port a) (routes a ++ [name]) (listening a).

(** [apiServer.getUrl()] *)
Definition getUrl (a : t) : string := "http://localhost:" +:+ pretty (port a).

(** [apiServer.startListening()] *)
Definition startListening (a : t) : t := Server (port a) (routes a) true.

(** [apiServer.kill()] *)
Definition kill (a : t) : t := Server (port a) (routes a) false.

(** The error id of a response, when it is an error response. *)
Definition error_id (r : response) : option jsval :=
  match body r with
  | JObj [("error", JObj [("id", id); ("message", _)])] => Some id
  | _ => None
  end.

(** The payload of a response, when it is a success response. *)
Definition data_of (r : response) : option jsval :=
  match body r with
  | JObj [("data", d)] => Some d
  | _ => None
  end.

Definition is_error (r : response) : bool := bool_decide (status r = 400%Z).

(** What a handler answered: the last response sent on the [res] it
    resolved with. *)
Definition answer {E} (o : outcome E res) : option response :=
  match o with
  | Resolved r => last (sent r)
  | _ => None
  end.

Definition error_of {E} (o : outcome E res) : option jsval := answer o ≫= error_id.

Definition data_in {E} (o : outcome E res) : option jsval := answer o ≫= data_of.

(** [r'] is [r] with one more response sent. *)
Definition one_more (r r' : res) : Prop := exists resp, sent r' = sent r ++ [resp].

(** A handler that, when it resolves, has sent exactly one response on the
    [res] it was given. *)
Definition answers {E S} (r : res) (m : Promise E S res) : Prop :=
  forall s r', (m s).1 = Resolved r' -> one_more r r'.

End APIServer.

Import APIServer.

(** * Properties *)

Lemma sendValidResponse_sent r d :
  sent (sendValidResponse r d) = sent r ++ [Response 200 (valid_body d)].
Proof. reflexivity. Qed.

Lemma sendErrorResponse_sent r id m :
  sent (sendErrorResponse r id m) = sent r ++ [Response 400 (error_body id m)].
Proof. reflexivity. Qed.

Lemma error_id_error_body st id m : error_id (Response st (error_body id m)) = Some id.
Proof. reflexivity. Qed.

Lemma data_of_valid_body st d : data_of (Response st (valid_body d)) = Some d.
Proof. reflexivity. Qed.

(** An error envelope is never a success envelope. *)
Lemma error_body_not_valid id m d : error_body id m <> valid_body d.
Proof. done. Qed.

(** On the same response object, an error response and a success response
    differ. *)
Lemma sendErrorResponse_ne_valid r id m d :
  sendErrorResponse r id m <> sendValidResponse r d.
Proof. unfold sendErrorResponse, sendValidResponse. intros [= Heq%app_inv_head]. done. Qed.

(** Each send adds exactly one response. *)
Lemma sendValidResponse_length r d :
  length (sent (sendValidResponse r d)) = S (length (sent r)).
Proof. simpl. rewrite length_app. simpl. lia. Qed.

Lemma sendErrorResponse_length r id m :
  length (sent (sendErrorResponse r id m)) = S (length (sent r)).
Proof. simpl. rewrite length_app. simpl. lia. Qed.

Lemma kill_startListening a : kill (startListening a) = kill a.
Proof. reflexivity. Qed.

Lemma getUrl_default : getUrl (create 8090) = "http://localhost:8090".
Proof. by vm_compute. Qed.

#[export] Hint Rewrite sendValidResponse_sent sendErrorResponse_sent : promise_rw.

Lemma error_of_sendErrorResponse {E} r id message :
  error_of (E:=E) (Resolved (sendErrorResponse r id message)) = Some id.
Proof. unfold error_of, answer. simpl. by rewrite last_snoc. Qed.

Lemma data_in_sendValidResponse {E} r d :
  data_in (E:=E) (Resolved (sendValidResponse r d)) = Some d.
Proof. unfold data_in, answer. simpl. by rewrite last_snoc. Qed.

Lemma data_in_sendErrorResponse {E} r id message :
  data_in (E:=E) (Resolved (sendErrorResponse r id message)) = None.
Proof. unfold data_in, answer. simpl. by rewrite last_snoc. Qed.

Lemma error_of_sendValidResponse {E} r d :
  error_of (E:=E) (Resolved (sendValidResponse r d)) = None.
Proof. unfold error_of, answer. simpl. by rewrite last_snoc. Qed.

(** ** One response per request *)

Section answers.
Context {E S : Type}.
Implicit Types (r : res) (m : Promise E S res).

Lemma one_more_valid r d : one_more r (sendValidResponse r d).
Proof. by eexists. Qed.

Lemma one_more_error r id message : one_more r (sendErrorResponse r id message).
Proof. by eexists. Qed.

Lemma answers_resolve r r' : one_more r r' -> answers (E:=E) (S:=S) r (resolve r').
Proof. by intros Hr s r'' [= <-]. Qed.

Lemma answers_reject r (e : E) : answers (S:=S) r (reject e).
Proof. by intros s r'. Qed.

Lemma answers_then {A} r (m : Promise E S A) (k : A -> Promise E S res) :
  (forall a, answers r (k a)) -> answers r (then_ m k).
Proof.
  intros Hk s r'. unfold then_. destruct (m s) as [[a|e|] s1]; [apply Hk | done | done].
Qed.

Lemma answers_catch r m (h : E -> Promise E S res) :
  answers r m -> (forall e, answers r (h e)) -> answers r (catch_ m h).
Proof.
  intros Hm Hh s r'. specialize (Hm s r'). unfold catch_.
  destruct (m s) as [[a|e|] s1]; [done | apply Hh | done].
Qed.

End answers.

#[export] Hint Resolve one_more_valid one_more_error answers_resolve answers_reject : wpts.
