(* ===== verification/Driver.v ===== *)
(** * The browser-automation capability

    The WebDriver session ([driver] in [src/src/index.js]) is an external
    collaborator.  This file states it as an interface, the class [Driver]:
    navigation, script execution in the page, quitting, the clock and the
    passing of time, with the laws the orchestrator relies on
    ([DriverLaws]).  [wait] is the polling primitive of the driver library
    ([driver.wait(condition, timeout)]), written over that interface: the
    orchestrator's theorems about polling are proved against the laws, and
    [Browser.v] gives an implementation that satisfies them.

    The page side is the harness contract of the specification (section 6):
    the object [window.PUSH_TESTING_SERVICE] and its fields.  A script is a
    computation over the [window]. *)

From stdpp Require Import base option list strings gmap pretty.
From S2P Require Import Prelude JsValue.

Local Open Scope N_scope.
Local Open Scope promise_scope.

(** [window.PUSH_TESTING_SERVICE], as the harness exposes it. *)
Record harness : Type := Harness {
  loaded : bool;
  started : bool;                  (* [start()] has been called *)
  swRegistered : jsval;            (* [undefined] until registration settles *)
  subscription : jsval;            (* [undefined] until subscribing settles *)
  receivedMessages : list string
}.

(** The page's global object: the harness object is [undefined] ([None])
    until the harness script has run. *)
Record window : Type := Window {
  PUSH_TESTING_SERVICE : option harness
}.

(** A script run in the page: it reads and writes the [window], and
    returns a value or throws. *)
Definition script : Type := Promise jsval window jsval.

(** What the orchestrator needs of a session of type [D]. *)
Class Driver (D : Type) : Type := {
  (** [driver.get(url)] *)
  drv_get : string -> Promise jsval D unit;
  (** [driver.executeScript(f)] *)
  drv_executeScript : script -> Promise jsval D jsval;
  (** closing the session ([killWebDriver]) *)
  drv_quit : Promise jsval D unit;
  (** [Date.now()], in milliseconds, as this session's time line has it *)
  drv_now : D -> N;
  (** [n] milliseconds pass *)
  drv_sleep : N -> D -> D;
  (** the session has been closed *)
  drv_closed : D -> bool
}.

(** The laws of a session. *)
Class DriverLaws (D : Type) `{Driver D} : Prop := {
  (** commands settle: only a polling loop can stay pending *)
  drv_get_settles : forall u d, (drv_get u d).1 <> Pending;
  drv_executeScript_settles : forall f d, (drv_executeScript f d).1 <> Pending;
  drv_quit_settles : forall d, (drv_quit d).1 <> Pending;
  (** time does not go back *)
  drv_get_clock : forall u d, drv_now d <= drv_now (drv_get u d).2;
  drv_executeScript_clock : forall f d, drv_now d <= drv_now (drv_executeScript f d).2;
  drv_sleep_clock : forall n d, drv_now (drv_sleep n d) = drv_now d + n;
  (** closing is idempotent: a second close is a no-op, never an error *)
  drv_quit_closed : forall d, drv_closed (drv_quit d).2 = true;
  drv_quit_idempotent : forall d,
    drv_closed d = true -> drv_quit d = (Resolved tt, d);
  (** sleeping and failing commands do not reopen or close a session *)
  drv_sleep_closed : forall n d, drv_closed (drv_sleep n d) = drv_closed d
}.

(** The error [driver.wait] rejects with when its timeout expires. *)
Definition TimeoutError (elapsed : N) : jsval :=
  JObj [("name", JStr "TimeoutError");
        ("message", JStr ("Wait timed out after " +:+ pretty elapsed +:+ "ms"))].

Section wait.
Context {D : Type} `{Driver D}.

(** [setTimeout(resolve, n)] awaited: [n] milliseconds pass. *)
Definition sleep (n : N) : Promise jsval D unit := modify (drv_sleep n).

(** The polling loop of [driver.wait(condition, timeout)]: evaluate the
    condition; a truthy value resolves the wait; otherwise, when a timeout
    is given ([timeout <> 0]) and at least that much time has passed since
    the wait began, reject with [TimeoutError]; otherwise poll again.  A
    rejection of the condition rejects the wait.  [timeout = 0] waits for
    ever, which the model cuts off with [Pending] when [fuel] polls are
    spent. *)
Fixpoint wait_loop (fuel : nat) (cond : Promise jsval D jsval)
    (timeout start : N) : Promise jsval D jsval :=
  match fuel with
  | O => pending
  | S fuel' =>
      v <- cond ;;
      if truthy v then resolve v
      else
        d <- get_state ;;
        let elapsed := drv_now d - start in
        if negb (timeout =? 0) && (timeout <=? elapsed)
        then reject (TimeoutError elapsed)
        else wait_loop fuel' cond timeout start
  end.

Definition wait (fuel : nat) (cond : Promise jsval D jsval) (timeout : N) :
    Promise jsval D jsval :=
  d <- get_state ;; wait_loop fuel cond timeout (drv_now d).

(** A condition costs at least [c] milliseconds each time it is false, it
    settles, and it never moves the clock back. *)
Definition cond_costs (cond : Promise jsval D jsval) (c : N) : Prop :=
  forall d,
    match cond d with
    | (Resolved v, d') => truthy v = false -> drv_now d + c <= drv_now d'
    | (Rejected _, _) => True
    | (Pending, _) => False
    end.

(** A condition that is false in every state reachable by evaluating it. *)
Definition cond_never (cond : Promise jsval D jsval) (I : D -> Prop) : Prop :=
  forall d, I d -> exists v d', cond d = (Resolved v, d') /\ truthy v = false /\ I d'.

End wait.

(** * Properties of [wait] *)

Section wait_facts.
Context {D : Type} `{Driver D}.
Implicit Types (cond : Promise jsval D jsval) (d : D).

(** One poll of the loop, as an equation. *)
Lemma wait_loop_unfold fuel cond timeout start d :
  wait_loop (S fuel) cond timeout start d =
  match cond d with
  | (Resolved v, d1) =>
      if truthy v then (Resolved v, d1)
      else if negb (timeout =? 0) && (timeout <=? drv_now d1 - start)
           then (Rejected (TimeoutError (drv_now d1 - start)), d1)
           else wait_loop fuel cond timeout start d1
  | (Rejected e, d1) => (Rejected e, d1)
  | (Pending, d1) => (Pending, d1)
  end.
Proof.
  simpl. unfold then_ at 1. destruct (cond d) as [[v|e|] d1]; try done.
  destruct (truthy v); [done|]. unfold then_, get_state. by case_match.
Qed.

Lemma wait_unfold fuel cond timeout d :
  wait fuel cond timeout d = wait_loop fuel cond timeout (drv_now d) d.
Proof. reflexivity. Qed.

Lemma wait_loop_resolved_truthy fuel cond timeout start d v d' :
  wait_loop fuel cond timeout start d = (Resolved v, d') -> truthy v = true.
Proof.
  revert d. induction fuel as [|fuel IH]; intros d; [done|].
  rewrite wait_loop_unfold. destruct (cond d) as [[w|e|] d1]; try done.
  destruct (truthy w) eqn:Hw; [by intros [= <- <-]|].
  case_match; [done | apply IH].
Qed.

(** [wait] resolves only with a truthy value of its condition. *)
Lemma wait_resolved_truthy fuel cond timeout d v d' :
  wait fuel cond timeout d = (Resolved v, d') -> truthy v = true.
Proof. rewrite wait_unfold. apply wait_loop_resolved_truthy. Qed.

(** More fuel does not change a settled result. *)
Lemma wait_loop_fuel_mono fuel fuel' cond timeout start d :
  (fuel <= fuel')%nat ->
  (wait_loop fuel cond timeout start d).1 <> Pending ->
  wait_loop fuel' cond timeout start d = wait_loop fuel cond timeout start d.
Proof.
  revert fuel' d. induction fuel as [|fuel IH]; intros fuel' d Hle; [done|].
  destruct fuel' as [|fuel']; [lia|]. rewrite !wait_loop_unfold.
  destruct (cond d) as [[w|e|] d1]; try done.
  destruct (truthy w); [done|]. case_match; [done|]. apply IH. lia.
Qed.

Lemma wait_fuel_mono fuel fuel' cond timeout d :
  (fuel <= fuel')%nat ->
  (wait fuel cond timeout d).1 <> Pending ->
  wait fuel' cond timeout d = wait fuel cond timeout d.
Proof. rewrite !wait_unfold. apply wait_loop_fuel_mono. Qed.

Lemma wait_loop_bounded fuel cond timeout start c d :
  cond_costs cond c ->
  timeout <> 0 -> start <= drv_now d ->
  (1 <= fuel)%nat -> timeout <= (drv_now d - start) + N.of_nat fuel * c ->
  (wait_loop fuel cond timeout start d).1 <> Pending.
Proof.
  intros Hc Ht. revert d.
  induction fuel as [|fuel IH]; intros d Hstart Hfuel Hbound; [lia|].
  rewrite wait_loop_unfold. pose proof (Hc d) as Hd.
  destruct (cond d) as [[w|e|] d1]; [|done|done].
  destruct (truthy w); [done|]. specialize (Hd eq_refl).
  destruct (negb (timeout =? 0) && (timeout <=? drv_now d1 - start)) eqn:Hto; [done|].
  apply andb_false_iff in Hto as [Hto|Hto].
  { apply negb_false_iff, N.eqb_eq in Hto. done. }
  apply N.leb_gt in Hto. apply IH; lia.
Qed.

(** Termination of a bounded wait: when each false evaluation of the
    condition takes at least [c] milliseconds, [timeout / c + 1] polls
    settle the wait. *)
Lemma wait_bounded_settles fuel cond timeout c d :
  cond_costs cond c -> timeout <> 0 -> c <> 0 ->
  (N.to_nat (timeout / c) + 1 <= fuel)%nat ->
  (wait fuel cond timeout d).1 <> Pending.
Proof.
  intros Hc Ht Hc0 Hfuel. rewrite wait_unfold.
  assert (timeout < (timeout / c + 1) * c) as Hq.
  { rewrite N.mul_comm, N.add_1_r. by apply N.mul_succ_div_gt. }
  revert Hfuel Hq. generalize (timeout / c). intros q Hfuel Hq.
  apply (wait_loop_bounded _ _ _ _ c); [done | done | lia | lia |].
  rewrite N.sub_diag, N.add_0_l.
  trans ((q + 1) * c); [lia | apply N.mul_le_mono_r; lia].
Qed.

Lemma wait_loop_timeout_elapsed fuel cond timeout start d e d' :
  (forall d0 e0 d1, cond d0 <> (Rejected e0, d1)) ->
  wait_loop fuel cond timeout start d = (Rejected e, d') ->
  timeout <> 0 /\ timeout <= drv_now d' - start /\ e = TimeoutError (drv_now d' - start).
Proof.
  intros Hnr. revert d. induction fuel as [|fuel IH]; intros d; [done|].
  rewrite wait_loop_unfold. destruct (cond d) as [[w|e0|] d1] eqn:Hcd; try done.
  - destruct (truthy w); [done|].
    destruct (negb (timeout =? 0) && (timeout <=? drv_now d1 - start)) eqn:Hto; [|apply IH].
    intros [= <- <-]. apply andb_true_iff in Hto as [H1 H2].
    apply negb_true_iff, N.eqb_neq in H1. apply N.leb_le in H2. done.
  - by destruct (Hnr d e0 d1).
Qed.

(** A wait whose condition does not reject only rejects by timing out, and
    then at least [timeout] milliseconds have passed since it began. *)
Lemma wait_timeout_elapsed fuel cond timeout d e d' :
  (forall d0 e0 d1, cond d0 <> (Rejected e0, d1)) ->
  wait fuel cond timeout d = (Rejected e, d') ->
  timeout <> 0 /\ drv_now d + timeout <= drv_now d' /\
  e = TimeoutError (drv_now d' - drv_now d).
Proof.
  intros Hnr. rewrite wait_unfold. intros Hw.
  apply wait_loop_timeout_elapsed in Hw as (? & ? & ?); [|done].
  split_and!; [done | lia | done].
Qed.

Lemma wait_loop_never fuel cond (I : D -> Prop) start d :
  cond_never cond I -> I d ->
  exists d', wait_loop fuel cond 0 start d = (Pending, d') /\ I d'.
Proof.
  intros Hn. revert d. induction fuel as [|fuel IH]; intros d Hd; [by eexists|].
  destruct (Hn d Hd) as (v & d1 & Hc & Hv & Hd1).
  rewrite wait_loop_unfold, Hc, Hv. simpl. by apply IH.
Qed.

(** A wait without timeout whose condition never becomes true stays
    pending, whatever the fuel. *)
Lemma wait_no_timeout_pending fuel cond (I : D -> Prop) d :
  cond_never cond I -> I d -> (wait fuel cond 0 d).1 = Pending.
Proof.
  intros Hn Hd. rewrite wait_unfold.
  by destruct (wait_loop_never fuel cond I (drv_now d) d Hn Hd) as (d' & -> & _).
Qed.

Lemma wait_loop_times_out fuel cond timeout start c (I : D -> Prop) d :
  timeout <> 0 ->
  (forall d, I d -> drv_now d - start < timeout ->
     exists v d', cond d = (Resolved v, d') /\ truthy v = false /\
       drv_now d + c <= drv_now d' /\ I d') ->
  I d -> start <= drv_now d -> drv_now d - start < timeout ->
  timeout <= (drv_now d - start) + N.of_nat fuel * c ->
  exists d', wait_loop fuel cond timeout start d =
      (Rejected (TimeoutError (drv_now d' - start)), d') /\
    timeout <= drv_now d' - start /\ I d'.
Proof.
  intros Ht Hstep. revert d.
  induction fuel as [|fuel IH]; intros d Hd Hstart Hel Hfuel; [lia|].
  destruct (Hstep d Hd Hel) as (v & d1 & Hc & Hv & Hcost & Hd1).
  rewrite wait_loop_unfold, Hc, Hv.
  destruct (negb (timeout =? 0) && (timeout <=? drv_now d1 - start)) eqn:Hto.
  - exists d1. apply andb_true_iff in Hto as [_ Hto%N.leb_le]. done.
  - apply andb_false_iff in Hto as [Hto|Hto%N.leb_gt].
    { by apply negb_false_iff, N.eqb_eq in Hto. }
    apply IH; [done | lia | done | lia].
Qed.

(** A bounded wait whose condition stays false until the timeout has
    passed rejects with [TimeoutError], and not before [timeout]
    milliseconds have passed. *)
Lemma wait_times_out fuel cond timeout c (I : D -> Prop) d :
  timeout <> 0 ->
  (forall d', I d' -> drv_now d' - drv_now d < timeout ->
     exists v d'', cond d' = (Resolved v, d'') /\ truthy v = false /\
       drv_now d' + c <= drv_now d'' /\ I d'') ->
  I d -> timeout <= N.of_nat fuel * c ->
  exists d', wait fuel cond timeout d =
      (Rejected (TimeoutError (drv_now d' - drv_now d)), d') /\
    timeout <= drv_now d' - drv_now d /\ I d'.
Proof.
  intros Ht Hstep Hd Hfuel. rewrite wait_unfold.
  apply (wait_loop_times_out _ _ _ _ c I); [done | done | done | lia | lia | lia].
Qed.

(** A wait without timeout resolves when its condition becomes true at
    some time [T] and every evaluation of it takes time: [T] polls are
    enough.  [I] is an invariant of the evaluations. *)
Lemma wait_loop_eventually fuel cond start (I : D -> Prop) (T : N) d :
  (forall d, I d ->
     exists v d', cond d = (Resolved v, d') /\ I d' /\ drv_now d < drv_now d' /\
       (truthy v = true <-> T <= drv_now d')) ->
  I d -> (N.to_nat (T - drv_now d) <= fuel)%nat -> (0 < fuel)%nat ->
  exists v d', wait_loop fuel cond 0 start d = (Resolved v, d') /\ I d' /\ T <= drv_now d'.
Proof.
  intros Hstep. revert d.
  induction fuel as [|fuel IH]; intros d Hd Hfuel Hpos; [lia|].
  destruct (Hstep d Hd) as (v & d1 & Hc & Hd1 & Hlt & Hv).
  rewrite wait_loop_unfold, Hc. destruct (truthy v) eqn:Htr.
  - exists v, d1. split_and!; [done | done | by apply Hv].
  - simpl. assert (drv_now d1 < T) by (apply N.lt_nge; intros ?%Hv; congruence).
    apply IH; [done | lia | lia].
Qed.

Lemma wait_eventually fuel cond (I : D -> Prop) (T : N) d :
  (forall d, I d ->
     exists v d', cond d = (Resolved v, d') /\ I d' /\ drv_now d < drv_now d' /\
       (truthy v = true <-> T <= drv_now d')) ->
  I d -> (N.to_nat (T - drv_now d) < fuel)%nat ->
  exists v d', wait fuel cond 0 d = (Resolved v, d') /\ I d' /\ T <= drv_now d'.
Proof.
  intros Hstep Hd Hfuel. rewrite wait_unfold.
  apply (wait_loop_eventually _ _ _ I); [done | done | lia | lia].
Qed.

(** What every evaluation of the condition keeps, the wait keeps. *)
Lemma wait_loop_preserves fuel cond timeout start (I : D -> Prop) :
  preserves I cond -> preserves I (wait_loop fuel cond timeout start).
Proof.
  intros Hc. induction fuel as [|fuel IH]; [by intros d Hd|]. cbn [wait_loop].
  apply preserves_then; [done|]. intros v. destruct (truthy v); [auto with wpts|].
  apply preserves_then; [auto with wpts|]. intros d. case_match; auto with wpts.
Qed.

Lemma wait_preserves fuel cond timeout (I : D -> Prop) :
  preserves I cond -> preserves I (wait fuel cond timeout).
Proof.
  intros Hc. apply preserves_then; [auto with wpts|]. intros d.
  by apply wait_loop_preserves.
Qed.

(** A wait whose condition holds at once resolves with its value, leaving
    the state the one evaluation left. *)
Lemma wait_first_true fuel cond timeout d v d' :
  cond d = (Resolved v, d') -> truthy v = true ->
  wait (S fuel) cond timeout d = (Resolved v, d').
Proof. intros Hc Hv. by rewrite wait_unfold, wait_loop_unfold, Hc, Hv. Qed.

End wait_facts.
