(* ===== verification/Browser.v ===== *)
(** * A browser session: an implementation of the driver interface

    The browser, the page and the push service are outside the repository.
    This file gives them a deterministic model, so that the orchestrator
    can be run on concrete scenarios and its theorems quantify over every
    behaviour of the model: a [harnessEnv] fixes in advance what the world
    will do (how long the harness takes to load, what the service-worker
    registration and the subscription yield and when, which push messages
    arrive and when, when the session breaks), and a [session] is the
    state of one driven browser on its own time line.  The page follows the
    harness contract of the specification (section 6). *)

From stdpp Require Import base option list strings gmap pretty.
From S2P Require Import Prelude JsValue Driver.

Local Open Scope N_scope.

(** What the world does to one session. *)
Record harnessEnv : Type := HarnessEnv {
  latency : N;                       (* milliseconds one command takes *)
  navigateError : option string;     (* [driver.get] fails with this message *)
  loadDelay : option N;              (* navigation to harness loaded; [None]: never *)
  swResult : option (N * jsval);     (* [start()] to [swRegistered] set, and its value *)
  subResult : option (N * jsval);    (* [swRegistered] set to [subscription] set, and its value *)
  arrivals : list (N * string);      (* push messages: arrival time and payload *)
  disconnectAt : option N;           (* from then on every command fails *)
  quitError : option string          (* closing the browser fails with this message *)
}.

Record session : Type := Session {
  env : harnessEnv;
  clock : N;
  closed : bool;
  navigatedAt : option N;
  startedAt : option N;
  inbox : list (N * string);         (* messages still to arrive *)
  buffer : list string;              (* the page's [receivedMessages] *)
  location : string
}.

(** A session just launched. *)
Definition new_session (e : harnessEnv) : session :=
  Session e 0 false None None (arrivals e) [] "".

Definition disconnected (s : session) : bool :=
  match disconnectAt (env s) with
  | Some t => t <=? clock s
  | None => false
  end.

(** The value of [swRegistered] at the session's time. *)
Definition sw_now (s : session) : jsval :=
  match startedAt s, swResult (env s) with
  | Some t1, Some (d, v) => if t1 + d <=? clock s then v else JUndefined
  | _, _ => JUndefined
  end.

(** The value of [subscription] at the session's time. *)
Definition sub_now (s : session) : jsval :=
  match startedAt s, swResult (env s), subResult (env s) with
  | Some t1, Some (d, _), Some (d2, v) =>
      if t1 + d + d2 <=? clock s then v else JUndefined
  | _, _, _ => JUndefined
  end.

Definition harness_loaded (s : session) : bool :=
  match navigatedAt s, loadDelay (env s) with
  | Some t0, Some d => t0 + d <=? clock s
  | _, _ => false
  end.

(** The harness object of a page that has loaded. *)
Definition harness_of (s : session) : harness :=
  Harness true (bool_decide (is_Some (startedAt s))) (sw_now s) (sub_now s) (buffer s).

(** The page as a script sees it. *)
Definition window_of (s : session) : window :=
  if harness_loaded s then Window (Some (harness_of s)) else Window None.

(** Messages that have arrived by the session's time join the buffer, in
    the order of the inbox. *)
Definition deliver (s : session) : session :=
  let due := filter (fun m => m.1 <= clock s) (inbox s) in
  let rest := filter (fun m => ¬ (m.1 <= clock s)) (inbox s) in
  Session (env s) (clock s) (closed s) (navigatedAt s) (startedAt s)
    rest (buffer s ++ due.*2) (location s).

Definition tick (n : N) (s : session) : session :=
  Session (env s) (clock s + n) (closed s) (navigatedAt s) (startedAt s)
    (inbox s) (buffer s) (location s).

(** What a script left in the [window] is written back: a call of
    [start()] is dated, the message buffer is replaced. *)
Definition write_back (w : window) (s : session) : session :=
  match PUSH_TESTING_SERVICE w with
  | Some h =>
      Session (env s) (clock s) (closed s) (navigatedAt s)
        (match startedAt s with
         | Some t => Some t
         | None => if started h then Some (clock s) else None
         end)
        (inbox s) (receivedMessages h) (location s)
  | None => s
  end.

Definition session_gone : jsval := mkError "no such session".

(** A command reaches the browser after [latency]: it fails when the
    session is closed or disconnected by then. *)
Definition command {A} (body : session -> outcome jsval A * session) :
    Promise jsval session A :=
  fun s =>
    let s1 := deliver (tick (latency (env s)) s) in
    if closed s1 || disconnected s1 then (Rejected session_gone, s1)
    else body s1.

Definition session_get (url : string) : Promise jsval session unit :=
  command (fun s =>
    match navigateError (env s) with
    | Some m => (Rejected (mkError m), s)
    | None =>
        (Resolved tt,
         Session (env s) (clock s) (closed s) (Some (clock s)) None
           (inbox s) [] url)
    end).

(** A script that does not return is cut off by the driver's script
    timeout. *)
Definition script_timeout : jsval := mkError "script timeout".

Definition script_outcome (o : outcome jsval jsval) : outcome jsval jsval :=
  match o with
  | Pending => Rejected script_timeout
  | _ => o
  end.

Definition session_executeScript (f : script) : Promise jsval session jsval :=
  command (fun s =>
    let '(o, w) := f (window_of s) in (script_outcome o, write_back w s)).

Definition session_quit : Promise jsval session unit :=
  fun s =>
    if closed s then (Resolved tt, s)
    else
      let s' := Session (env s) (clock s) true (navigatedAt s) (startedAt s)
                  (inbox s) (buffer s) (location s) in
      match quitError (env s) with
      | Some m => (Rejected (mkError m), s')
      | None => (Resolved tt, s')
      end.

#[export] Instance session_driver : Driver session := {
  drv_get := session_get;
  drv_executeScript := session_executeScript;
  drv_quit := session_quit;
  drv_now := clock;
  drv_sleep := tick;
  drv_closed := closed
}.

(** A session that answers commands: open, never disconnected, and with
    the harness loaded. *)
Definition responsive (s : session) : Prop :=
  closed s = false /\ disconnectAt (env s) = None /\ harness_loaded s = true.

(** A session on a page: behaving as [e], open, navigated at [nav], the
    harness started at [st] (if it has been). *)
Definition page (e : harnessEnv) (nav : N) (st : option N) (s : session) : Prop :=
  env s = e /\ closed s = false /\ navigatedAt s = Some nav /\ startedAt s = st.

(** The buffer with a replaced content. *)
Definition with_buffer (b : list string) (s : session) : session :=
  Session (env s) (clock s) (closed s) (navigatedAt s) (startedAt s) (inbox s) b (location s).

(** The messages of a session that no script has read yet: those in the
    page's buffer and those still to arrive. *)
Definition payloads (s : session) : list string := buffer s ++ (inbox s).*2.

(** The state in which a command finds the session. *)
Definition arrive (s : session) : session := deliver (tick (latency (env s)) s).

(** * Properties *)

Lemma deliver_clock s : clock (deliver s) = clock s.
Proof. reflexivity. Qed.

Lemma write_back_clock w s : clock (write_back w s) = clock s.
Proof. unfold write_back. by destruct (PUSH_TESTING_SERVICE w). Qed.

Lemma write_back_closed w s : closed (write_back w s) = closed s.
Proof. unfold write_back. by destruct (PUSH_TESTING_SERVICE w). Qed.

Lemma write_back_env w s : env (write_back w s) = env s.
Proof. unfold write_back. by destruct (PUSH_TESTING_SERVICE w). Qed.

(** Delivery neither loses nor duplicates a message: buffer and inbox
    together hold the same payloads, and what stays in the inbox is not
    yet due. *)
Lemma deliver_conserves s :
  (length (buffer (deliver s)) + length (inbox (deliver s)) =
   length (buffer s) + length (inbox s))%nat.
Proof.
  unfold deliver. simpl.
  rewrite length_app, length_fmap, <- Nat.add_assoc, <- length_app.
  by rewrite filter_app_complement.
Qed.

Lemma deliver_inbox_future s m : m ∈ inbox (deliver s) -> clock s < m.1.
Proof. unfold deliver. simpl. rewrite list_elem_of_filter. lia. Qed.

Lemma deliver_idempotent s : deliver (deliver s) = deliver s.
Proof.
  unfold deliver. simpl. f_equal.
  - rewrite list_filter_filter. apply list_filter_iff. intros [t m]. simpl. tauto.
  - by rewrite filter_filter_complement, app_nil_r.
Qed.

Lemma command_clock {A} (body : session -> outcome jsval A * session) s :
  (forall s1, clock s1 <= clock (body s1).2) ->
  clock s <= clock (command body s).2.
Proof.
  intros Hb. unfold command. case_match; simpl; [lia|].
  etrans; [|apply Hb]. simpl. lia.
Qed.

#[export] Instance session_laws : DriverLaws session.
Proof.
  split; simpl.
  - intros u s. unfold session_get, command.
    repeat case_match; simpl; done.
  - intros f s. unfold session_executeScript, command.
    case_match; simpl; [done|]. destruct (f _) as [[?|?|] w]; done.
  - intros s. unfold session_quit. repeat case_match; done.
  - intros u s. apply command_clock. intros s1. by repeat case_match.
  - intros f s. apply command_clock. intros s1. destruct (f _) as [o w].
    simpl. by rewrite write_back_clock.
  - done.
  - intros s. unfold session_quit. by repeat case_match.
  - intros s Hc. unfold session_quit. by rewrite Hc.
  - done.
Qed.

(** ** Responsive sessions *)

Lemma harness_loaded_mono s s' :
  env s' = env s -> navigatedAt s' = navigatedAt s -> clock s <= clock s' ->
  harness_loaded s = true -> harness_loaded s' = true.
Proof.
  unfold harness_loaded. intros -> -> Hc.
  destruct (navigatedAt s), (loadDelay (env s)); try done.
  rewrite !N.leb_le. lia.
Qed.

Lemma arrive_responsive s : responsive s -> responsive (arrive s).
Proof.
  intros (Hc & Hd & Hl). split_and!; [done | done |].
  eapply harness_loaded_mono; [| | |exact Hl]; simpl; [done | done | lia].
Qed.

Lemma tick_responsive n s : responsive s -> responsive (tick n s).
Proof.
  intros (Hc & Hd & Hl). split_and!; [done | done |].
  eapply harness_loaded_mono; [| | |exact Hl]; simpl; [done | done | lia].
Qed.

Lemma arrive_clock s : clock (arrive s) = clock s + latency (env s).
Proof. reflexivity. Qed.

Lemma arrive_env s : env (arrive s) = env s.
Proof. reflexivity. Qed.

(** A command on an open, connected session reaches the browser. *)
Lemma command_open {A} (body : session -> outcome jsval A * session) s :
  closed s = false -> disconnectAt (env s) = None -> command body s = body (arrive s).
Proof.
  intros Hc Hd. unfold command. fold (arrive s). unfold disconnected.
  change (closed (arrive s)) with (closed s). by rewrite arrive_env, Hd, Hc.
Qed.

Lemma command_responsive {A} (body : session -> outcome jsval A * session) s :
  responsive s -> command body s = body (arrive s).
Proof. intros (Hc & Hd & _). by apply command_open. Qed.

(** Writing back a page no script changed changes nothing. *)
Lemma write_back_window_of s : write_back (window_of s) s = s.
Proof.
  unfold window_of, write_back. destruct (harness_loaded s); simpl; [|done].
  destruct s as [e c cl nav [t|] ib b loc]; simpl; done.
Qed.

Lemma window_of_loaded s :
  harness_loaded s = true -> window_of s = Window (Some (harness_of s)).
Proof. intros Hl. unfold window_of. by rewrite Hl. Qed.

(** A script that reads the page without changing it leaves the session as
    the command found it. *)
Lemma session_executeScript_open f s v :
  closed s = false -> disconnectAt (env s) = None ->
  f (window_of (arrive s)) = (Resolved v, window_of (arrive s)) ->
  session_executeScript f s = (Resolved v, arrive s).
Proof.
  intros Hc Hd Hf. unfold session_executeScript. rewrite command_open by done.
  by rewrite Hf, write_back_window_of.
Qed.

Lemma session_executeScript_read f s v :
  responsive s -> f (window_of (arrive s)) = (Resolved v, window_of (arrive s)) ->
  session_executeScript f s = (Resolved v, arrive s).
Proof. intros (Hc & Hd & _). by apply session_executeScript_open. Qed.

(** Nothing is delivered while every message in the inbox is still to
    come. *)
Lemma deliver_none s :
  (forall m, m ∈ inbox s -> clock s < m.1) -> deliver s = s.
Proof.
  intros Hin. unfold deliver.
  rewrite (proj2 (filter_nil_iff_Forall (fun m => m.1 <= clock s) (inbox s))).
  - simpl. rewrite app_nil_r, filter_all; [by destruct s|].
    apply Forall_forall. intros m Hm%Hin. lia.
  - apply Forall_forall. intros m Hm%Hin. lia.
Qed.

(** Delivery keeps the payloads: buffer and inbox together hold the same
    messages before and after. *)
Lemma deliver_payloads s :
  buffer (deliver s) ++ (inbox (deliver s)).*2 ≡ₚ buffer s ++ (inbox s).*2.
Proof.
  unfold deliver. simpl. rewrite <- app_assoc, <- fmap_app.
  by rewrite filter_app_complement.
Qed.

(** ** Sessions on a page *)

Lemma arrive_page e nav st s : page e nav st s -> page e nav st (arrive s).
Proof. by intros (He & Hc & Hn & Hs). Qed.

Lemma page_loaded e nav st dl s :
  page e nav st s -> loadDelay e = Some dl ->
  harness_loaded s = true <-> nav + dl <= clock s.
Proof.
  intros (He & _ & Hn & _) Hl. unfold harness_loaded. rewrite Hn, He, Hl.
  apply N.leb_le.
Qed.

(** Navigation opens the page, with an empty buffer and the harness not
    started. *)
Lemma session_get_page url s :
  closed s = false -> disconnectAt (env s) = None -> navigateError (env s) = None ->
  exists s', session_get url s = (Resolved tt, s') /\
    page (env s) (clock s + latency (env s)) None s' /\
    clock s' = clock s + latency (env s).
Proof.
  intros Hc Hd Hn. unfold session_get. rewrite command_open by done.
  rewrite arrive_env, Hn. eexists. split; [done|]. by split_and!.
Qed.

(** A wait, without timeout, for a script that reads the page and becomes
    true at [T]: on a session whose commands take time, it resolves, at
    [T] or later.  [I] is what the commands keep of the session. *)
Lemma session_wait_until fuel f (g : session -> jsval) (I : session -> Prop) (T : N) s :
  (forall s', I s' ->
     closed s' = false /\ disconnectAt (env s') = None /\ 0 < latency (env s') /\
     I (arrive s')) ->
  (forall s', I s' -> f (window_of s') = (Resolved (g s'), window_of s')) ->
  (forall s', I s' -> truthy (g s') = true <-> T <= clock s') ->
  I s -> (N.to_nat (T - clock s) < fuel)%nat ->
  exists v s', wait fuel (session_executeScript f) 0 s = (Resolved v, s') /\
    I s' /\ T <= clock s'.
Proof.
  intros HI Hf Hg Hs Hfuel.
  destruct (wait_eventually (D:=session) fuel (drv_executeScript f) I T s)
    as (v & s' & Hw & Hs' & HT); [|done|done|by exists v, s'].
  intros s1 Hs1. destruct (HI s1 Hs1) as (Hc & Hd & Hl & Ha).
  exists (g (arrive s1)), (arrive s1). split_and!; [|done| |by apply Hg].
  - apply session_executeScript_open; [done | done | by apply Hf].
  - simpl. lia.
Qed.

Lemma sw_now_page e nav t1 d1 v1 s :
  page e nav (Some t1) s -> swResult e = Some (d1, v1) ->
  sw_now s = if t1 + d1 <=? clock s then v1 else JUndefined.
Proof. intros (He & _ & _ & Hs) Hsw. unfold sw_now. by rewrite Hs, He, Hsw. Qed.

Lemma sub_now_page e nav t1 d1 v1 d2 v2 s :
  page e nav (Some t1) s -> swResult e = Some (d1, v1) -> subResult e = Some (d2, v2) ->
  sub_now s = if t1 + d1 + d2 <=? clock s then v2 else JUndefined.
Proof.
  intros (He & _ & _ & Hs) Hsw Hsub. unfold sub_now. by rewrite Hs, He, Hsw, Hsub.
Qed.

(** ** Messages are neither lost nor invented *)

Lemma arrive_payloads s : payloads (arrive s) ≡ₚ payloads s.
Proof. unfold arrive, payloads. by rewrite deliver_payloads. Qed.

Lemma tick_payloads n s : payloads (tick n s) = payloads s.
Proof. reflexivity. Qed.

(** A command keeps the messages when its body does. *)
Lemma command_payloads {A} (body : session -> outcome jsval A * session) s :
  (forall s1, payloads (body s1).2 ≡ₚ payloads s1) ->
  payloads (command body s).2 ≡ₚ payloads s.
Proof.
  intros Hb. unfold command. fold (arrive s).
  destruct (closed (arrive s) || disconnected (arrive s)); simpl;
    [|rewrite Hb]; apply arrive_payloads.
Qed.

(** A script that leaves the page as it is keeps the messages. *)
Lemma session_executeScript_payloads f s :
  (forall w, (f w).2 = w) -> payloads (session_executeScript f s).2 ≡ₚ payloads s.
Proof.
  intros Hf. apply command_payloads. intros s1. specialize (Hf (window_of s1)).
  destruct (f (window_of s1)) as [o w]. simpl in *. subst w.
  by rewrite write_back_window_of.
Qed.
