(* ===== verification/Selenium.v ===== *)
(** * Browser provisioning and the session store

    [src/src/index.js] calls the [selenium-assistant] package and [del],
    which are not part of the sources: [getLocalBrowser],
    [downloadLocalBrowser], the browser object's [getId],
    [getVersionNumber], [getSeleniumOptions] and [getSeleniumDriver], and
    [killWebDriver].  They are modelled from the interface the orchestrator
    needs (specification, sections 1 and 4.4).  The [World] holds what is
    outside the orchestrator object: the sessions launched so far, by
    handle (the driver objects the program holds references to), and what
    the environment will answer to provisioning requests. *)

From stdpp Require Import base option list strings gmap pretty.
From S2P Require Import Prelude JsValue Driver.

Local Open Scope promise_scope.

(** The options object of a browser: Chromium's user preferences and
    Firefox's preferences. *)
Record seleniumOptions : Type := SeleniumOptions {
  userPreferences : jsval;
  preferences : list (string * jsval)
}.

(** [options.setUserPreferences(p)] *)
Definition setUserPreferences (p : jsval) (o : seleniumOptions) : seleniumOptions :=
  SeleniumOptions p (preferences o).

(** [options.setPreference(k, v)] *)
Definition setPreference (k : string) (v : jsval) (o : seleniumOptions) : seleniumOptions :=
  SeleniumOptions (userPreferences o) (preferences o ++ [(k, v)]).

(** The browser object [getLocalBrowser] returns. *)
Record localBrowser : Type := LocalBrowser {
  getId : string;
  getRelease : string;
  getVersionNumber : Z;
  getSeleniumOptions : seleniumOptions
}.

Definition with_options (f : seleniumOptions -> seleniumOptions) (b : localBrowser) :
    localBrowser :=
  LocalBrowser (getId b) (getRelease b) (getVersionNumber b) (f (getSeleniumOptions b)).

Section world.
Context {D : Type} `{Driver D}.

Record World : Type := MkWorld {
  sessions : gmap nat D;               (* the driver objects, by handle *)
  nextHandle : nat;
  launched : list (nat * localBrowser);(* what each session was launched with *)
  localBrowsers : list localBrowser;   (* what [getLocalBrowser] can find *)
  spawn : nat -> localBrowser -> outcome jsval D;  (* what launching yields *)
  downloadErrors : list (string * string * string);
                                       (* downloads that fail, with the message *)
  downloaded : list (string * string * Z);
                                       (* the downloads asked for *)
  tempDir : bool;                      (* [./temp] exists *)
  delError : option string             (* deleting [./temp] fails *)
}.

Definition set_sessions (f : gmap nat D -> gmap nat D) (w : World) : World :=
  MkWorld (f (sessions w)) (nextHandle w) (launched w) (localBrowsers w) (spawn w)
    (downloadErrors w) (downloaded w) (tempDir w) (delError w).

(** [seleniumAssistant.getLocalBrowser(name, release)]: the browser
    object, or nothing when there is none. *)
Definition getLocalBrowser (name release : string) (w : World) : option localBrowser :=
  snd <$> list_find (fun b => getId b = name /\ getRelease b = release) (localBrowsers w).

(** [seleniumAssistant.downloadLocalBrowser(name, release, expiration)] *)
Definition downloadLocalBrowser (name release : string) (expiration : Z) :
    Promise jsval World unit :=
  fun w =>
    let w' := MkWorld (sessions w) (nextHandle w) (launched w) (localBrowsers w)
                (spawn w) (downloadErrors w)
                (downloaded w ++ [(name, release, expiration)])
                (tempDir w) (delError w) in
    match list_find (fun e => e.1.1 = name /\ e.1.2 = release) (downloadErrors w) with
    | Some (_, (_, m)) => (Rejected (mkError m), w')
    | None => (Resolved tt, w')
    end.

(** [del('./temp')] *)
Definition del_temp : Promise jsval World unit :=
  fun w =>
    match delError w with
    | Some m => (Rejected (mkError m), w)
    | None =>
        (Resolved tt,
         MkWorld (sessions w) (nextHandle w) (launched w) (localBrowsers w) (spawn w)
           (downloadErrors w) (downloaded w) false (delError w))
    end.

(** [browser.getSeleniumDriver()]: launch a session; the result is the
    handle of the new driver object. *)
Definition getSeleniumDriver (b : localBrowser) : Promise jsval World nat :=
  fun w =>
    let h := nextHandle w in
    match spawn w h b with
    | Resolved d =>
        (Resolved h,
         MkWorld (<[h := d]> (sessions w)) (S h) (launched w ++ [(h, b)])
           (localBrowsers w) (spawn w) (downloadErrors w) (downloaded w)
           (tempDir w) (delError w))
    | Rejected e => (Rejected e, w)
    | Pending => (Pending, w)
    end.

Definition no_session : jsval := mkError "no such driver".

(** Run a driver command on the session a handle refers to. *)
Definition with_session {A} (h : nat) (m : Promise jsval D A) : Promise jsval World A :=
  fun w =>
    match sessions w !! h with
    | Some d => let '(o, d') := m d in (o, set_sessions (insert h d') w)
    | None => (Rejected no_session, w)
    end.

(** [seleniumAssistant.killWebDriver(driver)] *)
Definition killWebDriver (h : nat) : Promise jsval World unit :=
  with_session h drv_quit.

(** Time passes for every session: [n] milliseconds in which the
    orchestrator does nothing. *)
Definition idle (n : N) (w : World) : World :=
  set_sessions (fmap (drv_sleep n)) w.

(** Handles are allocated in order: every session's handle is below
    [nextHandle]. *)
Definition world_wf (w : World) : Prop :=
  forall h, is_Some (sessions w !! h) -> h < nextHandle w.

(** A command that only adds sessions and handles: it keeps the world
    well formed, forgets no session and gives back no handle. *)
Definition grows {A} (m : Promise jsval World A) : Prop :=
  forall w, world_wf w ->
    world_wf (m w).2 /\ dom (sessions w) ⊆ dom (sessions (m w).2) /\
    nextHandle w <= nextHandle (m w).2.

End world.

Arguments World D : clear implicits.

(** * Properties *)

Section world_facts.
Context {D : Type} `{Driver D}.
Implicit Types (w : World D) (h : nat).

Lemma with_session_sessions_dom {A} h (m : Promise jsval D A) w :
  dom (sessions (with_session h m w).2) = dom (sessions w).
Proof.
  unfold with_session. destruct (sessions w !! h) as [d|] eqn:Hh; [|done].
  destruct (m d) as [o d']. simpl. rewrite dom_insert_L.
  apply elem_of_dom_2 in Hh. apply subseteq_union_1_L. by apply singleton_subseteq_l.
Qed.

Lemma with_session_other {A} h h' (m : Promise jsval D A) w :
  h <> h' -> sessions (with_session h m w).2 !! h' = sessions w !! h'.
Proof.
  intros Hne. unfold with_session. destruct (sessions w !! h) as [d|]; [|done].
  destruct (m d) as [o d']. simpl. by rewrite lookup_insert_ne.
Qed.

Lemma with_session_nextHandle {A} h (m : Promise jsval D A) w :
  nextHandle (with_session h m w).2 = nextHandle w.
Proof.
  unfold with_session. destruct (sessions w !! h) as [d|]; [|done].
  by destruct (m d) as [o d'].
Qed.

Lemma with_session_lookup {A} h (m : Promise jsval D A) w d :
  sessions w !! h = Some d ->
  (with_session h m w).1 = (m d).1 /\
  sessions (with_session h m w).2 !! h = Some (m d).2.
Proof.
  intros Hh. unfold with_session. rewrite Hh. destruct (m d) as [o d']. simpl.
  by rewrite lookup_insert_eq.
Qed.

Lemma with_session_eq {A} h (m : Promise jsval D A) w d :
  sessions w !! h = Some d ->
  with_session h m w = ((m d).1, set_sessions (insert h (m d).2) w).
Proof. intros Hh. unfold with_session. rewrite Hh. by destruct (m d). Qed.

Lemma with_session_settles {A} h (m : Promise jsval D A) w :
  (forall d, (m d).1 <> Pending) -> (with_session h m w).1 <> Pending.
Proof.
  intros Hm. unfold with_session. destruct (sessions w !! h) as [d|]; [|done].
  specialize (Hm d). by destruct (m d).
Qed.

Lemma with_session_wf {A} h (m : Promise jsval D A) w :
  world_wf w -> world_wf (with_session h m w).2.
Proof.
  intros Hwf h'. rewrite with_session_nextHandle, <- !elem_of_dom,
    with_session_sessions_dom, elem_of_dom. apply Hwf.
Qed.

(** Launching gives a fresh handle, never one of a live session. *)
Lemma getSeleniumDriver_fresh b w h w' :
  world_wf w -> getSeleniumDriver b w = (Resolved h, w') ->
  sessions w !! h = None /\ is_Some (sessions w' !! h) /\ world_wf w'.
Proof.
  intros Hwf. unfold getSeleniumDriver. destruct (spawn w _ b) as [d| |]; try done.
  intros [= <- <-]. simpl. split_and!.
  - destruct (sessions w !! nextHandle w) eqn:Hl; [|done].
    assert (nextHandle w < nextHandle w) by (apply Hwf; eauto). lia.
  - rewrite lookup_insert_eq. eauto.
  - intros h. simpl. destruct (decide (nextHandle w = h)) as [<-|Hne]; [lia|].
    rewrite lookup_insert_ne by done. intros Hs. apply Hwf in Hs. lia.
Qed.

Lemma getSeleniumDriver_wf b w :
  world_wf w -> world_wf (getSeleniumDriver b w).2.
Proof.
  intros Hwf. destruct (getSeleniumDriver b w) as [[h| |] w'] eqn:Hg.
  - by eapply getSeleniumDriver_fresh.
  - unfold getSeleniumDriver in Hg. destruct (spawn w _ b); by simplify_eq.
  - unfold getSeleniumDriver in Hg. destruct (spawn w _ b); by simplify_eq.
Qed.

(** Closing through a handle leaves the session closed. *)
Lemma killWebDriver_closed `{!DriverLaws D} h w d :
  sessions w !! h = Some d ->
  exists d', sessions (killWebDriver h w).2 !! h = Some d' /\ drv_closed d' = true.
Proof.
  intros Hh. destruct (with_session_lookup h drv_quit w d Hh) as [_ Hs].
  eexists. split; [exact Hs|]. apply drv_quit_closed.
Qed.

Lemma killWebDriver_settles `{!DriverLaws D} h w : (killWebDriver h w).1 <> Pending.
Proof.
  unfold killWebDriver, with_session. destruct (sessions w !! h) as [d|]; [|done].
  pose proof (drv_quit_settles d). by destruct (drv_quit d).
Qed.

(** ** Commands that only add sessions *)

Lemma with_session_grows {A} h (m : Promise jsval D A) : grows (with_session h m).
Proof.
  intros w Hwf. split_and!; [by apply with_session_wf | |].
  - by rewrite with_session_sessions_dom.
  - by rewrite with_session_nextHandle.
Qed.

Lemma del_temp_grows : grows (D:=D) del_temp.
Proof. intros w Hwf. unfold del_temp. by destruct (delError w). Qed.

Lemma downloadLocalBrowser_grows name release expiration :
  grows (D:=D) (downloadLocalBrowser name release expiration).
Proof.
  intros w Hwf. unfold downloadLocalBrowser. by destruct (list_find _ _) as [[? [? ?]]|].
Qed.

Lemma getSeleniumDriver_grows b : grows (D:=D) (getSeleniumDriver b).
Proof.
  intros w Hwf. split; [by apply getSeleniumDriver_wf|].
  unfold getSeleniumDriver. destruct (spawn w _ b); simpl; [|done..].
  split; [|lia]. rewrite dom_insert. set_solver.
Qed.

Lemma grows_then {A B} (m : Promise jsval (World D) A) (k : A -> Promise jsval (World D) B) :
  grows m -> (forall a, grows (k a)) -> grows (then_ m k).
Proof.
  intros Hm Hk w Hwf. destruct (Hm w Hwf) as (Hwf1 & Hd1 & Hn1). unfold then_.
  destruct (m w) as [[a|e|] w1]; simpl in *; [|done..].
  destruct (Hk a w1 Hwf1) as (Hwf2 & Hd2 & Hn2). split_and!; [done | set_solver | lia].
Qed.

Lemma grows_promise_all {A} (ms : list (Promise jsval (World D) A)) :
  Forall grows ms -> grows (promise_all ms).
Proof.
  induction 1 as [|m ms Hm _ IH]; [by intros w Hwf|]. intros w Hwf. simpl.
  destruct (Hm w Hwf) as (Hwf1 & Hd1 & Hn1). destruct (m w) as [o w1].
  destruct (IH w1 Hwf1) as (Hwf2 & Hd2 & Hn2). destruct (promise_all ms w1) as [os w2].
  simpl in *. split_and!; [done | set_solver | lia].
Qed.

End world_facts.
