(* ===== verification/Suite.v ===== *)
(** * Test suites

    A test suite owns the test instances opened under it: a map from
    instance ids to driver objects, and the next id to give out.
    [src/src/index.js] requires [./model/test-suite.js], which is not part
    of the sources; the suite is modelled from the specification (sections
    3 and 4.3) and from the calls the orchestrator makes ([new
    TestSuite(id)], [id], [addTestInstance], [getTestInstance], [end]).  A
    test instance is the driver object itself: [getNotificationStatus]
    calls [wait] and [executeScript] on what [getTestInstance] returns. *)

From stdpp Require Import base option list strings gmap pretty sorting.
From S2P Require Import Prelude JsValue Driver Selenium.

Local Open Scope Z_scope.
Local Open Scope promise_scope.

Module TestSuite.

Record t : Type := Suite {
  id : Z;
  _availableTestInstanceId : Z;
  _testInstances : gmap Z nat       (* instance id to driver handle *)
}.

(** [new TestSuite(id)] *)
Definition create (i : Z) : t := Suite i 0 ∅.

(** [suite.addTestInstance(driver)]: store the driver under the next id
    and return that id. *)
Definition addTestInstance (h : nat) (s : t) : Z * t :=
  let assigned := _availableTestInstanceId s in
  (assigned,
   Suite (id s) (js_incr assigned) (<[assigned := h]> (_testInstances s))).

(** [suite.getTestInstance(testId)]: the driver, or [undefined]. *)
Definition getTestInstance (testId : Z) (s : t) : option nat :=
  _testInstances s !! testId.

(** The instance ids in the order [Object.keys] lists integer keys. *)
Definition instanceIds (s : t) : list Z :=
  merge_sort Z.le (elements (dom (_testInstances s))).

(** The drivers of the suite, in that order. *)
Definition drivers (s : t) : list nat :=
  omap (fun i => _testInstances s !! i) (instanceIds s).

Definition clear (s : t) : t := Suite (id s) (_availableTestInstanceId s) ∅.

Section end_.
Context {D : Type} `{Driver D}.

(** Close every driver of a list: all are attempted, whatever fails. *)
Definition kill_all (hs : list nat) : Promise jsval (World D) (list unit) :=
  promise_all (killWebDriver <$> hs).

(** [suite.end()]: close every instance, then clear the collection; a
    failure of one does not stop the others, and is reported once all
    have been attempted. *)
Definition end_ : Promise jsval (t * World D) unit :=
  fun '(s, w) =>
    let '(o, w') := kill_all (drivers s) w in
    (outcome_map (fun _ => tt) o, (clear s, w')).

End end_.

(** Ids given out are below the counter, and the counter has not left the
    range where [++] is exact. *)
Definition wf (s : t) : Prop :=
  0 ≤ _availableTestInstanceId s ≤ MAX_SAFE_INTEGER + 1 /\
  forall i, is_Some (_testInstances s !! i) -> 0 ≤ i < _availableTestInstanceId s.

(** The handles of the suite. *)
Definition handles (s : t) : gset nat := map_img (_testInstances s).

End TestSuite.

Import TestSuite.

(** * Properties *)

Lemma create_wf i : wf (create i).
Proof. split; [done|]. intros j [h Hj]. simpl in Hj. by rewrite lookup_empty in Hj. Qed.

Lemma create_no_instance i testId : getTestInstance testId (create i) = None.
Proof. apply lookup_empty. Qed.

Lemma addTestInstance_id h s : id (addTestInstance h s).2 = id s.
Proof. reflexivity. Qed.

(** The id returned names the driver just stored. *)
Lemma addTestInstance_lookup h s :
  getTestInstance (addTestInstance h s).1 (addTestInstance h s).2 = Some h.
Proof. apply lookup_insert_eq. Qed.

(** The id returned was not in use. *)
Lemma addTestInstance_fresh h s :
  wf s -> getTestInstance (addTestInstance h s).1 s = None.
Proof.
  intros [_ Hwf]. unfold getTestInstance. simpl.
  destruct (_testInstances s !! _) eqn:Hl; [|done].
  assert (0 ≤ _availableTestInstanceId s < _availableTestInstanceId s) by eauto. lia.
Qed.

(** The ids given out before keep their drivers. *)
Lemma addTestInstance_stable h s i h' :
  wf s -> getTestInstance i s = Some h' ->
  getTestInstance i (addTestInstance h s).2 = Some h'.
Proof.
  intros Hwf Hi. unfold getTestInstance. simpl. rewrite lookup_insert_ne; [done|].
  intros <-. pose proof (addTestInstance_fresh h s Hwf) as Hf.
  unfold getTestInstance in *. simpl in Hf. congruence.
Qed.

Lemma addTestInstance_wf h s :
  wf s -> _availableTestInstanceId s ≤ MAX_SAFE_INTEGER -> wf (addTestInstance h s).2.
Proof.
  intros [Hc Hwf] Hmax. split; simpl.
  - rewrite js_incr_exact; lia.
  - intros i. rewrite js_incr_exact by lia.
    destruct (decide (_availableTestInstanceId s = i)) as [<-|Hne]; [lia|].
    rewrite lookup_insert_ne by done. intros Hi. apply Hwf in Hi. lia.
Qed.

(** Successive ids are strictly increasing while the counter is exact. *)
Lemma addTestInstance_increasing h h' s :
  0 ≤ _availableTestInstanceId s ≤ MAX_SAFE_INTEGER ->
  (addTestInstance h s).1 < (addTestInstance h' (addTestInstance h s).2).1.
Proof. intros Hc. simpl. rewrite js_incr_exact; lia. Qed.

Lemma instanceIds_elem s i : i ∈ instanceIds s <-> is_Some (_testInstances s !! i).
Proof.
  unfold instanceIds. rewrite merge_sort_Permutation, elem_of_elements. apply elem_of_dom.
Qed.

Lemma drivers_elem s h : h ∈ drivers s <-> exists i, getTestInstance i s = Some h.
Proof.
  unfold drivers, getTestInstance. rewrite list_elem_of_omap. split.
  - intros (i & _ & Hi). eauto.
  - intros (i & Hi). exists i. split; [|done]. apply instanceIds_elem. eauto.
Qed.

Lemma drivers_create i : drivers (create i) = [].
Proof. by vm_compute. Qed.

Section end_facts.
Context {D : Type} `{Driver D} `{!DriverLaws D}.
Implicit Types (w : World D) (h : nat) (s : t).

Lemma kill_all_cons h hs w :
  kill_all (h :: hs) w =
  (all_outcomes (killWebDriver h w).1 (kill_all hs (killWebDriver h w).2).1,
   (kill_all hs (killWebDriver h w).2).2).
Proof.
  unfold kill_all. simpl. destruct (killWebDriver h w) as [o w1]. simpl.
  by destruct (promise_all _ w1).
Qed.

(** A closed session stays closed when any driver is closed. *)
Lemma killWebDriver_keeps_closed h h' w d :
  sessions w !! h = Some d -> drv_closed d = true ->
  sessions (killWebDriver h' w).2 !! h = Some d.
Proof.
  intros Hh Hc. unfold killWebDriver. destruct (decide (h' = h)) as [->|Hne].
  - destruct (with_session_lookup h drv_quit w d Hh) as [_ ->].
    by rewrite drv_quit_idempotent.
  - by rewrite with_session_other.
Qed.

Lemma kill_all_keeps_closed hs h w d :
  sessions w !! h = Some d -> drv_closed d = true ->
  sessions (kill_all hs w).2 !! h = Some d.
Proof.
  revert w. induction hs as [|h' hs IH]; intros w Hh Hc; [done|].
  rewrite kill_all_cons. simpl. apply IH; [|done].
  by apply killWebDriver_keeps_closed.
Qed.

(** Closing a list of drivers closes each of them, whatever fails. *)
Lemma kill_all_closes hs h w :
  h ∈ hs -> is_Some (sessions w !! h) ->
  exists d', sessions (kill_all hs w).2 !! h = Some d' /\ drv_closed d' = true.
Proof.
  revert w. induction hs as [|h' hs IH]; intros w Hin [d Hd]; [by apply elem_of_nil in Hin|].
  rewrite kill_all_cons. simpl. destruct (decide (h' = h)) as [->|Hne].
  - destruct (killWebDriver_closed h w d Hd) as (d' & Hd' & Hc).
    exists d'. split; [|done]. by apply kill_all_keeps_closed.
  - apply IH; [set_solver|]. unfold killWebDriver. rewrite with_session_other; eauto.
Qed.

(** Sessions that are not in the list are left as they were. *)
Lemma kill_all_other hs h w :
  h ∉ hs -> sessions (kill_all hs w).2 !! h = sessions w !! h.
Proof.
  revert w. induction hs as [|h' hs IH]; intros w Hin; [done|].
  rewrite kill_all_cons. simpl. rewrite IH by set_solver.
  unfold killWebDriver. rewrite with_session_other; set_solver.
Qed.

Lemma kill_all_settles hs w : (kill_all hs w).1 <> Pending.
Proof.
  revert w. induction hs as [|h hs IH]; intros w; [done|].
  rewrite kill_all_cons. simpl. pose proof (killWebDriver_settles h w) as Hk.
  specialize (IH (killWebDriver h w).2).
  by destruct (killWebDriver h w).1, (kill_all hs _).1.
Qed.

Lemma kill_all_wf hs w : world_wf w -> world_wf (kill_all hs w).2.
Proof.
  revert w. induction hs as [|h hs IH]; intros w Hwf; [done|].
  rewrite kill_all_cons. simpl. apply IH. by apply with_session_wf.
Qed.

Lemma kill_all_nextHandle hs w : nextHandle (kill_all hs w).2 = nextHandle w.
Proof.
  revert w. induction hs as [|h hs IH]; intros w; [done|].
  rewrite kill_all_cons. simpl. rewrite IH. apply with_session_nextHandle.
Qed.

Lemma kill_all_dom hs w : dom (sessions (kill_all hs w).2) = dom (sessions w).
Proof.
  revert w. induction hs as [|h hs IH]; intros w; [done|].
  rewrite kill_all_cons. simpl. rewrite IH. apply with_session_sessions_dom.
Qed.

Lemma kill_all_is_Some hs w h :
  is_Some (sessions (kill_all hs w).2 !! h) <-> is_Some (sessions w !! h).
Proof. by rewrite <- !elem_of_dom, kill_all_dom. Qed.

Lemma kill_all_grows hs : grows (D:=D) (kill_all hs).
Proof.
  apply grows_promise_all, Forall_fmap, Forall_forall. intros h _.
  apply with_session_grows.
Qed.

(** [end] on a suite and a world, as an equation. *)
Lemma end_eq s w :
  end_ (s, w) =
  (outcome_map (fun _ => tt) (kill_all (drivers s) w).1, (clear s, (kill_all (drivers s) w).2)).
Proof. unfold end_. by destruct (kill_all (drivers s) w). Qed.

(** Ending a suite closes every one of its sessions, whichever of them
    fail to close, and leaves the suite without instances. *)
Lemma end_closes_all s w i h :
  getTestInstance i s = Some h -> is_Some (sessions w !! h) ->
  exists d', sessions (end_ (s, w)).2.2 !! h = Some d' /\ drv_closed d' = true.
Proof.
  intros Hi Hh. rewrite end_eq. simpl. apply kill_all_closes; [|done].
  apply drivers_elem. eauto.
Qed.

Lemma end_clears s w i : getTestInstance i (end_ (s, w)).2.1 = None.
Proof. rewrite end_eq. apply lookup_empty. Qed.

Lemma end_settles s w : (end_ (s, w)).1 <> Pending.
Proof.
  rewrite end_eq. simpl. pose proof (kill_all_settles (drivers s) w).
  by destruct (kill_all (drivers s) w).1.
Qed.

End end_facts.
