(* ===== verification/Wpts.v ===== *)
(** * The orchestrator's state: class [WPTS] of [src/src/index.js]

    The fields of the orchestrator object, its constructor, and the system
    it runs in: the object together with the world of sessions and
    provisioning ([Sys]).  The methods are in the files that follow:
    [Checks.v] (argument checks), [Lifecycle.v] (suites and service),
    [Subscribe.v] and [Notify.v]. *)

From stdpp Require Import base option list strings gmap pretty sorting.
From S2P Require Import Prelude JsValue ApiServer Driver Selenium Suite.

Import APIServer.

Local Open Scope Z_scope.
Local Open Scope promise_scope.

Record WPTS : Type := Wpts {
  _availableTestSuiteId : Z;
  _testSuites : gmap Z TestSuite.t;
  _supportedBrowsers : list string;
  _supportedBrowserVersions : list string;
  _apiServer : APIServer.t;
  logFile : string
}.

Definition set_testSuites (f : gmap Z TestSuite.t -> gmap Z TestSuite.t) (o : WPTS) : WPTS :=
  Wpts (_availableTestSuiteId o) (f (_testSuites o)) (_supportedBrowsers o)
    (_supportedBrowserVersions o) (_apiServer o) (logFile o).

Definition set_availableTestSuiteId (n : Z) (o : WPTS) : WPTS :=
  Wpts n (_testSuites o) (_supportedBrowsers o)
    (_supportedBrowserVersions o) (_apiServer o) (logFile o).

Definition set_apiServer (f : APIServer.t -> APIServer.t) (o : WPTS) : WPTS :=
  Wpts (_availableTestSuiteId o) (_testSuites o) (_supportedBrowsers o)
    (_supportedBrowserVersions o) (f (_apiServer o)) (logFile o).

(** [new WPTS(port, browsers, browserVersions)]; an argument left out is
    [None].  A falsy port ([0]) gives the default port; an empty list of
    browsers is truthy and is kept. *)
Definition constructor (port : option Z) (browsers browserVersions : option (list string)) : WPTS :=
  let port := match port with
              | Some p => if decide (p = 0) then 8090 else p
              | None => 8090
              end in
  Wpts 0 ∅
    (default ["chrome"; "firefox"] browsers)
    (default ["stable"; "beta"; "unstable"] browserVersions)
    (on "get-notification-status"
       (on "get-subscription"
          (on "end-test-suite"
             (on "start-test-suite" (APIServer.create port)))))
    "./module.log".

(** [wpts.setLogFile(logFile)] *)
Definition setLogFile (f : string) (o : WPTS) : WPTS :=
  Wpts (_availableTestSuiteId o) (_testSuites o) (_supportedBrowsers o)
    (_supportedBrowserVersions o) (_apiServer o) f.

(** [this._testSuites[key]]: the handlers read the registry only after
    [validTestSuiteId] has found the key to be a number. *)
Definition suite_at (key : jsval) (o : WPTS) : option TestSuite.t :=
  match key with
  | JNum n => _testSuites o !! n
  | _ => None
  end.

(** [testSuite.getTestInstance(key)] *)
Definition instance_at (key : jsval) (s : TestSuite.t) : option nat :=
  match key with
  | JNum n => TestSuite.getTestInstance n s
  | _ => None
  end.

(** ** The orchestrator with its world *)

Section sys.
Context {D : Type} `{Driver D}.

Record Sys : Type := MkSys { wpts : WPTS; world : World D }.

Definition on_wpts {A} (m : Promise jsval WPTS A) : Promise jsval Sys A :=
  zoom wpts (fun o s => MkSys o (world s)) m.

Definition on_world {A} (m : Promise jsval (World D) A) : Promise jsval Sys A :=
  zoom world (fun w s => MkSys (wpts s) w) m.

(** ** Well-formedness

    What holds of every state the orchestrator reaches from its
    construction (as long as its counters have not left the range in which
    [++] is exact): suite ids are the keys of the registry and lie below
    the counter; each suite is well formed and has given out no more
    instance ids than sessions have been launched; every instance refers to
    a session that exists, and no two instances refer to the same one. *)
Record sys_wf (sys : Sys) : Prop := SysWf {
  wf_counter : 0 ≤ _availableTestSuiteId (wpts sys) ≤ MAX_SAFE_INTEGER + 1;
  wf_suites : forall n s,
    _testSuites (wpts sys) !! n = Some s ->
    0 ≤ n < _availableTestSuiteId (wpts sys) /\ TestSuite.id s = n /\ TestSuite.wf s /\
    TestSuite._availableTestInstanceId s ≤ Z.of_nat (nextHandle (world sys));
  wf_world : world_wf (world sys);
  wf_handles : forall n s i h,
    _testSuites (wpts sys) !! n = Some s -> TestSuite.getTestInstance i s = Some h ->
    is_Some (sessions (world sys) !! h);
  wf_exclusive : forall n s i n' s' i' h,
    _testSuites (wpts sys) !! n = Some s -> TestSuite.getTestInstance i s = Some h ->
    _testSuites (wpts sys) !! n' = Some s' -> TestSuite.getTestInstance i' s' = Some h ->
    n = n' /\ i = i'
}.

(** A promise that gives out at most [k] suite ids and at most [k]
    handles, and takes none back. *)
Definition advances {A} (k : nat) (m : Promise jsval Sys A) : Prop :=
  forall sys,
    _availableTestSuiteId (wpts sys) ≤ _availableTestSuiteId (wpts (m sys).2)
      ≤ _availableTestSuiteId (wpts sys) + Z.of_nat k /\
    (nextHandle (world sys) <= nextHandle (world (m sys).2) <= nextHandle (world sys) + k)%nat.

(** The sessions the suites of the registry own. *)
Definition owned (sys : Sys) (h : nat) : Prop :=
  exists n s i, _testSuites (wpts sys) !! n = Some s /\ TestSuite.getTestInstance i s = Some h.

End sys.

Arguments Sys D : clear implicits.

(** * Properties *)

Section sys_facts.
Context {D : Type} `{Driver D}.
Implicit Types (sys : Sys D) (o : WPTS) (w : World D).

(** A new orchestrator over a world without sessions is well formed. *)
Lemma constructor_wf port browsers versions w :
  sessions w = ∅ -> sys_wf (MkSys (constructor port browsers versions) w).
Proof.
  intros Hw. split; simpl.
  - done.
  - intros n s Hn. by rewrite lookup_empty in Hn.
  - intros h [d Hd]. by rewrite Hw, lookup_empty in Hd.
  - intros n s i h Hn. by rewrite lookup_empty in Hn.
  - intros n s i n' s' i' h Hn. by rewrite lookup_empty in Hn.
Qed.

Lemma constructor_counter port browsers versions :
  _availableTestSuiteId (constructor port browsers versions) = 0 /\
  _testSuites (constructor port browsers versions) = ∅.
Proof. done. Qed.

(** The constructor's defaults: port 8090, Chrome and Firefox, the three
    release channels, and the four operations registered. *)
Lemma constructor_defaults :
  let o := constructor None None None in
  APIServer.port (_apiServer o) = 8090 /\
  _supportedBrowsers o = ["chrome"; "firefox"] /\
  _supportedBrowserVersions o = ["stable"; "beta"; "unstable"] /\
  routes (_apiServer o) =
    ["start-test-suite"; "end-test-suite"; "get-subscription"; "get-notification-status"].
Proof. done. Qed.

(** A port of [0] is falsy: the default is taken. *)
Lemma constructor_port_zero :
  APIServer.port (_apiServer (constructor (Some 0) None None)) = 8090.
Proof. done. Qed.

(** Well-formedness depends on the world through the sessions that exist
    and the next handle only. *)
Lemma sys_wf_world o w w' :
  sys_wf (MkSys o w) -> world_wf w' ->
  dom (sessions w) ⊆ dom (sessions w') -> (nextHandle w <= nextHandle w')%nat ->
  sys_wf (MkSys o w').
Proof.
  intros [Hc Hs Hw Hh He] Hw' Hdom Hnext. split; simpl in *; [done| |done| |done].
  - intros n s Hn. destruct (Hs n s Hn) as (? & ? & ? & ?). split_and!; [lia..|done|done|lia].
  - intros n s i h Hn Hi. apply elem_of_dom, Hdom, elem_of_dom. by eapply Hh.
Qed.

(** A command on the world that only adds sessions keeps the system well
    formed. *)
Lemma on_world_preserves {A} (m : Promise jsval (World D) A) :
  grows m -> preserves sys_wf (on_world m).
Proof.
  intros Hm. apply preserves_pure_state. intros [o w] Hwf.
  destruct (Hm w (wf_world _ Hwf)) as (Hwf' & Hdom & Hnext).
  unfold on_world, zoom. simpl. destruct (m w) as [a w']. simpl in *.
  by apply (sys_wf_world o w w').
Qed.

(** Removing a suite, or its instances, keeps the system well formed. *)
Lemma sys_wf_delete sys n :
  sys_wf sys -> sys_wf (MkSys (set_testSuites (delete n) (wpts sys)) (world sys)).
Proof.
  intros [Hc Hs Hw Hh He]. split; simpl; [done| |done| |].
  - intros m s [_ Hm]%lookup_delete_Some. by apply Hs.
  - intros m s i h [_ Hm]%lookup_delete_Some. eauto.
  - intros m s i m' s' i' h [_ Hm]%lookup_delete_Some Hi [_ Hm']%lookup_delete_Some.
    by apply (He m s i m' s' i' h).
Qed.

Lemma sys_wf_clear sys n s :
  sys_wf sys -> _testSuites (wpts sys) !! n = Some s ->
  sys_wf (MkSys (set_testSuites (insert n (TestSuite.clear s)) (wpts sys)) (world sys)).
Proof.
  intros [Hc Hs Hw Hh He] Hn. destruct (Hs n s Hn) as (Hn0 & Hid & [Hcnt _] & Hle).
  split; simpl; [done| |done| |].
  - intros m s' [[<- <-]|[_ Hm]]%lookup_insert_Some; [|by apply Hs].
    split_and!; [lia..|done| |done]. split; [done|].
    intros i [h Hi]. simpl in Hi. by rewrite lookup_empty in Hi.
  - intros m s' i h [[<- <-]|[_ Hm]]%lookup_insert_Some; [|eauto].
    unfold TestSuite.getTestInstance. simpl. by rewrite lookup_empty.
  - intros m s1 i m' s2 i' h [[<- <-]|[_ Hm]]%lookup_insert_Some;
      [unfold TestSuite.getTestInstance; simpl; by rewrite lookup_empty|].
    intros Hi [[<- <-]|[_ Hm']]%lookup_insert_Some;
      [unfold TestSuite.getTestInstance; simpl; by rewrite lookup_empty|].
    by apply (He m s1 i m' s2 i' h).
Qed.

(** Registering the session just launched, whose handle is the latest,
    as the next instance of a suite keeps the system well formed. *)
Lemma sys_wf_register sys n st :
  sys_wf sys -> _testSuites (wpts sys) !! n = Some st ->
  let h := pred (nextHandle (world sys)) in
  is_Some (sessions (world sys) !! h) -> ~ owned sys h ->
  TestSuite._availableTestInstanceId st ≤ Z.of_nat h ≤ MAX_SAFE_INTEGER ->
  sys_wf (MkSys (set_testSuites (insert n (TestSuite.addTestInstance h st).2) (wpts sys))
            (world sys)).
Proof.
  intros [Hc Hs Hw Hh He] Hn h Hsome Hfree Hrange.
  destruct (Hs n st Hn) as (Hn0 & Hid & Hwfst & Hle).
  assert (h < nextHandle (world sys))%nat as Hlt by by apply Hw.
  split; simpl; [done| |done| |].
  - intros m s' [[<- <-]|[_ Hm]]%lookup_insert_Some; [|by apply Hs].
    split_and!; [lia..|done|apply addTestInstance_wf; [done|lia]|].
    simpl. rewrite js_incr_exact; [lia|]. destruct Hwfst as [? _]. lia.
  - intros m s' i h' [[<- <-]|[_ Hm]]%lookup_insert_Some; [|eauto].
    unfold TestSuite.getTestInstance. simpl.
    intros [[_ <-]|[_ Hi]]%lookup_insert_Some; [done|]. by apply (Hh n st i).
  - assert (forall i, TestSuite.getTestInstance i (TestSuite.addTestInstance h st).2 = Some h ->
              i = TestSuite._availableTestInstanceId st) as Hnew.
    { intros i. unfold TestSuite.getTestInstance. simpl.
      intros [[<- _]|[_ Hi]]%lookup_insert_Some; [done|].
      destruct Hfree. by exists n, st, i. }
    assert (forall i h', TestSuite.getTestInstance i (TestSuite.addTestInstance h st).2 = Some h' ->
              h' = h \/ TestSuite.getTestInstance i st = Some h') as Hold.
    { intros i h'. unfold TestSuite.getTestInstance. simpl.
      intros [[_ <-]|[_ Hi]]%lookup_insert_Some; auto. }
    intros m s1 i m' s2 i' h' [[<- <-]|[Hne Hm]]%lookup_insert_Some Hi
      [[<- <-]|[Hne' Hm']]%lookup_insert_Some Hi'.
    + split; [done|]. destruct (Hold _ _ Hi) as [->|Hi1].
      * by rewrite (Hnew i Hi), (Hnew i' Hi').
      * destruct (Hold _ _ Hi') as [->|Hi2]; [destruct Hfree; by exists n, st, i|].
        by destruct (He n st i n st i' h' Hn Hi1 Hn Hi2).
    + destruct (Hold _ _ Hi) as [->|Hi1]; [destruct Hfree; by exists m', s2, i'|].
      by apply (He n st i m' s2 i' h').
    + destruct (Hold _ _ Hi') as [->|Hi2]; [destruct Hfree; by exists m, s1, i|].
      by apply (He m s1 i n st i' h').
    + by apply (He m s1 i m' s2 i' h').
Qed.

(** Registering a new, empty suite under the counter keeps the system well
    formed. *)
Lemma sys_wf_new_suite sys :
  sys_wf sys -> _availableTestSuiteId (wpts sys) ≤ MAX_SAFE_INTEGER ->
  let c := _availableTestSuiteId (wpts sys) in
  sys_wf (MkSys (set_testSuites (insert c (TestSuite.create c))
                   (set_availableTestSuiteId (js_incr c) (wpts sys))) (world sys)).
Proof.
  intros Hwf Hmax c. subst c. pose proof (wf_counter sys Hwf) as Hc.
  split; simpl; rewrite ?js_incr_exact by lia.
  - lia.
  - intros n s [[<- <-]|[Hne Hs]]%lookup_insert_Some.
    + split_and!; [lia | lia | done | apply create_wf | simpl; lia].
    + apply (wf_suites sys Hwf) in Hs as (? & ? & ? & ?).
      split_and!; [lia | lia | done | done | done].
  - apply (wf_world sys Hwf).
  - intros n s i h [[<- <-]|[Hne Hs]]%lookup_insert_Some;
      [by rewrite create_no_instance|].
    by apply (wf_handles sys Hwf n s i h).
  - intros n s i n' s' i' h [[<- <-]|[Hne Hs]]%lookup_insert_Some;
      [by rewrite create_no_instance|].
    intros Hi [[<- <-]|[Hne' Hs']]%lookup_insert_Some;
      [by rewrite create_no_instance|].
    by apply (wf_exclusive sys Hwf n s i n' s' i' h).
Qed.

(** The ids of the registered suites are below the counter. *)
Lemma sys_wf_below sys n :
  sys_wf sys -> is_Some (_testSuites (wpts sys) !! n) -> n < _availableTestSuiteId (wpts sys).
Proof. intros Hwf [s Hs]. apply (wf_suites sys Hwf) in Hs as [? _]. lia. Qed.

Lemma sys_wf_counter_free sys :
  sys_wf sys -> _testSuites (wpts sys) !! _availableTestSuiteId (wpts sys) = None.
Proof.
  intros Hwf. apply eq_None_not_Some. intros Hs%(sys_wf_below sys _ Hwf). lia.
Qed.

(** A command on the world leaves the orchestrator's own state. *)
Lemma on_world_wpts {A} (m : Promise jsval (World D) A) sys :
  wpts (on_world m sys).2 = wpts sys.
Proof. unfold on_world, zoom. by destruct (m (world sys)). Qed.

Lemma on_world_preserves_wpts {A} (I : WPTS -> Prop) (m : Promise jsval (World D) A) :
  preserves (fun sys => I (wpts sys)) (on_world m).
Proof. apply preserves_pure_state. intros sys. by rewrite on_world_wpts. Qed.

(** ** Counting the ids given out *)

Lemma advances_weaken {A} k k' (m : Promise jsval (Sys D) A) :
  advances k m -> (k <= k')%nat -> advances k' m.
Proof. intros Hm Hk sys. destruct (Hm sys). split; lia. Qed.

Lemma advances_pure {A} (m : Promise jsval (Sys D) A) :
  (forall sys, (m sys).2 = sys) -> advances 0 m.
Proof. intros Hm sys. rewrite Hm. split; lia. Qed.

Lemma advances_resolve {A} (a : A) : advances (D:=D) 0 (resolve a).
Proof. by apply advances_pure. Qed.

Lemma advances_reject {A} e : advances (D:=D) (A:=A) 0 (reject e).
Proof. by apply advances_pure. Qed.

Lemma advances_gets {A} (f : Sys D -> A) : advances 0 (gets f).
Proof. by apply advances_pure. Qed.

Lemma advances_then {A B} k1 k2 (m : Promise jsval (Sys D) A)
    (k : A -> Promise jsval (Sys D) B) :
  advances k1 m -> (forall a, advances k2 (k a)) -> advances (k1 + k2) (then_ m k).
Proof.
  intros Hm Hk sys. specialize (Hm sys). unfold then_.
  destruct (m sys) as [[a|e|] sys1]; simpl in *; [|split; lia..].
  destruct (Hk a sys1). split; lia.
Qed.

Lemma advances_catch {A} k1 k2 (m : Promise jsval (Sys D) A)
    (h : jsval -> Promise jsval (Sys D) A) :
  advances k1 m -> (forall e, advances k2 (h e)) -> advances (k1 + k2) (catch_ m h).
Proof.
  intros Hm Hh sys. specialize (Hm sys). unfold catch_.
  destruct (m sys) as [[a|e|] sys1]; simpl in *; [split; lia| |split; lia].
  destruct (Hh e sys1). split; lia.
Qed.

Lemma advances_on_world {A} k (m : Promise jsval (World D) A) :
  (forall w, (nextHandle w <= nextHandle (m w).2 <= nextHandle w + k)%nat) ->
  advances k (on_world m).
Proof.
  intros Hm sys. specialize (Hm (world sys)). unfold on_world, zoom.
  destruct (m (world sys)) as [o w']. simpl in *. split; lia.
Qed.

Lemma advances_with_session {A} h (m : Promise jsval D A) :
  advances 0 (on_world (with_session h m)).
Proof. apply advances_on_world. intros w. rewrite with_session_nextHandle. lia. Qed.

(** The server object is no part of well-formedness. *)
Lemma sys_wf_apiServer sys f :
  sys_wf sys -> sys_wf (MkSys (set_apiServer f (wpts sys)) (world sys)).
Proof. by intros []. Qed.

(** With no suite registered the counter can restart. *)
Lemma sys_wf_reset sys :
  sys_wf sys -> _testSuites (wpts sys) = ∅ ->
  sys_wf (MkSys (set_availableTestSuiteId 0 (wpts sys)) (world sys)).
Proof.
  intros [Hc Hs Hw Hh He] Hempty. split; simpl; [done| |done|..].
  - intros n s Hn. by rewrite Hempty, lookup_empty in Hn.
  - intros n s i h Hn. by rewrite Hempty, lookup_empty in Hn.
  - intros n s i n' s' i' h Hn. by rewrite Hempty, lookup_empty in Hn.
Qed.

Lemma suite_at_Some key o s :
  suite_at key o = Some s <-> exists n, key = JNum n /\ _testSuites o !! n = Some s.
Proof. destruct key; simpl; naive_solver. Qed.

Lemma instance_at_Some key s h :
  instance_at key s = Some h <-> exists i, key = JNum i /\ TestSuite.getTestInstance i s = Some h.
Proof. destruct key; simpl; naive_solver. Qed.

End sys_facts.

#[export] Hint Resolve advances_resolve advances_reject advances_gets
  advances_with_session : wpts.
