(* ===== verification/Fixtures.v ===== *)
(** * Concrete systems

    A small world to run the model on: two local browsers and an
    environment in which the harness loads, registers its service worker,
    subscribes, and receives one push message.  The witnesses of the
    theorems evaluate the handlers on it. *)

From stdpp Require Import base option list strings gmap pretty sorting.
From S2P Require Import Prelude JsValue ApiServer Driver Browser Selenium Suite Wpts.

Local Open Scope Z_scope.

(** A subscription as the push service returns it. *)
Definition sub_ok : jsval :=
  JObj [("endpoint", JStr "https://push.example/abc");
        ("keys", JObj [("p256dh", JStr "BPk"); ("auth", JStr "k8J")])].

(** The harness loads after 300 ms, registers after 200 ms more, subscribes
    after 100 ms more; the message hello arrives at 5 s. *)
Definition env_ok : harnessEnv :=
  HarnessEnv 10 None (Some 300%N) (Some (200%N, JBool true)) (Some (100%N, sub_ok))
    [(5000%N, "hello")] None None.

(** The same, but no message ever arrives. *)
Definition env_silent : harnessEnv :=
  HarnessEnv 10 None (Some 300%N) (Some (200%N, JBool true)) (Some (100%N, sub_ok))
    [] None None.

(** The same, but the service worker fails to register. *)
Definition env_sw_error : harnessEnv :=
  HarnessEnv 10 None (Some 300%N) (Some (200%N, JObj [("error", JStr "no sw")])) None
    [] None None.

(** The same, but the push service refuses the subscription. *)
Definition env_sub_error : harnessEnv :=
  HarnessEnv 10 None (Some 300%N) (Some (200%N, JBool true))
    (Some (100%N, JObj [("error", JStr "denied")])) [] None None.

(** The page of the harness cannot be opened. *)
Definition env_no_page : harnessEnv :=
  HarnessEnv 10 (Some "net::ERR_CONNECTION_REFUSED") None None None [] None None.

(** The same, but closing the browser fails. *)
Definition env_quit_fails : harnessEnv :=
  HarnessEnv 10 None (Some 300%N) (Some (200%N, JBool true)) (Some (100%N, sub_ok))
    [] None (Some "cannot quit").

(** The harness never loads. *)
Definition env_never_loads : harnessEnv :=
  HarnessEnv 10 None None None None [] None None.

Definition firefox_stable : localBrowser :=
  LocalBrowser "firefox" "stable" 50 (SeleniumOptions JUndefined []).

Definition firefox_old : localBrowser :=
  LocalBrowser "firefox" "beta" 48 (SeleniumOptions JUndefined []).

Definition chrome_stable : localBrowser :=
  LocalBrowser "chrome" "stable" 60 (SeleniumOptions JUndefined []).

(** A world in which every session behaves as [e]. *)
Definition world_of (e : harnessEnv) : World session :=
  MkWorld ∅ 0 [] [firefox_stable; firefox_old; chrome_stable]
    (fun _ _ => Resolved (new_session e)) [] [] true None.

(** A new orchestrator with the default configuration. *)
Definition sys_of (e : harnessEnv) : Sys session :=
  MkSys (constructor None None None) (world_of e).

Definition sys0 : Sys session := sys_of env_ok.

Lemma sys_of_wf e : sys_wf (sys_of e).
Proof. by apply constructor_wf. Qed.

(** A system with one suite (id 0) and no instance yet, in which every
    session launched behaves as [e]. *)
Definition sys_of_suite (e : harnessEnv) : Sys session :=
  MkSys
    (set_testSuites (insert 0 (TestSuite.create 0))
       (set_availableTestSuiteId 1 (constructor None None None)))
    (world_of e).

(** A system with one suite (id 0) that owns one instance (id 0), whose
    session is [s]. *)
Definition suite_one : TestSuite.t := TestSuite.Suite 0 1 {[0 := 0%nat]}.

Definition sys_with (s : session) : Sys session :=
  MkSys
    (set_testSuites (insert 0 suite_one)
       (set_availableTestSuiteId 1 (constructor None None None)))
    (MkWorld {[0%nat := s]} 1 [(0%nat, firefox_stable)]
       [firefox_stable; firefox_old; chrome_stable]
       (fun _ _ => Resolved (new_session (env s))) [] [] true None).

(** The instance's session just launched, behaving as [e]. *)
Definition sys_one (e : harnessEnv) : Sys session := sys_with (new_session e).

(** A session that subscribed a second ago: the page was opened at 10 ms,
    the harness started at 320 ms. *)
Definition subscribed (e : harnessEnv) : session :=
  Session e 1000 false (Some 10%N) (Some 320%N) (arrivals e) [] "http://localhost:8090".

(** The arguments that name instance 0 of suite 0. *)
Definition args_one : jsobj := [("testSuiteId", JNum 0); ("testId", JNum 0)].

Lemma suite_one_instances i h :
  TestSuite.getTestInstance i suite_one = Some h -> i = 0 /\ h = 0%nat.
Proof.
  unfold TestSuite.getTestInstance, suite_one. simpl.
  by intros [<- <-]%lookup_singleton_Some.
Qed.

Lemma sys_with_suites s0 n s :
  _testSuites (wpts (sys_with s0)) !! n = Some s -> n = 0 /\ s = suite_one.
Proof.
  simpl. intros [[<- <-]|[_ Hs]]%lookup_insert_Some; [done|].
  by rewrite lookup_empty in Hs.
Qed.

Lemma sys_with_wf s0 : sys_wf (sys_with s0).
Proof.
  split.
  - done.
  - intros n s [-> ->]%sys_with_suites. split_and!; try done.
    split; [done|]. by intros i [h [-> _]%suite_one_instances].
  - intros h [d Hd]. simpl in Hd. apply lookup_singleton_Some in Hd as [<- _].
    simpl. lia.
  - intros n s i h [-> ->]%sys_with_suites [-> ->]%suite_one_instances. by eexists.
  - intros n s i n' s' i' h [-> ->]%sys_with_suites [-> ->]%suite_one_instances
      [-> ->]%sys_with_suites [-> _]%suite_one_instances. done.
Qed.

Lemma sys_one_wf e : sys_wf (sys_one e).
Proof. apply sys_with_wf. Qed.
