(* ===== verification/Checks.v ===== *)
(** * Argument checks

    [missingRequiredArgs], [validTestSuiteId] and [validTestId] of
    [src/src/index.js]: each returns its verdict together with the response
    object, on which it has sent the error response when the check fails. *)

From stdpp Require Import base option list strings gmap pretty sorting.
From S2P Require Import Prelude JsValue ApiServer Driver Selenium Suite Wpts.

Import APIServer.

Local Open Scope Z_scope.
Local Open Scope promise_scope.


(** The loop of [missingRequiredArgs]: for each key of [args], in order,
    drop it from the fields still required when its value is neither
    [undefined] nor [null]. *)
Definition strike_key (args : jsobj) (requiredFieldsClone : list string) (key : string) :
    list string :=
  let fieldIndex := indexOf key requiredFieldsClone in
  if decide (0 ≤ fieldIndex) then
    if decide (typeof (lookup_prop key args) ≠ "undefined" /\ lookup_prop key args ≠ JNull)
    then splice1 fieldIndex requiredFieldsClone
    else requiredFieldsClone
  else requiredFieldsClone.

Definition still_required (args : jsobj) (requiredFields : list string) : list string :=
  foldl (strike_key args) requiredFields (keys args).

Definition missing_message (args : jsobj) (requiredFields : list string) : string :=
  "Required arguments are missing. Required fields: " +:+ join ", " requiredFields +:+
  ". Received: " +:+ join ", " (keys args).

(** [this.missingRequiredArgs(res, args, requiredFields)]: whether a
    required field is missing, having sent the error response if so. *)
Definition missingRequiredArgs (r : res) (args : jsobj) (requiredFields : list string) :
    bool * res :=
  let requiredFieldsClone := still_required args requiredFields in
  if decide (0 < length requiredFieldsClone)%nat
  then (true, sendErrorResponse r (JStr "missing_required_args")
                (missing_message args requiredFields))
  else (false, r).

Definition not_number_message (field : string) (v : jsval) : string :=
  field +:+ " should be a number, found " +:+ typeof v +:+ ".".

Definition unknown_suite_message (n : Z) : string :=
  "testSuiteId passed in doesn't exist: " +:+ pretty n +:+ ".".

(** [this.validTestSuiteId(res, testSuiteId)] *)
Definition validTestSuiteId (r : res) (testSuiteId : jsval) (o : WPTS) : bool * res :=
  if decide (typeof testSuiteId ≠ "number") then
    (false, sendErrorResponse r (JStr "invalid_variable_type")
              ("testSuiteId should be a number, found " +:+ typeof testSuiteId +:+ "."))
  else
    match suite_at testSuiteId o with
    | None =>
        (false, sendErrorResponse r (JStr "invalid_test_suite_id")
                  ("testSuiteId passed in doesn't exist: " +:+ toString testSuiteId +:+ "."))
    | Some _ => (true, r)
    end.

(** [this.validTestId(res, testSuiteId, testId)] *)
Definition validTestId (r : res) (testSuiteId testId : jsval) (o : WPTS) : bool * res :=
  let '(ok, r1) := validTestSuiteId r testSuiteId o in
  if negb ok then (false, r1)
  else if decide (typeof testId ≠ "number") then
    (false, sendErrorResponse r1 (JStr "invalid_variable_type")
              ("testId should be a number, found " +:+ typeof testId +:+ "."))
  else
    match suite_at testSuiteId o ≫= instance_at testId with
    | None =>
        (false, sendErrorResponse r1 (JStr "invalid_test_id")
                  ("testId was not found as a valid test, received testId: " +:+
                   toString testId +:+ "."))
    | Some _ => (true, r1)
    end.

(** * Properties of the argument checks *)

Section checks.
Implicit Types (r : res) (args : jsobj) (o : WPTS) (req : list string).

Lemma strike_key_filter args req k :
  NoDup req ->
  strike_key args req k = filter (fun f => f <> k \/ nullish (lookup_prop f args)) req.
Proof.
  intros Hnd. unfold strike_key. case_decide as Hi.
  - apply indexOf_nonneg_iff in Hi. case_decide as Hv.
    + rewrite splice1_indexOf_filter by done. apply list_filter_iff.
      intros f. rewrite nullish_typeof. split; [tauto|]. intros [?| Hn]; [done|].
      intros ->. tauto.
    + symmetry. apply filter_all, Forall_forall. intros f _.
      destruct (decide (f = k)) as [->|]; [|tauto]. right. by apply nullish_typeof.
  - rewrite indexOf_nonneg_iff in Hi. symmetry. apply filter_all, Forall_forall.
    intros f Hf. left. by intros ->.
Qed.

Lemma strike_keys_filter args req ks :
  NoDup req ->
  foldl (strike_key args) req ks =
  filter (fun f => f ∉ ks \/ nullish (lookup_prop f args)) req.
Proof.
  revert req. induction ks as [|k ks IH]; intros req Hnd; simpl.
  - symmetry. apply filter_all, Forall_forall. intros f _. left. apply not_elem_of_nil.
  - rewrite strike_key_filter by done. rewrite IH by (by apply NoDup_filter).
    rewrite list_filter_filter. apply list_filter_iff. intros f.
    rewrite not_elem_of_cons. tauto.
Qed.

(** What is still required after the loop: the required fields whose
    argument is [undefined] (or absent) or [null]. *)
Lemma still_required_filter args req :
  NoDup req ->
  still_required args req = filter (fun f => nullish (lookup_prop f args)) req.
Proof.
  intros Hnd. unfold still_required. rewrite strike_keys_filter by done.
  apply list_filter_iff. intros f. split; [|tauto]. intros [Hf|]; [|done].
  left. by apply lookup_prop_not_key.
Qed.

(** [missingRequiredArgs] reports a missing argument exactly when one
    of the required fields is absent, [undefined] or [null] in the
    request, whatever else the request holds. *)
Theorem missingRequiredArgs_iff r args req :
  NoDup req ->
  (missingRequiredArgs r args req).1 = true <->
  exists f, f ∈ req /\ nullish (lookup_prop f args).
Proof.
  intros Hnd. unfold missingRequiredArgs. rewrite still_required_filter by done.
  set (l := filter _ req). assert (forall f, f ∈ l <-> f ∈ req /\ nullish (lookup_prop f args))
    as Hl by (intros f; unfold l; rewrite list_elem_of_filter; tauto).
  case_decide as Hlen; simpl.
  - split; [intros _|done]. destruct l as [|f l']; [simpl in Hlen; lia|].
    exists f. apply Hl, list_elem_of_here.
  - split; [done|]. intros (f & Hf). apply Hl in Hf.
    destruct l; [by apply elem_of_nil in Hf | simpl in Hlen; lia].
Qed.

(** The two results of [missingRequiredArgs], as equations. *)
Lemma missingRequiredArgs_false r args req :
  NoDup req -> (forall f, f ∈ req -> ~ nullish (lookup_prop f args)) ->
  missingRequiredArgs r args req = (false, r).
Proof.
  intros Hnd Hall. unfold missingRequiredArgs. rewrite still_required_filter by done.
  case_decide as Hlen; [|done].
  destruct (filter _ req) as [|f l] eqn:Hl; [simpl in Hlen; lia|].
  assert (f ∈ filter (fun f => nullish (lookup_prop f args)) req) as Hf
    by (rewrite Hl; apply list_elem_of_here).
  apply list_elem_of_filter in Hf as [Hn Hf]. by destruct (Hall f Hf).
Qed.

Lemma missingRequiredArgs_true r args req f :
  NoDup req -> f ∈ req -> nullish (lookup_prop f args) ->
  missingRequiredArgs r args req =
  (true, sendErrorResponse r (JStr "missing_required_args") (missing_message args req)).
Proof.
  intros Hnd Hf Hn. unfold missingRequiredArgs. rewrite still_required_filter by done.
  case_decide as Hlen; [done|].
  assert (f ∈ filter (fun f => nullish (lookup_prop f args)) req) as Hin
    by (by apply list_elem_of_filter).
  destruct (filter _ req); [by apply elem_of_nil in Hin | simpl in Hlen; lia].
Qed.

(** C40. The answer to a request with missing arguments does not say which
    are missing: two requests with the same keys that both lack a
    required field, whichever, get the same response, which lists all the
    required fields and all the keys received. *)
Theorem missingRequiredArgs_message r args args' req :
  NoDup req -> keys args = keys args' ->
  (missingRequiredArgs r args req).1 = true -> (missingRequiredArgs r args' req).1 = true ->
  missingRequiredArgs r args req = missingRequiredArgs r args' req /\
  (missingRequiredArgs r args req).2 =
    sendErrorResponse r (JStr "missing_required_args")
      ("Required arguments are missing. Required fields: " +:+ join ", " req +:+
       ". Received: " +:+ join ", " (keys args)).
Proof.
  intros Hnd Hk. unfold missingRequiredArgs, missing_message. cbv zeta.
  repeat case_decide; try done. by rewrite Hk.
Qed.

Lemma missingRequiredArgs_witness :
  (missingRequiredArgs fresh_res [("testSuiteId", JNull); ("browserName", JStr "chrome")]
     ["testSuiteId"; "browserName"; "browserVersion"]).1 = true <->
  exists f, f ∈ ["testSuiteId"; "browserName"; "browserVersion"] /\
    nullish (lookup_prop f [("testSuiteId", JNull); ("browserName", JStr "chrome")]).
Proof. apply missingRequiredArgs_iff. compute_done. Defined.

(** One request lacks the suite id, the other the browser. *)
Lemma missingRequiredArgs_message_witness :
  missingRequiredArgs fresh_res [("testSuiteId", JNull); ("browserName", JStr "chrome")]
    ["testSuiteId"; "browserName"] =
  missingRequiredArgs fresh_res [("testSuiteId", JNum 0); ("browserName", JNull)]
    ["testSuiteId"; "browserName"] /\
  (missingRequiredArgs fresh_res [("testSuiteId", JNull); ("browserName", JStr "chrome")]
     ["testSuiteId"; "browserName"]).2 =
    sendErrorResponse fresh_res (JStr "missing_required_args")
      ("Required arguments are missing. Required fields: " +:+
       join ", " ["testSuiteId"; "browserName"] +:+
       ". Received: " +:+ join ", " ["testSuiteId"; "browserName"]).
Proof. apply missingRequiredArgs_message; [compute_done | done | done | done]. Defined.

Lemma validTestSuiteId_ok r n o :
  is_Some (_testSuites o !! n) -> validTestSuiteId r (JNum n) o = (true, r).
Proof. intros [s Hs]. unfold validTestSuiteId. simpl. by rewrite Hs. Qed.

Lemma validTestSuiteId_unknown r n o :
  _testSuites o !! n = None ->
  validTestSuiteId r (JNum n) o =
  (false, sendErrorResponse r (JStr "invalid_test_suite_id")
            ("testSuiteId passed in doesn't exist: " +:+ pretty n +:+ ".")).
Proof. intros Hs. unfold validTestSuiteId. simpl. by rewrite Hs. Qed.

Lemma validTestSuiteId_not_number r v o :
  typeof v <> "number" ->
  validTestSuiteId r v o =
  (false, sendErrorResponse r (JStr "invalid_variable_type")
            ("testSuiteId should be a number, found " +:+ typeof v +:+ ".")).
Proof. intros Hv. unfold validTestSuiteId. by rewrite decide_True. Qed.

(** The three results of [validTestSuiteId], by its argument. *)
Lemma validTestSuiteId_cases r v o :
  validTestSuiteId r v o =
  match v with
  | JNum n =>
      if decide (is_Some (_testSuites o !! n)) then (true, r)
      else (false, sendErrorResponse r (JStr "invalid_test_suite_id") (unknown_suite_message n))
  | _ => (false, sendErrorResponse r (JStr "invalid_variable_type")
                   (not_number_message "testSuiteId" v))
  end.
Proof.
  destruct v as [| |b|n|s|f|a]; try done.
  case_decide as Hs.
  - by apply validTestSuiteId_ok.
  - apply validTestSuiteId_unknown. by apply eq_None_not_Some.
Qed.

(** [validTestSuiteId] accepts exactly the numbers that name a registered
    suite, and then sends nothing. *)
Lemma validTestSuiteId_true_iff r v o :
  (validTestSuiteId r v o).1 = true <-> exists n, v = JNum n /\ is_Some (_testSuites o !! n).
Proof.
  split.
  - unfold validTestSuiteId. case_decide as Hty; [done|].
    apply typeof_number in Hty as [n ->]. simpl.
    destruct (_testSuites o !! n) eqn:Hs; [eauto | done].
  - intros (n & -> & Hs). by rewrite validTestSuiteId_ok.
Qed.

Lemma validTestSuiteId_true_res r v o :
  (validTestSuiteId r v o).1 = true -> (validTestSuiteId r v o).2 = r.
Proof. intros (n & -> & Hs)%validTestSuiteId_true_iff. by rewrite validTestSuiteId_ok. Qed.

Lemma validTestId_ok r n i o s h :
  _testSuites o !! n = Some s -> TestSuite.getTestInstance i s = Some h ->
  validTestId r (JNum n) (JNum i) o = (true, r).
Proof.
  intros Hs Hi. unfold validTestId. rewrite validTestSuiteId_ok by eauto.
  simpl. by rewrite Hs; simpl; rewrite Hi.
Qed.

Lemma validTestId_unknown_suite r n v o :
  _testSuites o !! n = None ->
  validTestId r (JNum n) v o =
  (false, sendErrorResponse r (JStr "invalid_test_suite_id")
            ("testSuiteId passed in doesn't exist: " +:+ pretty n +:+ ".")).
Proof. intros Hs. unfold validTestId. by rewrite validTestSuiteId_unknown. Qed.

Lemma validTestId_unknown_test r n i o s :
  _testSuites o !! n = Some s -> TestSuite.getTestInstance i s = None ->
  validTestId r (JNum n) (JNum i) o =
  (false, sendErrorResponse r (JStr "invalid_test_id")
            ("testId was not found as a valid test, received testId: " +:+ pretty i +:+ ".")).
Proof.
  intros Hs Hi. unfold validTestId. rewrite validTestSuiteId_ok by eauto.
  simpl. by rewrite Hs; simpl; rewrite Hi.
Qed.

(** [validTestId] accepts exactly the pairs of numbers that name an
    instance of a registered suite. *)
Lemma validTestId_true_iff r v v' o :
  (validTestId r v v' o).1 = true <->
  exists n i s h, v = JNum n /\ v' = JNum i /\ _testSuites o !! n = Some s /\
    TestSuite.getTestInstance i s = Some h.
Proof.
  split.
  - unfold validTestId. destruct (validTestSuiteId r v o) as [ok r1] eqn:Hv.
    destruct ok; [|done]. simpl.
    assert ((validTestSuiteId r v o).1 = true) as (n & -> & s & Hs)%validTestSuiteId_true_iff
      by (by rewrite Hv).
    case_decide as Hty; [done|]. apply typeof_number in Hty as [i ->].
    simpl. rewrite Hs. simpl. destruct (TestSuite.getTestInstance i s) eqn:Hi; [|done].
    intros _. by exists n, i, s, n0.
  - intros (n & i & s & h & -> & -> & Hs & Hi). by erewrite validTestId_ok.
Qed.

(** A check that fails has sent one error response; one that passes has
    sent nothing. *)
Lemma missingRequiredArgs_res r args req :
  match missingRequiredArgs r args req with
  | (true, r') => one_more r r'
  | (false, r') => r' = r
  end.
Proof. unfold missingRequiredArgs. case_decide; auto with wpts. Qed.

Lemma validTestSuiteId_res r v o :
  match validTestSuiteId r v o with
  | (true, r') => r' = r
  | (false, r') => one_more r r'
  end.
Proof. unfold validTestSuiteId. repeat case_match; simplify_eq; auto with wpts. Qed.

Lemma validTestId_res r v v' o :
  match validTestId r v v' o with
  | (true, r') => r' = r
  | (false, r') => one_more r r'
  end.
Proof.
  unfold validTestId. pose proof (validTestSuiteId_res r v o) as Hs.
  destruct (validTestSuiteId r v o) as [[] r1]; simpl; [subst|done].
  repeat case_match; simplify_eq; auto with wpts.
Qed.

(** A request that a check refuses is answered with an error of the
    check. *)
Lemma missingRequiredArgs_error r args req :
  match missingRequiredArgs r args req with
  | (true, r') => exists m, r' = sendErrorResponse r (JStr "missing_required_args") m
  | (false, r') => r' = r
  end.
Proof. unfold missingRequiredArgs. cbv zeta. case_decide; eauto. Qed.

Lemma validTestSuiteId_error r v o :
  match validTestSuiteId r v o with
  | (true, r') => r' = r /\ exists n, v = JNum n /\ is_Some (_testSuites o !! n)
  | (false, r') =>
      exists id m, id ∈ ["invalid_variable_type"; "invalid_test_suite_id"] /\
        r' = sendErrorResponse r (JStr id) m
  end.
Proof.
  rewrite validTestSuiteId_cases.
  destruct v as [| | |n| | |]; try (eexists _, _; split; [|done]; set_solver).
  case_decide; [eauto|]. eexists _, _; split; [|done]; set_solver.
Qed.

Lemma validTestId_error r v v' o :
  match validTestId r v v' o with
  | (true, r') => r' = r /\ is_Some (suite_at v o ≫= instance_at v')
  | (false, r') =>
      exists id m,
        id ∈ ["invalid_variable_type"; "invalid_test_suite_id"; "invalid_test_id"] /\
        r' = sendErrorResponse r (JStr id) m
  end.
Proof.
  unfold validTestId. pose proof (validTestSuiteId_error r v o) as Hs.
  destruct (validTestSuiteId r v o) as [[] r1]; simpl.
  - destruct Hs as [-> _]. case_decide; [eexists _, _; split; [|done]; set_solver|].
    destruct (suite_at v o ≫= instance_at v'); [eauto|].
    eexists _, _; split; [|done]; set_solver.
  - destruct Hs as (id & m & Hid & ->). exists id, m. split; [set_solver|done].
Qed.

End checks.

#[export] Hint Resolve NoDup_nil_2 : wpts.

(** A request argument that is present: neither [undefined] nor [null]. *)
Definition present (f : string) (args : jsobj) : Prop := ~ nullish (lookup_prop f args).

#[export] Instance present_dec f args : Decision (present f args).
Proof. unfold present. apply _. Defined.

Lemma required_present args req :
  Forall (fun f => present f args) req ->
  forall f, f ∈ req -> ~ nullish (lookup_prop f args).
Proof. rewrite Forall_forall. auto. Qed.

(** The response to a request that names no registered suite. *)
Definition invalid_suite_response (n : Z) : response :=
  Response 400 (error_body (JStr "invalid_test_suite_id")
                  ("testSuiteId passed in doesn't exist: " +:+ pretty n +:+ ".")).
