(* ===== verification/Scripts.v ===== *)
(** * The scripts run in the page

    The functions [src/src/index.js] passes to [executeScript]: each reads
    (and two of them write) [window.PUSH_TESTING_SERVICE]. *)

From stdpp Require Import base option list strings gmap pretty sorting.
From S2P Require Import Prelude JsValue Driver.

Local Open Scope Z_scope.
Local Open Scope promise_scope.

(** A script that reads a field of [window.PUSH_TESTING_SERVICE]: a
    [TypeError] when the harness object is [undefined]. *)
Definition on_harness (field : string) (f : harness -> jsval * harness) : script :=
  fun w =>
    match PUSH_TESTING_SERVICE w with
    | Some h => let '(v, h') := f h in (Resolved v, Window (Some h'))
    | None => (Rejected (TypeError JUndefined field), w)
    end.

(** [window.PUSH_TESTING_SERVICE && window.PUSH_TESTING_SERVICE.loaded] *)
Definition script_loaded : script :=
  fun w =>
    match PUSH_TESTING_SERVICE w with
    | Some h => (Resolved (JBool (loaded h)), w)
    | None => (Resolved JUndefined, w)
    end.

(** [window.PUSH_TESTING_SERVICE.start()] *)
Definition script_start : script :=
  on_harness "start" (fun h =>
    (JUndefined,
     Harness (loaded h) true (swRegistered h) (subscription h) (receivedMessages h))).

(** [typeof window.PUSH_TESTING_SERVICE.swRegistered !== 'undefined'] *)
Definition script_swRegistered_defined : script :=
  on_harness "swRegistered" (fun h =>
    (JBool (bool_decide (typeof (swRegistered h) ≠ "undefined")), h)).

(** [window.PUSH_TESTING_SERVICE.swRegistered] *)
Definition script_swRegistered : script :=
  on_harness "swRegistered" (fun h => (swRegistered h, h)).

(** [typeof window.PUSH_TESTING_SERVICE.subscription !== 'undefined'] *)
Definition script_subscription_defined : script :=
  on_harness "subscription" (fun h =>
    (JBool (bool_decide (typeof (subscription h) ≠ "undefined")), h)).

(** [window.PUSH_TESTING_SERVICE.subscription] *)
Definition script_subscription : script :=
  on_harness "subscription" (fun h => (subscription h, h)).

(** [window.PUSH_TESTING_SERVICE.receivedMessages.length > 0] *)
Definition script_has_messages : script :=
  on_harness "receivedMessages" (fun h =>
    (JBool (bool_decide (0 < length (receivedMessages h))%nat), h)).

(** Read the received messages and clear them. *)
Definition script_drain : script :=
  on_harness "receivedMessages" (fun h =>
    let messages := receivedMessages h in
    (JArr (JStr <$> messages),
     Harness (loaded h) (started h) (swRegistered h) (subscription h) [])).


(** * Properties *)

Section script_facts.
Implicit Types (w : window) (h : harness).

Lemma on_harness_defined field f h :
  on_harness field f (Window (Some h)) = (Resolved (f h).1, Window (Some (f h).2)).
Proof. unfold on_harness. simpl. by destruct (f h). Qed.

Lemma on_harness_undefined field f :
  on_harness field f (Window None) = (Rejected (TypeError JUndefined field), Window None).
Proof. reflexivity. Qed.

(** A script never stays pending. *)
Lemma on_harness_settles field f w : (on_harness field f w).1 <> Pending.
Proof. destruct w as [[h|]]; [by rewrite on_harness_defined | done]. Qed.

(** The loaded test is falsy until the harness object exists and says it
    has loaded, and it does not touch the page. *)
Lemma script_loaded_truthy w v w' :
  script_loaded w = (Resolved v, w') ->
  w' = w /\ (truthy v = true <-> exists h, PUSH_TESTING_SERVICE w = Some h /\ loaded h = true).
Proof.
  unfold script_loaded. destruct (PUSH_TESTING_SERVICE w) as [h|]; intros [= <- <-].
  - split; [done|]. simpl. split; [eauto | by intros (? & [= <-] & ?)].
  - split; [done|]. simpl. split; [done | by intros (? & ? & ?)].
Qed.

(** The message test is true exactly when the buffer is not empty. *)
Lemma script_has_messages_truthy h :
  script_has_messages (Window (Some h)) =
  (Resolved (JBool (bool_decide (receivedMessages h <> []))), Window (Some h)).
Proof.
  unfold script_has_messages. rewrite on_harness_defined. simpl. do 3 f_equal.
  apply bool_decide_ext. destruct (receivedMessages h); simpl.
  - split; [lia | done].
  - split; [done | lia].
Qed.

(** Draining returns the whole buffer, in order, and leaves it empty: each
    message is handed over once. *)
Lemma script_drain_spec h :
  script_drain (Window (Some h)) =
  (Resolved (JArr (JStr <$> receivedMessages h)),
   Window (Some (Harness (loaded h) (started h) (swRegistered h) (subscription h) []))).
Proof. reflexivity. Qed.

Lemma script_drain_twice h w' v :
  script_drain (Window (Some h)) = (Resolved v, w') ->
  (script_drain w').1 = Resolved (JArr []).
Proof. by intros [= <- <-]. Qed.

Lemma script_start_started h w' v :
  script_start (Window (Some h)) = (Resolved v, w') ->
  exists h', PUSH_TESTING_SERVICE w' = Some h' /\ started h' = true /\
    receivedMessages h' = receivedMessages h.
Proof. intros [= <- <-]. by eexists. Qed.

(** A script that only reads the harness object leaves the page as it
    is. *)
Lemma on_harness_reads field (val : harness -> jsval) w :
  (on_harness field (fun h => (val h, h)) w).2 = w.
Proof. unfold on_harness. by destruct w as [[h|]]. Qed.

End script_facts.
