(* ===== verification/Lifecycle.v ===== *)
(** * Suites and the service's life cycle

    [startTestSuite], [endTestSuite], [downloadBrowsers], [startService]
    and [endService] of [src/src/index.js]. *)

From stdpp Require Import base option list strings gmap pretty sorting.
From S2P Require Import Prelude JsValue ApiServer Driver Browser Selenium Suite Wpts Fixtures Checks.

Import APIServer TestSuite.

Local Open Scope Z_scope.
Local Open Scope promise_scope.

Section lifecycle.
Context {D : Type} `{Driver D}.

(** ** Service start and end *)

(** The downloads [downloadBrowsers] asks for: every supported browser in
    every supported version, but for Chrome unstable. *)
Definition browserDownloads (o : WPTS) : list (string * string) :=
  browser ← _supportedBrowsers o;
  version ← _supportedBrowserVersions o;
  if decide (browser = "chrome" /\ version = "unstable") then [] else [(browser, version)].

(** [this.downloadBrowsers()] *)
Definition downloadBrowsers : Promise jsval (Sys D) (list unit) :=
  o <- gets wpts ;;
  on_world (promise_all
    ((fun bv => downloadLocalBrowser bv.1 bv.2 48) <$> browserDownloads o)).

(** [this.startService()] *)
Definition startService : Promise jsval (Sys D) unit :=
  downloadBrowsers ;;
  on_wpts (modify (set_apiServer startListening)).

(** [this._testSuites[n].end()] *)
Definition suite_end (n : Z) : Promise jsval (Sys D) unit :=
  fun sys =>
    match _testSuites (wpts sys) !! n with
    | Some s =>
        let '(o, (s', w')) := TestSuite.end_ (s, world sys) in
        (o, MkSys (set_testSuites (insert n s') (wpts sys)) w')
    | None => (Rejected (TypeError JUndefined "end"), sys)
    end.

(** [delete this._testSuites[n]] *)
Definition delete_suite (n : Z) : Promise jsval (Sys D) unit :=
  on_wpts (modify (set_testSuites (delete n))).

(** [Object.keys(this._testSuites)]: integer keys in ascending order. *)
Definition testSuiteIds (o : WPTS) : list Z :=
  merge_sort Z.le (elements (dom (_testSuites o))).

(** The promises of [endService], over the suite ids: the end of each
    suite, followed by its removal. *)
Definition end_all (testSuiteIds : list Z) : Promise jsval (Sys D) (list unit) :=
  promise_all ((fun testSuiteId => suite_end testSuiteId ;; delete_suite testSuiteId)
                 <$> testSuiteIds).

(** [this.endService()]: the ends of all suites are started, each followed
    by the removal of its suite; then the server is killed, the ends are
    awaited, and the id counter is reset. *)
Definition endService : Promise jsval (Sys D) unit :=
  fun sys =>
    let '(o, sys1) := end_all (testSuiteIds (wpts sys)) sys in
    (on_wpts (modify (set_apiServer kill)) ;;
     settle o ;;
     on_wpts (modify (set_availableTestSuiteId 0))) sys1.

(** ** Suites *)

(** [this.startTestSuite(res)] *)
Definition startTestSuite (r : res) : Promise jsval (Sys D) res :=
  o <- gets wpts ;;
  let newTestSuite := TestSuite.create (_availableTestSuiteId o) in
  on_wpts (modify (fun o =>
    set_testSuites (insert (TestSuite.id newTestSuite) newTestSuite)
      (set_availableTestSuiteId (js_incr (_availableTestSuiteId o)) o))) ;;
  resolve (sendValidResponse r (JObj [("testSuiteId", JNum (TestSuite.id newTestSuite))])).

(** [this._testSuites[key].end()], [key] being the request's argument. *)
Definition suite_end_at (key : jsval) : Promise jsval (Sys D) unit :=
  match key with
  | JNum n => suite_end n
  | _ => reject (TypeError JUndefined "end")
  end.

Definition delete_suite_at (key : jsval) : Promise jsval (Sys D) unit :=
  match key with
  | JNum n => delete_suite n
  | _ => resolve tt
  end.

Definition issue_message (message : jsval) : string :=
  "An issue occured while attempting to get the subscription: " +:+ toString message.

(** [this.endTestSuite(res, args)] *)
Definition endTestSuite (r : res) (args : jsobj) : Promise jsval (Sys D) res :=
  let requiredFields := ["testSuiteId"] in
  let '(missing, r) := missingRequiredArgs r args requiredFields in
  if missing then resolve r else
  o <- gets wpts ;;
  let '(valid, r) := validTestSuiteId r (lookup_prop "testSuiteId" args) o in
  if negb valid then resolve r else
  catch_
    (suite_end_at (lookup_prop "testSuiteId" args) ;;
     delete_suite_at (lookup_prop "testSuiteId" args) ;;
     resolve (sendValidResponse r JUndefined))
    (fun err =>
       message <- read_prop err "message" ;;
       resolve (sendErrorResponse r (JStr "webdriver_issue") (issue_message message))).

End lifecycle.

(** * Properties *)

Section lifecycle_facts.
Context {D : Type} `{Driver D} `{!DriverLaws D}.
Implicit Types (sys : Sys D) (r : res) (args : jsobj) (n : Z) (s : TestSuite.t).

(** ** Starting a suite *)

Lemma startTestSuite_eq sys r :
  startTestSuite r sys =
  (Resolved (sendValidResponse r
     (JObj [("testSuiteId", JNum (_availableTestSuiteId (wpts sys)))])),
   MkSys (set_testSuites
            (insert (_availableTestSuiteId (wpts sys))
               (TestSuite.create (_availableTestSuiteId (wpts sys))))
            (set_availableTestSuiteId (js_incr (_availableTestSuiteId (wpts sys)))
               (wpts sys)))
     (world sys)).
Proof. reflexivity. Qed.

(** C4. [startTestSuite] answers with the value of the id counter, which no
    registered suite has and which is above the ids of all of them; it
    registers a new, empty suite under that id, advances the counter by
    one, touches no session, and keeps the system well formed. *)
Theorem startTestSuite_fresh sys r :
  sys_wf sys -> _availableTestSuiteId (wpts sys) ≤ MAX_SAFE_INTEGER ->
  let c := _availableTestSuiteId (wpts sys) in
  exists sys',
    startTestSuite r sys =
      (Resolved (sendValidResponse r (JObj [("testSuiteId", JNum c)])), sys') /\
    _testSuites (wpts sys) !! c = None /\
    (forall n, is_Some (_testSuites (wpts sys) !! n) -> n < c) /\
    _testSuites (wpts sys') = <[c := TestSuite.create c]> (_testSuites (wpts sys)) /\
    _availableTestSuiteId (wpts sys') = c + 1 /\
    world sys' = world sys /\
    sys_wf sys'.
Proof.
  intros Hwf Hmax c. subst c. eexists. split; [apply startTestSuite_eq|].
  pose proof (wf_counter sys Hwf) as Hc.
  split_and!; simpl;
    [by apply sys_wf_counter_free | intros n; by apply sys_wf_below | done
    | apply js_incr_exact; lia | done | by apply sys_wf_new_suite].
Qed.

(** ** Starting the service *)

(** What is downloaded: every supported browser in every supported
    version, but for Chrome unstable. *)
Lemma browserDownloads_elem o browser version :
  (browser, version) ∈ browserDownloads o <->
  browser ∈ _supportedBrowsers o /\ version ∈ _supportedBrowserVersions o /\
  ~ (browser = "chrome" /\ version = "unstable").
Proof.
  unfold browserDownloads. rewrite list_elem_of_bind. split.
  - intros (b & (v & Hbv & Hv)%list_elem_of_bind & Hb). case_decide as Hskip.
    + by apply elem_of_nil in Hbv.
    + by apply list_elem_of_singleton in Hbv as [= -> ->].
  - intros (Hb & Hv & Hskip). exists browser. split; [|done].
    apply list_elem_of_bind. exists version. split; [|done].
    rewrite decide_False by done. apply list_elem_of_here.
Qed.

(** The download that fails, if one does. *)
Definition download_fails (w : World D) (bv : string * string) : Prop :=
  is_Some (list_find (fun e => e.1.1 = bv.1 /\ e.1.2 = bv.2) (downloadErrors w)).

Lemma downloadLocalBrowser_eq name release expiration w :
  downloaded (downloadLocalBrowser name release expiration w).2 =
    downloaded w ++ [(name, release, expiration)] /\
  downloadErrors (downloadLocalBrowser name release expiration w).2 = downloadErrors w /\
  ((exists u, (downloadLocalBrowser name release expiration w).1 = Resolved u) <->
   ~ download_fails w (name, release)).
Proof.
  unfold downloadLocalBrowser, download_fails. simpl.
  destruct (list_find _ (downloadErrors w)) as [[i [[b v] m]]|]; simpl.
  - split_and!; [done | done |]. split; [by intros [? ?] | by intros []].
  - split_and!; [done | done |]. split; [by intros _ [? ?] | eauto].
Qed.

(** All the downloads are asked for, whichever of them fail, and they all
    succeed exactly when none of them fails. *)
Lemma download_all l w :
  let ms := (fun bv : string * string => downloadLocalBrowser (D:=D) bv.1 bv.2 48) <$> l in
  downloaded (promise_all ms w).2 = downloaded w ++ ((fun bv => (bv.1, bv.2, 48)) <$> l) /\
  downloadErrors (promise_all ms w).2 = downloadErrors w /\
  ((exists us, (promise_all ms w).1 = Resolved us) <-> Forall (fun bv => ~ download_fails w bv) l).
Proof.
  revert w. induction l as [|[b v] l IH]; intros w ms; subst ms.
  - split_and!; [by rewrite app_nil_r | done |]. split; [by constructor | by eexists].
  - rewrite fmap_cons, promise_all_cons. cbn [fst snd].
    destruct (downloadLocalBrowser_eq b v 48 w) as (Hd & He & Hr).
    destruct (IH (downloadLocalBrowser b v 48 w).2) as (Hd' & He' & Hr').
    split_and!.
    + rewrite Hd', Hd, <- app_assoc. done.
    + by rewrite He', He.
    + rewrite all_outcomes_resolved, Forall_cons, Hr, Hr'. unfold download_fails.
      by rewrite He.
Qed.

Lemma startService_eq sys :
  startService sys =
  let P := promise_all ((fun bv : string * string => downloadLocalBrowser (D:=D) bv.1 bv.2 48)
                          <$> browserDownloads (wpts sys)) (world sys) in
  match P.1 with
  | Resolved _ => (Resolved tt, MkSys (set_apiServer startListening (wpts sys)) P.2)
  | Rejected e => (Rejected e, MkSys (wpts sys) P.2)
  | Pending => (Pending, MkSys (wpts sys) P.2)
  end.
Proof.
  unfold startService, downloadBrowsers, then_, gets, on_world, on_wpts, zoom, modify.
  simpl. by destruct (promise_all _ (world sys)) as [[us|e|] w'].
Qed.

Lemma download_all_sessions l w :
  sessions (promise_all ((fun bv : string * string => downloadLocalBrowser (D:=D) bv.1 bv.2 48)
                           <$> l) w).2 = sessions w.
Proof.
  revert w. induction l as [|bv l IH]; intros w; [done|].
  rewrite fmap_cons, promise_all_cons. cbn [fst snd]. rewrite IH.
  unfold downloadLocalBrowser. by destruct (list_find _ _) as [[? [? ?]]|].
Qed.

(** C30. Starting the service provisions the browsers: every supported
    browser is asked for in every supported version, but for Chrome
    unstable, with an expiry of 48 hours, whichever of the downloads fail;
    the server starts listening exactly when all of them succeeded, and
    nothing else of the orchestrator changes. *)
Theorem startService_provisions sys :
  let o := (startService sys).1 in
  let sys' := (startService sys).2 in
  downloaded (world sys') =
    downloaded (world sys) ++ ((fun bv => (bv.1, bv.2, 48)) <$> browserDownloads (wpts sys)) /\
  (o = Resolved tt <-> Forall (fun bv => ~ download_fails (world sys) bv) (browserDownloads (wpts sys))) /\
  wpts sys' =
    (if decide (o = Resolved tt) then set_apiServer startListening (wpts sys) else wpts sys) /\
  sessions (world sys') = sessions (world sys).
Proof.
  intros o sys'. subst o sys'. rewrite startService_eq. cbn zeta.
  destruct (download_all (browserDownloads (wpts sys)) (world sys)) as (Hd & He & Hr).
  pose proof (download_all_sessions (browserDownloads (wpts sys)) (world sys)) as Hs.
  destruct (promise_all _ (world sys)) as [[us|e|] w']; simpl in *.
  - rewrite ?decide_True by done. split_and!; [done | | done | done].
    split; [intros _; apply Hr; eauto | done].
  - rewrite ?decide_False by done. split_and!; [done | | done | done].
    split; [done | intros [us Hus]%Hr; done].
  - rewrite ?decide_False by done. split_and!; [done | | done | done].
    split; [done | intros [us Hus]%Hr; done].
Qed.

(** ** Ending a suite *)

Lemma suite_end_eq sys n s :
  _testSuites (wpts sys) !! n = Some s ->
  suite_end n sys =
  (outcome_map (fun _ => tt) (kill_all (drivers s) (world sys)).1,
   MkSys (set_testSuites (insert n (clear s)) (wpts sys))
     (kill_all (drivers s) (world sys)).2).
Proof. intros Hs. unfold suite_end. by rewrite Hs, end_eq. Qed.

(** What [endTestSuite] does to the system when the request names a
    registered suite, by the outcome of closing the suite's sessions. *)
Definition ended (sys : Sys D) (n : Z) (s : TestSuite.t) : Sys D :=
  let K := kill_all (drivers s) (world sys) in
  match K.1 with
  | Resolved _ => MkSys (set_testSuites (delete n) (wpts sys)) K.2
  | _ => MkSys (set_testSuites (insert n (clear s)) (wpts sys)) K.2
  end.

Lemma endTestSuite_eq sys r args n s :
  lookup_prop "testSuiteId" args = JNum n ->
  _testSuites (wpts sys) !! n = Some s ->
  endTestSuite r args sys =
  (match (kill_all (drivers s) (world sys)).1 with
   | Resolved _ => Resolved (sendValidResponse r JUndefined)
   | Rejected e =>
       match get_prop e "message" with
       | Some m => Resolved (sendErrorResponse r (JStr "webdriver_issue") (issue_message m))
       | None => Rejected (TypeError e "message")
       end
   | Pending => Pending
   end, ended sys n s).
Proof.
  intros Hid Hs. unfold endTestSuite, ended.
  rewrite missingRequiredArgs_false;
    [|compute_done|intros f ->%list_elem_of_singleton; rewrite Hid; by intros [|]].
  unfold then_ at 1, gets. rewrite Hid, validTestSuiteId_ok by eauto. simpl.
  unfold catch_, then_ at 1. rewrite (suite_end_eq sys n s) by done.
  destruct (kill_all (drivers s) (world sys)) as [[l|e|] w']; simpl; [| |done].
  - unfold then_, delete_suite, on_wpts, zoom, modify, resolve. simpl.
    do 2 f_equal. unfold set_testSuites. simpl. by rewrite delete_insert_eq.
  - unfold then_, read_prop. by destruct (get_prop e "message").
Qed.

(** C2. Ending a registered suite closes every session the suite owns,
    whichever of them fail to close, and no other session is touched; the
    id counter is not moved and the other suites stay as they are.  When
    all sessions closed without error the suite leaves the registry and the
    response is the success response; otherwise the response is the error
    [webdriver_issue] and the suite stays registered, without instances.
    In both cases no instance of the suite can be addressed afterwards. *)
Theorem endTestSuite_closes sys r args n s :
  sys_wf sys ->
  lookup_prop "testSuiteId" args = JNum n ->
  _testSuites (wpts sys) !! n = Some s ->
  let o := (endTestSuite r args sys).1 in
  let sys' := (endTestSuite r args sys).2 in
  (forall i h, getTestInstance i s = Some h ->
     exists d, sessions (world sys') !! h = Some d /\ drv_closed d = true) /\
  (forall h, (forall i, getTestInstance i s <> Some h) ->
     sessions (world sys') !! h = sessions (world sys) !! h) /\
  _availableTestSuiteId (wpts sys') = _availableTestSuiteId (wpts sys) /\
  (forall m, m <> n -> _testSuites (wpts sys') !! m = _testSuites (wpts sys) !! m) /\
  (forall i, _testSuites (wpts sys') !! n ≫= getTestInstance i = None) /\
  o <> Pending /\
  (_testSuites (wpts sys') !! n = None <-> o = Resolved (sendValidResponse r JUndefined)) /\
  (forall r', o = Resolved r' -> r' <> sendValidResponse r JUndefined ->
     exists m, r' = sendErrorResponse r (JStr "webdriver_issue") (issue_message m)).
Proof.
  intros Hwf Hid Hs o sys'. subst o sys'. rewrite (endTestSuite_eq sys r args n s) by done.
  unfold ended. simpl.
  pose proof (kill_all_settles (drivers s) (world sys)) as Hsettle.
  assert (forall i h, getTestInstance i s = Some h ->
    exists d, sessions (kill_all (drivers s) (world sys)).2 !! h = Some d /\
      drv_closed d = true) as Hclosed.
  { intros i h Hi. apply kill_all_closes; [apply drivers_elem; eauto|].
    by apply (wf_handles sys Hwf n s i h). }
  assert (forall h, (forall i, getTestInstance i s <> Some h) ->
    sessions (kill_all (drivers s) (world sys)).2 !! h = sessions (world sys) !! h) as Hframe.
  { intros h Hh. apply kill_all_other. rewrite drivers_elem. by intros [i Hi%Hh]. }
  destruct (kill_all (drivers s) (world sys)) as [[l|e|] w']; simpl in *; [| |done].
  - split_and!; try done.
    + intros m Hm. by rewrite lookup_delete_ne.
    + intros i. by rewrite lookup_delete_eq.
    + by rewrite lookup_delete_eq.
    + by intros r' [= <-] Hne.
  - split_and!; try done.
    + intros m Hm. by rewrite lookup_insert_ne.
    + intros i. rewrite lookup_insert_eq. apply lookup_empty.
    + by destruct (get_prop e "message").
    + rewrite lookup_insert_eq. split; [done|].
      destruct (get_prop e "message"); [|done].
      intros [= Heq%app_inv_head]. done.
    + intros r'. destruct (get_prop e "message") as [m|]; [|done].
      intros [= <-] _. eauto.
Qed.

(** A suite that is not registered cannot be ended. *)
Lemma endTestSuite_unknown sys r args n :
  lookup_prop "testSuiteId" args = JNum n -> _testSuites (wpts sys) !! n = None ->
  endTestSuite r args sys =
  (Resolved (sendErrorResponse r (JStr "invalid_test_suite_id") (unknown_suite_message n)),
   sys).
Proof.
  intros Hn Hs. unfold endTestSuite.
  rewrite missingRequiredArgs_false;
    [|compute_done|intros f ->%list_elem_of_singleton; rewrite Hn; by intros [|]].
  unfold then_, gets. simpl. by rewrite Hn, validTestSuiteId_unknown.
Qed.

(** ** Ending the service *)

(** What ending a registered suite leaves of the system. *)
Lemma ended_wf sys n s :
  sys_wf sys -> _testSuites (wpts sys) !! n = Some s -> sys_wf (ended sys n s).
Proof.
  intros Hwf Hs. unfold ended.
  destruct (kill_all_grows (drivers s) (world sys) (wf_world _ Hwf)) as (Hw & Hd & Hn).
  destruct (kill_all (drivers s) (world sys)) as [[l|e|] w']; simpl in *;
    apply (sys_wf_world _ (world sys)); try done;
    by first [apply sys_wf_delete | apply (sys_wf_clear sys)].
Qed.

Lemma ended_closes sys n s i h :
  sys_wf sys -> _testSuites (wpts sys) !! n = Some s -> getTestInstance i s = Some h ->
  exists d, sessions (world (ended sys n s)) !! h = Some d /\ drv_closed d = true.
Proof.
  intros Hwf Hs Hi.
  destruct (kill_all_closes (drivers s) h (world sys)) as (d & Hd & Hc);
    [apply drivers_elem; eauto | by apply (wf_handles sys Hwf n s i h) |].
  exists d. unfold ended. by destruct (kill_all (drivers s) (world sys)) as [[l|e|] w'].
Qed.

Lemma ended_keeps_closed sys n s h d :
  sessions (world sys) !! h = Some d -> drv_closed d = true ->
  sessions (world (ended sys n s)) !! h = Some d.
Proof.
  intros Hh Hc. pose proof (kill_all_keeps_closed (drivers s) h (world sys) d Hh Hc).
  unfold ended. by destruct (kill_all (drivers s) (world sys)) as [[l|e|] w'].
Qed.

Lemma ended_other sys n s m :
  m <> n -> _testSuites (wpts (ended sys n s)) !! m = _testSuites (wpts sys) !! m.
Proof.
  intros Hm. unfold ended.
  destruct (kill_all (drivers s) (world sys)) as [[l|e|] w']; simpl;
    by rewrite ?lookup_delete_ne, ?lookup_insert_ne.
Qed.

Lemma ended_dom sys n s :
  _testSuites (wpts sys) !! n = Some s ->
  dom (_testSuites (wpts (ended sys n s))) ⊆ dom (_testSuites (wpts sys)).
Proof.
  intros Hs. apply elem_of_dom_2 in Hs. unfold ended.
  destruct (kill_all (drivers s) (world sys)) as [[l|e|] w']; simpl;
    rewrite ?dom_delete, ?dom_insert; set_solver.
Qed.

(** The state [endTestSuite] leaves: untouched, or that of the ended suite
    the request names. *)
Lemma endTestSuite_state sys r args :
  (endTestSuite r args sys).2 = sys \/
  exists n s, lookup_prop "testSuiteId" args = JNum n /\
    _testSuites (wpts sys) !! n = Some s /\ (endTestSuite r args sys).2 = ended sys n s.
Proof.
  destruct (lookup_prop "testSuiteId" args) as [| |b|n|s0|f|a] eqn:Hn;
    try (left; unfold endTestSuite; destruct (missingRequiredArgs r args _) as [[] r1];
         [done|]; unfold then_, gets; by rewrite Hn).
  destruct (_testSuites (wpts sys) !! n) as [s|] eqn:Hs.
  - right. exists n, s. by rewrite (endTestSuite_eq sys r args n s).
  - left. by rewrite (endTestSuite_unknown sys r args n).
Qed.

(** A success response of [endTestSuite] means that the suite has left the
    registry, and that it was there. *)
Lemma endTestSuite_removed sys r args n :
  lookup_prop "testSuiteId" args = JNum n ->
  (endTestSuite r args sys).1 = Resolved (sendValidResponse r JUndefined) ->
  is_Some (_testSuites (wpts sys) !! n) /\
  _testSuites (wpts (endTestSuite r args sys).2) !! n = None.
Proof.
  intros Hn. destruct (_testSuites (wpts sys) !! n) as [s|] eqn:Hs.
  - rewrite (endTestSuite_eq sys r args n s) by done. unfold ended.
    destruct (kill_all (drivers s) (world sys)) as [[l|e|] w']; simpl; [| |done].
    + intros _. split; [done | apply lookup_delete_eq].
    + destruct (get_prop e "message"); [|done]. intros [= Heq%app_inv_head]. done.
  - rewrite (endTestSuite_unknown sys r args n) by done. simpl.
    intros [= Heq%app_inv_head]. done.
Qed.

(** A suite that is not registered stays so. *)
Lemma endTestSuite_unregistered r args n :
  preserves (fun sys : Sys D => _testSuites (wpts sys) !! n = None) (endTestSuite r args).
Proof.
  apply preserves_pure_state. intros sys Hn.
  destruct (endTestSuite_state sys r args) as [->|(m & s & _ & Hm & ->)]; [done|].
  rewrite ended_other; [done|]. by intros ->; rewrite Hn in Hm.
Qed.

(** One of the promises of [endService]: the end of a suite followed by its
    removal. *)
Lemma end_one_eq sys n s :
  _testSuites (wpts sys) !! n = Some s ->
  (suite_end n ;; delete_suite n)%promise sys =
  (outcome_map (fun _ => tt) (kill_all (drivers s) (world sys)).1, ended sys n s).
Proof.
  intros Hs. unfold then_. rewrite (suite_end_eq sys n s) by done. unfold ended.
  destruct (kill_all (drivers s) (world sys)) as [[l|e|] w']; simpl; [|done..].
  unfold delete_suite, on_wpts, zoom, modify. simpl.
  do 2 f_equal. unfold set_testSuites. simpl. by rewrite delete_insert_eq.
Qed.

Lemma end_one_resolved sys n u sys' :
  (suite_end n ;; delete_suite n)%promise sys = (Resolved u, sys') ->
  _testSuites (wpts sys') !! n = None.
Proof.
  destruct (_testSuites (wpts sys) !! n) as [s|] eqn:Hs.
  - rewrite (end_one_eq sys n s) by done. unfold ended.
    destruct (kill_all (drivers s) (world sys)) as [[l|e|] w']; simpl; [|done..].
    intros [= _ <-]. apply lookup_delete_eq.
  - unfold then_, suite_end. by rewrite Hs.
Qed.

Lemma end_all_cons n ns sys :
  end_all (n :: ns) sys =
  let one := (suite_end n ;; delete_suite n)%promise sys in
  (all_outcomes one.1 (end_all ns one.2).1, (end_all ns one.2).2).
Proof.
  unfold end_all. rewrite fmap_cons. cbn [promise_all].
  destruct (then_ _ _ sys) as [o sys1]. cbn [fst snd].
  by destruct (promise_all _ sys1).
Qed.

Lemma end_one_state sys n :
  (suite_end n ;; delete_suite n)%promise sys =
  match _testSuites (wpts sys) !! n with
  | Some s => (outcome_map (fun _ => tt) (kill_all (drivers s) (world sys)).1, ended sys n s)
  | None => (Rejected (TypeError JUndefined "end"), sys)
  end.
Proof.
  destruct (_testSuites (wpts sys) !! n) as [s|] eqn:Hs; [by apply end_one_eq|].
  unfold then_, suite_end. by rewrite Hs.
Qed.

Lemma end_all_wf ns sys : sys_wf sys -> sys_wf (end_all ns sys).2.
Proof.
  revert sys. induction ns as [|n ns IH]; intros sys Hwf; [done|].
  rewrite end_all_cons. simpl. apply IH. rewrite end_one_state.
  destruct (_testSuites (wpts sys) !! n) as [s|] eqn:Hs; [by apply ended_wf | done].
Qed.

Lemma end_all_dom ns sys :
  dom (_testSuites (wpts (end_all ns sys).2)) ⊆ dom (_testSuites (wpts sys)).
Proof.
  revert sys. induction ns as [|n ns IH]; intros sys; [done|].
  rewrite end_all_cons. simpl. etrans; [apply IH|]. rewrite end_one_state.
  destruct (_testSuites (wpts sys) !! n) as [s|] eqn:Hs; [by apply ended_dom | done].
Qed.

Lemma end_all_keeps_closed ns sys h d :
  sessions (world sys) !! h = Some d -> drv_closed d = true ->
  sessions (world (end_all ns sys).2) !! h = Some d.
Proof.
  revert sys. induction ns as [|n ns IH]; intros sys Hh Hc; [done|].
  rewrite end_all_cons. simpl. apply IH; [|done]. rewrite end_one_state.
  destruct (_testSuites (wpts sys) !! n) as [s|]; [by apply ended_keeps_closed | done].
Qed.

(** Every session of every suite of the list is closed. *)
Lemma end_all_closes ns sys n s i h :
  sys_wf sys -> n ∈ ns -> _testSuites (wpts sys) !! n = Some s ->
  getTestInstance i s = Some h ->
  exists d, sessions (world (end_all ns sys).2) !! h = Some d /\ drv_closed d = true.
Proof.
  revert sys. induction ns as [|m ns IH]; intros sys Hwf Hin Hs Hi;
    [by apply elem_of_nil in Hin|].
  rewrite end_all_cons. simpl. rewrite end_one_state.
  destruct (decide (m = n)) as [->|Hne].
  - rewrite Hs. simpl. destruct (ended_closes sys n s i h Hwf Hs Hi) as (d & Hd & Hc).
    exists d. split; [|done]. by apply end_all_keeps_closed.
  - apply elem_of_cons in Hin as [->|Hin]; [done|].
    destruct (_testSuites (wpts sys) !! m) as [s'|] eqn:Hm; simpl.
    + apply IH; [by apply ended_wf | done | by rewrite ended_other | done].
    + by apply IH.
Qed.

(** When all the promises resolve, no suite of the list is left. *)
Lemma end_all_resolved ns sys l n :
  (end_all ns sys).1 = Resolved l -> n ∈ ns ->
  _testSuites (wpts (end_all ns sys).2) !! n = None.
Proof.
  revert sys l. induction ns as [|m ns IH]; intros sys l Hres Hin;
    [by apply elem_of_nil in Hin|].
  rewrite end_all_cons in Hres |- *. cbn zeta in *. cbn [fst snd] in *.
  destruct (then_ _ _ sys) as [[u|e|] sys1] eqn:Hone; cbn [fst snd] in *;
    [|by destruct (end_all ns sys1).1..].
  destruct (end_all ns sys1).1 as [l'|e|] eqn:Hrest; try done.
  apply elem_of_cons in Hin as [->|Hin]; [|by apply (IH sys1 l')].
  apply end_one_resolved, not_elem_of_dom in Hone. apply not_elem_of_dom.
  intros Hn. by apply Hone, (end_all_dom ns sys1).
Qed.

Lemma testSuiteIds_elem o n : n ∈ testSuiteIds o <-> is_Some (_testSuites o !! n).
Proof.
  unfold testSuiteIds. rewrite merge_sort_Permutation, elem_of_elements. apply elem_of_dom.
Qed.

Lemma endService_eq sys :
  endService sys =
  let E := end_all (testSuiteIds (wpts sys)) sys in
  let sys1 := MkSys (set_apiServer kill (wpts E.2)) (world E.2) in
  match E.1 with
  | Resolved _ => (Resolved tt, MkSys (set_availableTestSuiteId 0 (wpts sys1)) (world sys1))
  | Rejected e => (Rejected e, sys1)
  | Pending => (Pending, sys1)
  end.
Proof.
  unfold endService. by destruct (end_all _ sys) as [[l|e|] sys1].
Qed.

Lemma end_all_empty sys l :
  (end_all (testSuiteIds (wpts sys)) sys).1 = Resolved l ->
  _testSuites (wpts (end_all (testSuiteIds (wpts sys)) sys).2) = ∅.
Proof.
  intros Hres. apply map_empty. intros n.
  destruct (decide (n ∈ testSuiteIds (wpts sys))) as [Hn|Hn]; [by eapply end_all_resolved|].
  apply not_elem_of_dom. intros Hd%end_all_dom. by apply Hn, testSuiteIds_elem, elem_of_dom.
Qed.

(** C29. Ending the service releases everything: every session of every
    registered suite is closed, whichever of them fail to close, and the
    server stops listening; when no session failed to close, the registry
    is empty afterwards and the id counter is back at 0.  The system stays
    well formed. *)
Theorem endService_releases sys :
  sys_wf sys ->
  let o := (endService sys).1 in
  let sys' := (endService sys).2 in
  (forall n s i h,
     _testSuites (wpts sys) !! n = Some s -> getTestInstance i s = Some h ->
     exists d, sessions (world sys') !! h = Some d /\ drv_closed d = true) /\
  listening (_apiServer (wpts sys')) = false /\
  (o = Resolved tt ->
     _testSuites (wpts sys') = ∅ /\ _availableTestSuiteId (wpts sys') = 0) /\
  sys_wf sys'.
Proof.
  intros Hwf o sys'. subst o sys'. rewrite endService_eq. cbn zeta.
  pose proof (end_all_wf (testSuiteIds (wpts sys)) sys Hwf) as Hwf'.
  assert (forall n s i h,
    _testSuites (wpts sys) !! n = Some s -> getTestInstance i s = Some h ->
    exists d, sessions (world (end_all (testSuiteIds (wpts sys)) sys).2) !! h = Some d /\
      drv_closed d = true) as Hclosed.
  { intros n s i h Hs Hi. apply (end_all_closes _ sys n s i h); [done| |done|done].
    apply testSuiteIds_elem. eauto. }
  pose proof (end_all_empty sys) as Hempty.
  destruct (end_all (testSuiteIds (wpts sys)) sys) as [[l|e|] sys1]; simpl in *.
  - split_and!; [done | done | by eauto |].
    apply (sys_wf_reset (MkSys _ _)); [by apply sys_wf_apiServer | by eauto].
  - split_and!; [done | done | done | by apply sys_wf_apiServer].
  - split_and!; [done | done | done | by apply sys_wf_apiServer].
Qed.

(** ** Well-formedness is kept *)

Lemma suite_end_preserves n : preserves sys_wf (suite_end (D:=D) n).
Proof.
  apply preserves_pure_state. intros sys Hwf.
  destruct (_testSuites (wpts sys) !! n) as [s|] eqn:Hs;
    [|unfold suite_end; by rewrite Hs].
  rewrite (suite_end_eq sys n s) by done. simpl.
  destruct (kill_all_grows (drivers s) (world sys) (wf_world _ Hwf)) as (Hw & Hd & Hn).
  apply (sys_wf_world _ (world sys)); [|done..]. by apply (sys_wf_clear sys).
Qed.

Lemma delete_suite_preserves n : preserves sys_wf (delete_suite (D:=D) n).
Proof. apply preserves_pure_state. intros sys Hwf. by apply sys_wf_delete. Qed.

Lemma endTestSuite_preserves r args : preserves sys_wf (endTestSuite (D:=D) r args).
Proof.
  unfold endTestSuite. destruct (missingRequiredArgs r args _) as [[] r1]; [auto with wpts|].
  apply preserves_then; [auto with wpts|]. intros o.
  destruct (validTestSuiteId r1 _ o) as [[] r2]; simpl; [|auto with wpts].
  apply preserves_catch.
  - apply preserves_then.
    { unfold suite_end_at. case_match; auto using suite_end_preserves with wpts. }
    intros _. apply preserves_then; [|auto with wpts].
    unfold delete_suite_at. case_match; auto using delete_suite_preserves with wpts.
  - intros err. apply preserves_then; [apply read_prop_preserves | auto with wpts].
Qed.

(** A suite started within the range of the counter keeps the system well
    formed. *)
Lemma startTestSuite_preserves r :
  hoare (fun sys : Sys D => sys_wf sys /\ _availableTestSuiteId (wpts sys) ≤ MAX_SAFE_INTEGER)
    (startTestSuite r) (fun _ => sys_wf) sys_wf.
Proof. intros sys [Hwf Hmax]. rewrite startTestSuite_eq. by apply sys_wf_new_suite. Qed.

Lemma downloadBrowsers_preserves : preserves sys_wf (downloadBrowsers (D:=D)).
Proof.
  apply preserves_then; [auto with wpts|]. intros o.
  apply on_world_preserves, grows_promise_all.
  apply Forall_fmap, Forall_forall. intros bv _. apply downloadLocalBrowser_grows.
Qed.

Lemma startService_preserves : preserves sys_wf (startService (D:=D)).
Proof.
  apply preserves_then; [apply downloadBrowsers_preserves|]. intros _.
  apply preserves_pure_state. by intros sys [].
Qed.

(** ** Ids given out *)

Lemma ended_counters sys n s :
  _availableTestSuiteId (wpts (ended sys n s)) = _availableTestSuiteId (wpts sys) /\
  nextHandle (world (ended sys n s)) = nextHandle (world sys).
Proof.
  unfold ended. pose proof (kill_all_nextHandle (drivers s) (world sys)).
  by destruct (kill_all (drivers s) (world sys)) as [[l|e|] w'].
Qed.

Lemma suite_end_advances n : advances 0 (suite_end (D:=D) n).
Proof.
  intros sys. destruct (_testSuites (wpts sys) !! n) as [s|] eqn:Hs.
  - rewrite (suite_end_eq sys n s) by done. cbn [fst snd wpts world].
    rewrite kill_all_nextHandle. simpl. lia.
  - unfold suite_end. rewrite Hs. simpl. lia.
Qed.

Lemma delete_suite_advances n : advances 0 (delete_suite (D:=D) n).
Proof. intros sys. simpl. lia. Qed.

Lemma endTestSuite_advances r args : advances 0 (endTestSuite (D:=D) r args).
Proof.
  unfold endTestSuite. destruct (missingRequiredArgs r args _) as [[] r1]; [auto with wpts|].
  apply (advances_then 0 0); [auto with wpts|]. intros o.
  destruct (validTestSuiteId r1 _ o) as [[] r2]; simpl; [|auto with wpts].
  apply (advances_catch 0 0).
  - apply (advances_then 0 0).
    { unfold suite_end_at. case_match; auto using suite_end_advances with wpts. }
    intros _. apply (advances_then 0 0); [|auto with wpts].
    unfold delete_suite_at. case_match; auto using delete_suite_advances with wpts.
  - intros err. apply (advances_then 0 0); [|auto with wpts].
    apply advances_pure, read_prop_state.
Qed.

Lemma startTestSuite_advances r : advances 1 (startTestSuite (D:=D) r).
Proof.
  intros sys. rewrite startTestSuite_eq. simpl. split; [|lia]. unfold js_incr.
  repeat case_decide; lia.
Qed.

(** ** One response per request *)

Lemma startTestSuite_answers r : answers r (startTestSuite (D:=D) r).
Proof. intros sys r'. rewrite startTestSuite_eq. intros [= <-]. auto with wpts. Qed.

Lemma endTestSuite_answers r args : answers r (endTestSuite (D:=D) r args).
Proof.
  unfold endTestSuite. pose proof (missingRequiredArgs_res r args ["testSuiteId"]) as Hm.
  destruct (missingRequiredArgs r args _) as [[] r1]; [auto with wpts|subst r1].
  apply answers_then. intros o.
  pose proof (validTestSuiteId_res r (lookup_prop "testSuiteId" args) o) as Hv.
  destruct (validTestSuiteId r _ o) as [[] r2]; simpl; [subst r2|auto with wpts].
  apply answers_catch.
  - do 2 (apply answers_then; intros _). auto with wpts.
  - intros err. apply answers_then. auto with wpts.
Qed.

End lifecycle_facts.

(** A suite whose browser fails to close: the browser is closed all the
    same, and the server stops listening. *)
Lemma endService_releases_witness :
  (exists d, sessions (world (endService (sys_one env_quit_fails)).2) !! 0%nat = Some d /\
     drv_closed d = true) /\
  listening (_apiServer (wpts (endService (sys_one env_quit_fails)).2)) = false.
Proof.
  destruct (endService_releases (sys_one env_quit_fails)) as (Hclosed & Hl & _);
    [apply sys_one_wf|].
  split; [|done]. by apply (Hclosed 0 suite_one 0).
Defined.

(** The default configuration: five downloads, Chrome unstable left out,
    and the server listens. *)
Lemma startService_provisions_witness :
  downloaded (world (startService sys0).2) =
    [("chrome", "stable", 48); ("chrome", "beta", 48); ("firefox", "stable", 48);
     ("firefox", "beta", 48); ("firefox", "unstable", 48)] /\
  listening (_apiServer (wpts (startService sys0).2)) = true.
Proof.
  destruct (startService_provisions sys0) as (Hd & Hr & Hw & _).
  split; [by rewrite Hd|]. rewrite Hw.
  assert ((startService sys0).1 = Resolved tt) as Hok by by vm_compute.
  by rewrite decide_True.
Defined.

Lemma startTestSuite_fresh_witness :
  exists sys',
    startTestSuite fresh_res sys0 =
      (Resolved (sendValidResponse fresh_res (JObj [("testSuiteId", JNum 0)])), sys') /\
    _testSuites (wpts sys0) !! 0 = None /\
    (forall n, is_Some (_testSuites (wpts sys0) !! n) -> n < 0) /\
    _testSuites (wpts sys') = <[0 := TestSuite.create 0]> (_testSuites (wpts sys0)) /\
    _availableTestSuiteId (wpts sys') = 0 + 1 /\
    world sys' = world sys0 /\
    sys_wf sys'.
Proof. apply (startTestSuite_fresh sys0 fresh_res); [apply sys_of_wf | done]. Defined.

(** The session of the suite is closed although closing it failed, and the
    failure is reported. *)
Lemma endTestSuite_closes_witness :
  (exists d, sessions (world (endTestSuite fresh_res [("testSuiteId", JNum 0)]
                               (sys_one env_quit_fails)).2) !! 0%nat = Some d /\
     drv_closed d = true) /\
  (endTestSuite fresh_res [("testSuiteId", JNum 0)] (sys_one env_quit_fails)).1 =
    Resolved (sendErrorResponse fresh_res (JStr "webdriver_issue")
      "An issue occured while attempting to get the subscription: cannot quit").
Proof.
  split; [|by vm_compute].
  destruct (endTestSuite_closes (sys_one env_quit_fails) fresh_res
              [("testSuiteId", JNum 0)] 0 suite_one) as [Hclosed _];
    [apply sys_one_wf | done | done |].
  by apply (Hclosed 0).
Defined.
