(* ===== verification/Subscribe.v ===== *)
(** * Obtaining a subscription

    [getSubscription] and [initiateTestInstance] of [src/src/index.js]:
    validation of the request, the browser's preferences, the launch of a
    session, and the chain of driver commands that takes the page from
    loading the harness to a subscription. *)

From stdpp Require Import base option list strings gmap pretty sorting.
From S2P Require Import Prelude JsValue ApiServer Driver Browser Selenium Suite Wpts Fixtures.
From S2P Require Import Checks Scripts Lifecycle.

Import APIServer.

Local Open Scope Z_scope.
Local Open Scope promise_scope.

(** ** Preferences and the harness URL *)

(** The Chromium preferences that allow notifications for the server's
    origin. *)
Definition blinkPreferences (url : string) : jsval :=
  JObj [("profile",
    JObj [("content_settings",
      JObj [("exceptions",
        JObj [("notifications",
          JObj [(url +:+ ",*", JObj [("setting", JNum 1)])])])])])].

(** The preferences [initiateTestInstance] sets, by browser. *)
Definition grant_notifications (url : string) (b : localBrowser) : localBrowser :=
  if decide (getId b = "chrome" \/ getId b = "opera") then
    with_options (setUserPreferences (blinkPreferences url)) b
  else if decide (getId b = "firefox") then
    with_options (fun o =>
      setPreference "notification.prompt.testing.allow" (JBool true)
        (setPreference "notification.prompt.testing" (JBool true)
           (setPreference "dom.push.testing.ignorePermission" (JBool true) o))) b
  else b.

(** The query string that carries the optional arguments to the harness. *)
Definition urlGETArgs (optionalArgs : jsobj) : string :=
  let optionalArgKeys := keys optionalArgs in
  if decide (0 < length optionalArgKeys)%nat then
    "?" +:+ join "&"
      ((fun argKey => argKey +:+ "=" +:+ toString (lookup_prop argKey optionalArgs))
         <$> optionalArgKeys)
  else "".

(** The error thrown when the service worker failed to register. *)
Definition sw_errorDetails (error : jsval) : jsval :=
  JObj [("code", JStr "unable_to_reg_service_worker");
        ("message", JStr ("There was an error when registering the service worker. "
                          +:+ dquote +:+ toString error +:+ dquote +:+ "."))].

(** The error thrown when subscribing failed. *)
Definition sub_errorDetails (error : jsval) : jsval :=
  JObj [("code", JStr "unable_to_get_subscription"); ("message", error)].

Section subscribe.
Context {D : Type} `{Driver D}.

(** ** Subscriptions *)

(** What [initiateTestInstance] does with the driver once the instance is
    registered: load the harness, wait for it, start it, wait for the
    service worker and for the subscription, and report either. *)
Definition subscribe_flow (fuel : nat) (url : string) (testInstanceId : Z) :
    Promise jsval D jsval :=
  drv_get url ;;
  wait fuel (drv_executeScript script_loaded) 0 ;;
  drv_executeScript script_start ;;
  wait fuel (drv_executeScript script_swRegistered_defined) 0 ;;
  swRegistered <- drv_executeScript script_swRegistered ;;
  error <- read_prop swRegistered "error" ;;
  (if truthy error then reject (sw_errorDetails error) else resolve tt) ;;
  wait fuel (drv_executeScript script_subscription_defined) 0 ;;
  subscription <- drv_executeScript script_subscription ;;
  error <- read_prop subscription "error" ;;
  if truthy error then reject (sub_errorDetails error)
  else resolve (JObj [("testId", JNum testInstanceId); ("subscription", subscription)]).

(** [testSuite.addTestInstance(driver)] on [this._testSuites[key]]: the
    suite is updated in place; a [TypeError] when there is no such suite. *)
Definition add_instance_at (key : jsval) (h : nat) : Promise jsval (Sys D) Z :=
  fun sys =>
    match key with
    | JNum n =>
        match _testSuites (wpts sys) !! n with
        | Some testSuite =>
            let '(testInstanceId, testSuite') := TestSuite.addTestInstance h testSuite in
            (Resolved testInstanceId,
             MkSys (set_testSuites (insert n testSuite') (wpts sys)) (world sys))
        | None => (Rejected (TypeError JUndefined "addTestInstance"), sys)
        end
    | _ => (Rejected (TypeError JUndefined "addTestInstance"), sys)
    end.

(** [this.initiateTestInstance(testSuiteId, optionalArgs, browser)] *)
Definition initiateTestInstance (fuel : nat) (testSuiteId : jsval) (optionalArgs : jsobj)
    (seleniumAssistantBrowser : localBrowser) : Promise jsval (Sys D) jsval :=
  on_world del_temp ;;
  o <- gets wpts ;;
  let url := getUrl (_apiServer o) in
  driver <- on_world (getSeleniumDriver (grant_notifications url seleniumAssistantBrowser)) ;;
  testInstanceId <- add_instance_at testSuiteId driver ;;
  on_world (with_session driver
    (subscribe_flow fuel (url +:+ "/" +:+ urlGETArgs optionalArgs) testInstanceId)).

Definition browser_name_message (o : WPTS) (browserName : jsval) : string :=
  "browserName should be one of the following values: " +:+
  join ", " (_supportedBrowsers o) +:+ ". Found " +:+ typeof browserName +:+ ".".

Definition browser_version_message (o : WPTS) (browserVersion : jsval) : string :=
  "browserVersion should be one of the following values: " +:+
  join ", " (_supportedBrowserVersions o) +:+ ". Found " +:+ typeof browserVersion +:+ ".".

Definition browser_not_found_message : string :=
  "Unable to find the requested browser. This is likely an issue" +:+
  "the push testing service.".

Definition bad_browser_support_message : string :=
  "Unforuntately Firefox version 49 and below has poor selenium " +:+
  "support or doesn't allow notifications automatically and isn't " +:+
  "supported as a result.".

(** The [catch] of [getSubscription]: an error with a code and a message is
    reported under its own code, any other as [webdriver_issue]. *)
Definition subscription_failed (r : res) (err : jsval) : Promise jsval (Sys D) res :=
  code <- read_prop err "code" ;;
  message <- read_prop err "message" ;;
  if truthy code && truthy message
  then resolve (sendErrorResponse r code (issue_message message))
  else resolve (sendErrorResponse r (JStr "webdriver_issue") (issue_message message)).

(** The end of [getSubscription], once the request has passed the checks:
    the instance is initiated and its details, or the error, answered. *)
Definition launch (fuel : nat) (r : res) (testSuiteId : jsval)
    (webDriverInstance : localBrowser) (optionalArgs : jsobj) : Promise jsval (Sys D) res :=
  catch_
    (testDetails <- initiateTestInstance fuel testSuiteId optionalArgs webDriverInstance ;;
     resolve (sendValidResponse r testDetails))
    (subscription_failed r).

(** [this.getSubscription(res, args)] *)
Definition getSubscription (fuel : nat) (r : res) (args : jsobj) : Promise jsval (Sys D) res :=
  let requiredFields := ["testSuiteId"; "browserName"; "browserVersion"] in
  let '(missing, r) := missingRequiredArgs r args requiredFields in
  if missing then resolve r else
  sys <- get_state ;;
  let o := wpts sys in
  let '(valid, r) := validTestSuiteId r (lookup_prop "testSuiteId" args) o in
  if negb valid then resolve r else
  let browserName := lookup_prop "browserName" args in
  let browserVersion := lookup_prop "browserVersion" args in
  if negb (truthy browserName) ||
     bool_decide (indexOf_str browserName (_supportedBrowsers o) = -1)
  then resolve (sendErrorResponse r (JStr "invalid_browser_name")
                  (browser_name_message o browserName)) else
  if negb (truthy browserVersion) ||
     bool_decide (indexOf_str browserVersion (_supportedBrowserVersions o) = -1)
  then resolve (sendErrorResponse r (JStr "invalid_browser_version")
                  (browser_version_message o browserVersion)) else
  match getLocalBrowser (toString browserName) (toString browserVersion) (world sys) with
  | None => resolve (sendErrorResponse r (JStr "browser_not_found") browser_not_found_message)
  | Some webDriverInstance =>
      if bool_decide (getId webDriverInstance = "firefox") &&
         bool_decide (getVersionNumber webDriverInstance ≤ 48)
      then resolve (sendErrorResponse r (JStr "bad_browser_support")
                      bad_browser_support_message) else
      let vapidPublicKey := lookup_prop "vapidPublicKey" args in
      if truthy vapidPublicKey && bool_decide (typeof vapidPublicKey ≠ "string")
      then resolve (sendErrorResponse r (JStr "invalid_vapid_key")
                      "Your vapid public key must be a string.") else
      let optionalArgs : jsobj :=
        if truthy vapidPublicKey then [("vapidPublicKey", vapidPublicKey)] else [] in
      launch fuel r (lookup_prop "testSuiteId" args) webDriverInstance optionalArgs
  end.

(** ** The validation contract

    What a request is answered with before any browser is touched: the
    checks in the order in which they are made, as a decision on the
    request, the registry and the browsers that are installed. *)

Inductive verdict : Type :=
  | Refuse (id : string) (message : string)
  | Launch (n : Z) (b : localBrowser) (optionalArgs : jsobj).

(** A value of the allow-list [l]: a string, not empty, and listed. *)
Definition supported (v : jsval) (l : list string) : bool :=
  match v with
  | JStr s => bool_decide (s <> "" /\ s ∈ l)
  | _ => false
  end.

Definition validate (args : jsobj) (o : WPTS) (w : World D) : verdict :=
  let field k := lookup_prop k args in
  let requiredFields := ["testSuiteId"; "browserName"; "browserVersion"] in
  if decide (Forall (fun f => present f args) requiredFields) then
    match field "testSuiteId" with
    | JNum n =>
        if decide (is_Some (_testSuites o !! n)) then
          if negb (supported (field "browserName") (_supportedBrowsers o))
          then Refuse "invalid_browser_name" (browser_name_message o (field "browserName")) else
          if negb (supported (field "browserVersion") (_supportedBrowserVersions o))
          then Refuse "invalid_browser_version"
                 (browser_version_message o (field "browserVersion")) else
          match getLocalBrowser (toString (field "browserName"))
                  (toString (field "browserVersion")) w with
          | None => Refuse "browser_not_found" browser_not_found_message
          | Some b =>
              if decide (getId b = "firefox" /\ getVersionNumber b <= 48)
              then Refuse "bad_browser_support" bad_browser_support_message else
              match field "vapidPublicKey" with
              | JStr k =>
                  Launch n b (if decide (k = "") then [] else [("vapidPublicKey", JStr k)])
              | v =>
                  if truthy v
                  then Refuse "invalid_vapid_key" "Your vapid public key must be a string."
                  else Launch n b []
              end
          end
        else Refuse "invalid_test_suite_id" (unknown_suite_message n)
    | v => Refuse "invalid_variable_type" (not_number_message "testSuiteId" v)
    end
  else Refuse "missing_required_args" (missing_message args requiredFields).

End subscribe.

(** * Properties that hold of every driver *)

Section subscribe_facts.
Context {D : Type} `{Driver D}.
Implicit Types (sys : Sys D) (r : res) (args : jsobj) (fuel : nat) (o : WPTS).

(** The allow-list test of the handler is [supported]. *)
Lemma supported_indexOf v l :
  negb (truthy v) || bool_decide (indexOf_str v l = -1) = negb (supported v l).
Proof.
  destruct v as [| |b|n|s|o|a]; simpl; try (by rewrite ?orb_true_r).
  destruct (String.eqb_spec s "") as [->|Hs]; simpl.
  - by rewrite ?bool_decide_eq_false_2 by by intros [? _].
  - rewrite <- bool_decide_not. apply bool_decide_ext.
    rewrite indexOf_absent_iff. tauto.
Qed.

Lemma missingRequiredArgs_present r args req :
  NoDup req ->
  missingRequiredArgs r args req =
  if decide (Forall (fun f => present f args) req) then (false, r)
  else (true, sendErrorResponse r (JStr "missing_required_args") (missing_message args req)).
Proof.
  intros Hnd. case_decide as Hp.
  - apply missingRequiredArgs_false; [done|]. by apply required_present.
  - apply not_Forall_Exists in Hp; [|apply _]. apply Exists_exists in Hp as (f & Hf & Hn).
    apply (missingRequiredArgs_true _ _ _ f); [done | done |].
    unfold present in Hn. by apply dec_stable.
Qed.

(** The checks of [getSubscription] are those of [validate], in its
    order; a refused request gets its one error response and changes
    nothing; an accepted one launches the instance. *)
Lemma getSubscription_validate fuel r args sys :
  getSubscription fuel r args sys =
  match validate args (wpts sys) (world sys) with
  | Refuse id message => (Resolved (sendErrorResponse r (JStr id) message), sys)
  | Launch n b optionalArgs => launch fuel r (JNum n) b optionalArgs sys
  end.
Proof.
  unfold getSubscription, validate.
  rewrite missingRequiredArgs_present by compute_done. case_decide as Hp; [|done].
  unfold then_ at 1, get_state. rewrite validTestSuiteId_cases.
  destruct (lookup_prop "testSuiteId" args) as [| |b0|n|s0|f0|a0]; try done.
  case_decide as Hs; [simpl|done]. rewrite !supported_indexOf.
  destruct (supported (lookup_prop "browserName" args) _); [simpl|done].
  destruct (supported (lookup_prop "browserVersion" args) _); [simpl|done].
  destruct (getLocalBrowser _ _ _) as [b|]; [|done].
  rewrite <- bool_decide_and, bool_decide_decide. case_decide as Hb; [done|].
  destruct (lookup_prop "vapidPublicKey" args) as [| |b1|k|s1|f1|a1] eqn:Hv; try done.
  - by destruct b1.
  - simpl. by destruct (k =? 0).
  - simpl. by destruct (String.eqb_spec s1 ""); case_decide.
Qed.

(** The system once a session [d] has been launched with [b] for suite
    [n] and registered as its next instance. *)
Definition launch_state (n : Z) (st : TestSuite.t) (b : localBrowser) (d : D) (sys : Sys D) :
    Sys D :=
  let w := world sys in
  let h := nextHandle w in
  MkSys (set_testSuites (insert n (TestSuite.addTestInstance h st).2) (wpts sys))
    (MkWorld (<[h := d]> (sessions w)) (S h) (launched w ++ [(h, b)]) (localBrowsers w)
       (spawn w) (downloadErrors w) (downloaded w) false (delError w)).

(** [initiateTestInstance] when the launch succeeds: the instance is
    registered under the suite's next id, and the outcome is that of the
    driver chain on the new session. *)
Lemma initiateTestInstance_eq fuel n opt b sys st d :
  delError (world sys) = None ->
  spawn (world sys) (nextHandle (world sys))
    (grant_notifications (getUrl (_apiServer (wpts sys))) b) = Resolved d ->
  _testSuites (wpts sys) !! n = Some st ->
  initiateTestInstance fuel (JNum n) opt b sys =
  let url := getUrl (_apiServer (wpts sys)) in
  let F := subscribe_flow fuel (url +:+ "/" +:+ urlGETArgs opt)
             (TestSuite._availableTestInstanceId st) d in
  (F.1, launch_state n st (grant_notifications url b) F.2 sys).
Proof.
  intros Hdel Hsp Hst. unfold initiateTestInstance.
  unfold then_ at 1, on_world, zoom, del_temp. rewrite Hdel. simpl.
  unfold then_ at 1, gets. simpl.
  unfold then_ at 1, zoom, getSeleniumDriver. simpl. rewrite Hsp. simpl.
  unfold then_ at 1, add_instance_at. simpl. rewrite Hst. simpl.
  unfold zoom. simpl. rewrite (with_session_eq _ _ _ d) by apply lookup_insert_eq.
  unfold launch_state, set_sessions. simpl. by rewrite insert_insert_eq, Hdel.
Qed.

(** The launch of [b] succeeds and yields the session [d]. *)
Definition launches (sys : Sys D) (b : localBrowser) (d : D) : Prop :=
  delError (world sys) = None /\
  spawn (world sys) (nextHandle (world sys))
    (grant_notifications (getUrl (_apiServer (wpts sys))) b) = Resolved d.

Lemma validate_Launch args o (w : World D) n b opt :
  validate args o w = Launch n b opt -> is_Some (_testSuites o !! n).
Proof.
  unfold validate. repeat (case_decide || case_match); try done; by intros [= <- _ _].
Qed.

(** An accepted request whose launch succeeds: the instance is
    registered, and the answer is by the outcome of the driver chain. *)
Lemma getSubscription_launch fuel r args sys n b opt d :
  validate args (wpts sys) (world sys) = Launch n b opt -> launches sys b d ->
  exists st, _testSuites (wpts sys) !! n = Some st /\
    getSubscription fuel r args sys =
    let url := getUrl (_apiServer (wpts sys)) in
    let F := subscribe_flow fuel (url +:+ "/" +:+ urlGETArgs opt)
               (TestSuite._availableTestInstanceId st) d in
    let sys' := launch_state n st (grant_notifications url b) F.2 sys in
    match F.1 with
    | Resolved testDetails => (Resolved (sendValidResponse r testDetails), sys')
    | Rejected err => subscription_failed r err sys'
    | Pending => (Pending, sys')
    end.
Proof.
  intros Hv [Hdel Hsp]. destruct (validate_Launch _ _ _ _ _ _ Hv) as [st Hst].
  exists st. split; [done|]. rewrite getSubscription_validate, Hv.
  unfold launch, catch_, then_ at 1. rewrite (initiateTestInstance_eq _ _ _ _ _ st d) by done.
  simpl. by destruct (subscribe_flow _ _ _ d) as [[td|err|] d'].
Qed.

(** What the [catch] answers to an error thrown with a code. *)
Lemma subscription_failed_coded r code message sys :
  truthy code = true -> truthy message = true ->
  subscription_failed r (JObj [("code", code); ("message", message)]) sys =
  (Resolved (sendErrorResponse r code (issue_message message)), sys).
Proof.
  intros Hc Hm. unfold subscription_failed, then_, read_prop. simpl. by rewrite Hc, Hm.
Qed.

(** What it answers to an error without a code. *)
Lemma subscription_failed_plain r message sys :
  subscription_failed r (mkError message) sys =
  (Resolved (sendErrorResponse r (JStr "webdriver_issue") (issue_message (JStr message))), sys).
Proof. reflexivity. Qed.

(** No subscription in a suite that is not registered. *)
Lemma getSubscription_unknown fuel r args sys n :
  Forall (fun f => present f args) ["testSuiteId"; "browserName"; "browserVersion"] ->
  lookup_prop "testSuiteId" args = JNum n -> _testSuites (wpts sys) !! n = None ->
  getSubscription fuel r args sys =
  (Resolved (sendErrorResponse r (JStr "invalid_test_suite_id") (unknown_suite_message n)),
   sys).
Proof.
  intros Hreq Hn Hs. rewrite getSubscription_validate. unfold validate.
  by rewrite decide_True, Hn, decide_False by (done || by rewrite Hs; intros []).
Qed.

(** ** Well-formedness is kept *)

(** Handles are within the range in which the instance counters are
    exact. *)
Definition handles_in_range (sys : Sys D) : Prop :=
  sys_wf sys /\ Z.of_nat (nextHandle (world sys)) ≤ MAX_SAFE_INTEGER.

(** The state between the launch of a session and its registration in a
    suite: the session [h] is the latest and no suite owns it. *)
Definition launched_free (h : nat) (sys : Sys D) : Prop :=
  sys_wf sys /\ nextHandle (world sys) = S h /\ is_Some (sessions (world sys) !! h) /\
  ~ owned sys h /\ Z.of_nat h ≤ MAX_SAFE_INTEGER /\
  forall n st, _testSuites (wpts sys) !! n = Some st ->
    TestSuite._availableTestInstanceId st ≤ Z.of_nat h.

Lemma getSeleniumDriver_launched b :
  hoare handles_in_range (on_world (getSeleniumDriver b)) launched_free sys_wf.
Proof.
  intros sys [Hwf Hmax].
  pose proof (preserves_state _ _ sys
                (on_world_preserves _ (getSeleniumDriver_grows b)) Hwf) as Hwf'.
  unfold on_world, zoom, getSeleniumDriver in *.
  destruct (spawn (world sys) _ b) as [d|e|]; simpl in *; [|done..].
  split_and!; simpl; [done | done | by rewrite lookup_insert_eq | | lia |].
  - intros (n & s & i & Hn & Hi). pose proof (wf_handles sys Hwf n s i _ Hn Hi) as Hs.
    apply (wf_world sys Hwf) in Hs. lia.
  - intros n st Hn. by apply (wf_suites sys Hwf) in Hn as (_ & _ & _ & ?).
Qed.

Lemma add_instance_at_wf key h :
  hoare (launched_free h) (add_instance_at key h) (fun _ => sys_wf) sys_wf.
Proof.
  intros sys (Hwf & Hnext & Hsome & Hfree & Hmax & Hcnt). unfold add_instance_at.
  destruct key as [| |b|n|s|f|a]; try done.
  destruct (_testSuites (wpts sys) !! n) as [st|] eqn:Hn; [simpl|done].
  assert (h = pred (nextHandle (world sys))) as -> by lia.
  apply sys_wf_register; [done | done | done | done |]. split; [by eapply Hcnt | done].
Qed.

Lemma initiateTestInstance_wf fuel key opt b :
  hoare handles_in_range (initiateTestInstance fuel key opt b) (fun _ => sys_wf) sys_wf.
Proof.
  unfold initiateTestInstance.
  apply (hoare_then _ _ _ (fun _ => handles_in_range)).
  { intros [o w] [Hwf Hmax]. unfold on_world, zoom, del_temp. simpl in *.
    destruct (delError w); simpl; [done|]. split; [|done]. by destruct Hwf. }
  intros _. apply (hoare_then _ _ _ (fun _ => handles_in_range)); [by intros sys Hs|].
  intros o. apply (hoare_then _ _ _ launched_free); [apply getSeleniumDriver_launched|].
  intros h. apply (hoare_then _ _ _ (fun _ => sys_wf)); [apply add_instance_at_wf|].
  intros i. apply on_world_preserves, with_session_grows.
Qed.

Lemma subscription_failed_preserves (I : Sys D -> Prop) r err :
  preserves I (subscription_failed r err).
Proof.
  unfold subscription_failed. apply preserves_then; [auto with wpts|]. intros code.
  apply preserves_then; [auto with wpts|]. intros message. case_match; auto with wpts.
Qed.

Lemma launch_wf fuel r n opt b :
  hoare handles_in_range (launch fuel r (JNum n) b opt) (fun _ => sys_wf) sys_wf.
Proof.
  apply (hoare_catch _ _ _ _ _ sys_wf); [|intros err|done].
  - apply (hoare_then _ _ _ (fun _ => sys_wf)); [apply initiateTestInstance_wf|].
    intros td. apply preserves_resolve.
  - apply subscription_failed_preserves.
Qed.

(** [getSubscription] keeps the system well formed, however it ends. *)
Lemma getSubscription_wf fuel r args :
  hoare handles_in_range (getSubscription fuel r args) (fun _ => sys_wf) sys_wf.
Proof.
  intros sys Hs. rewrite getSubscription_validate.
  destruct (validate args (wpts sys) (world sys)) as [id m|n b opt]; [by destruct Hs|].
  by apply launch_wf.
Qed.

(** ** Ids given out *)

Lemma initiateTestInstance_advances fuel key opt b :
  advances 1 (initiateTestInstance fuel key opt b).
Proof.
  unfold initiateTestInstance. apply (advances_then 0 1).
  { apply advances_on_world. intros w. unfold del_temp. destruct (delError w); simpl; lia. }
  intros _. apply (advances_then 0 1); [auto with wpts|]. intros o.
  apply (advances_then 1 0).
  { apply advances_on_world. intros w. unfold getSeleniumDriver.
    destruct (spawn w _ _); simpl; lia. }
  intros h. apply (advances_then 0 0); [|auto with wpts].
  intros sys. unfold add_instance_at. repeat case_match; simpl; lia.
Qed.

Lemma getSubscription_advances fuel r args : advances 1 (getSubscription fuel r args).
Proof.
  intros sys. rewrite getSubscription_validate.
  destruct (validate args (wpts sys) (world sys)) as [id m|n b opt]; [simpl; lia|].
  apply (advances_catch 1 0).
  - apply (advances_then 1 0); [apply initiateTestInstance_advances | auto with wpts].
  - intros err. apply advances_pure. intros sys'. unfold subscription_failed, then_.
    pose proof (read_prop_state err "code" sys').
    destruct (read_prop err "code" sys') as [[c|e|] s1]; simpl in *; subst; try done.
    pose proof (read_prop_state err "message" sys').
    destruct (read_prop err "message" sys') as [[m|e|] s2]; simpl in *; subst; try done.
    by case_match.
Qed.

(** ** The registry *)

Lemma launch_unregistered fuel r n' opt b n :
  preserves (fun sys : Sys D => _testSuites (wpts sys) !! n = None)
    (launch fuel r (JNum n') b opt).
Proof.
  apply preserves_catch; [|intros err; apply subscription_failed_preserves].
  apply preserves_then; [|auto with wpts]. unfold initiateTestInstance.
  set (I := fun o : WPTS => _testSuites o !! n = None).
  apply preserves_then; [apply (on_world_preserves_wpts I)|]. intros _.
  apply preserves_then; [auto with wpts|]. intros o.
  apply preserves_then; [apply (on_world_preserves_wpts I)|]. intros h.
  apply preserves_then; [|intros i; apply (on_world_preserves_wpts I)].
  apply preserves_pure_state. intros sys Hn. unfold add_instance_at.
  destruct (_testSuites (wpts sys) !! n') as [st|] eqn:Hn'; [simpl|done].
  rewrite lookup_insert_ne; [done|]. by intros ->; rewrite Hn in Hn'.
Qed.

(** [getSubscription] registers no suite. *)
Lemma getSubscription_unregistered fuel r args n :
  preserves (fun sys : Sys D => _testSuites (wpts sys) !! n = None)
    (getSubscription fuel r args).
Proof.
  intros sys Hn. rewrite getSubscription_validate.
  destruct (validate args (wpts sys) (world sys)) as [id m|n' b opt]; [done|].
  by apply launch_unregistered.
Qed.

(** ** One response per request *)

Lemma getSubscription_answers fuel r args : answers r (getSubscription fuel r args).
Proof.
  intros sys r'. rewrite getSubscription_validate.
  destruct (validate args (wpts sys) (world sys)) as [id m|n b opt].
  - intros [= <-]. auto with wpts.
  - revert sys r'. apply answers_catch.
    + apply answers_then. auto with wpts.
    + intros err. unfold subscription_failed. do 2 (apply answers_then; intros ?).
      case_match; auto with wpts.
Qed.

End subscribe_facts.

(** * Subscribing in a browser

    The chain of driver commands on the sessions of [Browser], when the
    harness cooperates: it loads, and reports a result for the service
    worker. *)

Section subscribe_browser.
Implicit Types (s : session) (e : harnessEnv) (fuel : nat).
Local Open Scope N_scope.

(** The harness loads [dl] milliseconds after navigation and reports [v1]
    for the service worker [d1] milliseconds after its start; commands
    take time and the browser stays connected. *)
Record cooperative (e : harnessEnv) (dl d1 : N) (v1 : jsval) : Prop := {
  coop_latency : (0 < latency e)%N;
  coop_navigate : navigateError e = None;
  coop_connected : disconnectAt e = None;
  coop_load : loadDelay e = Some dl;
  coop_sw : swResult e = Some (d1, v1);
  coop_sw_defined : typeof v1 <> "undefined"
}.

(** The page has loaded, in a cooperative environment. *)
Definition loaded_page e (nav : N) (st : option N) s : Prop :=
  page e nav st s /\ harness_loaded s = true.

Section cooperative.
Context {e : harnessEnv} {dl d1 : N} {v1 : jsval} (Hco : cooperative e dl d1 v1).

Lemma page_open nav st s :
  page e nav st s ->
  closed s = false /\ disconnectAt (env s) = None /\ (0 < latency (env s))%N /\
  page e nav st (arrive s).
Proof.
  intros Hp. pose proof Hp as (He & Hc & _). rewrite He.
  split_and!; [done | apply Hco | apply Hco | by apply arrive_page].
Qed.

Lemma loaded_page_open nav st s :
  loaded_page e nav st s ->
  closed s = false /\ disconnectAt (env s) = None /\ (0 < latency (env s))%N /\
  loaded_page e nav st (arrive s).
Proof.
  intros [Hp Hl]. destruct (page_open nav st s Hp) as (Hc & Hd & Hlat & Ha).
  split_and!; [done | done | done | split; [done|]].
  eapply harness_loaded_mono; [| | |exact Hl]; simpl; [done | done | lia].
Qed.

(** A script that reads a field of the harness object, on a loaded page. *)
Lemma session_read field (val : harness -> jsval) nav st s :
  loaded_page e nav st s ->
  session_executeScript (on_harness field (fun h => (val h, h))) s =
  (Resolved (val (harness_of (arrive s))), arrive s).
Proof.
  intros Hp. destruct (loaded_page_open nav st s Hp) as (Hc & Hd & _ & _ & Hl).
  apply session_executeScript_open; [done | done |].
  by rewrite window_of_loaded, on_harness_defined.
Qed.

(** The first wait: until the harness has loaded. *)
Lemma wait_loaded fuel nav s :
  page e nav None s -> (N.to_nat (nav + dl - clock s) < fuel)%nat ->
  exists v s', wait fuel (session_executeScript script_loaded) 0 s = (Resolved v, s') /\
    loaded_page e nav None s'.
Proof.
  intros Hp Hfuel.
  destruct (session_wait_until fuel script_loaded
              (fun s' => if harness_loaded s' then JBool true else JUndefined)
              (page e nav None) (nav + dl) s) as (v & s' & Hw & Hp' & HT);
    [apply page_open | | | done | done |].
  - intros s' _. unfold window_of. by destruct (harness_loaded s').
  - intros s' Hp'. rewrite <- (page_loaded e nav None dl s' Hp' (coop_load _ _ _ _ Hco)).
    by destruct (harness_loaded s').
  - exists v, s'. split; [done|]. split; [done|].
    by apply (page_loaded e nav None dl s' Hp' (coop_load _ _ _ _ Hco)).
Qed.

(** [start()] dates the start of the harness. *)
Lemma session_start nav s :
  loaded_page e nav None s ->
  exists s', session_executeScript script_start s = (Resolved JUndefined, s') /\
    loaded_page e nav (Some (clock s + latency e)) s' /\
    clock s' = (clock s + latency e)%N.
Proof.
  intros Hp. destruct (loaded_page_open nav None s Hp) as (Hc & Hd & _ & [Hp' Hl]).
  unfold session_executeScript. rewrite command_open by done.
  rewrite window_of_loaded by done. unfold script_start. rewrite on_harness_defined.
  eexists. split; [done|]. destruct Hp' as (He & Hc' & Hn & Hs).
  unfold write_back. simpl in *. rewrite <- He, Hs. simpl.
  by split_and!.
Qed.

(** The second wait: until the service worker has a result. *)
Lemma wait_swRegistered fuel nav t1 s :
  loaded_page e nav (Some t1) s -> (N.to_nat (t1 + d1 - clock s) < fuel)%nat ->
  exists v s', wait fuel (session_executeScript script_swRegistered_defined) 0 s =
      (Resolved v, s') /\
    loaded_page e nav (Some t1) s' /\ (t1 + d1 <= clock s')%N.
Proof.
  intros Hp Hfuel.
  apply (session_wait_until fuel script_swRegistered_defined
           (fun s' => JBool (bool_decide (typeof (sw_now s') <> "undefined"))));
    [apply loaded_page_open | | | done | done].
  - intros s' [_ Hl]. unfold script_swRegistered_defined.
    by rewrite window_of_loaded, on_harness_defined.
  - intros s' [Hp' _]. simpl. rewrite bool_decide_eq_true.
    rewrite (sw_now_page e nav t1 d1 v1 s' Hp' (coop_sw _ _ _ _ Hco)).
    destruct (N.leb_spec (t1 + d1) (clock s')); [|split; [done | lia]].
    split; [done | intros _; apply Hco].
Qed.

(** Reading the result of the service worker, once it is there. *)
Lemma read_swRegistered nav t1 s :
  loaded_page e nav (Some t1) s -> (t1 + d1 <= clock s)%N ->
  session_executeScript script_swRegistered s = (Resolved v1, arrive s).
Proof.
  intros Hp Ht. unfold script_swRegistered. rewrite (session_read _ _ nav (Some t1)) by done.
  destruct (loaded_page_open nav (Some t1) s Hp) as (_ & _ & _ & [Hp' _]).
  simpl. rewrite (sw_now_page e nav t1 d1 v1 _ Hp' (coop_sw _ _ _ _ Hco)).
  by rewrite (proj2 (N.leb_le _ _)) by (simpl; lia).
Qed.

(** The chain up to the result of the service worker: whatever follows
    runs with that result, on a loaded page whose harness has started. *)
Lemma flow_worker fuel url s :
  closed s = false -> env s = e -> (N.to_nat dl < fuel)%nat -> (N.to_nat d1 < fuel)%nat ->
  exists nav t1 s2,
    loaded_page e nav (Some t1) s2 /\ t1 + d1 <= clock s2 /\
    forall A (k : jsval -> Promise jsval session A),
      (drv_get url ;;
       wait fuel (drv_executeScript script_loaded) 0 ;;
       drv_executeScript script_start ;;
       wait fuel (drv_executeScript script_swRegistered_defined) 0 ;;
       swRegistered <- drv_executeScript script_swRegistered ;;
       k swRegistered)%promise s = k v1 s2.
Proof.
  intros Hc He Hdl Hd1.
  destruct (session_get_page url s) as (s0 & Hget & Hp0 & Hc0);
    [done | rewrite He; apply Hco | rewrite He; apply Hco |].
  rewrite He in Hp0, Hc0. set (nav := clock s + latency e) in *.
  destruct (wait_loaded fuel nav s0 Hp0) as (v & s1 & Hw1 & Hp1); [lia|].
  destruct (session_start nav s1 Hp1) as (s1' & Hst & Hp1' & Hc1).
  destruct (wait_swRegistered fuel nav _ s1' Hp1') as (v' & s2 & Hw2 & Hp2 & Ht2); [lia|].
  exists nav, (clock s1 + latency e), (arrive s2).
  split_and!; [by apply loaded_page_open | simpl; lia |]. intros A k.
  promise_next Hget. promise_next Hw1. promise_next Hst. promise_next Hw2.
  by promise_next (read_swRegistered nav _ s2 Hp2 Ht2).
Qed.

(** When the service worker reports an error the chain rejects with it,
    under the code [unable_to_reg_service_worker]. *)
Lemma subscribe_flow_sw_error fuel url i s error :
  closed s = false -> env s = e -> (N.to_nat dl < fuel)%nat -> (N.to_nat d1 < fuel)%nat ->
  get_prop v1 "error" = Some error -> truthy error = true ->
  exists s', subscribe_flow fuel url i s = (Rejected (sw_errorDetails error), s') /\
    closed s' = false.
Proof.
  intros Hc He Hdl Hd1 Hv1 Herr. unfold subscribe_flow.
  destruct (flow_worker fuel url s) as (nav & t1 & s2 & [Hp _] & _ & ->); [done..|].
  exists s2. unfold then_ at 1, read_prop. rewrite Hv1. simpl.
  unfold then_ at 1. rewrite Herr. simpl. split; [done | apply Hp].
Qed.

Section subscription.
Context {d2 : N} {v2 : jsval}.
Context (Hsub : subResult e = Some (d2, v2)) (Hdef : typeof v2 <> "undefined").

(** The third wait: until subscribing has a result. *)
Lemma wait_subscription fuel nav t1 s :
  loaded_page e nav (Some t1) s -> (N.to_nat (t1 + d1 + d2 - clock s) < fuel)%nat ->
  exists v s', wait fuel (session_executeScript script_subscription_defined) 0 s =
      (Resolved v, s') /\
    loaded_page e nav (Some t1) s' /\ t1 + d1 + d2 <= clock s'.
Proof.
  intros Hp Hfuel.
  apply (session_wait_until fuel script_subscription_defined
           (fun s' => JBool (bool_decide (typeof (sub_now s') <> "undefined"))));
    [apply loaded_page_open | | | done | done].
  - intros s' [_ Hl]. unfold script_subscription_defined.
    by rewrite window_of_loaded, on_harness_defined.
  - intros s' [Hp' _]. simpl. rewrite bool_decide_eq_true.
    rewrite (sub_now_page e nav t1 d1 v1 d2 v2 s' Hp' (coop_sw _ _ _ _ Hco) Hsub).
    destruct (N.leb_spec (t1 + d1 + d2) (clock s')); [|split; [done | lia]].
    split; [done | intros _; apply Hdef].
Qed.

Lemma read_subscription nav t1 s :
  loaded_page e nav (Some t1) s -> t1 + d1 + d2 <= clock s ->
  session_executeScript script_subscription s = (Resolved v2, arrive s).
Proof.
  intros Hp Ht. unfold script_subscription. rewrite (session_read _ _ nav (Some t1)) by done.
  destruct (loaded_page_open nav (Some t1) s Hp) as (_ & _ & _ & [Hp' _]).
  simpl. rewrite (sub_now_page e nav t1 d1 v1 d2 v2 _ Hp' (coop_sw _ _ _ _ Hco) Hsub).
  by rewrite (proj2 (N.leb_le _ _)) by (simpl; lia).
Qed.

(** The chain from the result of the service worker on, when that result
    carries no error: it ends with what subscribing reported. *)
Lemma flow_subscription fuel i nav t1 s x :
  loaded_page e nav (Some t1) s -> t1 + d1 <= clock s -> (N.to_nat d2 < fuel)%nat ->
  get_prop v2 "error" = Some x ->
  exists s',
    (wait fuel (drv_executeScript script_subscription_defined) 0 ;;
     subscription <- drv_executeScript script_subscription ;;
     error <- read_prop subscription "error" ;;
     if truthy error then reject (sub_errorDetails error)
     else resolve (JObj [("testId", JNum i); ("subscription", subscription)]))%promise s =
    (if truthy x then Rejected (sub_errorDetails x)
     else Resolved (JObj [("testId", JNum i); ("subscription", v2)]), s') /\
    closed s' = false.
Proof.
  intros Hp Ht Hfuel Hx.
  destruct (wait_subscription fuel nav t1 s Hp) as (v & s3 & Hw & Hp3 & Ht3); [lia|].
  exists (arrive s3). promise_next Hw. promise_next (read_subscription nav t1 s3 Hp3 Ht3).
  unfold then_, read_prop. rewrite Hx. simpl.
  split; [by destruct (truthy x) | apply Hp3].
Qed.

(** The whole chain, when the service worker registered: its outcome is
    what subscribing reported, an error under the code
    [unable_to_get_subscription] or the subscription. *)
Lemma subscribe_flow_result fuel url i s x1 x2 :
  closed s = false -> env s = e ->
  (N.to_nat (N.max dl (N.max d1 d2)) < fuel)%nat ->
  get_prop v1 "error" = Some x1 -> truthy x1 = false ->
  get_prop v2 "error" = Some x2 ->
  exists s', subscribe_flow fuel url i s =
    (if truthy x2 then Rejected (sub_errorDetails x2)
     else Resolved (JObj [("testId", JNum i); ("subscription", v2)]), s') /\
    closed s' = false.
Proof.
  intros Hc He Hfuel Hx1 Hf1 Hx2. unfold subscribe_flow.
  destruct (flow_worker fuel url s) as (nav & t1 & s2 & Hp & Ht & ->); [done | done | lia..|].
  unfold then_ at 1, read_prop. rewrite Hx1. simpl. unfold then_ at 1. rewrite Hf1. simpl.
  apply (flow_subscription fuel i nav t1 s2 x2); [done | done | lia | done].
Qed.

End subscription.

End cooperative.

(** A result of the harness that carries no error. *)
Definition no_error (v : jsval) : Prop :=
  exists x, get_prop v "error" = Some x /\ truthy x = false.

(** The harness registers its service worker and subscribes: the service
    worker's result [v1] and the subscription [v2] carry no error. *)
Record subscribing (e : harnessEnv) (dl d1 d2 : N) (v1 v2 : jsval) : Prop := {
  subscribing_cooperative : cooperative e dl d1 v1;
  subscribing_sw_ok : no_error v1;
  subscribing_result : subResult e = Some (d2, v2);
  subscribing_defined : typeof v2 <> "undefined";
  subscribing_ok : no_error v2
}.

Implicit Types (sys : Sys session) (r : res) (args : jsobj).

(** C1. A subscription is obtained: for a request that passes the checks,
    when the browser launches and its harness loads, registers its service
    worker and subscribes, [getSubscription] answers with the suite's next
    instance id and the subscription the page reported, and leaves the new
    session registered under that id and open.  The waits need as many
    polls as the longest of the three delays has milliseconds. *)
Theorem getSubscription_subscribes fuel r args sys n b opt s0 dl d1 d2 v1 v2 :
  validate args (wpts sys) (world sys) = Launch n b opt ->
  launches sys b s0 -> closed s0 = false ->
  subscribing (env s0) dl d1 d2 v1 v2 ->
  (N.to_nat (N.max dl (N.max d1 d2)) < fuel)%nat ->
  exists st s',
    _testSuites (wpts sys) !! n = Some st /\ closed s' = false /\
    getSubscription fuel r args sys =
    (Resolved (sendValidResponse r
       (JObj [("testId", JNum (TestSuite._availableTestInstanceId st));
              ("subscription", v2)])),
     launch_state n st (grant_notifications (getUrl (_apiServer (wpts sys))) b) s' sys).
Proof.
  intros Hv Hl Hc [Hco (x1 & Hx1 & Hf1) Hsub Hdef (x2 & Hx2 & Hf2)] Hfuel.
  destruct (getSubscription_launch fuel r args sys n b opt s0 Hv Hl) as (st & Hst & ->).
  destruct (subscribe_flow_result Hco Hsub Hdef fuel
              (getUrl (_apiServer (wpts sys)) +:+ "/" +:+ urlGETArgs opt)
              (TestSuite._availableTestInstanceId st) s0 x1 x2) as (s' & Hflow & Hc');
    [done..|].
  exists st, s'. rewrite Hf2 in Hflow. simpl. by rewrite Hflow.
Qed.

(** C35. A failed registration is reported, and the browser stays: when the
    service worker of the page reports an error, [getSubscription] answers
    with the error [unable_to_reg_service_worker], whose message quotes
    the page's error; the instance it registered stays in the suite and
    its session stays open until the suite is ended. *)
Theorem getSubscription_sw_error fuel r args sys n b opt s0 dl d1 v1 error :
  validate args (wpts sys) (world sys) = Launch n b opt ->
  launches sys b s0 -> closed s0 = false ->
  cooperative (env s0) dl d1 v1 ->
  get_prop v1 "error" = Some error -> truthy error = true ->
  (N.to_nat (N.max dl d1) < fuel)%nat ->
  exists st s',
    _testSuites (wpts sys) !! n = Some st /\ closed s' = false /\
    getSubscription fuel r args sys =
    (Resolved (sendErrorResponse r (JStr "unable_to_reg_service_worker")
       (issue_message (JStr ("There was an error when registering the service worker. "
                             +:+ dquote +:+ toString error +:+ dquote +:+ ".")))),
     launch_state n st (grant_notifications (getUrl (_apiServer (wpts sys))) b) s' sys).
Proof.
  intros Hv Hl Hc Hco Hx Ht Hfuel.
  destruct (getSubscription_launch fuel r args sys n b opt s0 Hv Hl) as (st & Hst & ->).
  destruct (subscribe_flow_sw_error Hco fuel
              (getUrl (_apiServer (wpts sys)) +:+ "/" +:+ urlGETArgs opt)
              (TestSuite._availableTestInstanceId st) s0 error) as (s' & Hflow & Hc');
    [done | done | lia | lia | done | done |].
  exists st, s'. cbv zeta. rewrite Hflow. cbn [fst snd]. unfold sw_errorDetails.
  by rewrite subscription_failed_coded.
Qed.

(** A failed subscription is reported: when the service worker
    registered and subscribing reports an error, [getSubscription] answers
    with [unable_to_get_subscription] and the page's error as the
    message; the instance stays registered. *)
Theorem getSubscription_sub_error fuel r args sys n b opt s0 dl d1 d2 v1 v2 x1 error :
  validate args (wpts sys) (world sys) = Launch n b opt ->
  launches sys b s0 -> closed s0 = false ->
  cooperative (env s0) dl d1 v1 ->
  get_prop v1 "error" = Some x1 -> truthy x1 = false ->
  subResult (env s0) = Some (d2, v2) -> typeof v2 <> "undefined" ->
  get_prop v2 "error" = Some error -> truthy error = true ->
  (N.to_nat (N.max dl (N.max d1 d2)) < fuel)%nat ->
  exists st s',
    _testSuites (wpts sys) !! n = Some st /\ closed s' = false /\
    getSubscription fuel r args sys =
    (Resolved (sendErrorResponse r (JStr "unable_to_get_subscription") (issue_message error)),
     launch_state n st (grant_notifications (getUrl (_apiServer (wpts sys))) b) s' sys).
Proof.
  intros Hv Hl Hc Hco Hx1 Hf1 Hsub Hdef Hx2 Ht Hfuel.
  destruct (getSubscription_launch fuel r args sys n b opt s0 Hv Hl) as (st & Hst & ->).
  destruct (subscribe_flow_result Hco Hsub Hdef fuel
              (getUrl (_apiServer (wpts sys)) +:+ "/" +:+ urlGETArgs opt)
              (TestSuite._availableTestInstanceId st) s0 x1 error) as (s' & Hflow & Hc');
    [done..|].
  exists st, s'. rewrite Ht in Hflow. cbv zeta. rewrite Hflow. cbn [fst snd].
  unfold sub_errorDetails. rewrite subscription_failed_coded by (done || by simpl).
  done.
Qed.

(** A failure of the driver is wrapped: when the page of the harness
    cannot be opened, [getSubscription] answers with [webdriver_issue] and
    the driver's message; the browser that was launched stays open and
    registered. *)
Theorem getSubscription_navigation_fails fuel r args sys n b opt s0 message :
  validate args (wpts sys) (world sys) = Launch n b opt ->
  launches sys b s0 -> closed s0 = false -> disconnectAt (env s0) = None ->
  navigateError (env s0) = Some message ->
  exists st,
    _testSuites (wpts sys) !! n = Some st /\
    getSubscription fuel r args sys =
    (Resolved (sendErrorResponse r (JStr "webdriver_issue") (issue_message (JStr message))),
     launch_state n st (grant_notifications (getUrl (_apiServer (wpts sys))) b)
       (arrive s0) sys).
Proof.
  intros Hv Hl Hc Hd Hnav.
  destruct (getSubscription_launch fuel r args sys n b opt s0 Hv Hl) as (st & Hst & ->).
  exists st. split; [done|]. cbv zeta. unfold subscribe_flow.
  rewrite (then_rejected _ _ s0 (mkError message) (arrive s0)).
  - cbn [fst snd]. by rewrite subscription_failed_plain.
  - simpl. unfold session_get. rewrite command_open by done. by rewrite arrive_env, Hnav.
Qed.

(** A page whose harness never loads keeps the first wait polling. *)
Lemma wait_never_loaded fuel e nav s :
  page e nav None s -> disconnectAt e = None -> loadDelay e = None ->
  exists s', wait fuel (session_executeScript script_loaded) 0 s = (Pending, s').
Proof.
  intros Hp Hd Hl.
  destruct (wait_loop_never (D:=session) fuel (drv_executeScript script_loaded)
              (page e nav None) (clock s) s) as (s' & Hw & _);
    [|done|exists s'; rewrite wait_unfold; exact Hw].
  intros s1 Hp1. pose proof Hp1 as (He & Hc & _).
  exists JUndefined, (arrive s1). split_and!; [|done|by apply arrive_page].
  apply session_executeScript_open; [done | by rewrite He |].
  unfold window_of, harness_loaded. rewrite arrive_env, He, Hl.
  by destruct (navigatedAt (arrive s1)).
Qed.

(** C34. A harness that never loads is waited for without end: the waits of
    [initiateTestInstance] are given no timeout, so that, when the page
    never reports that it has loaded, [getSubscription] has not answered
    after any number of polls. *)
Theorem getSubscription_hangs fuel r args sys n b opt s0 :
  validate args (wpts sys) (world sys) = Launch n b opt ->
  launches sys b s0 -> closed s0 = false ->
  navigateError (env s0) = None -> disconnectAt (env s0) = None ->
  loadDelay (env s0) = None ->
  (getSubscription fuel r args sys).1 = Pending.
Proof.
  intros Hv Hl Hc Hnav Hd Hload.
  destruct (getSubscription_launch fuel r args sys n b opt s0 Hv Hl) as (st & Hst & ->).
  destruct (session_get_page (getUrl (_apiServer (wpts sys)) +:+ "/" +:+ urlGETArgs opt) s0)
    as (s1 & Hget & Hp & _); [done..|].
  destruct (wait_never_loaded fuel _ _ s1 Hp Hd Hload) as (s2 & Hw).
  cbv zeta. unfold subscribe_flow. promise_next Hget.
  by rewrite (then_pending _ _ _ _ Hw).
Qed.

(** C32. Validation fails fast: a request that [validate] refuses is
    answered with one error response, of that error id and message, for
    every fuel, and nothing changes: no browser is launched and no
    instance registered. *)
Theorem getSubscription_refused fuel r args sys id message :
  validate args (wpts sys) (world sys) = Refuse id message ->
  getSubscription fuel r args sys =
  (Resolved (sendErrorResponse r (JStr id) message), sys).
Proof. intros Hv. rewrite getSubscription_validate. by rewrite Hv. Qed.

End subscribe_browser.

(** * The theorems at concrete systems *)

(** A request for Firefox stable in suite 0. *)
Definition args_firefox : jsobj :=
  [("testSuiteId", JNum 0); ("browserName", JStr "firefox"); ("browserVersion", JStr "stable")].

Lemma env_ok_subscribing : subscribing env_ok 300 200 100 (JBool true) sub_ok.
Proof. split; [by split | by exists JUndefined | done | done | by exists JUndefined]. Qed.

Lemma getSubscription_subscribes_witness :
  data_in (getSubscription 301 fresh_res args_firefox (sys_of_suite env_ok)).1 =
  Some (JObj [("testId", JNum 0); ("subscription", sub_ok)]).
Proof.
  destruct (getSubscription_subscribes 301 fresh_res args_firefox (sys_of_suite env_ok)
              0 firefox_stable [] (new_session env_ok) 300 200 100 (JBool true) sub_ok)
    as (st & s' & Hst & _ & ->);
    [done | done | done | apply env_ok_subscribing | simpl; lia |].
  simpl in Hst. rewrite lookup_insert_eq in Hst. injection Hst as <-.
  cbn [fst]. by rewrite data_in_sendValidResponse.
Defined.

Lemma getSubscription_sw_error_witness :
  error_of (getSubscription 301 fresh_res args_firefox (sys_of_suite env_sw_error)).1 =
  Some (JStr "unable_to_reg_service_worker").
Proof.
  destruct (getSubscription_sw_error 301 fresh_res args_firefox (sys_of_suite env_sw_error)
              0 firefox_stable [] (new_session env_sw_error) 300 200
              (JObj [("error", JStr "no sw")]) (JStr "no sw"))
    as (st & s' & _ & _ & ->); [done | done | done | by split | done | done | simpl; lia |].
  cbn [fst]. by rewrite error_of_sendErrorResponse.
Defined.

Lemma getSubscription_hangs_witness :
  (getSubscription 1000 fresh_res args_firefox (sys_of_suite env_never_loads)).1 = Pending.
Proof.
  by apply (getSubscription_hangs 1000 fresh_res args_firefox (sys_of_suite env_never_loads)
              0 firefox_stable [] (new_session env_never_loads)).
Defined.

(** A subscription refused by the push service. *)
Lemma getSubscription_sub_error_witness :
  error_of (getSubscription 301 fresh_res args_firefox (sys_of_suite env_sub_error)).1 =
  Some (JStr "unable_to_get_subscription").
Proof.
  destruct (getSubscription_sub_error 301 fresh_res args_firefox (sys_of_suite env_sub_error)
              0 firefox_stable [] (new_session env_sub_error) 300 200 100 (JBool true)
              (JObj [("error", JStr "denied")]) JUndefined (JStr "denied"))
    as (st & s' & _ & _ & ->);
    [done | done | done | by split | done | done | done | done | done | done | simpl; lia |].
  cbn [fst]. by rewrite error_of_sendErrorResponse.
Defined.

Lemma getSubscription_navigation_fails_witness :
  error_of (getSubscription 301 fresh_res args_firefox (sys_of_suite env_no_page)).1 =
  Some (JStr "webdriver_issue").
Proof.
  destruct (getSubscription_navigation_fails 301 fresh_res args_firefox
              (sys_of_suite env_no_page) 0 firefox_stable [] (new_session env_no_page)
              "net::ERR_CONNECTION_REFUSED") as (st & _ & ->); [done..|].
  cbn [fst]. by rewrite error_of_sendErrorResponse.
Defined.

(** The scenario of a made-up browser version. *)
Lemma getSubscription_refused_witness :
  error_of (getSubscription 0 fresh_res
              [("testSuiteId", JNum 0); ("browserName", JStr "firefox");
               ("browserVersion", JStr "made-up")] (sys_of_suite env_ok)).1 =
  Some (JStr "invalid_browser_version").
Proof.
  rewrite (getSubscription_refused _ _ _ _ "invalid_browser_version"
             (browser_version_message (wpts (sys_of_suite env_ok)) (JStr "made-up")))
    by done.
  cbn [fst]. by rewrite error_of_sendErrorResponse.
Defined.

(** * A key that is not a string

    The check of the VAPID key is guarded by the key's truthiness, so a key
    that is [0], [false], [null] or the empty string is not refused. *)

Section vapid.
Context `{Driver D}.

Lemma validate_vapid_falsy v (args : jsobj) o (w : World D) :
  truthy v = false ->
  validate (("vapidPublicKey", v) :: args) o w =
  validate (("vapidPublicKey", JUndefined) :: args) o w.
Proof.
  intros Hv. unfold validate, missing_message, keys. cbv beta zeta.
  cbn [fmap list_fmap fst].
  set (req := ["testSuiteId"; "browserName"; "browserVersion"]).
  assert (Forall (fun f => present f (("vapidPublicKey", v) :: args)) req <->
          Forall (fun f => present f (("vapidPublicKey", JUndefined) :: args)) req) as Hp.
  { unfold req, present. rewrite !Forall_cons, !Forall_nil.
    by simpl (lookup_prop _ (_ :: _)). }
  do 2 destruct (decide (Forall _ req)); [|tauto..|done].
  simpl (lookup_prop _ (_ :: _)).
  destruct (lookup_prop "testSuiteId" args); try done.
  case_decide; [|done]. do 2 (destruct (negb _); [done|]).
  destruct (getLocalBrowser _ _ _); [|done]. case_decide; [done|].
  destruct v as [| |[]|k|k| |]; cbv beta iota; rewrite ?Hv; try done.
  simpl in Hv. apply negb_false_iff, String.eqb_eq in Hv as ->. by rewrite decide_True.
Qed.

(** C33. A VAPID key that is falsy is taken for no key: with [0], [false],
    [null] or the empty string as [vapidPublicKey], [getSubscription] does
    what it does when the key is [undefined]; in particular it does not
    answer [invalid_vapid_key], although the key is not a string. *)
Theorem getSubscription_vapid_falsy fuel r v (args : jsobj) (sys : Sys D) :
  truthy v = false ->
  getSubscription fuel r (("vapidPublicKey", v) :: args) sys =
  getSubscription fuel r (("vapidPublicKey", JUndefined) :: args) sys.
Proof.
  intros Hv. by rewrite !getSubscription_validate, (validate_vapid_falsy v).
Qed.

End vapid.

(** The number [0] as the key: the browser is launched as without a key. *)
Lemma getSubscription_vapid_falsy_witness :
  getSubscription 1 fresh_res (("vapidPublicKey", JNum 0) :: args_firefox) (sys_of_suite env_ok) =
  getSubscription 1 fresh_res (("vapidPublicKey", JUndefined) :: args_firefox) (sys_of_suite env_ok).
Proof. by apply getSubscription_vapid_falsy. Defined.

(** * What the errors report

    The error of the Firefox check and the error ids that the [catch] of
    [getSubscription] sends. *)

Section reports.
Context `{Driver D}.

(** When the launch of the browser fails, [initiateTestInstance] rejects
    with what the launch threw; no instance is registered. *)
Lemma initiateTestInstance_launch_fails fuel key opt b (sys : Sys D) e :
  delError (world sys) = None ->
  spawn (world sys) (nextHandle (world sys))
    (grant_notifications (getUrl (_apiServer (wpts sys))) b) = Rejected e ->
  initiateTestInstance fuel key opt b sys = (Rejected e, (on_world del_temp sys).2).
Proof.
  intros Hdel Hsp.
  unfold initiateTestInstance, then_, on_world, zoom, del_temp, gets, getSeleniumDriver.
  rewrite Hdel. simpl. by rewrite Hsp.
Qed.

(** C36. The [catch] of [getSubscription] sends the code of whatever was
    thrown as the error id: when the launch of the browser fails with an
    error that has a code and a message, the request is answered with
    that code, which need not be one of the error ids of the operation,
    nor a string. *)
Theorem getSubscription_forwards_code fuel r args (sys : Sys D) n b opt code message :
  validate args (wpts sys) (world sys) = Launch n b opt ->
  delError (world sys) = None ->
  spawn (world sys) (nextHandle (world sys))
    (grant_notifications (getUrl (_apiServer (wpts sys))) b) =
    Rejected (JObj [("code", code); ("message", message)]) ->
  truthy code = true -> truthy message = true ->
  getSubscription fuel r args sys =
  (Resolved (sendErrorResponse r code (issue_message message)), (on_world del_temp sys).2).
Proof.
  intros Hv Hdel Hsp Hc Hm. rewrite getSubscription_validate, Hv.
  unfold launch, catch_, then_ at 1.
  rewrite (initiateTestInstance_launch_fails _ _ _ _ _ _ Hdel Hsp).
  by apply subscription_failed_coded.
Qed.


End reports.

(** A world in which no browser can be launched: the connection to the
    driver is refused. *)
Definition sys_refusing : Sys session :=
  MkSys (wpts (sys_of_suite env_ok))
    (MkWorld ∅ 0 [] [firefox_stable; firefox_old; chrome_stable]
       (fun _ _ => Rejected (JObj [("code", JStr "ECONNREFUSED"); ("message", JStr "connect")]))
       [] [] true None).

Lemma getSubscription_forwards_code_witness :
  error_of (getSubscription 1 fresh_res args_firefox sys_refusing).1 =
  Some (JStr "ECONNREFUSED").
Proof.
  rewrite (getSubscription_forwards_code 1 fresh_res args_firefox sys_refusing 0 firefox_stable []
             (JStr "ECONNREFUSED") (JStr "connect")); [|done..].
  cbn [fst]. apply error_of_sendErrorResponse.
Defined.

