(* ===== verification/Notify.v ===== *)
(** * Polling for notifications

    [getNotificationStatus] of [src/src/index.js]: wait, for at most a
    minute and polling every half second, until the page has received
    messages; then read them and clear the page's buffer. *)

From stdpp Require Import base option list strings gmap pretty sorting.
From S2P Require Import Prelude JsValue ApiServer Driver Browser Selenium Suite Wpts Fixtures Checks Scripts.

Import APIServer.

Local Open Scope Z_scope.
Local Open Scope promise_scope.

Section notify.
Context {D : Type} `{Driver D}.

(** ** Notifications *)

(** The condition [getNotificationStatus] waits for: there are messages;
    when there are none, it resolves to [false] after 500 milliseconds. *)
Definition messages_cond : Promise jsval D jsval :=
  isValid <- drv_executeScript script_has_messages ;;
  if truthy isValid then resolve (JBool true)
  else sleep 500 ;; resolve (JBool false).

Definition status_message (message : jsval) : string :=
  "An error occured while attempting to check the notification status. " +:+
  toString message.

(** [this._testSuites[suiteKey].getTestInstance(testKey)] *)
Definition test_instance (suiteKey testKey : jsval) : Promise jsval (Sys D) nat :=
  o <- gets wpts ;;
  match suite_at suiteKey o with
  | Some testSuite =>
      match instance_at testKey testSuite with
      | Some testInstance => resolve testInstance
      | None => reject (TypeError JUndefined "wait")
      end
  | None => reject (TypeError JUndefined "getTestInstance")
  end.

(** The session a request names, when it names one. *)
Definition target (args : jsobj) (sys : Sys D) : option nat :=
  suite_at (lookup_prop "testSuiteId" args) (wpts sys) ≫=
  instance_at (lookup_prop "testId" args).

(** The driver chain of [getNotificationStatus]: wait for messages, for at
    most 60 seconds, then read and clear them. *)
Definition poll_messages (fuel : nat) : Promise jsval D jsval :=
  wait fuel messages_cond 60000 ;;
  drv_executeScript script_drain.

(** [this.getNotificationStatus(res, args)] *)
Definition getNotificationStatus (fuel : nat) (r : res) (args : jsobj) :
    Promise jsval (Sys D) res :=
  let requiredFields := ["testSuiteId"; "testId"] in
  let '(missing, r) := missingRequiredArgs r args requiredFields in
  if missing then resolve r else
  o <- gets wpts ;;
  let '(valid, r) :=
    validTestId r (lookup_prop "testSuiteId" args) (lookup_prop "testId" args) o in
  if negb valid then resolve r else
  testInstance <- test_instance (lookup_prop "testSuiteId" args) (lookup_prop "testId" args) ;;
  catch_
    (receivedMessages <- on_world (with_session testInstance (poll_messages fuel)) ;;
     resolve (sendValidResponse r (JObj [("messages", receivedMessages)])))
    (fun err =>
       message <- read_prop err "message" ;;
       resolve (sendErrorResponse r (JStr "web_driver_error") (status_message message))).

End notify.

(** * Properties that hold of every driver *)

Section notify_facts.
Context {D : Type} `{Driver D} `{!DriverLaws D}.
Implicit Types (sys : Sys D) (r : res) (args : jsobj) (fuel : nat) (d : D).

(** Each evaluation of the condition that finds no message takes at least
    the 500 milliseconds of its sleep. *)
Lemma messages_cond_costs : cond_costs messages_cond 500.
Proof.
  intros d. unfold messages_cond, then_ at 1.
  pose proof (drv_executeScript_settles script_has_messages d) as Hs.
  pose proof (drv_executeScript_clock script_has_messages d) as Hc.
  destruct (drv_executeScript script_has_messages d) as [[v| |] d1]; [|done|done].
  destruct (truthy v); simpl; [done|]. intros _.
  unfold then_, sleep, modify. simpl in *. rewrite drv_sleep_clock. lia.
Qed.

(** The polling chain settles within 121 polls. *)
Lemma poll_messages_settles fuel d :
  (121 <= fuel)%nat -> (poll_messages fuel d).1 <> Pending.
Proof.
  intros Hfuel. unfold poll_messages, then_.
  pose proof (wait_bounded_settles fuel messages_cond 60000 500 d messages_cond_costs) as Hw.
  destruct (wait fuel messages_cond 60000 d) as [[v|e|] d1]; [|done|].
  - apply drv_executeScript_settles.
  - destruct Hw; [done | done | | done].
    change (60000 / 500)%N with 120%N. lia.
Qed.

Lemma target_Some args sys h :
  target args sys = Some h <->
  exists n i s, lookup_prop "testSuiteId" args = JNum n /\
    lookup_prop "testId" args = JNum i /\
    _testSuites (wpts sys) !! n = Some s /\ TestSuite.getTestInstance i s = Some h.
Proof.
  unfold target, suite_at, instance_at. split.
  - destruct (lookup_prop "testSuiteId" args) as [| | |n| | |]; try done.
    destruct (_testSuites (wpts sys) !! n) as [s|] eqn:Hs; [simpl|done].
    destruct (lookup_prop "testId" args) as [| | |i| | |]; try done.
    intros Hi. by exists n, i, s.
  - intros (n & i & s & -> & -> & Hs & Hi). by rewrite Hs.
Qed.

(** What [getNotificationStatus] answers once the request names an
    instance: by the outcome of the polling chain on its session. *)
Lemma getNotificationStatus_eq fuel sys r args h :
  target args sys = Some h ->
  getNotificationStatus fuel r args sys =
  let K := with_session h (poll_messages fuel) (world sys) in
  (match K.1 with
   | Resolved receivedMessages =>
       Resolved (sendValidResponse r (JObj [("messages", receivedMessages)]))
   | Rejected err =>
       match get_prop err "message" with
       | Some m => Resolved (sendErrorResponse r (JStr "web_driver_error") (status_message m))
       | None => Rejected (TypeError err "message")
       end
   | Pending => Pending
   end, MkSys (wpts sys) K.2).
Proof.
  intros (n & i & s & Hn & Hi & Hs & Hh)%target_Some. unfold getNotificationStatus.
  rewrite missingRequiredArgs_false;
    [|compute_done
     |intros f [->| ->%list_elem_of_singleton]%elem_of_cons; rewrite ?Hn, ?Hi; by intros [|]].
  unfold then_ at 1, gets. rewrite Hn, Hi. erewrite validTestId_ok by done. simpl.
  unfold then_ at 1, test_instance, then_ at 1, gets. simpl. rewrite Hs. simpl.
  rewrite Hh. simpl.
  unfold catch_, then_ at 1, on_world, zoom.
  destruct (with_session h (poll_messages fuel) (world sys)) as [[v|e|] w']; simpl; try done.
  unfold then_, read_prop. by destruct (get_prop e "message").
Qed.

(** C31. Termination of polling: with fuel for 121 polls,
    [getNotificationStatus] settles, for every request, every state and
    every driver that satisfies the laws: it cannot wait longer than its
    timeout of 60 seconds divided by its sleep of 500 milliseconds. *)
Theorem getNotificationStatus_settles fuel sys r args :
  (121 <= fuel)%nat -> (getNotificationStatus fuel r args sys).1 <> Pending.
Proof.
  intros Hfuel. unfold getNotificationStatus.
  destruct (missingRequiredArgs r args _) as [[] r1]; [done|].
  unfold then_ at 1, gets.
  destruct (validTestId r1 _ _ _) as [[] r2]; simpl; [|done].
  unfold then_ at 1. destruct (test_instance _ _ sys) as [[h|e|] sys1] eqn:Ht; [|done|].
  - unfold catch_, then_ at 1, on_world, zoom.
    pose proof (with_session_settles h (poll_messages fuel) (world sys1)
                  (fun d => poll_messages_settles fuel d Hfuel)) as Hp.
    destruct (with_session h (poll_messages fuel) (world sys1)) as [[v|e|] w'];
      simpl; [done| |done].
    unfold then_, read_prop. by destruct (get_prop e "message").
  - unfold test_instance, then_, gets in Ht.
    destruct (suite_at _ _); [destruct (instance_at _ _)|]; done.
Qed.

(** No notifications from a suite that is not registered. *)
Lemma getNotificationStatus_unknown fuel r args sys n :
  present "testId" args ->
  lookup_prop "testSuiteId" args = JNum n -> _testSuites (wpts sys) !! n = None ->
  getNotificationStatus fuel r args sys =
  (Resolved (sendErrorResponse r (JStr "invalid_test_suite_id") (unknown_suite_message n)),
   sys).
Proof.
  intros Hi Hn Hs. unfold getNotificationStatus.
  rewrite missingRequiredArgs_false;
    [|compute_done
     |intros f [->| ->%list_elem_of_singleton]%elem_of_cons; [rewrite Hn; by intros [|]|done]].
  unfold then_, gets. simpl. by rewrite Hn, validTestId_unknown_suite.
Qed.

(** The handler changes the system only through the session it polls:
    well-formedness is kept. *)
Lemma getNotificationStatus_preserves fuel r args :
  preserves sys_wf (getNotificationStatus (D:=D) fuel r args).
Proof.
  unfold getNotificationStatus.
  destruct (missingRequiredArgs r args _) as [[] r1]; [auto with wpts|].
  apply preserves_then; [auto with wpts|]. intros o.
  destruct (validTestId r1 _ _ o) as [[] r2]; simpl; [|auto with wpts].
  apply preserves_then.
  { apply preserves_pure. intros sys. unfold test_instance, then_, gets. simpl.
    by repeat case_match. }
  intros h. apply preserves_catch.
  - apply preserves_then; [|auto with wpts].
    apply on_world_preserves, with_session_grows.
  - intros err. apply preserves_then; [apply read_prop_preserves | auto with wpts].
Qed.

(** [getNotificationStatus] leaves the orchestrator's own state as it is. *)
Lemma getNotificationStatus_wpts fuel r args o :
  preserves (fun sys : Sys D => wpts sys = o) (getNotificationStatus fuel r args).
Proof.
  unfold getNotificationStatus.
  destruct (missingRequiredArgs r args _) as [[] r1]; [auto with wpts|].
  apply preserves_then; [auto with wpts|]. intros o'.
  destruct (validTestId r1 _ _ o') as [[] r2]; simpl; [|auto with wpts].
  apply preserves_then.
  { apply preserves_pure. intros sys. unfold test_instance, then_, gets. simpl.
    by repeat case_match. }
  intros h. apply preserves_catch.
  - apply preserves_then; [|auto with wpts].
    apply (on_world_preserves_wpts (fun o' => o' = o)).
  - intros err. apply preserves_then; auto with wpts.
Qed.

Lemma getNotificationStatus_advances fuel r args :
  advances 0 (getNotificationStatus (D:=D) fuel r args).
Proof.
  unfold getNotificationStatus.
  destruct (missingRequiredArgs r args _) as [[] r1]; [auto with wpts|].
  apply (advances_then 0 0); [auto with wpts|]. intros o.
  destruct (validTestId r1 _ _ o) as [[] r2]; simpl; [|auto with wpts].
  apply (advances_then 0 0).
  { apply advances_pure. intros sys. unfold test_instance, then_, gets. simpl.
    by repeat case_match. }
  intros h. apply (advances_catch 0 0).
  - apply (advances_then 0 0); auto with wpts.
  - intros err. apply (advances_then 0 0); [|auto with wpts].
    apply advances_pure, read_prop_state.
Qed.

Lemma getNotificationStatus_answers fuel r args :
  answers r (getNotificationStatus (D:=D) fuel r args).
Proof.
  unfold getNotificationStatus.
  pose proof (missingRequiredArgs_res r args ["testSuiteId"; "testId"]) as Hm.
  destruct (missingRequiredArgs r args _) as [[] r1]; [auto with wpts|subst r1].
  apply answers_then. intros o.
  pose proof (validTestId_res r (lookup_prop "testSuiteId" args)
                (lookup_prop "testId" args) o) as Hv.
  destruct (validTestId r _ _ o) as [[] r2]; simpl; [subst r2|auto with wpts].
  apply answers_then. intros h. apply answers_catch.
  - apply answers_then. auto with wpts.
  - intros err. apply answers_then. auto with wpts.
Qed.

End notify_facts.

(** * Polling a browser

    On the sessions of [Browser]: what the handler answers when messages
    are there, and when none comes. *)

Section notify_browser.
Implicit Types (s : session) (sys : Sys session) (r : res) (args : jsobj) (fuel : nat).

(** A responsive session whose page holds no message and receives none
    before [T]. *)
Definition quiet (T : N) (s : session) : Prop :=
  responsive s /\ buffer s = [] /\ Forall (fun m => (T <= m.1)%N) (inbox s).

Lemma quiet_arrive T s :
  quiet T s -> (clock s + latency (env s) < T)%N ->
  arrive s = tick (latency (env s)) s.
Proof.
  intros (_ & _ & Hin) Hlt. apply deliver_none. intros m Hm. simpl in *.
  rewrite Forall_forall in Hin. specialize (Hin m Hm). lia.
Qed.

(** On a quiet page the condition is false, and costs the latency of its
    command and its sleep of 500 milliseconds. *)
Lemma messages_cond_quiet T s :
  quiet T s -> (clock s + latency (env s) < T)%N ->
  messages_cond s = (Resolved (JBool false), tick 500 (tick (latency (env s)) s)) /\
  quiet T (tick 500 (tick (latency (env s)) s)).
Proof.
  intros Hq Hlt. pose proof Hq as (Hr & Hb & Hin). split.
  - unfold messages_cond, then_ at 1. simpl.
    rewrite (session_executeScript_read _ s (JBool false)); [by rewrite (quiet_arrive T)|done|].
    rewrite (quiet_arrive T), window_of_loaded, script_has_messages_truthy by
      (done || by apply tick_responsive).
    simpl. by rewrite Hb.
  - split_and!; [by do 2 apply tick_responsive | done | done].
Qed.

(** When the page holds messages the condition is true at once. *)
Lemma messages_cond_ready s :
  responsive s -> buffer (arrive s) <> [] ->
  messages_cond s = (Resolved (JBool true), arrive s).
Proof.
  intros Hr Hb. unfold messages_cond, then_ at 1. simpl.
  rewrite (session_executeScript_read _ s (JBool true)); [done|done|].
  rewrite window_of_loaded, script_has_messages_truthy by by apply arrive_responsive.
  simpl. by rewrite bool_decide_eq_true_2.
Qed.

(** Reading the messages hands over the page's buffer and empties it. *)
Lemma session_drain s :
  responsive s ->
  session_executeScript script_drain s =
  (Resolved (JArr (JStr <$> buffer (arrive s))), with_buffer [] (arrive s)).
Proof.
  intros Hr. unfold session_executeScript. rewrite command_responsive by done.
  rewrite window_of_loaded, script_drain_spec by by apply arrive_responsive.
  simpl. f_equal. unfold write_back, with_buffer. simpl.
  by destruct (startedAt s).
Qed.

(** With messages on the page: one poll, one read. *)
Lemma poll_messages_ready fuel s :
  responsive s -> buffer (arrive s) <> [] ->
  poll_messages (S fuel) s =
  (Resolved (JArr (JStr <$> buffer (arrive (arrive s)))),
   with_buffer [] (arrive (arrive s))).
Proof.
  intros Hr Hb. unfold poll_messages, then_.
  rewrite (wait_first_true fuel _ _ s (JBool true) (arrive s))
    by (done || by apply messages_cond_ready).
  apply session_drain, arrive_responsive, Hr.
Qed.

(** With no message for a minute: the wait rejects, after at least its
    60 seconds, and the messages are not read. *)
Lemma poll_messages_quiet fuel s :
  quiet (clock s + 60000 + latency (env s)) s -> (120 <= fuel)%nat ->
  exists s', poll_messages fuel s = (Rejected (TimeoutError (clock s' - clock s)), s') /\
    (60000 <= clock s' - clock s)%N.
Proof.
  intros Hq Hfuel. set (T := (clock s + 60000 + latency (env s))%N) in *.
  destruct (wait_times_out fuel messages_cond 60000 500
              (fun s' => quiet T s' /\ env s' = env s) s) as (s' & Hw & Ht & _).
  - done.
  - intros s1 [Hq1 He] Hlt. simpl in Hlt.
    destruct (messages_cond_quiet T s1 Hq1) as [Hc Hq2]; [rewrite He; lia|].
    exists (JBool false), (tick 500 (tick (latency (env s1)) s1)).
    split_and!; [done | done | simpl; lia | done | done].
  - done.
  - lia.
  - exists s'. unfold poll_messages, then_. by rewrite Hw.
Qed.

(** ** Messages are handed over exactly once *)

(** What a promise on a session does to the messages: those it resolves
    with, and those it leaves, are together those that were there. *)
Definition conserves (m : Promise jsval session jsval) : Prop :=
  forall s,
    match (m s).1 with
    | Resolved v => exists ms, v = JArr (JStr <$> ms) /\ ms ++ payloads (m s).2 ≡ₚ payloads s
    | _ => payloads (m s).2 ≡ₚ payloads s
    end.

Lemma messages_cond_payloads s0 :
  preserves (fun s => payloads s ≡ₚ payloads s0) (messages_cond (D:=session)).
Proof.
  apply preserves_then.
  - apply preserves_pure_state. intros s Hs. simpl. rewrite <- Hs.
    apply session_executeScript_payloads, on_harness_reads.
  - intros v. destruct (truthy v); [auto with wpts|].
    apply preserves_then; [|auto with wpts]. by apply preserves_pure_state.
Qed.

Lemma session_drain_conserves : conserves (session_executeScript script_drain).
Proof.
  intros s. unfold session_executeScript, command. fold (arrive s).
  pose proof (arrive_payloads s) as Ha.
  destruct (closed (arrive s) || disconnected (arrive s)); simpl; [done|].
  unfold window_of. destruct (harness_loaded (arrive s)) eqn:Hl; simpl; [|done].
  exists (buffer (arrive s)). split; [done|]. rewrite <- Ha. unfold payloads. simpl.
  by destruct (startedAt s).
Qed.

Lemma poll_messages_conserves fuel : conserves (poll_messages (D:=session) fuel).
Proof.
  intros s. unfold poll_messages, then_.
  pose proof (preserves_state _ _ s
                (wait_preserves fuel messages_cond 60000 _ (messages_cond_payloads s))
                (reflexivity _)) as Hw.
  destruct (wait fuel messages_cond 60000 s) as [[v|e|] s1]; simpl in *; [|done..].
  pose proof (session_drain_conserves s1) as Hd. simpl in *.
  destruct (session_executeScript script_drain s1) as [[v'|e|] s2]; simpl in *;
    [|by rewrite Hd..].
  destruct Hd as (ms & -> & Hd). exists ms. split; [done|]. by rewrite Hd.
Qed.

(** C5. No message is lost and none is handed over twice: whatever
    [getNotificationStatus] does on the session a request names (answer
    with messages, answer with an error, or not answer), the messages it
    answers with and the messages the session still holds, in its page or
    on their way to it, are together the messages the session held
    before. *)
Theorem getNotificationStatus_conserves fuel sys r args h s :
  target args sys = Some h -> sessions (world sys) !! h = Some s ->
  exists s',
    sessions (world (getNotificationStatus fuel r args sys).2) !! h = Some s' /\
    match data_in (getNotificationStatus fuel r args sys).1 with
    | Some data =>
        exists ms, data = JObj [("messages", JArr (JStr <$> ms))] /\
          ms ++ payloads s' ≡ₚ payloads s
    | None => payloads s' ≡ₚ payloads s
    end.
Proof.
  intros Ht Hs. rewrite (getNotificationStatus_eq _ _ _ _ h) by done.
  rewrite (with_session_eq h _ _ s) by done. cbn [fst snd world sessions set_sessions].
  exists (poll_messages fuel s).2. split; [apply lookup_insert_eq|].
  pose proof (poll_messages_conserves fuel s) as Hp.
  destruct (poll_messages fuel s) as [[v|e|] s']; cbn [fst snd] in *.
  - rewrite data_in_sendValidResponse. destruct Hp as (ms & -> & Hp). eauto.
  - destruct (get_prop e "message"); [|done]. by rewrite data_in_sendErrorResponse.
  - done.
Qed.

(** C3. Messages on the page are handed over once: when the session a
    request names holds messages at its first poll, [getNotificationStatus]
    answers with all the messages that have arrived by the time it reads
    them, in their order of arrival, and leaves the page's buffer empty. *)
Theorem getNotificationStatus_messages fuel sys r args h s :
  target args sys = Some h -> sessions (world sys) !! h = Some s ->
  responsive s -> buffer (arrive s) <> [] ->
  getNotificationStatus (S fuel) r args sys =
  (Resolved (sendValidResponse r
     (JObj [("messages", JArr (JStr <$> buffer (arrive (arrive s))))])),
   MkSys (wpts sys)
     (set_sessions (insert h (with_buffer [] (arrive (arrive s)))) (world sys))).
Proof.
  intros Ht Hs Hr Hb. rewrite (getNotificationStatus_eq _ _ _ _ h) by done.
  rewrite (with_session_eq h _ _ s) by done.
  by rewrite poll_messages_ready.
Qed.

(** C27. No message for a minute is an error: when the page of the session a
    request names stays empty for the 60 seconds of the wait,
    [getNotificationStatus] answers with the error [web_driver_error], whose
    message carries the time the wait took, at least 60000 milliseconds;
    it does not answer with an empty list of messages. *)
Theorem getNotificationStatus_timeout fuel sys r args h s :
  target args sys = Some h -> sessions (world sys) !! h = Some s ->
  quiet (clock s + 60000 + latency (env s)) s -> (120 <= fuel)%nat ->
  exists elapsed : N,
    (60000 <= elapsed)%N /\
    (getNotificationStatus fuel r args sys).1 =
    Resolved (sendErrorResponse r (JStr "web_driver_error")
      (status_message (JStr ("Wait timed out after " +:+ pretty elapsed +:+ "ms")))).
Proof.
  intros Ht Hs Hq Hfuel. destruct (poll_messages_quiet fuel s Hq Hfuel) as (s' & Hp & Hel).
  exists (clock s' - clock s)%N. split; [done|].
  rewrite (getNotificationStatus_eq _ _ _ _ h) by done.
  rewrite (with_session_eq h _ _ s) by done. by rewrite Hp.
Qed.

End notify_browser.

(** * The theorems at concrete systems *)

Lemma getNotificationStatus_settles_witness :
  (getNotificationStatus 121 fresh_res args_one (sys_with (subscribed env_ok))).1 <> Pending.
Proof. apply getNotificationStatus_settles. lia. Defined.

(** Seven seconds after subscribing, the message that arrived at 5 s is
    returned. *)
Lemma getNotificationStatus_messages_witness :
  (getNotificationStatus 1 fresh_res args_one
     (sys_with (tick 7000 (subscribed env_ok)))).1 =
  Resolved (sendValidResponse fresh_res (JObj [("messages", JArr [JStr "hello"])])).
Proof.
  by rewrite (getNotificationStatus_messages 0 _ _ _ 0%nat (tick 7000 (subscribed env_ok))).
Defined.

(** The message that arrives at 5 s is handed over by the request made
    at 7 s, and the session holds no message afterwards. *)
Lemma getNotificationStatus_conserves_witness :
  exists s',
    sessions (world (getNotificationStatus 1 fresh_res args_one
                       (sys_with (tick 7000 (subscribed env_ok)))).2) !! 0%nat = Some s' /\
    payloads s' = [].
Proof.
  destruct (getNotificationStatus_conserves 1 (sys_with (tick 7000 (subscribed env_ok)))
              fresh_res args_one 0%nat (tick 7000 (subscribed env_ok)))
    as (s' & Hs' & _); [done..|].
  exists s'. split; [done|]. vm_compute in Hs'. by injection Hs' as <-.
Defined.

Lemma getNotificationStatus_timeout_witness :
  exists elapsed : N,
    (60000 <= elapsed)%N /\
    error_of (getNotificationStatus 120 fresh_res args_one
                (sys_with (subscribed env_silent))).1 = Some (JStr "web_driver_error").
Proof.
  destruct (getNotificationStatus_timeout 120 (sys_with (subscribed env_silent))
              fresh_res args_one 0%nat (subscribed env_silent))
    as (elapsed & Hel & Heq); [done | done | | lia |].
  - split_and!; [by split_and! | done | by constructor].
  - exists elapsed. split; [done|]. by rewrite Heq, error_of_sendErrorResponse.
Defined.

