(* ===== verification/Service.v ===== *)
(** * The service: requests, runs and what holds of every state

    The constructor of [WPTS] registers four operations with the server
    ([src/src/index.js], lines 45 to 49).  A request names one of them and
    carries its arguments; the service takes requests one at a time, and
    time passes between them.  This file states what holds of every
    request and of every state the service reaches. *)

From stdpp Require Import base option list strings gmap pretty sorting.
From S2P Require Import Prelude JsValue ApiServer Driver Browser Selenium Suite Wpts Fixtures.
From S2P Require Import Checks Scripts Lifecycle Subscribe Notify.

Import APIServer.

Local Open Scope Z_scope.
Local Open Scope promise_scope.

(** The operations, with the arguments of the request. *)
Inductive request : Type :=
  | StartTestSuite
  | EndTestSuite (args : jsobj)
  | GetSubscription (args : jsobj)
  | GetNotificationStatus (args : jsobj).

#[export] Instance request_eq_dec : EqDecision request.
Proof. solve_decision. Defined.

(** The name under which the constructor registers the operation. *)
Definition route (q : request) : string :=
  match q with
  | StartTestSuite => "start-test-suite"
  | EndTestSuite _ => "end-test-suite"
  | GetSubscription _ => "get-subscription"
  | GetNotificationStatus _ => "get-notification-status"
  end.

Definition args_of (q : request) : jsobj :=
  match q with
  | StartTestSuite => []
  | EndTestSuite args | GetSubscription args | GetNotificationStatus args => args
  end.

(** The fields each handler requires. *)
Definition required (q : request) : list string :=
  match q with
  | StartTestSuite => []
  | EndTestSuite _ => ["testSuiteId"]
  | GetSubscription _ => ["testSuiteId"; "browserName"; "browserVersion"]
  | GetNotificationStatus _ => ["testSuiteId"; "testId"]
  end.

(** An event of the service's life: a request served to its end, or [n]
    milliseconds in which nothing is asked. *)
Inductive event : Type :=
  | Serve (q : request)
  | Wait (n : N).

Section service.
Context {D : Type} `{Driver D}.

(** The handler the constructor binds to the operation. *)
Definition handle (fuel : nat) (q : request) (r : res) : Promise jsval (Sys D) res :=
  match q with
  | StartTestSuite => startTestSuite r
  | EndTestSuite args => endTestSuite r args
  | GetSubscription args => getSubscription fuel r args
  | GetNotificationStatus args => getNotificationStatus fuel r args
  end.

Definition step (fuel : nat) (ev : event) (sys : Sys D) : Sys D :=
  match ev with
  | Serve q => (handle fuel q fresh_res sys).2
  | Wait n => MkSys (wpts sys) (idle n (world sys))
  end.

Definition run (fuel : nat) (evs : list event) (sys : Sys D) : Sys D :=
  foldl (fun s ev => step fuel ev s) sys evs.

(** The suite id a response to start-test-suite carries. *)
Definition testSuiteId_of (o : outcome jsval res) : option Z :=
  match data_in o with
  | Some (JObj [("testSuiteId", JNum n)]) => Some n
  | _ => None
  end.

(** The suite ids given out along a run, in the order of the requests. *)
Fixpoint issued (fuel : nat) (evs : list event) (sys : Sys D) : list Z :=
  match evs with
  | [] => []
  | ev :: evs' =>
      match ev with
      | Serve StartTestSuite =>
          option_list (testSuiteId_of (handle fuel StartTestSuite fresh_res sys).1)
      | _ => []
      end ++ issued fuel evs' (step fuel ev sys)
  end.

(** The states the service reaches from its construction over a world
    without sessions, with the number of requests served. *)
Inductive reaches (fuel : nat) : nat -> Sys D -> Prop :=
  | reaches_new port browsers browserVersions w :
      sessions w = ∅ -> nextHandle w = 0%nat ->
      reaches fuel 0 (MkSys (constructor port browsers browserVersions) w)
  | reaches_serve k sys q :
      reaches fuel k sys -> reaches fuel (S k) (step fuel (Serve q) sys)
  | reaches_wait k sys n :
      reaches fuel k sys -> reaches fuel k (step fuel (Wait n) sys).

(** The system is well formed and has given out at most [k] suite ids and
    [k] handles. *)
Definition within (k : nat) (sys : Sys D) : Prop :=
  sys_wf sys /\ _availableTestSuiteId (wpts sys) ≤ Z.of_nat k /\
  (nextHandle (world sys) <= k)%nat.

End service.

(** * Properties *)

Section service_facts.
Context {D : Type} `{Driver D} `{!DriverLaws D}.
Implicit Types (sys : Sys D) (q : request) (r : res) (fuel k : nat) (ev : event).

Lemma handle_advances fuel q r : advances 1 (handle fuel q r).
Proof.
  destruct q; simpl;
    eauto using advances_weaken, startTestSuite_advances, endTestSuite_advances,
      getSubscription_advances, getNotificationStatus_advances.
Qed.

(** A handler keeps the system well formed, as long as the counters are in
    the range in which [++] is exact. *)
Lemma handle_wf fuel q r sys :
  sys_wf sys -> _availableTestSuiteId (wpts sys) ≤ MAX_SAFE_INTEGER ->
  Z.of_nat (nextHandle (world sys)) ≤ MAX_SAFE_INTEGER ->
  sys_wf (handle fuel q r sys).2.
Proof.
  intros Hwf Hc Hh. destruct q as [|args|args|args]; simpl.
  - by apply (preserves_state_post _ _ _ _ (startTestSuite_preserves r)).
  - by apply (preserves_state _ _ _ (endTestSuite_preserves r args)).
  - by apply (preserves_state_post _ _ _ _ (getSubscription_wf fuel r args)).
  - by apply (preserves_state _ _ _ (getNotificationStatus_preserves fuel r args)).
Qed.

Lemma idle_wf n sys : sys_wf sys -> sys_wf (MkSys (wpts sys) (idle n (world sys))).
Proof.
  intros Hwf. apply (sys_wf_world _ (world sys)); [by destruct sys | | |done].
  - intros h. unfold idle. simpl. rewrite lookup_fmap, fmap_is_Some. apply (wf_world _ Hwf).
  - unfold idle. simpl. by rewrite dom_fmap_L.
Qed.

Lemma serve_within fuel q k sys :
  within k sys -> Z.of_nat k ≤ MAX_SAFE_INTEGER -> within (S k) (step fuel (Serve q) sys).
Proof.
  intros (Hwf & Hc & Hh) Hk. unfold step.
  destruct (handle_advances fuel q fresh_res sys) as [Hc' Hh'].
  split_and!; [apply handle_wf; [done|lia..] | lia | lia].
Qed.

Lemma wait_within fuel n k sys : within k sys -> within k (step fuel (Wait n) sys).
Proof. intros (Hwf & Hc & Hh). split_and!; [by apply idle_wf | done | done]. Qed.

Lemma reaches_within fuel k sys :
  reaches fuel k sys -> Z.of_nat k ≤ MAX_SAFE_INTEGER + 1 -> within k sys.
Proof.
  induction 1 as [port browsers versions w Hs Hn|k sys q _ IH|k sys n _ IH]; intros Hk.
  - split_and!; [by apply constructor_wf | done | simpl; lia].
  - apply serve_within; [apply IH|]; lia.
  - by apply wait_within, IH.
Qed.

(** C6. The invariant of the service: every state reached from the
    construction by at most 2^53 requests, served one after the other with
    any waits in between, is well formed: the registered suites have
    distinct ids below the counter, every instance refers to a session that
    exists, no two instances share a session; and no more suite ids and
    handles have been given out than requests were served. *)
Theorem reaches_wf fuel k sys :
  reaches fuel k sys -> Z.of_nat k ≤ MAX_SAFE_INTEGER + 1 ->
  sys_wf sys /\ _availableTestSuiteId (wpts sys) ≤ Z.of_nat k /\
  (nextHandle (world sys) <= k)%nat.
Proof. apply reaches_within. Qed.

(** One response per request: whenever a handler resolves, it has sent
    exactly one response on the response object of its request. *)
Theorem handle_one_response fuel q r sys r' :
  (handle fuel q r sys).1 = Resolved r' -> exists resp, sent r' = sent r ++ [resp].
Proof.
  destruct q as [|args|args|args]; simpl.
  - apply startTestSuite_answers.
  - apply endTestSuite_answers.
  - apply getSubscription_answers.
  - apply getNotificationStatus_answers.
Qed.

(** C28. A request that names a suite that is not registered is answered
    with the error [invalid_test_suite_id], whatever operation it asks for
    and whatever its other arguments (provided the required ones are
    there), and changes nothing. *)
Theorem unknown_suite_rejected fuel q r sys n :
  q <> StartTestSuite ->
  Forall (fun f => present f (args_of q)) (required q) ->
  lookup_prop "testSuiteId" (args_of q) = JNum n ->
  _testSuites (wpts sys) !! n = None ->
  handle fuel q r sys =
  (Resolved (sendErrorResponse r (JStr "invalid_test_suite_id") (unknown_suite_message n)), sys).
Proof.
  intros Hq Hreq Hn Hs. destruct q as [|args|args|args]; simpl in *; [done|..].
  - by apply endTestSuite_unknown.
  - by apply getSubscription_unknown.
  - apply getNotificationStatus_unknown; [|done..].
    by apply Forall_cons in Hreq as [_ [Hi _]%Forall_cons].
Qed.

(** ** The ids given out along a run *)

Lemma testSuiteId_of_start fuel sys :
  testSuiteId_of (handle fuel StartTestSuite fresh_res sys).1 =
  Some (_availableTestSuiteId (wpts sys)).
Proof.
  cbn [handle]. rewrite startTestSuite_eq. unfold testSuiteId_of. cbn [fst].
  by rewrite data_in_sendValidResponse.
Qed.

Lemma step_counter fuel ev sys :
  _availableTestSuiteId (wpts sys) ≤ _availableTestSuiteId (wpts (step fuel ev sys))
    ≤ _availableTestSuiteId (wpts sys) + 1.
Proof.
  destruct ev as [q|n]; simpl; [|lia].
  destruct (handle_advances fuel q fresh_res sys) as [Hc _]. lia.
Qed.

Lemma start_counter fuel sys :
  _availableTestSuiteId (wpts sys) ≤ MAX_SAFE_INTEGER ->
  _availableTestSuiteId (wpts (step fuel (Serve StartTestSuite) sys)) =
  _availableTestSuiteId (wpts sys) + 1.
Proof.
  intros Hc. cbn [step handle]. rewrite startTestSuite_eq. simpl. by apply js_incr_below.
Qed.

(** The ids given out are at or above the counter, in increasing order. *)
Lemma issued_sorted fuel evs sys :
  _availableTestSuiteId (wpts sys) + Z.of_nat (length evs) ≤ MAX_SAFE_INTEGER + 1 ->
  Forall (fun n => _availableTestSuiteId (wpts sys) ≤ n) (issued fuel evs sys) /\
  StronglySorted Z.lt (issued fuel evs sys).
Proof.
  revert sys. induction evs as [|ev evs IH]; intros sys Hlen; [by split; constructor|].
  cbn [issued]. cbn [length] in Hlen. pose proof (step_counter fuel ev sys) as Hstep.
  destruct (IH (step fuel ev sys)) as [Hge Hsorted]; [lia|].
  assert (ev = Serve StartTestSuite \/
          (match ev with Serve StartTestSuite => False | _ => True end)) as [->|Hev]
    by (destruct ev as [[]|]; auto).
  - rewrite testSuiteId_of_start. cbn [option_list app].
    rewrite start_counter in Hge by lia. split.
    + constructor; [done|]. eapply Forall_impl; [exact Hge|]. simpl. lia.
    + constructor; [done|]. eapply Forall_impl; [exact Hge|]. simpl. lia.
  - assert (issued fuel (ev :: evs) sys = issued fuel evs (step fuel ev sys)) as Heq
      by (destruct ev as [[]|]; done).
    cbn [issued] in Heq. rewrite Heq. split; [|done].
    eapply Forall_impl; [exact Hge|]. simpl. lia.
Qed.

(** Suite ids are never reused: along any run of requests and waits
    that stays within the range of the counter, the ids that the
    start-test-suite requests are answered with are strictly increasing in
    the order of the requests, whatever suites are ended in between. *)
Theorem issued_increasing fuel evs sys :
  _availableTestSuiteId (wpts sys) + Z.of_nat (length evs) ≤ MAX_SAFE_INTEGER + 1 ->
  StronglySorted Z.lt (issued fuel evs sys).
Proof. intros Hlen. by destruct (issued_sorted fuel evs sys Hlen). Qed.

(** ** Suites that have left the registry *)

(** An id below the counter that is not registered stays so. *)
Definition retired (n : Z) (sys : Sys D) : Prop :=
  n < _availableTestSuiteId (wpts sys) /\ _testSuites (wpts sys) !! n = None.

Lemma step_retired fuel ev n sys : retired n sys -> retired n (step fuel ev sys).
Proof.
  intros [Hlt Hn]. pose proof (step_counter fuel ev sys) as Hc. split; [lia|].
  destruct ev as [[|args|args|args]|m]; cbn [step handle]; [| | | |done].
  - rewrite startTestSuite_eq. simpl. rewrite lookup_insert_ne by lia. done.
  - by apply (preserves_state _ _ _ (endTestSuite_unregistered fresh_res args n)).
  - by apply (preserves_state _ _ _ (getSubscription_unregistered fuel fresh_res args n)).
  - by rewrite (preserves_state _ _ sys
                  (getNotificationStatus_wpts fuel fresh_res args (wpts sys))).
Qed.

Lemma run_retired fuel evs n sys : retired n sys -> retired n (run fuel evs sys).
Proof.
  revert sys. induction evs as [|ev evs IH]; intros sys Hn; [done|].
  by apply IH, step_retired.
Qed.

(** Ending a suite makes it invalid: after [endTestSuite] has answered
    with success for suite [n], every request that names [n], for any
    operation and after any run of requests and waits, is answered
    [invalid_test_suite_id]: the id is not given to another suite. *)
Theorem ended_suite_invalid fuel r args n sys evs q r' :
  sys_wf sys ->
  lookup_prop "testSuiteId" args = JNum n ->
  (endTestSuite r args sys).1 = Resolved (sendValidResponse r JUndefined) ->
  q <> StartTestSuite ->
  Forall (fun f => present f (args_of q)) (required q) ->
  lookup_prop "testSuiteId" (args_of q) = JNum n ->
  (handle fuel q r' (run fuel evs (endTestSuite r args sys).2)).1 =
  Resolved (sendErrorResponse r' (JStr "invalid_test_suite_id") (unknown_suite_message n)).
Proof.
  intros Hwf Hn Hok Hq Hreq Hqn.
  destruct (endTestSuite_removed sys r args n Hn Hok) as [Hreg Hgone].
  destruct (run_retired fuel evs n (endTestSuite r args sys).2) as [_ Hnone].
  { split; [|done]. destruct (endTestSuite_advances r args sys) as [Hc _].
    pose proof (sys_wf_below sys n Hwf Hreg). lia. }
  destruct q as [|args'|args'|args']; simpl in *; [done|..].
  - by rewrite (endTestSuite_unknown _ _ _ n).
  - by rewrite (getSubscription_unknown _ _ _ _ n).
  - rewrite (getNotificationStatus_unknown _ _ _ _ n); [done| |done..].
    by apply Forall_cons in Hreq as [_ [Hi _]%Forall_cons].
Qed.

End service_facts.

(** * The theorems at concrete systems *)

(** A suite is started and a subscription requested in it. *)
Lemma reaches_wf_witness :
  sys_wf (step 301 (Serve (GetSubscription args_firefox))
            (step 301 (Serve StartTestSuite) sys0)).
Proof.
  apply (reaches_wf 301 2); [|done].
  do 2 apply reaches_serve. by apply reaches_new.
Defined.

Lemma handle_one_response_witness :
  exists resp,
    sent (sendErrorResponse fresh_res (JStr "missing_required_args")
            (missing_message [] ["testSuiteId"])) = sent fresh_res ++ [resp].
Proof. by apply (handle_one_response 0 (EndTestSuite []) fresh_res sys0). Defined.

(** No suite has been started: suite 0 is unknown. *)
Lemma unknown_suite_rejected_witness :
  handle 121 (GetNotificationStatus args_one) fresh_res sys0 =
  (Resolved (sendErrorResponse fresh_res (JStr "invalid_test_suite_id")
               (unknown_suite_message 0)), sys0).
Proof. apply unknown_suite_rejected; [done | compute_done | done | done]. Defined.

(** Two suites started with the first ended in between: ids 0 and 1. *)
Lemma issued_increasing_witness :
  StronglySorted Z.lt
    (issued 0 [Serve StartTestSuite; Serve (EndTestSuite [("testSuiteId", JNum 0)]);
               Serve StartTestSuite] sys0).
Proof. apply issued_increasing. by vm_compute. Defined.

(** Suite 0 is ended and another suite started: the instance of suite 0
    can no longer be polled. *)
Lemma ended_suite_invalid_witness :
  (handle 121 (GetNotificationStatus args_one) fresh_res
     (run 121 [Serve StartTestSuite]
        (endTestSuite fresh_res [("testSuiteId", JNum 0)] (sys_one env_ok)).2)).1 =
  Resolved (sendErrorResponse fresh_res (JStr "invalid_test_suite_id")
              (unknown_suite_message 0)).
Proof.
  apply ended_suite_invalid;
    [apply sys_one_wf | done | by vm_compute | done | compute_done | done].
Defined.
