(* ===== verification/Ownership.v ===== *)
(** * Every open browser belongs to a suite

    A browser the orchestrator launched can only be closed through the
    suite that owns it.  This file shows that, as long as requests are
    served one after the other, every session that is open is owned by a
    registered suite: ending the suites closes every browser. *)

From stdpp Require Import base option list strings gmap pretty sorting.
From S2P Require Import Prelude JsValue ApiServer Driver Browser Selenium Suite Wpts.
From S2P Require Import Fixtures Checks Scripts Lifecycle Subscribe Notify Service.

Import APIServer TestSuite.

Local Open Scope Z_scope.

Section ownership.
Context {D : Type} `{Driver D}.

(** A session that is open and that no suite of the registry owns: no
    request can close it. *)
Definition orphan (sys : Sys D) (h : nat) : Prop :=
  exists d, sessions (world sys) !! h = Some d /\ drv_closed d = false /\ ~ owned sys h.

(** Every open session is owned. *)
Definition tidy (sys : Sys D) : Prop :=
  forall h d, sessions (world sys) !! h = Some d -> drv_closed d = false -> owned sys h.

End ownership.

(** * Properties *)

Section ownership_facts.
Context {D : Type} `{Driver D} `{!DriverLaws D}.
Implicit Types (sys : Sys D) (r : res) (args : jsobj) (fuel : nat) (h : nat) (d : D).

Lemma tidy_no_orphan sys h : tidy sys -> ~ orphan sys h.
Proof. intros Ht (d & Hd & Hc & Ho). eauto. Qed.

(** Ownership depends on the registry only. *)
Lemma owned_registry sys sys' h :
  _testSuites (wpts sys') = _testSuites (wpts sys) -> owned sys h -> owned sys' h.
Proof. intros Heq (n & s & i & Hn & Hi). exists n, s, i. by rewrite Heq. Qed.

(** ** Starting a suite *)

Lemma tidy_start r sys : sys_wf sys -> tidy sys -> tidy (startTestSuite r sys).2.
Proof.
  intros Hwf Ht h d Hd Hc. rewrite startTestSuite_eq in *. simpl in *.
  destruct (Ht h d Hd Hc) as (n & s & i & Hn & Hi). exists n, s, i. split; [|done].
  simpl. rewrite lookup_insert_ne; [done|]. intros <-.
  by rewrite sys_wf_counter_free in Hn.
Qed.

(** ** Ending a suite *)

Lemma tidy_ended sys n s :
  sys_wf sys -> _testSuites (wpts sys) !! n = Some s -> tidy sys -> tidy (ended sys n s).
Proof.
  intros Hwf Hs Ht h d' Hd' Hc'.
  assert (is_Some (sessions (world sys) !! h)) as [d Hd].
  { apply (kill_all_is_Some (drivers s)). unfold ended in Hd'.
    destruct (kill_all (drivers s) (world sys)) as [[l|e|] w']; simpl in *; eauto. }
  destruct (drv_closed d) eqn:Hc.
  { rewrite (ended_keeps_closed sys n s h d Hd Hc) in Hd'. congruence. }
  destruct (Ht h d Hd Hc) as (n' & s' & i & Hn' & Hi).
  destruct (decide (n' = n)) as [->|Hne].
  - assert (s' = s) as -> by congruence.
    destruct (ended_closes sys n s i h Hwf Hs Hi) as (d'' & Hd'' & Hc''). congruence.
  - exists n', s', i. by rewrite ended_other.
Qed.

Lemma tidy_end r args sys : sys_wf sys -> tidy sys -> tidy (endTestSuite r args sys).2.
Proof.
  intros Hwf Ht. destruct (endTestSuite_state sys r args) as [->|(n & s & _ & Hs & ->)];
    [done | by apply tidy_ended].
Qed.

(** ** Polling *)

Lemma getNotificationStatus_stays fuel r args sys :
  target args sys = None -> (getNotificationStatus fuel r args sys).2 = sys.
Proof.
  intros Ht. unfold getNotificationStatus.
  destruct (missingRequiredArgs r args _) as [[] r1]; [done|].
  unfold then_ at 1, gets. destruct (validTestId r1 _ _ _) as [[] r2]; [|done].
  cbn [negb]. unfold then_ at 1, test_instance, then_, gets. unfold target in Ht.
  destruct (suite_at _ _) as [s|]; [|done]. simpl in Ht. by rewrite Ht.
Qed.

Lemma tidy_notify fuel r args sys : tidy sys -> tidy (getNotificationStatus fuel r args sys).2.
Proof.
  intros Ht. destruct (target args sys) as [h|] eqn:Hh;
    [|by rewrite getNotificationStatus_stays].
  rewrite (getNotificationStatus_eq _ _ _ _ h) by done. cbn [snd].
  intros h' d Hd Hc. simpl in Hd. destruct (decide (h = h')) as [<-|Hne].
  - apply target_Some in Hh as (n & i & s & _ & _ & Hn & Hi). by exists n, s, i.
  - rewrite with_session_other in Hd by done. by apply (Ht h' d).
Qed.

(** ** Launching *)

Lemma launch_snd fuel r key b opt sys :
  (launch fuel r key b opt sys).2 = (initiateTestInstance fuel key opt b sys).2.
Proof.
  unfold launch, catch_, then_.
  destruct (initiateTestInstance fuel key opt b sys) as [[v|e|] sys1]; try done.
  symmetry. apply (preserves_state (fun s => sys1 = s) _ sys1); [|done].
  apply subscription_failed_preserves.
Qed.

(** The state [initiateTestInstance] leaves: that in which it began, but
    for the directory it deleted, when no browser was launched; else that
    with the new session registered in the suite. *)
Lemma initiateTestInstance_cases fuel n opt b sys st :
  _testSuites (wpts sys) !! n = Some st ->
  (initiateTestInstance fuel (JNum n) opt b sys).2 = sys \/
  (initiateTestInstance fuel (JNum n) opt b sys).2 = (on_world del_temp sys).2 \/
  exists d, (initiateTestInstance fuel (JNum n) opt b sys).2 =
    launch_state n st (grant_notifications (getUrl (_apiServer (wpts sys))) b) d sys.
Proof.
  intros Hst. destruct (delError (world sys)) as [m|] eqn:Hdel.
  { left. unfold initiateTestInstance, then_ at 1, on_world, zoom, del_temp.
    by rewrite Hdel; destruct sys. }
  destruct (spawn (world sys) (nextHandle (world sys))
              (grant_notifications (getUrl (_apiServer (wpts sys))) b)) as [d|e|] eqn:Hsp.
  - right. right. rewrite (initiateTestInstance_eq _ _ _ _ _ st d) by done. eauto.
  - right. left. unfold initiateTestInstance, then_, on_world, zoom, del_temp, gets,
      getSeleniumDriver. rewrite Hdel. simpl. by rewrite Hsp.
  - right. left. unfold initiateTestInstance, then_, on_world, zoom, del_temp, gets,
      getSeleniumDriver. rewrite Hdel. simpl. by rewrite Hsp.
Qed.

Lemma tidy_del sys : tidy sys -> tidy (on_world del_temp sys).2.
Proof.
  intros Ht h d Hd Hc. unfold on_world, zoom, del_temp in *.
  destruct (delError (world sys)); simpl in *; apply (owned_registry sys); eauto.
Qed.

Lemma tidy_launch_state sys n st b d :
  sys_wf sys -> _testSuites (wpts sys) !! n = Some st -> tidy sys ->
  tidy (launch_state n st b d sys).
Proof.
  intros Hwf Hst Ht h' d' Hd' Hc'. simpl in Hd'.
  apply lookup_insert_Some in Hd' as [[<- <-]|[Hne Hd']].
  - exists n, (addTestInstance (nextHandle (world sys)) st).2,
      (addTestInstance (nextHandle (world sys)) st).1.
    split; [apply lookup_insert_eq | apply addTestInstance_lookup].
  - destruct (Ht h' d' Hd' Hc') as (n' & s' & i & Hn' & Hi).
    destruct (decide (n' = n)) as [->|Hn].
    + assert (s' = st) as -> by congruence.
      exists n, (addTestInstance (nextHandle (world sys)) st).2, i.
      split; [apply lookup_insert_eq|]. apply addTestInstance_stable; [|done].
      by apply (wf_suites sys Hwf) in Hst as (_ & _ & ? & _).
    + exists n', s', i. split; [|done]. simpl. by rewrite lookup_insert_ne.
Qed.

Lemma tidy_subscribe fuel r args sys :
  sys_wf sys -> tidy sys -> tidy (getSubscription fuel r args sys).2.
Proof.
  intros Hwf Ht. rewrite getSubscription_validate.
  destruct (validate args (wpts sys) (world sys)) as [id m|n b opt] eqn:Hv; [done|].
  destruct (validate_Launch _ _ _ _ _ _ Hv) as [st Hst]. rewrite launch_snd.
  destruct (initiateTestInstance_cases fuel n opt b sys st Hst)
    as [->|[->|(d & ->)]]; [done | by apply tidy_del | by apply tidy_launch_state].
Qed.

(** ** Every request, and time *)

Lemma tidy_handle fuel q r sys : sys_wf sys -> tidy sys -> tidy (handle fuel q r sys).2.
Proof.
  intros Hwf Ht.
  destruct q; cbn [handle];
    [by apply tidy_start | by apply tidy_end | by apply tidy_subscribe | by apply tidy_notify].
Qed.

Lemma tidy_step fuel ev sys : sys_wf sys -> tidy sys -> tidy (step fuel ev sys).
Proof.
  destruct ev as [q|n]; [apply tidy_handle|]. intros _ Ht h d Hd Hc. simpl in Hd.
  unfold idle in Hd. simpl in Hd. rewrite lookup_fmap in Hd.
  destruct (sessions (world sys) !! h) as [d0|] eqn:Hd0; [|done]. injection Hd as <-.
  rewrite drv_sleep_closed in Hc. apply (owned_registry sys); [done|]. by apply (Ht h d0).
Qed.

(** C17. Served one after the other, requests leave no browser behind: in
    every state the service reaches from its construction by at most 2^53
    requests, each served to its end before the next, every session that
    is open is owned by a registered suite, so that ending the suites
    closes every browser. *)
Theorem serial_no_orphan fuel k sys h :
  reaches fuel k sys -> Z.of_nat k ≤ MAX_SAFE_INTEGER + 1 -> ~ orphan sys h.
Proof.
  intros Hr Hk. apply tidy_no_orphan. induction Hr as [port browsers versions w Hs Hn| |].
  - intros h' d. simpl. by rewrite Hs, lookup_empty.
  - apply tidy_step; [|apply IHHr; lia]. apply (reaches_within fuel k); [done|lia].
  - apply tidy_step; [|by apply IHHr]. by apply (reaches_within fuel k).
Qed.

End ownership_facts.

(** A suite started, a browser launched for it, and the suite ended a
    second later: the browser is not left behind. *)
Lemma serial_no_orphan_witness :
  ~ orphan (run 40 [Serve StartTestSuite; Serve (GetSubscription args_firefox);
                    Wait 1000; Serve (EndTestSuite [("testSuiteId", JNum 0)])] sys0) 0.
Proof.
  apply (serial_no_orphan 40 3); [|compute_done].
  apply (reaches_serve 40 2), (reaches_wait 40 2), (reaches_serve 40 1),
    (reaches_serve 40 0), reaches_new; done.
Defined.
