(* ===== verification/Contract.v ===== *)
(** * The contract of the registry

    What a client of the four operations may rely on, whatever the browsers
    do: which suites and test instances exist, which ids are answered, and
    which requests are refused.  The contract is a transition system on an
    abstract state, the ids in use; [handle_contract] shows that every
    request the orchestrator serves is a transition of it, and
    [run_refines] that the runs of the service are its traces.  What
    follows from the contract alone is proved on the contract (section
    [promises]), and holds of the orchestrator by refinement. *)

From stdpp Require Import base option list strings gmap pretty sorting.
From S2P Require Import Prelude JsValue ApiServer Driver Browser Selenium Suite Wpts.
From S2P Require Import Fixtures Checks Scripts Lifecycle Subscribe Notify Service Ownership.

Import APIServer TestSuite.

Local Open Scope Z_scope.

(** ** The abstract state *)

(** A suite as a client knows it: the id its next instance gets, and the
    ids of its instances. *)
Record asuite : Type := ASuite { next_test : Z; tests : gset Z }.

(** The registry as a client knows it: the id the next suite gets, and
    the suites that are registered. *)
Record astate : Type := AState { next_suite : Z; suites : gmap Z asuite }.

(** What a request is answered with: a payload, an error id, or nothing
    (the handler has not answered). *)
Inductive reply : Type :=
  | Data (d : jsval)
  | Error (id : jsval)
  | Silent.

Definition reply_of (o : outcome jsval res) : reply :=
  match data_in o, error_of o with
  | Some d, _ => Data d
  | None, Some id => Error id
  | None, None => Silent
  end.

(** The answers of an operation that failed: none, or an error whose id
    is not empty. *)
Definition failure (rp : reply) : Prop :=
  rp = Silent \/ exists id, rp = Error id /\ truthy id = true.

(** The answers of a poll that reached its instance. *)
Definition polled (rp : reply) : Prop :=
  (exists messages, rp = Data (JObj [("messages", messages)])) \/
  rp = Error (JStr "web_driver_error") \/ rp = Silent.

(** The error ids of each operation (section 4.4 of the specification,
    with [invalid_variable_type] for every operation that takes a suite
    id). *)
Definition vocabulary (q : request) : list string :=
  match q with
  | StartTestSuite => []
  | EndTestSuite _ =>
      ["missing_required_args"; "invalid_variable_type"; "invalid_test_suite_id";
       "webdriver_issue"]
  | GetSubscription _ =>
      ["missing_required_args"; "invalid_variable_type"; "invalid_test_suite_id";
       "invalid_browser_name"; "invalid_browser_version"; "browser_not_found";
       "bad_browser_support"; "invalid_vapid_key"; "unable_to_reg_service_worker";
       "unable_to_get_subscription"; "webdriver_issue"]
  | GetNotificationStatus _ =>
      ["missing_required_args"; "invalid_variable_type"; "invalid_test_suite_id";
       "invalid_test_id"; "web_driver_error"]
  end.

(** The shape of the answers of each operation: its payload, and its
    errors.  The errors of a subscription are not confined to the
    vocabulary: the code of an error that the driver throws is sent as it
    is. *)
Definition typed (q : request) (rp : reply) : Prop :=
  match rp with
  | Data d =>
      match q with
      | StartTestSuite => exists n, d = JObj [("testSuiteId", JNum n)]
      | EndTestSuite _ => d = JUndefined
      | GetSubscription _ => exists i x, d = JObj [("testId", JNum i); ("subscription", x)]
      | GetNotificationStatus _ => exists messages, d = JObj [("messages", messages)]
      end
  | Error id =>
      match q with
      | GetSubscription _ => truthy id = true
      | _ => exists s, id = JStr s /\ s ∈ vocabulary q
      end
  | Silent => q <> StartTestSuite
  end.

(** The refusal of a request by the checks of its arguments against the
    registry: the error id, when it is refused. *)
Definition refused (a : astate) (q : request) : option string :=
  if decide (Forall (fun f => present f (args_of q)) (required q)) then
    match q with
    | StartTestSuite => None
    | _ =>
        match lookup_prop "testSuiteId" (args_of q) with
        | JNum n =>
            if decide (is_Some (suites a !! n)) then None else Some "invalid_test_suite_id"
        | _ => Some "invalid_variable_type"
        end
    end
  else Some "missing_required_args".

(** The suite with a new instance under its next id. *)
Definition with_test (s : asuite) : asuite :=
  ASuite (js_incr (next_test s)) ({[next_test s]} ∪ tests s).

Definition set_suites (f : gmap Z asuite -> gmap Z asuite) (a : astate) : astate :=
  AState (next_suite a) (f (suites a)).

(** ** The transitions *)

Inductive contract : astate -> request -> reply -> astate -> Prop :=
  (* a suite is started under the next id *)
  | contract_start a :
      contract a StartTestSuite
        (Data (JObj [("testSuiteId", JNum (next_suite a))]))
        (AState (js_incr (next_suite a)) (<[next_suite a := ASuite 0 ∅]> (suites a)))
  (* a request is refused by the checks against the registry *)
  | contract_refused a q id :
      refused a q = Some id -> contract a q (Error (JStr id)) a
  (* a suite is ended and leaves the registry *)
  | contract_end a args n :
      refused a (EndTestSuite args) = None -> lookup_prop "testSuiteId" args = JNum n ->
      contract a (EndTestSuite args) (Data JUndefined) (set_suites (delete n) a)
  (* closing its browsers failed: the suite stays, without instances *)
  | contract_end_failed a args n s rp :
      refused a (EndTestSuite args) = None -> lookup_prop "testSuiteId" args = JNum n ->
      suites a !! n = Some s -> rp = Error (JStr "webdriver_issue") \/ rp = Silent ->
      contract a (EndTestSuite args) rp
        (set_suites (insert n (ASuite (next_test s) ∅)) a)
  (* no browser was launched: nothing changes *)
  | contract_not_launched a args rp :
      refused a (GetSubscription args) = None -> failure rp ->
      contract a (GetSubscription args) rp a
  (* a browser was launched and subscribed: the instance has the next id *)
  | contract_subscribed a args n s subscription :
      refused a (GetSubscription args) = None -> lookup_prop "testSuiteId" args = JNum n ->
      suites a !! n = Some s ->
      contract a (GetSubscription args)
        (Data (JObj [("testId", JNum (next_test s)); ("subscription", subscription)]))
        (set_suites (insert n (with_test s)) a)
  (* a browser was launched and did not subscribe: the instance stays *)
  | contract_launched a args n s rp :
      refused a (GetSubscription args) = None -> lookup_prop "testSuiteId" args = JNum n ->
      suites a !! n = Some s -> failure rp ->
      contract a (GetSubscription args) rp (set_suites (insert n (with_test s)) a)
  (* the test id is not a number, or of no instance of the suite *)
  | contract_test_type a args :
      refused a (GetNotificationStatus args) = None ->
      typeof (lookup_prop "testId" args) <> "number" ->
      contract a (GetNotificationStatus args) (Error (JStr "invalid_variable_type")) a
  | contract_test_unknown a args n s i :
      refused a (GetNotificationStatus args) = None ->
      lookup_prop "testSuiteId" args = JNum n -> suites a !! n = Some s ->
      lookup_prop "testId" args = JNum i -> i ∉ tests s ->
      contract a (GetNotificationStatus args) (Error (JStr "invalid_test_id")) a
  (* the instance is polled *)
  | contract_polled a args n s i rp :
      refused a (GetNotificationStatus args) = None ->
      lookup_prop "testSuiteId" args = JNum n -> suites a !! n = Some s ->
      lookup_prop "testId" args = JNum i -> i ∈ tests s ->
      polled rp ->
      contract a (GetNotificationStatus args) rp a.

(** A sequence of requests with their replies that the contract allows. *)
Inductive allows : astate -> list (request * reply) -> astate -> Prop :=
  | allows_nil a : allows a [] a
  | allows_cons a q rp a1 tr a2 :
      contract a q rp a1 -> allows a1 tr a2 -> allows a ((q, rp) :: tr) a2.

(** The instance [i] of suite [n] can be addressed, and no suite that is
    started later can take the id [n]. *)
Definition live (a : astate) (n i : Z) : Prop :=
  n < next_suite a /\ exists s, suites a !! n = Some s /\ i ∈ tests s.

(** The request asks to end suite [n]. *)
Definition ends (n : Z) (q : request) : bool :=
  match q with
  | EndTestSuite args => bool_decide (lookup_prop "testSuiteId" args = JNum n)
  | _ => false
  end.

(** ** The orchestrator as the contract sees it *)

Section abstraction.
Context {D : Type} `{Driver D}.

Definition abs_suite (s : TestSuite.t) : asuite :=
  ASuite (TestSuite._availableTestInstanceId s) (dom (TestSuite._testInstances s)).

Definition abs (sys : Sys D) : astate :=
  AState (_availableTestSuiteId (wpts sys)) (abs_suite <$> _testSuites (wpts sys)).

(** The requests of a run with their replies. *)
Fixpoint observed (fuel : nat) (evs : list event) (sys : Sys D) : list (request * reply) :=
  match evs with
  | [] => []
  | Serve q :: evs' =>
      (q, reply_of (handle fuel q fresh_res sys).1) ::
      observed fuel evs' (step fuel (Serve q) sys)
  | Wait n :: evs' => observed fuel evs' (step fuel (Wait n) sys)
  end.

End abstraction.

(** * Properties *)

(** ** What the contract promises

    Consequences of the contract alone: they hold of every implementation
    that refines it. *)

Section promises.
Implicit Types (a : astate) (q : request) (rp : reply) (n i : Z).

Lemma present_number f (args : jsobj) n : lookup_prop f args = JNum n -> present f args.
Proof. intros Hf. unfold present. rewrite Hf. by intros [|]. Qed.

Lemma refused_start a : refused a StartTestSuite = None.
Proof. unfold refused. by rewrite decide_True by constructor. Qed.

Lemma refused_Some a q id :
  refused a q = Some id ->
  q <> StartTestSuite /\
  (id = "missing_required_args" \/ id = "invalid_variable_type" \/
   id = "invalid_test_suite_id").
Proof.
  intros Href. split; [intros ->; by rewrite refused_start in Href|].
  revert Href. unfold refused. repeat (case_decide || case_match); intros [= <-]; auto.
Qed.

(** The answers the contract allows have the shape of their operation. *)
Lemma contract_typed a q rp a' : contract a q rp a' -> typed q rp.
Proof.
  intros Hc. inversion Hc; subst;
    repeat match goal with
    | H : refused _ _ = Some _ |- _ => apply refused_Some in H as [? [-> | [-> | ->]]]
    | H : failure _ |- _ => destruct H as [-> | (? & -> & ?)]
    | H : polled _ |- _ => destruct H as [[? ->] | [-> | ->]]
    | H : _ = Error _ \/ _ = Silent |- _ => destruct H as [-> | ->]
    end; try (destruct q; try done); cbn [typed]; eauto; try done;
    eexists; (split; [done|]); cbn [vocabulary]; repeat constructor.
Qed.

(** A refused request gets its error and changes nothing. *)
Lemma contract_refused_inv a q id rp a' :
  refused a q = Some id -> contract a q rp a' -> rp = Error (JStr id) /\ a' = a.
Proof.
  intros Href Hc. inversion Hc; subst; try congruence.
  - by rewrite refused_start in Href.
  - split; congruence.
Qed.

(** The id counter never goes back. *)
Lemma contract_counter a q rp a' : contract a q rp a' -> next_suite a ≤ next_suite a'.
Proof. intros Hc. inversion Hc; subst; simpl; try done. apply js_incr_mono. Qed.

(** A payload in answer to a subscription means that the instance was
    registered under the id the payload carries. *)
Lemma contract_subscribed_inv a args d a' :
  contract a (GetSubscription args) (Data d) a' ->
  exists n s x, lookup_prop "testSuiteId" args = JNum n /\ suites a !! n = Some s /\
    d = JObj [("testId", JNum (next_test s)); ("subscription", x)] /\
    a' = set_suites (insert n (with_test s)) a.
Proof.
  intros Hc. inversion Hc as [| | | |? ? ? ? Hno| |? ? ? ? ? ? ? ? Hno| | |]; subst;
    try by destruct Hno as [|(? & ? & _)].
  eexists _, _, _. eauto.
Qed.

Lemma live_other a n i (f : gmap Z asuite -> gmap Z asuite) :
  (forall s, suites a !! n = Some s -> f (suites a) !! n = Some s) ->
  live a n i -> live (set_suites f a) n i.
Proof. intros Hf (Hn & s & Hs & Hi). split; [done|]. exists s. auto. Qed.

Lemma live_with_test a n i m s :
  suites a !! m = Some s -> live a n i -> live (set_suites (insert m (with_test s)) a) n i.
Proof.
  intros Hm (Hn & s' & Hs & Hi). split; [done|]. simpl.
  destruct (decide (m = n)) as [->|Hne].
  - exists (with_test s). rewrite lookup_insert_eq. split; [done|].
    assert (s' = s) as -> by congruence. set_solver.
  - exists s'. by rewrite lookup_insert_ne.
Qed.

(** An instance stays addressable until its suite is ended. *)
Lemma contract_live a q rp a' n i :
  contract a q rp a' -> ends n q = false -> live a n i -> live a' n i.
Proof.
  intros Hc Hq Hl. inversion Hc; subst; try done; try by apply live_with_test.
  - destruct Hl as (Hn & s & Hs & Hi). split; [simpl; pose proof (js_incr_mono (next_suite a)); lia|].
    exists s. simpl. by rewrite lookup_insert_ne by lia.
  - apply live_other; [|done]. intros s Hs. apply lookup_delete_Some. split; [|done].
    intros ->. simpl in Hq. by rewrite bool_decide_eq_false in Hq.
  - apply live_other; [|done]. intros s' Hs. rewrite lookup_insert_ne; [done|].
    intros ->. simpl in Hq. by rewrite bool_decide_eq_false in Hq.
Qed.

(** A poll of an addressable instance reaches it. *)
Lemma contract_poll_live a args rp a' n i :
  live a n i ->
  lookup_prop "testSuiteId" args = JNum n -> lookup_prop "testId" args = JNum i ->
  contract a (GetNotificationStatus args) rp a' -> a' = a /\ polled rp.
Proof.
  intros (_ & s & Hs & Hi) Hn Hti Hc.
  assert (refused a (GetNotificationStatus args) = None) as Href.
  { unfold refused. cbn [args_of required].
    rewrite decide_True by (repeat first [by eapply present_number | constructor]).
    by rewrite Hn, decide_True by eauto. }
  inversion Hc; subst; try congruence.
  - by rewrite Hti in *.
  - assert (n0 = n) as -> by congruence. assert (i0 = i) as -> by congruence.
    assert (s0 = s) as -> by congruence. done.
Qed.

End promises.

Section refinement.
Context {D : Type} `{Driver D} `{!DriverLaws D}.
Implicit Types (sys : Sys D) (r : res) (args : jsobj) (fuel : nat) (q : request).

Lemma reply_of_data r d : reply_of (Resolved (sendValidResponse r d)) = Data d.
Proof. unfold reply_of. by rewrite data_in_sendValidResponse. Qed.

Lemma reply_of_error r id m : reply_of (Resolved (sendErrorResponse r id m)) = Error id.
Proof.
  unfold reply_of. by rewrite data_in_sendErrorResponse, error_of_sendErrorResponse.
Qed.

Lemma reply_of_rejected e : reply_of (Rejected e) = Silent.
Proof. reflexivity. Qed.

Lemma reply_of_pending : reply_of Pending = Silent.
Proof. reflexivity. Qed.

Lemma abs_lookup sys n :
  suites (abs sys) !! n = abs_suite <$> _testSuites (wpts sys) !! n.
Proof. apply lookup_fmap. Qed.

Lemma abs_is_Some sys n :
  is_Some (suites (abs sys) !! n) <-> is_Some (_testSuites (wpts sys) !! n).
Proof. rewrite abs_lookup. apply fmap_is_Some. Qed.

(** The abstract state follows the registry only. *)
Lemma abs_world o (w w' : World D) : abs (MkSys o w) = abs (MkSys o w').
Proof. reflexivity. Qed.

Lemma abs_suite_add h (s : TestSuite.t) :
  abs_suite (TestSuite.addTestInstance h s).2 = with_test (abs_suite s).
Proof. unfold abs_suite, with_test. simpl. by rewrite dom_insert_L. Qed.

Lemma abs_suite_clear (s : TestSuite.t) :
  abs_suite (TestSuite.clear s) = ASuite (next_test (abs_suite s)) ∅.
Proof. unfold abs_suite. simpl. by rewrite dom_empty_L. Qed.

Lemma abs_launch_state n st b d sys :
  abs (launch_state n st b d sys) = set_suites (insert n (with_test (abs_suite st))) (abs sys).
Proof.
  unfold abs, set_suites, launch_state. cbn [wpts _testSuites set_testSuites suites].
  by rewrite fmap_insert, abs_suite_add.
Qed.

Lemma abs_ended sys n s :
  abs (ended sys n s) =
  match (kill_all (drivers s) (world sys)).1 with
  | Resolved _ => set_suites (delete n) (abs sys)
  | _ => set_suites (insert n (ASuite (next_test (abs_suite s)) ∅)) (abs sys)
  end.
Proof.
  unfold ended, abs, set_suites.
  destruct (kill_all _ _) as [[l|e|] w']; simpl;
    by rewrite ?fmap_delete, ?fmap_insert, ?abs_suite_clear.
Qed.

(** ** The checks against the registry *)

(** What [refused] decides, on the registry itself. *)
Lemma refused_abs sys q :
  refused (abs sys) q =
  if decide (Forall (fun f => present f (args_of q)) (required q)) then
    match q with
    | StartTestSuite => None
    | _ =>
        match lookup_prop "testSuiteId" (args_of q) with
        | JNum n =>
            if decide (is_Some (_testSuites (wpts sys) !! n)) then None
            else Some "invalid_test_suite_id"
        | _ => Some "invalid_variable_type"
        end
    end
  else Some "missing_required_args".
Proof.
  unfold refused. case_decide; [|done]. destruct q; [done|..];
    (destruct (lookup_prop _ _); [..|apply decide_ext, abs_is_Some|idtac|idtac|idtac]; done).
Qed.

(** A request that passes the checks names a registered suite. *)
Lemma refused_None sys q :
  q <> StartTestSuite -> refused (abs sys) q = None ->
  Forall (fun f => present f (args_of q)) (required q) /\
  exists n s, lookup_prop "testSuiteId" (args_of q) = JNum n /\
    _testSuites (wpts sys) !! n = Some s.
Proof.
  rewrite refused_abs. intros Hq. case_decide as Hp; [|done]. split; [done|].
  destruct q; [done|..]; simpl in *;
    (destruct (lookup_prop _ _) as [| | |n| | |]; try done;
     case_decide as Hs; [|done]; destruct Hs as [s Hs]; eauto).
Qed.

(** ** The handlers, by their checks *)

(** A request the checks refuse is answered with the error and changes
    nothing. *)
Lemma handle_refused fuel q r sys id :
  refused (abs sys) q = Some id ->
  exists m, handle fuel q r sys = (Resolved (sendErrorResponse r (JStr id) m), sys).
Proof.
  rewrite refused_abs.
  destruct q as [|args|args|args]; cbn [handle args_of required].
  - by rewrite decide_True by constructor.
  - unfold endTestSuite. rewrite missingRequiredArgs_present by compute_done.
    case_decide; [|intros [= <-]; eauto]. unfold then_ at 1, gets.
    rewrite validTestSuiteId_cases.
    destruct (lookup_prop _ _); try (intros [= <-]; eauto).
    case_decide; [done | intros [= <-]; eauto].
  - rewrite getSubscription_validate. unfold validate.
    case_decide; [|intros [= <-]; eauto].
    destruct (lookup_prop "testSuiteId" args); try (intros [= <-]; eauto).
    case_decide; [done | intros [= <-]; eauto].
  - unfold getNotificationStatus. rewrite missingRequiredArgs_present by compute_done.
    case_decide; [|intros [= <-]; eauto]. unfold then_ at 1, gets, validTestId.
    rewrite validTestSuiteId_cases.
    destruct (lookup_prop "testSuiteId" args); try (intros [= <-]; eauto).
    case_decide; [done | intros [= <-]; eauto].
Qed.

(** The details [subscribe_flow] resolves with carry the id it was given. *)
Lemma subscribe_flow_resolved fuel url i (d : D) v :
  (subscribe_flow fuel url i d).1 = Resolved v ->
  exists subscription, v = JObj [("testId", JNum i); ("subscription", subscription)].
Proof.
  destruct (subscribe_flow fuel url i d) as [o d'] eqn:Hf. simpl. intros ->.
  unfold subscribe_flow in Hf.
  repeat (apply then_inv_resolved in Hf as (? & ? & _ & Hf)).
  destruct (truthy _); [done|]. injection Hf as <- _. eauto.
Qed.

(** The [catch] of [getSubscription] answers no payload and changes
    nothing. *)
Lemma subscription_failed_reply r err sys :
  (subscription_failed r err sys).2 = sys /\ failure (reply_of (subscription_failed r err sys).1).
Proof.
  unfold subscription_failed, then_, read_prop.
  destruct (get_prop err "code") as [code|]; [|by split; [|left]]. simpl.
  destruct (get_prop err "message") as [message|]; [|by split; [|left]]. simpl.
  destruct (truthy code) eqn:Hc; simpl; [destruct (truthy message)|]; simpl;
    rewrite reply_of_error; (split; [done|right; by eexists]).
Qed.

(** The errors of the validation have an id. *)
Lemma validate_Refuse args o (w : World D) id m :
  validate args o w = Refuse id m -> truthy (JStr id) = true.
Proof.
  unfold validate. destruct (lookup_prop "testSuiteId" args);
    repeat (case_decide || case_match); try done; by intros [= <- _].
Qed.

(** [launch] by the outcome of [initiateTestInstance]. *)
Lemma launch_eq fuel r key b opt sys :
  launch fuel r key b opt sys =
  let I := initiateTestInstance fuel key opt b sys in
  match I.1 with
  | Resolved testDetails => (Resolved (sendValidResponse r testDetails), I.2)
  | Rejected err => subscription_failed r err I.2
  | Pending => (Pending, I.2)
  end.
Proof.
  unfold launch, catch_, then_ at 1.
  by destruct (initiateTestInstance fuel key opt b sys) as [[v|e|] sys1].
Qed.

(** [initiateTestInstance] either launches no browser, and then it does not
    resolve and the registry is as it was, or registers the session it
    launched and has the outcome of the driver chain. *)
Lemma initiateTestInstance_launched fuel n opt b sys st :
  _testSuites (wpts sys) !! n = Some st ->
  let I := initiateTestInstance fuel (JNum n) opt b sys in
  ((forall v, I.1 <> Resolved v) /\ abs I.2 = abs sys) \/
  exists url b' d,
    I = ((subscribe_flow fuel url (_availableTestInstanceId st) d).1,
         launch_state n st b' (subscribe_flow fuel url (_availableTestInstanceId st) d).2 sys).
Proof.
  intros Hst. cbv zeta. destruct (delError (world sys)) as [m|] eqn:Hdel.
  { left. assert (initiateTestInstance fuel (JNum n) opt b sys = (Rejected (mkError m), sys))
      as -> by (unfold initiateTestInstance, then_ at 1, on_world, zoom, del_temp;
                by rewrite Hdel; destruct sys).
    done. }
  destruct (spawn (world sys) (nextHandle (world sys))
              (grant_notifications (getUrl (_apiServer (wpts sys))) b)) as [d|e|] eqn:Hsp.
  - right. rewrite (initiateTestInstance_eq _ _ _ _ _ st d) by done. eauto.
  - left. assert (exists w, initiateTestInstance fuel (JNum n) opt b sys =
                    (Rejected e, MkSys (wpts sys) w)) as [w ->]; [|done].
    unfold initiateTestInstance, then_, on_world, zoom, del_temp, gets, getSeleniumDriver.
    rewrite Hdel. simpl. rewrite Hsp. eauto.
  - left. assert (exists w, initiateTestInstance fuel (JNum n) opt b sys =
                    (Pending, MkSys (wpts sys) w)) as [w ->]; [|done].
    unfold initiateTestInstance, then_, on_world, zoom, del_temp, gets, getSeleniumDriver.
    rewrite Hdel. simpl. rewrite Hsp. eauto.
Qed.

(** The two checks of the test id that [getNotificationStatus] makes once
    the suite is found. *)
Lemma getNotificationStatus_test_type fuel r args sys n s :
  Forall (fun f => present f args) ["testSuiteId"; "testId"] ->
  lookup_prop "testSuiteId" args = JNum n -> _testSuites (wpts sys) !! n = Some s ->
  typeof (lookup_prop "testId" args) <> "number" ->
  getNotificationStatus fuel r args sys =
  (Resolved (sendErrorResponse r (JStr "invalid_variable_type")
     (not_number_message "testId" (lookup_prop "testId" args))), sys).
Proof.
  intros Hp Hn Hs Hty. unfold getNotificationStatus.
  rewrite missingRequiredArgs_present, decide_True by (done || compute_done).
  unfold then_, gets, validTestId. rewrite Hn, validTestSuiteId_ok by eauto.
  simpl. by rewrite decide_True.
Qed.

Lemma getNotificationStatus_test_unknown fuel r args sys n s i :
  Forall (fun f => present f args) ["testSuiteId"; "testId"] ->
  lookup_prop "testSuiteId" args = JNum n -> _testSuites (wpts sys) !! n = Some s ->
  lookup_prop "testId" args = JNum i -> getTestInstance i s = None ->
  exists m, getNotificationStatus fuel r args sys =
    (Resolved (sendErrorResponse r (JStr "invalid_test_id") m), sys).
Proof.
  intros Hp Hn Hs Hi Hno. unfold getNotificationStatus.
  rewrite missingRequiredArgs_present, decide_True by (done || compute_done).
  unfold then_, gets. rewrite Hn, Hi, (validTestId_unknown_test _ _ _ _ s) by done.
  simpl. eauto.
Qed.

Lemma validate_Launch_id args o (w : World D) n b opt :
  validate args o w = Launch n b opt -> lookup_prop "testSuiteId" args = JNum n.
Proof.
  unfold validate. destruct (lookup_prop "testSuiteId" args); 
    repeat (case_decide || case_match); try done; by intros [= <- _ _].
Qed.

(** ** Each operation is a transition of the contract *)

Lemma start_refines r sys :
  contract (abs sys) StartTestSuite (reply_of (startTestSuite r sys).1)
    (abs (startTestSuite r sys).2).
Proof.
  rewrite startTestSuite_eq. cbn [fst snd]. rewrite reply_of_data.
  unfold abs at 2. cbn [wpts _testSuites _availableTestSuiteId set_testSuites
    set_availableTestSuiteId]. rewrite fmap_insert. apply contract_start.
Qed.

Lemma end_refines r args sys :
  refused (abs sys) (EndTestSuite args) = None ->
  contract (abs sys) (EndTestSuite args) (reply_of (endTestSuite r args sys).1)
    (abs (endTestSuite r args sys).2).
Proof.
  intros Href. destruct (refused_None sys (EndTestSuite args) ltac:(done) Href) as (_ & n & s & Hn & Hs).
  cbn [args_of] in Hn. rewrite (endTestSuite_eq sys r args n s) by done. cbn [fst snd]. rewrite abs_ended.
  assert (suites (abs sys) !! n = Some (abs_suite s)) as Ha by (by rewrite abs_lookup, Hs).
  destruct (kill_all (drivers s) (world sys)).1 as [l|e|].
  - rewrite reply_of_data. by apply contract_end.
  - apply (contract_end_failed _ _ n (abs_suite s)); [done..|].
    destruct (get_prop e "message"); [left; apply reply_of_error | by right].
  - apply (contract_end_failed _ _ n (abs_suite s)); auto.
Qed.

Lemma subscribe_refines fuel r args sys :
  refused (abs sys) (GetSubscription args) = None ->
  contract (abs sys) (GetSubscription args) (reply_of (getSubscription fuel r args sys).1)
    (abs (getSubscription fuel r args sys).2).
Proof.
  intros Href. rewrite getSubscription_validate.
  destruct (validate args (wpts sys) (world sys)) as [id m|n b opt] eqn:Hv.
  { cbn [fst snd]. rewrite reply_of_error. apply contract_not_launched; [done|].
    right. eexists. split; [done|]. by eapply validate_Refuse. }
  destruct (validate_Launch _ _ _ _ _ _ Hv) as [s Hs].
  apply validate_Launch_id in Hv as Hn.
  assert (suites (abs sys) !! n = Some (abs_suite s)) as Ha by (by rewrite abs_lookup, Hs).
  rewrite launch_eq. cbv zeta.
  destruct (initiateTestInstance_launched fuel n opt b sys s Hs)
    as [[Hno Habs]|(url & b' & d & ->)].
  - destruct (initiateTestInstance fuel (JNum n) opt b sys) as [[v|e|] sys1];
      cbn [fst snd] in *; [by destruct (Hno v) | |].
    + destruct (subscription_failed_reply r e sys1) as [-> Hr]. rewrite Habs.
      by apply contract_not_launched.
    + rewrite Habs. apply contract_not_launched; [done | by left].
  - cbn [fst snd].
    destruct (subscribe_flow fuel url _ d) as [[v|e|] d'] eqn:Hf; cbn [fst snd].
    + destruct (subscribe_flow_resolved fuel url (_availableTestInstanceId s) d v)
        as [x ->]; [by rewrite Hf|].
      rewrite reply_of_data, abs_launch_state. by apply (contract_subscribed _ _ n (abs_suite s)).
    + destruct (subscription_failed_reply r e (launch_state n s b' d' sys)) as [-> Hr].
      rewrite abs_launch_state. by apply contract_launched.
    + rewrite abs_launch_state. apply contract_launched; [done..| by left].
Qed.

Lemma notify_refines fuel r args sys :
  refused (abs sys) (GetNotificationStatus args) = None ->
  contract (abs sys) (GetNotificationStatus args)
    (reply_of (getNotificationStatus fuel r args sys).1)
    (abs (getNotificationStatus fuel r args sys).2).
Proof.
  intros Href.
  destruct (refused_None sys (GetNotificationStatus args) ltac:(done) Href)
    as (Hp & n & s & Hn & Hs). cbn [args_of required] in *.
  assert (suites (abs sys) !! n = Some (abs_suite s)) as Ha by (by rewrite abs_lookup, Hs).
  destruct (decide (typeof (lookup_prop "testId" args) = "number")) as [Hty|Hty].
  - apply typeof_number in Hty as [i Hi].
    destruct (getTestInstance i s) as [h|] eqn:Hh.
    + rewrite (getNotificationStatus_eq _ _ _ _ h) by (apply target_Some; by exists n, i, s).
      cbv zeta. cbn [fst snd]. rewrite (abs_world _ _ (world sys)). destruct sys as [o w].
      apply (contract_polled _ _ n (abs_suite s) i); [done..|by apply elem_of_dom|].
      unfold polled. cbn [world].
      destruct (with_session h (poll_messages fuel) w).1 as [v|e|]; [| |by auto].
      * left. rewrite reply_of_data. eauto.
      * right. destruct (get_prop e "message"); [left; apply reply_of_error | by right].
    + destruct (getNotificationStatus_test_unknown fuel r args sys n s i) as [m ->];
        [done..|]. cbn [fst snd]. rewrite reply_of_error.
      apply (contract_test_unknown _ _ n (abs_suite s) i); [done..|].
      by apply not_elem_of_dom.
  - rewrite (getNotificationStatus_test_type fuel r args sys n s) by done.
    cbn [fst snd]. rewrite reply_of_error. by apply contract_test_type.
Qed.

(** Whatever the state of the registry, the sessions and the browsers, and
    whatever the request and its arguments, what [handle] answers and what
    it does to the registry is a transition of the contract. *)
Lemma handle_contract fuel q r sys :
  contract (abs sys) q (reply_of (handle fuel q r sys).1) (abs (handle fuel q r sys).2).
Proof.
  destruct (refused (abs sys) q) as [id|] eqn:Href.
  { destruct (handle_refused fuel q r sys id Href) as [m ->]. cbn [fst snd].
    rewrite reply_of_error. by apply contract_refused. }
  destruct q as [|args|args|args]; cbn [handle].
  - apply start_refines.
  - by apply end_refines.
  - by apply subscribe_refines.
  - by apply notify_refines.
Qed.

(** The answers have the shape of their operation: a payload is the
    suite id (start-test-suite), nothing (end-test-suite), the test id
    with the subscription (get-subscription) or the messages
    (get-notification-status); the id of an error of end-test-suite and
    of get-notification-status is one of the strings listed for the
    operation, that of get-subscription is not empty; and
    start-test-suite always answers. *)
Theorem handle_typed fuel q r sys : typed q (reply_of (handle fuel q r sys).1).
Proof. eapply contract_typed, handle_contract. Qed.

(** ** Runs *)

Lemma step_contract fuel q sys :
  contract (abs sys) q (reply_of (handle fuel q fresh_res sys).1)
    (abs (step fuel (Serve q) sys)).
Proof. apply handle_contract. Qed.

(** C8. Refinement: along every run of the service, from every state and
    with every driver, the requests served and what they were answered
    with are a sequence the contract allows, and it leads to the state of
    the registry the run ends in.  Time that passes is not seen. *)
Theorem run_refines fuel evs sys :
  allows (abs sys) (observed fuel evs sys) (abs (run fuel evs sys)).
Proof.
  revert sys. induction evs as [|[q|t] evs IH]; intros sys; cbn [observed].
  - constructor.
  - eapply allows_cons; [apply step_contract | apply IH].
  - apply (IH (step fuel (Wait t) sys)).
Qed.

(** An instance stays addressable along a run that does not end its
    suite. *)
Lemma run_live fuel evs sys n i :
  Forall (fun ev => forall q, ev = Serve q -> ends n q = false) evs ->
  live (abs sys) n i -> live (abs (run fuel evs sys)) n i.
Proof.
  revert sys. induction evs as [|ev evs IH]; intros sys Hevs Hl; [done|].
  apply Forall_cons in Hevs as [Hev Hevs]. apply (IH (step fuel ev sys) Hevs).
  destruct ev as [q|t]; [|done].
  eapply contract_live; [apply step_contract | by apply Hev | done].
Qed.

(** A payload in answer to [getSubscription] names an instance that is
    addressable afterwards. *)
Lemma subscribed_live fuel r args sys d :
  sys_wf sys -> reply_of (getSubscription fuel r args sys).1 = Data d ->
  exists n i x, lookup_prop "testSuiteId" args = JNum n /\
    d = JObj [("testId", JNum i); ("subscription", x)] /\
    live (abs (getSubscription fuel r args sys).2) n i.
Proof.
  intros Hwf Hd. pose proof (handle_contract fuel (GetSubscription args) r sys) as Hc.
  cbn [handle] in Hc. rewrite Hd in Hc.
  apply contract_subscribed_inv in Hc as (n & s & x & Hn & Hs & -> & ->).
  exists n, (next_test s), x. split_and!; [done..|].
  rewrite abs_lookup in Hs. destruct (_testSuites (wpts sys) !! n) as [st|] eqn:Hst; [|done].
  split; [apply (wf_suites sys Hwf n st Hst)|]. exists (with_test s).
  cbn [suites set_suites]. rewrite lookup_insert_eq. split; [done|]. set_solver.
Qed.

(** Round trip of a test id, for requests served one after the other:
    when [getSubscription] answers with a test id for a suite, then after
    any further requests and any time,
    as long as no request asks to end that suite, a poll with that suite
    id and that test id reaches the instance: it is answered with the
    messages or with the error [web_driver_error], or is not answered,
    and never refused as an unknown id. *)
Theorem subscription_stays_valid fuel r args sys d n i x evs r' args' :
  sys_wf sys ->
  reply_of (handle fuel (GetSubscription args) r sys).1 = Data d ->
  lookup_prop "testSuiteId" args = JNum n ->
  d = JObj [("testId", JNum i); ("subscription", x)] ->
  Forall (fun ev => forall q, ev = Serve q -> ends n q = false) evs ->
  lookup_prop "testSuiteId" args' = JNum n -> lookup_prop "testId" args' = JNum i ->
  polled (reply_of
    (handle fuel (GetNotificationStatus args') r'
       (run fuel evs (handle fuel (GetSubscription args) r sys).2)).1).
Proof.
  intros Hwf Hd Hn -> Hevs Hn' Hi'.
  destruct (subscribed_live fuel r args sys _ Hwf Hd) as (n0 & i0 & x0 & Hn0 & [= <- <-] & Hl).
  assert (n0 = n) as -> by congruence.
  eapply (contract_poll_live _ args' _ _ n i); [| done | done | apply handle_contract].
  by apply run_live.
Qed.

End refinement.

(** * Instances *)

(** A subscription in suite 0; then a second passes, another suite is
    started and a second instance subscribed in suite 0; the first
    instance is polled. *)
Lemma subscription_stays_valid_witness :
  polled (reply_of
    (handle 301 (GetNotificationStatus args_one) fresh_res
       (run 301 [Wait 1000; Serve StartTestSuite; Serve (GetSubscription args_firefox)]
          (handle 301 (GetSubscription args_firefox) fresh_res (sys_of_suite env_ok)).2)).1).
Proof.
  apply (subscription_stays_valid 301 fresh_res args_firefox (sys_of_suite env_ok)
           (JObj [("testId", JNum 0); ("subscription", sub_ok)]) 0 0 sub_ok);
    [|by vm_compute | done | done | | done | done].
  - apply (handle_wf 0 StartTestSuite fresh_res sys0); [apply sys_of_wf | done..].
  - repeat constructor; by intros q [= <-].
Defined.
