(* ===== verification/Counters.v ===== *)
(** * The id counters at the limit of exact doubles

    The suite ids and the test ids are JavaScript numbers that are only
    ever incremented.  Up to [2^53] the increment is exact; at [2^53] it
    gives [2^53] again.  This file shows that the counters stay in
    [[0, 2^53]] along every run, however long, and what the operations do
    once a counter has reached the limit: the id is given out again, and
    what was registered under it is replaced. *)

From stdpp Require Import base option list strings gmap pretty sorting.
From S2P Require Import Prelude JsValue ApiServer Driver Browser Selenium Suite Wpts.
From S2P Require Import Fixtures Checks Scripts Lifecycle Subscribe Notify Service Ownership.
From S2P Require Import Contract.

Import APIServer TestSuite.

Local Open Scope Z_scope.

(** The counters of the registry are doubles that [++] has produced from
    [0]. *)
Definition bounded (a : astate) : Prop :=
  0 ≤ next_suite a ≤ 2 ^ 53 /\
  map_Forall (fun _ s => 0 ≤ next_test s ≤ 2 ^ 53) (suites a).

(** A system whose suite counter is at the limit, with the suite that was
    registered last and its one instance. *)
Definition sys_limit : Sys session :=
  MkSys
    (set_testSuites (insert (2 ^ 53) (Suite (2 ^ 53) 1 {[0 := 0%nat]}))
       (set_availableTestSuiteId (2 ^ 53) (constructor None None None)))
    (world (sys_one env_ok)).

(** * Properties *)

Lemma js_incr_bounded n : 0 ≤ n ≤ 2 ^ 53 -> 0 ≤ js_incr n ≤ 2 ^ 53.
Proof. unfold js_incr, MAX_SAFE_INTEGER. case_decide; lia. Qed.

Section bounds.
Implicit Types (a : astate) (q : request) (rp : reply).

Lemma bounded_insert a n s :
  bounded a -> 0 ≤ next_test s ≤ 2 ^ 53 -> bounded (set_suites (insert n s) a).
Proof. intros [Hc Hs] Hn. split; [done|]. by apply map_Forall_insert_2. Qed.

Lemma bounded_lookup a n s : bounded a -> suites a !! n = Some s -> 0 ≤ next_test s ≤ 2 ^ 53.
Proof. intros [_ Hs] Hn. by apply (Hs n s). Qed.

(** Every transition of the contract keeps the counters in range. *)
Lemma contract_bounded a q rp a' : contract a q rp a' -> bounded a -> bounded a'.
Proof.
  intros Hc Hb. inversion Hc; subst; try done;
    try (apply bounded_insert; [done|]; cbn [with_test next_test];
         try apply js_incr_bounded; by eapply bounded_lookup).
  - destruct Hb as [Hn Hs]. split; [by apply js_incr_bounded|].
    by apply map_Forall_insert_2.
  - destruct Hb as [Hn Hs]. split; [done|]. by apply map_Forall_delete.
Qed.

End bounds.

Section counters.
Context {D : Type} `{Driver D} `{!DriverLaws D}.
Implicit Types (sys : Sys D) (r : res) (fuel : nat).

Lemma run_bounded fuel evs sys : bounded (abs sys) -> bounded (abs (run fuel evs sys)).
Proof.
  revert sys. induction evs as [|[q|t] evs IH]; intros sys Hb; [done|..]; apply IH.
  - eapply contract_bounded; [apply step_contract | done].
  - done.
Qed.

(** The counters never leave the range of exact doubles along a run of
    requests served one after the other: after any requests and waits
    since the construction, however many, the suite
    counter and the instance counter of every registered suite are
    integers between 0 and 2^53. *)
Theorem counters_bounded fuel evs port browsers browserVersions (w : World D) :
  let sys := run fuel evs (MkSys (constructor port browsers browserVersions) w) in
  0 ≤ _availableTestSuiteId (wpts sys) ≤ 2 ^ 53 /\
  forall n s, _testSuites (wpts sys) !! n = Some s ->
    0 ≤ _availableTestInstanceId s ≤ 2 ^ 53.
Proof.
  cbv zeta. set (sys0 := MkSys _ w).
  destruct (run_bounded fuel evs sys0) as [Hc Hs].
  { split; [done|]. unfold abs. cbn [suites]. simpl. rewrite fmap_empty.
    apply map_Forall_empty. }
  split; [done|]. intros n s Hn.
  apply (Hs n (abs_suite s)). by rewrite abs_lookup, Hn.
Qed.

(** C26. At the limit the suite id is given out again: when the counter is
    [2^53], [startTestSuite] answers with [2^53] and leaves the counter
    there, so that every later suite gets the same id; the suite that was
    registered under it is replaced by the new one, and the sessions of
    its instances, when they are open, are owned by no suite any more. *)
Theorem startTestSuite_saturated r sys s i h d :
  _availableTestSuiteId (wpts sys) = 2 ^ 53 ->
  _testSuites (wpts sys) !! (2 ^ 53) = Some s -> getTestInstance i s = Some h ->
  (forall n s' i', _testSuites (wpts sys) !! n = Some s' -> getTestInstance i' s' = Some h ->
     n = 2 ^ 53) ->
  sessions (world sys) !! h = Some d -> drv_closed d = false ->
  let sys' := (startTestSuite r sys).2 in
  (startTestSuite r sys).1 =
    Resolved (sendValidResponse r (JObj [("testSuiteId", JNum (2 ^ 53))])) /\
  _availableTestSuiteId (wpts sys') = 2 ^ 53 /\
  _testSuites (wpts sys') !! (2 ^ 53) = Some (create (2 ^ 53)) /\
  orphan sys' h.
Proof.
  intros Hc Hs Hi Hex Hd Hcl. rewrite startTestSuite_eq, Hc. cbn [fst snd].
  split_and!; [done | done | apply lookup_insert_eq |].
  exists d. split_and!; [done..|]. intros (n & s' & i' & Hn & Hi').
  cbn [wpts _testSuites set_testSuites] in Hn.
  apply lookup_insert_Some in Hn as [[_ <-]|[Hne Hn]]; [done|].
  by apply Hne, eq_sym, (Hex n s' i').
Qed.

End counters.

(** * Instances *)

Lemma startTestSuite_saturated_witness :
  (startTestSuite fresh_res sys_limit).1 =
    Resolved (sendValidResponse fresh_res (JObj [("testSuiteId", JNum (2 ^ 53))])) /\
  _availableTestSuiteId (wpts (startTestSuite fresh_res sys_limit).2) = 2 ^ 53 /\
  _testSuites (wpts (startTestSuite fresh_res sys_limit).2) !! (2 ^ 53) =
    Some (create (2 ^ 53)) /\
  orphan (startTestSuite fresh_res sys_limit).2 0.
Proof.
  apply (startTestSuite_saturated fresh_res sys_limit (Suite (2 ^ 53) 1 {[0 := 0%nat]}) 0 0%nat
           (new_session env_ok)); [done | done | done | | done | done].
  intros n s' i'. simpl. intros [[<- _]|[_ Hs]]%lookup_insert_Some; [done|].
  by rewrite lookup_empty in Hs.
Defined.
