(* ===== verification/Delivery.v ===== *)
(** * Delivery of the messages along a run

    A push message that has been sent to a browser is in the session of
    that browser, on its way to the page or in the page's buffer, until a
    [getNotificationStatus] hands it over.  This file follows the
    messages of one session through a run of the service, on the sessions
    of [Browser]: whatever requests are served and whatever time passes,
    the messages handed over by the polls of the session and those the
    session still holds are the messages it held at the start. *)

From stdpp Require Import base option list strings gmap pretty sorting.
From S2P Require Import Prelude JsValue ApiServer Driver Browser Selenium Suite Wpts.
From S2P Require Import Fixtures Checks Scripts Lifecycle Subscribe Notify Service Ownership.

Import APIServer TestSuite.

Local Open Scope Z_scope.

(** The strings of an array of strings. *)
Definition strings_of (v : jsval) : list string :=
  match v with
  | JArr vs => omap (fun x => match x with JStr s => Some s | _ => None end) vs
  | _ => []
  end.

(** The messages an answer hands over. *)
Definition messages_of (o : outcome jsval res) : list string :=
  match data_in o with
  | Some (JObj [("messages", messages)]) => strings_of messages
  | _ => []
  end.

(** The messages a request hands over from the session [h]: those of the
    answer, when the request polls the instance whose session is [h]. *)
Definition handed_over (fuel : nat) (q : request) (sys : Sys session) (h : nat) : list string :=
  match q with
  | GetNotificationStatus args =>
      if decide (target args sys = Some h)
      then messages_of (handle fuel q fresh_res sys).1 else []
  | _ => []
  end.

(** The messages a run hands over from the session [h], in the order of
    the requests. *)
Fixpoint delivered (fuel : nat) (evs : list event) (sys : Sys session) (h : nat) : list string :=
  match evs with
  | [] => []
  | Serve q :: evs' =>
      handed_over fuel q sys h ++ delivered fuel evs' (step fuel (Serve q) sys) h
  | Wait n :: evs' => delivered fuel evs' (step fuel (Wait n) sys) h
  end.

(** From [w] to [w'] the session [h], whose handle is in use, has handed
    over the messages [ms]: it is still there, and [ms] and the messages
    it holds are those it held. *)
Definition passes (h : nat) (ms : list string) (w w' : World session) : Prop :=
  (h < nextHandle w)%nat ->
  (h < nextHandle w')%nat /\
  forall s, sessions w !! h = Some s ->
    exists s', sessions w' !! h = Some s' /\ ms ++ payloads s' ≡ₚ payloads s.

(** * Properties *)

Section delivery.
Implicit Types (sys : Sys session) (w : World session) (s : session) (h : nat).
Implicit Types (r : res) (args : jsobj) (fuel : nat).

Lemma strings_of_strings ms : strings_of (JArr (JStr <$> ms)) = ms.
Proof. unfold strings_of. induction ms as [|m ms IH]; [done|]. simpl. by f_equal. Qed.

(** ** Composition *)

Lemma passes_refl h w : passes h [] w w.
Proof. intros Hh. split; [done|]. intros s Hs. by exists s. Qed.

Lemma passes_trans h ms1 ms2 w1 w2 w3 :
  passes h ms1 w1 w2 -> passes h ms2 w2 w3 -> passes h (ms1 ++ ms2) w1 w3.
Proof.
  intros H1 H2 Hh. destruct (H1 Hh) as [Hh2 H1']. destruct (H2 Hh2) as [Hh3 H2'].
  split; [done|]. intros s Hs.
  destruct (H1' s Hs) as (s2 & Hs2 & Hp2). destruct (H2' s2 Hs2) as (s3 & Hs3 & Hp3).
  exists s3. split; [done|]. by rewrite <- (assoc_L (++)), Hp3.
Qed.

Lemma passes_eq h w w' : w' = w -> passes h [] w w'.
Proof. intros ->. apply passes_refl. Qed.

(** What changes the world but not its sessions. *)
Lemma passes_sessions h w w' :
  sessions w' = sessions w -> nextHandle w' = nextHandle w -> passes h [] w w'.
Proof. intros Hs Hn Hh. split; [by rewrite Hn|]. intros s. rewrite Hs. eauto. Qed.

(** ** The commands *)

(** A command on a session keeps the messages of the others, and those of
    its own when it does not read them. *)
Lemma passes_with_session {A} h h' (m : Promise jsval session A) w :
  (h' = h -> forall s, payloads (m s).2 ≡ₚ payloads s) ->
  passes h [] w (with_session h' m w).2.
Proof.
  intros Hm Hh. split; [by rewrite with_session_nextHandle|]. intros s Hs.
  destruct (decide (h' = h)) as [->|Hne].
  - destruct (with_session_lookup h m w s Hs) as [_ Hl]. eauto.
  - exists s. by rewrite with_session_other.
Qed.

Lemma session_quit_payloads s : payloads (session_quit s).2 = payloads s.
Proof. unfold session_quit. destruct (closed s); [done|]. by destruct (quitError (env s)). Qed.

Lemma passes_kill_all h hs w : passes h [] w (kill_all hs w).2.
Proof.
  revert w. induction hs as [|h' hs IH]; intros w; [apply passes_refl|].
  rewrite kill_all_cons. cbn [snd]. apply (passes_trans h [] [] _ (killWebDriver h' w).2), IH.
  apply passes_with_session. intros _ s. by rewrite session_quit_payloads.
Qed.

Lemma passes_idle h n w : passes h [] w (idle n w).
Proof.
  intros Hh. split; [done|]. intros s Hs. exists (tick n s). split; [|done].
  unfold idle. simpl. by rewrite lookup_fmap, Hs.
Qed.

(** A launch takes a new handle. *)
Lemma passes_launch_state h n st b d sys :
  passes h [] (world sys) (world (launch_state n st b d sys)).
Proof.
  intros Hh. split; [simpl; lia|]. intros s Hs. exists s. split; [|done].
  simpl. rewrite lookup_insert_ne; [done|lia].
Qed.

(** ** The handlers *)

Lemma passes_end r args sys h : passes h [] (world sys) (world (endTestSuite r args sys).2).
Proof.
  destruct (endTestSuite_state sys r args) as [->|(n & st & _ & _ & ->)];
    [apply passes_refl|].
  unfold ended. destruct (kill_all (drivers st) (world sys)).1; apply passes_kill_all.
Qed.

Lemma passes_subscribe fuel r args sys h :
  passes h [] (world sys) (world (getSubscription fuel r args sys).2).
Proof.
  rewrite getSubscription_validate.
  destruct (validate args (wpts sys) (world sys)) as [id m|n b opt] eqn:Hv;
    [apply passes_refl|].
  destruct (validate_Launch _ _ _ _ _ _ Hv) as [st Hst]. rewrite launch_snd.
  destruct (initiateTestInstance_cases fuel n opt b sys st Hst)
    as [->|[->|(d & ->)]]; [apply passes_refl| |apply passes_launch_state].
  unfold on_world, zoom, del_temp. by destruct (delError (world sys)); apply passes_sessions.
Qed.

Lemma messages_of_polled r (o : outcome jsval jsval) :
  messages_of
    match o with
    | Resolved receivedMessages =>
        Resolved (sendValidResponse r (JObj [("messages", receivedMessages)]))
    | Rejected err =>
        match get_prop err "message" with
        | Some m => Resolved (sendErrorResponse r (JStr "web_driver_error") (status_message m))
        | None => Rejected (TypeError err "message")
        end
    | Pending => Pending
    end =
  match o with Resolved v => strings_of v | _ => [] end.
Proof.
  unfold messages_of. destruct o as [v|e|]; [|destruct (get_prop e "message")|]; try done.
  - by rewrite data_in_sendValidResponse.
  - by rewrite data_in_sendErrorResponse.
Qed.

Lemma passes_notify fuel args sys h :
  passes h (handed_over fuel (GetNotificationStatus args) sys h) (world sys)
    (world (getNotificationStatus fuel fresh_res args sys).2).
Proof.
  unfold handed_over. cbn [handle]. destruct (target args sys) as [h'|] eqn:Ht.
  2: { rewrite decide_False, getNotificationStatus_stays by done. apply passes_refl. }
  rewrite (getNotificationStatus_eq _ _ _ _ h') by done. cbv zeta. cbn [fst snd world].
  destruct (decide (h' = h)) as [->|Hne].
  - rewrite decide_True by done. intros Hh.
    split; [by rewrite with_session_nextHandle|]. intros s Hs.
    rewrite (with_session_eq h _ _ s Hs), messages_of_polled. cbn [fst snd].
    exists (poll_messages fuel s).2. split; [apply lookup_insert_eq|].
    pose proof (poll_messages_conserves fuel s) as Hp.
    destruct (poll_messages fuel s).1 as [v|e|]; [|done..].
    destruct Hp as (ms & -> & Hp). by rewrite strings_of_strings.
  - rewrite decide_False by congruence. by apply passes_with_session.
Qed.

(** A request hands over what [handed_over] says, from the session it
    polls, and keeps the messages of every other session. *)
Lemma passes_serve fuel q sys h :
  passes h (handed_over fuel q sys h) (world sys) (world (step fuel (Serve q) sys)).
Proof.
  destruct q as [|args|args|args]; cbn [step handle].
  - rewrite startTestSuite_eq. apply passes_refl.
  - apply passes_end.
  - apply passes_subscribe.
  - apply passes_notify.
Qed.

Lemma passes_run fuel evs sys h :
  passes h (delivered fuel evs sys h) (world sys) (world (run fuel evs sys)).
Proof.
  revert sys. induction evs as [|[q|n] evs IH]; intros sys; cbn [delivered].
  - apply passes_refl.
  - eapply passes_trans; [apply passes_serve | apply IH].
  - apply (passes_trans h [] _ _ (world (step fuel (Wait n) sys))); [apply passes_idle|].
    apply IH.
Qed.

(** Every message is handed over at most once, and none is lost:
    along any run of requests and waits, for every session whose handle
    is in use at the start, the messages that the polls of that session
    were answered with, in all, and the messages the session holds at
    the end are together the messages it held at the start. *)
Theorem run_conserves fuel evs sys h s :
  (h < nextHandle (world sys))%nat -> sessions (world sys) !! h = Some s ->
  exists s',
    sessions (world (run fuel evs sys)) !! h = Some s' /\
    delivered fuel evs sys h ++ payloads s' ≡ₚ payloads s.
Proof. intros Hh Hs. by apply (passes_run fuel evs sys h). Qed.

End delivery.

(** * Instances *)

(** A session that subscribed a second ago, to which a message arrives at
    5 s: it is polled (the poll waits for the message and hands it over),
    then a second passes and a suite is started. *)
Lemma run_conserves_witness :
  exists s',
    sessions (world (run 121 [Serve (GetNotificationStatus args_one); Wait 1000;
                              Serve StartTestSuite]
                       (sys_with (subscribed env_ok)))) !! 0%nat = Some s' /\
    delivered 121 [Serve (GetNotificationStatus args_one); Wait 1000; Serve StartTestSuite]
      (sys_with (subscribed env_ok)) 0 ++ payloads s' ≡ₚ payloads (subscribed env_ok).
Proof. apply run_conserves; [simpl; lia | done]. Defined.
