(* ===== verification/Async.v ===== *)
(** * The handlers with their suspension points

    The handlers of [src/src/index.js] as tasks: the same chains as in
    [Lifecycle], [Subscribe] and [Notify], with the calls that wait for a
    browser session, for the launch of a browser or for a timer marked as
    suspensions ([await]) and everything else running in the turn in which
    it is reached ([now]).  Run alone, each task is the handler of those
    files ([handle_task_run]). *)

From stdpp Require Import base option list strings gmap pretty sorting.
From S2P Require Import Prelude Task JsValue ApiServer Driver Browser Selenium Suite Wpts.
From S2P Require Import Fixtures Checks Scripts Lifecycle Subscribe Notify Service.

Import APIServer.

Local Open Scope Z_scope.
Local Open Scope task_scope.

Section async.
Context {D : Type} `{Driver D}.

(** ** Commands of a session *)

(** [driver.wait(condition, timeout)]: every evaluation of the condition is
    a suspension of its own. *)
Fixpoint wait_loop_task (fuel : nat) (cond : task jsval D jsval)
    (timeout start : N) : task jsval D jsval :=
  match fuel with
  | O => Settled Pending
  | S fuel' =>
      v <- cond ;;
      if truthy v then ret v
      else
        d <- now get_state ;;
        let elapsed := (drv_now d - start)%N in
        if negb (timeout =? 0)%N && (timeout <=? elapsed)%N
        then throw (TimeoutError elapsed)
        else wait_loop_task fuel' cond timeout start
  end.

Definition wait_task (fuel : nat) (cond : task jsval D jsval) (timeout : N) :
    task jsval D jsval :=
  d <- now get_state ;; wait_loop_task fuel cond timeout (drv_now d).

(** The driver chain of [initiateTestInstance]. *)
Definition subscribe_flow_task (fuel : nat) (url : string) (testInstanceId : Z) :
    task jsval D jsval :=
  await (drv_get url) ;;
  wait_task fuel (await (drv_executeScript script_loaded)) 0 ;;
  await (drv_executeScript script_start) ;;
  wait_task fuel (await (drv_executeScript script_swRegistered_defined)) 0 ;;
  swRegistered <- await (drv_executeScript script_swRegistered) ;;
  error <- now (read_prop swRegistered "error") ;;
  (if truthy error then throw (sw_errorDetails error) else ret tt) ;;
  wait_task fuel (await (drv_executeScript script_subscription_defined)) 0 ;;
  subscription <- await (drv_executeScript script_subscription) ;;
  error <- now (read_prop subscription "error") ;;
  if truthy error then throw (sub_errorDetails error)
  else ret (JObj [("testId", JNum testInstanceId); ("subscription", subscription)]).

(** The condition [getNotificationStatus] waits for: the script, and the
    timer of 500 milliseconds when there are no messages. *)
Definition messages_cond_task : task jsval D jsval :=
  isValid <- await (drv_executeScript script_has_messages) ;;
  if truthy isValid then ret (JBool true)
  else await (sleep 500) ;; ret (JBool false).

Definition poll_messages_task (fuel : nat) : task jsval D jsval :=
  wait_task fuel messages_cond_task 60000 ;;
  await (drv_executeScript script_drain).

(** ** Tasks on the session a handle refers to *)

(** Each piece of the task runs on the session as it is when the piece
    runs; a handle that refers to no session rejects the task. *)
Fixpoint session_task {A} (h : nat) (t : task jsval D A) : task jsval (World D) A :=
  let next_of next w :=
    match sessions w !! h with
    | Some d => session_task h (next d)
    | None => throw no_session
    end in
  let upd_of upd w :=
    match sessions w !! h with
    | Some d => set_sessions (insert h (upd d)) w
    | None => w
    end in
  match t with
  | Settled o => Settled o
  | Now next upd => Now (next_of next) (upd_of upd)
  | Later next upd => Later (next_of next) (upd_of upd)
  end.

Definition world_task {A} (t : task jsval (World D) A) : task jsval (Sys D) A :=
  task_zoom world (fun w s => MkSys (wpts s) w) t.

(** ** Suites *)

(** [this.startTestSuite(res)]: nothing in it waits. *)
Definition startTestSuite_task (r : res) : task jsval (Sys D) res :=
  o <- now (gets wpts) ;;
  let newTestSuite := TestSuite.create (_availableTestSuiteId o) in
  now (on_wpts (modify (fun o =>
    set_testSuites (insert (TestSuite.id newTestSuite) newTestSuite)
      (set_availableTestSuiteId (js_incr (_availableTestSuiteId o)) o)))) ;;
  ret (sendValidResponse r (JObj [("testSuiteId", JNum (TestSuite.id newTestSuite))])).

(** What the completion of [suite.end()] does: the sessions [hs] the suite
    asked to close are closed, and the collection of the suite, as it is
    then, is cleared. *)
Definition suite_end_complete (n : Z) (hs : list nat) : Promise jsval (Sys D) unit :=
  fun sys =>
    let '(o, w') := TestSuite.kill_all hs (world sys) in
    (outcome_map (fun _ => tt) o,
     MkSys (set_testSuites (alter TestSuite.clear n) (wpts sys)) w').

(** [this._testSuites[n].end()]: the suite asks every driver it has at
    the time of the call to close, and the task is suspended until all of
    them have answered. *)
Definition suite_end_task (n : Z) : task jsval (Sys D) unit :=
  o <- now (gets wpts) ;;
  match _testSuites o !! n with
  | Some s => await (suite_end_complete n (TestSuite.drivers s))
  | None => throw (TypeError JUndefined "end")
  end.

Definition suite_end_at_task (key : jsval) : task jsval (Sys D) unit :=
  match key with
  | JNum n => suite_end_task n
  | _ => throw (TypeError JUndefined "end")
  end.

(** [this.endTestSuite(res, args)] *)
Definition endTestSuite_task (r : res) (args : jsobj) : task jsval (Sys D) res :=
  let requiredFields := ["testSuiteId"] in
  let '(missing, r) := missingRequiredArgs r args requiredFields in
  if missing then ret r else
  o <- now (gets wpts) ;;
  let '(valid, r) := validTestSuiteId r (lookup_prop "testSuiteId" args) o in
  if negb valid then ret r else
  task_catch
    (suite_end_at_task (lookup_prop "testSuiteId" args) ;;
     now (delete_suite_at (lookup_prop "testSuiteId" args)) ;;
     ret (sendValidResponse r JUndefined))
    (fun err =>
       message <- now (read_prop err "message") ;;
       ret (sendErrorResponse r (JStr "webdriver_issue") (issue_message message))).

(** ** Subscriptions *)

(** [this.initiateTestInstance(testSuiteId, optionalArgs, browser)]: the
    task waits for [del], for the launch of the browser, and for every
    command of the driver chain; the instance is registered in the turn in
    which the launch is known to have succeeded. *)
Definition initiateTestInstance_task (fuel : nat) (testSuiteId : jsval)
    (optionalArgs : jsobj) (seleniumAssistantBrowser : localBrowser) :
    task jsval (Sys D) jsval :=
  await (on_world del_temp) ;;
  o <- now (gets wpts) ;;
  let url := getUrl (_apiServer o) in
  driver <- await (on_world
    (getSeleniumDriver (grant_notifications url seleniumAssistantBrowser))) ;;
  testInstanceId <- now (add_instance_at testSuiteId driver) ;;
  world_task (session_task driver
    (subscribe_flow_task fuel (url +:+ "/" +:+ urlGETArgs optionalArgs) testInstanceId)).

Definition subscription_failed_task (r : res) (err : jsval) : task jsval (Sys D) res :=
  now (subscription_failed r err).

Definition launch_task (fuel : nat) (r : res) (testSuiteId : jsval)
    (webDriverInstance : localBrowser) (optionalArgs : jsobj) : task jsval (Sys D) res :=
  task_catch
    (testDetails <- initiateTestInstance_task fuel testSuiteId optionalArgs webDriverInstance ;;
     ret (sendValidResponse r testDetails))
    (subscription_failed_task r).

(** [this.getSubscription(res, args)]: the checks run in the turn in which
    the request arrives. *)
Definition getSubscription_task (fuel : nat) (r : res) (args : jsobj) :
    task jsval (Sys D) res :=
  let requiredFields := ["testSuiteId"; "browserName"; "browserVersion"] in
  let '(missing, r) := missingRequiredArgs r args requiredFields in
  if missing then ret r else
  sys <- now get_state ;;
  let o := wpts sys in
  let '(valid, r) := validTestSuiteId r (lookup_prop "testSuiteId" args) o in
  if negb valid then ret r else
  let browserName := lookup_prop "browserName" args in
  let browserVersion := lookup_prop "browserVersion" args in
  if negb (truthy browserName) ||
     bool_decide (indexOf_str browserName (_supportedBrowsers o) = -1)
  then ret (sendErrorResponse r (JStr "invalid_browser_name")
              (browser_name_message o browserName)) else
  if negb (truthy browserVersion) ||
     bool_decide (indexOf_str browserVersion (_supportedBrowserVersions o) = -1)
  then ret (sendErrorResponse r (JStr "invalid_browser_version")
              (browser_version_message o browserVersion)) else
  match getLocalBrowser (toString browserName) (toString browserVersion) (world sys) with
  | None => ret (sendErrorResponse r (JStr "browser_not_found") browser_not_found_message)
  | Some webDriverInstance =>
      if bool_decide (getId webDriverInstance = "firefox") &&
         bool_decide (getVersionNumber webDriverInstance ≤ 48)
      then ret (sendErrorResponse r (JStr "bad_browser_support")
                  bad_browser_support_message) else
      let vapidPublicKey := lookup_prop "vapidPublicKey" args in
      if truthy vapidPublicKey && bool_decide (typeof vapidPublicKey ≠ "string")
      then ret (sendErrorResponse r (JStr "invalid_vapid_key")
                  "Your vapid public key must be a string.") else
      let optionalArgs : jsobj :=
        if truthy vapidPublicKey then [("vapidPublicKey", vapidPublicKey)] else [] in
      launch_task fuel r (lookup_prop "testSuiteId" args) webDriverInstance optionalArgs
  end.

(** ** Notifications *)

(** [this.getNotificationStatus(res, args)] *)
Definition getNotificationStatus_task (fuel : nat) (r : res) (args : jsobj) :
    task jsval (Sys D) res :=
  let requiredFields := ["testSuiteId"; "testId"] in
  let '(missing, r) := missingRequiredArgs r args requiredFields in
  if missing then ret r else
  o <- now (gets wpts) ;;
  let '(valid, r) :=
    validTestId r (lookup_prop "testSuiteId" args) (lookup_prop "testId" args) o in
  if negb valid then ret r else
  testInstance <- now (test_instance (lookup_prop "testSuiteId" args)
                         (lookup_prop "testId" args)) ;;
  task_catch
    (receivedMessages <- world_task (session_task testInstance (poll_messages_task fuel)) ;;
     ret (sendValidResponse r (JObj [("messages", receivedMessages)])))
    (fun err =>
       message <- now (read_prop err "message") ;;
       ret (sendErrorResponse r (JStr "web_driver_error") (status_message message))).

(** ** The operations *)

(** The task the constructor binds to the operation. *)
Definition handle_task (fuel : nat) (q : request) (r : res) : task jsval (Sys D) res :=
  match q with
  | StartTestSuite => startTestSuite_task r
  | EndTestSuite args => endTestSuite_task r args
  | GetSubscription args => getSubscription_task fuel r args
  | GetNotificationStatus args => getNotificationStatus_task fuel r args
  end.

End async.

(** * Run alone, a task is the handler *)

Section async_run.
Context {D : Type} `{Driver D}.
Implicit Types (d : D) (w : World D) (sys : Sys D) (r : res) (args : jsobj) (fuel : nat).

Lemma wait_loop_task_run fuel (cond_task : task jsval D jsval) cond timeout start d :
  (forall d, run_task cond_task d = cond d) ->
  run_task (wait_loop_task fuel cond_task timeout start) d =
  wait_loop fuel cond timeout start d.
Proof.
  intros Hc. revert d. induction fuel as [|fuel IH]; intros d; [done|].
  cbn [wait_loop_task wait_loop]. rewrite run_then. apply then_ext; [done|].
  intros v d1. destruct (truthy v); [done|]. rewrite run_then.
  apply then_ext; [apply run_now|]. intros d2 d3. by case_match.
Qed.

Lemma wait_task_run fuel (cond_task : task jsval D jsval) cond timeout d :
  (forall d, run_task cond_task d = cond d) ->
  run_task (wait_task fuel cond_task timeout) d = wait fuel cond timeout d.
Proof.
  intros Hc. unfold wait_task, wait. rewrite run_then.
  apply then_ext; [apply run_now|]. intros d1 d2. by apply wait_loop_task_run.
Qed.

Lemma await_script_run f d : run_task (await (drv_executeScript f)) d = drv_executeScript f d.
Proof. apply run_await. Qed.

Lemma subscribe_flow_task_run fuel url testInstanceId d :
  run_task (subscribe_flow_task fuel url testInstanceId) d =
  subscribe_flow fuel url testInstanceId d.
Proof.
  unfold subscribe_flow_task, subscribe_flow.
  repeat (rewrite run_then;
          apply then_ext;
            [first [apply run_await | apply run_now
                   | apply wait_task_run, await_script_run | by case_match]
            |intros ? ?]).
  by case_match.
Qed.

Lemma messages_cond_task_run d : run_task messages_cond_task d = messages_cond d.
Proof.
  unfold messages_cond_task, messages_cond. rewrite run_then.
  apply then_ext; [apply run_await|]. intros v d1. destruct (truthy v); [done|].
  rewrite run_then. by apply then_ext; [apply run_await|].
Qed.

Lemma poll_messages_task_run fuel d :
  run_task (poll_messages_task fuel) d = poll_messages fuel d.
Proof.
  unfold poll_messages_task, poll_messages. rewrite run_then.
  apply then_ext; [apply wait_task_run, messages_cond_task_run|].
  intros ? ?. apply run_await.
Qed.

(** A task on a session runs as the promise on that session does. *)
Lemma session_task_run {A} h (t : task jsval D A) w :
  is_Some (sessions w !! h) \/ unsettled t ->
  run_task (session_task h t) w = with_session h (run_task t) w.
Proof.
  unfold with_session. revert w. induction t as [o|next IH upd|next IH upd]; intros w Hw.
  - destruct Hw as [[d Hd]|[]]. rewrite Hd. simpl. f_equal.
    destruct w. unfold set_sessions. simpl in *. by rewrite insert_id.
  - simpl. destruct (sessions w !! h) as [d|] eqn:Hd; [|done].
    rewrite IH by (left; simpl; rewrite lookup_insert_eq; eauto).
    simpl. rewrite lookup_insert_eq. destruct (run_task (next d) (upd d)) as [o d'].
    f_equal. destruct w. unfold set_sessions. simpl. by rewrite insert_insert_eq.
  - simpl. destruct (sessions w !! h) as [d|] eqn:Hd; [|done].
    rewrite IH by (left; simpl; rewrite lookup_insert_eq; eauto).
    simpl. rewrite lookup_insert_eq. destruct (run_task (next d) (upd d)) as [o d'].
    f_equal. destruct w. unfold set_sessions. simpl. by rewrite insert_insert_eq.
Qed.

Lemma world_task_run {A} (t : task jsval (World D) A) sys :
  run_task (world_task t) sys = on_world (run_task t) sys.
Proof. apply run_zoom; [done | done | by intros []]. Qed.

Lemma startTestSuite_task_run r sys :
  run_task (startTestSuite_task r) sys = startTestSuite r sys.
Proof. reflexivity. Qed.

Lemma suite_end_task_run n sys : run_task (suite_end_task n) sys = suite_end n sys.
Proof.
  unfold suite_end_task, suite_end. rewrite run_then. unfold then_. cbn [now run_task gets fst snd].
  destruct (_testSuites (wpts sys) !! n) as [s|] eqn:Hs; [|done].
  rewrite run_await. unfold suite_end_complete, TestSuite.end_.
  destruct (TestSuite.kill_all _ _) as [o w']. unfold set_testSuites.
  by rewrite (alter_as_insert _ _ _ s).
Qed.

Lemma endTestSuite_task_run r args sys :
  run_task (endTestSuite_task r args) sys = endTestSuite r args sys.
Proof.
  unfold endTestSuite_task, endTestSuite.
  destruct (missingRequiredArgs _ _ _) as [[] r1]; [done|].
  rewrite run_then. apply then_ext; [apply run_now|]. intros o sys1.
  destruct (validTestSuiteId _ _ _) as [[] r2]; [|done]. cbn [negb].
  rewrite run_catch. apply catch_ext.
  - rewrite run_then. apply then_ext.
    + destruct (lookup_prop "testSuiteId" args); try done. apply suite_end_task_run.
    + intros _ sys2. rewrite run_then. by apply then_ext; [apply run_now|].
  - intros e sys2. rewrite run_then. by apply then_ext; [apply run_now|].
Qed.

Lemma initiateTestInstance_task_run fuel testSuiteId optionalArgs b sys :
  run_task (initiateTestInstance_task fuel testSuiteId optionalArgs b) sys =
  initiateTestInstance fuel testSuiteId optionalArgs b sys.
Proof.
  unfold initiateTestInstance_task, initiateTestInstance.
  rewrite run_then. apply then_ext; [apply run_await|]. intros _ sys1.
  rewrite run_then. apply then_ext; [apply run_now|]. intros o sys2.
  rewrite run_then. apply then_ext; [apply run_await|]. intros driver sys3.
  rewrite run_then. apply then_ext; [apply run_now|]. intros testInstanceId sys4.
  rewrite world_task_run. unfold on_world, zoom.
  rewrite session_task_run by (by right). unfold with_session.
  destruct (sessions (world sys4) !! driver); [|done].
  by rewrite subscribe_flow_task_run.
Qed.

Lemma launch_task_run fuel r testSuiteId b optionalArgs sys :
  run_task (launch_task fuel r testSuiteId b optionalArgs) sys =
  launch fuel r testSuiteId b optionalArgs sys.
Proof.
  unfold launch_task, launch. rewrite run_catch. apply catch_ext.
  - rewrite run_then. by apply then_ext; [apply initiateTestInstance_task_run|].
  - intros e sys1. apply run_now.
Qed.

Lemma getSubscription_task_run fuel r args sys :
  run_task (getSubscription_task fuel r args) sys = getSubscription fuel r args sys.
Proof.
  unfold getSubscription_task, getSubscription.
  destruct (missingRequiredArgs _ _ _) as [[] r1]; [done|].
  rewrite run_then. apply then_ext; [apply run_now|]. intros sys0 sys1. cbv zeta.
  destruct (validTestSuiteId _ _ _) as [[] r2]; [|done]. cbn [negb].
  repeat (case_match; [done|]). case_match; [|done].
  repeat (case_match; [done|]). apply launch_task_run.
Qed.

Lemma getNotificationStatus_task_run fuel r args sys :
  run_task (getNotificationStatus_task fuel r args) sys =
  getNotificationStatus fuel r args sys.
Proof.
  unfold getNotificationStatus_task, getNotificationStatus.
  destruct (missingRequiredArgs _ _ _) as [[] r1]; [done|].
  rewrite run_then. apply then_ext; [apply run_now|]. intros o sys1.
  destruct (validTestId _ _ _ _) as [[] r2]; [|done]. cbn [negb].
  rewrite run_then. apply then_ext; [apply run_now|]. intros testInstance sys2.
  rewrite run_catch. apply catch_ext.
  - rewrite run_then. apply then_ext; [|done].
    rewrite world_task_run. unfold on_world, zoom.
    rewrite session_task_run by (by right). unfold with_session.
    destruct (sessions (world sys2) !! testInstance); [|done].
    by rewrite poll_messages_task_run.
  - intros e sys3. rewrite run_then. by apply then_ext; [apply run_now|].
Qed.


End async_run.
