(* ===== verification/Turns.v ===== *)
(** * What every turn of a handler does

    Between two suspensions a handler runs a few pieces of code, and the
    pieces that change the state are the same few in all handlers: a suite
    is started, the sessions of a suite are closed and the suite cleared,
    a suite is removed, the temporary directory is deleted, a browser is
    launched and its session registered, a command runs on a session.  A
    relation between states that is a preorder and holds of each of these
    holds of every turn of every handler, in whatever state the handler is
    resumed that the relation leads to.  The class [Turn] states what is
    asked of the relation; the sections below prove the consequence once,
    for all such relations.  The class [Piece] asks nothing of the end
    and the removal of a suite: a relation of that class that holds of
    the end and the removal of some suites holds of every turn of the
    handlers of the requests that end no other. *)

From stdpp Require Import base option list strings gmap pretty sorting.
From S2P Require Import Prelude Task JsValue ApiServer Driver Browser Selenium Suite Wpts.
From S2P Require Import Fixtures Checks Scripts Lifecycle Subscribe Notify Service.
From S2P Require Import Async.

Import APIServer.

Local Open Scope Z_scope.

Section turn.
Context {D : Type} `{Driver D}.

(** The state after a command on the session [h] that takes the session
    from [d] to [upd d]; no session, no change. *)
Definition session_step (h : nat) (upd : D -> D) (sys : Sys D) : Sys D :=
  MkSys (wpts sys)
    match sessions (world sys) !! h with
    | Some d => set_sessions (insert h (upd d)) (world sys)
    | None => world sys
    end.

(** A relation that holds of the pieces of the handlers that change the
    state, the end and the removal of a suite apart, and of the passing
    of time.  The browser is launched with the
    preferences for the URL of the server as the handler read it, in a
    state [sys0] that the relation has led from to the state [sys] in which
    the launch completes. *)
Class Piece (R : relation (Sys D)) : Prop := {
  #[global] turn_preorder :: PreOrder R;
  turn_start r sys : R sys (startTestSuite r sys).2;
  turn_del sys : R sys (on_world del_temp sys).2;
  turn_launch b key sys0 sys :
    R sys0 sys ->
    R sys (then_ (on_world (getSeleniumDriver
                   (grant_notifications (getUrl (_apiServer (wpts sys0))) b)))
             (add_instance_at key) sys).2;
  turn_session h upd sys : R sys (session_step h upd sys);
  turn_wait n sys : R sys (MkSys (wpts sys) (idle n (world sys)))
}.

(** A relation that holds of those and of the end and the removal of any
    suite holds of every turn of every handler. *)
Class Turn (R : relation (Sys D)) : Prop := {
  #[global] turn_piece :: Piece R;
  turn_end n hs sys : R sys (suite_end_complete n hs sys).2;
  turn_delete key sys : R sys (delete_suite_at key sys).2
}.

(** The request ends no suite but one whose key satisfies [P]. *)
Definition ends_only (P : jsval -> Prop) (q : request) : Prop :=
  match q with
  | EndTestSuite args => P (lookup_prop "testSuiteId" args)
  | _ => True
  end.

End turn.

(** * Properties *)

(** The pieces in the order of the handlers. *)
Lemma turn_of_pieces {D : Type} `{Driver D} (R : relation (Sys D)) :
  PreOrder R ->
  (forall r sys, R sys (startTestSuite r sys).2) ->
  (forall n hs sys, R sys (suite_end_complete n hs sys).2) ->
  (forall key sys, R sys (delete_suite_at key sys).2) ->
  (forall sys, R sys (on_world del_temp sys).2) ->
  (forall b key sys0 sys,
     R sys0 sys ->
     R sys (then_ (on_world (getSeleniumDriver
                    (grant_notifications (getUrl (_apiServer (wpts sys0))) b)))
              (add_instance_at key) sys).2) ->
  (forall h upd sys, R sys (session_step h upd sys)) ->
  (forall n sys, R sys (MkSys (wpts sys) (idle n (world sys)))) ->
  Turn R.
Proof. intros. by split; [split|..]. Qed.

Section piece_facts.
Context {D : Type} `{Driver D} (R : relation (Sys D)) `{!Piece R}.
Implicit Types (sys : Sys D) (q : request) (r : res) (args : jsobj) (fuel : nat).

(** A promise that leaves the state as it is, however it settles. *)
Lemma turn_kept {A} (m : Promise jsval (Sys D) A) sys :
  (forall I, preserves I m) -> R sys (m sys).2.
Proof.
  intros Hm. replace (m sys).2 with sys; [done|].
  by apply (preserves_state (fun s => sys = s) m sys (Hm _)).
Qed.

Lemma steady_read {A} (m : Promise jsval (Sys D) A) :
  (forall I, preserves I m) -> steady R (now m).
Proof. intros Hm. apply steady_now; [apply _|]. intros sys. by apply turn_kept. Qed.

Lemma session_task_pieces {A} h (t : task jsval D A) :
  pieces R (world_task (session_task h t)).
Proof.
  induction t as [o|next IH upd|next IH upd]; [done|..]; intros sys;
    (split; [apply (turn_session h upd sys)|]); simpl;
    (destruct (sessions (world sys) !! h); [apply IH | done]).
Qed.

Local Ltac steady_by lem := apply lem; try apply _.

Lemma startTestSuite_task_steady r : steady R (startTestSuite_task (D:=D) r).
Proof.
  intros from sys K HR HK. cbn. apply HK. etrans; [exact HR|].
  exact (turn_start r sys).
Qed.

(** The end of a suite whose key satisfies [P], for a relation that holds
    of the end and the removal of such suites. *)
Section ending.
Context (P : jsval -> Prop).
Context (end_at : forall n hs sys, P (JNum n) -> R sys (suite_end_complete n hs sys).2).
Context (delete_at : forall key sys, P key -> R sys (delete_suite_at key sys).2).

Lemma suite_end_at_task_steady key : P key -> steady R (suite_end_at_task (D:=D) key).
Proof.
  intros HP. destruct key; try apply steady_settled. steady_by @steady_then.
  - apply steady_read. auto with wpts.
  - intros o. case_match; [|apply steady_settled].
    steady_by @steady_await. intros sys. by apply end_at.
Qed.

Lemma endTestSuite_task_steady r args :
  P (lookup_prop "testSuiteId" args) -> steady R (endTestSuite_task (D:=D) r args).
Proof.
  intros HP. unfold endTestSuite_task.
  destruct (missingRequiredArgs r args _) as [[] r1]; [apply steady_settled|].
  steady_by @steady_then; [apply steady_read; auto with wpts|]. intros o.
  destruct (validTestSuiteId r1 _ o) as [[] r2]; [|apply steady_settled]. cbn [negb].
  steady_by @steady_catch.
  - steady_by @steady_then; [by apply suite_end_at_task_steady|]. intros _.
    steady_by @steady_then; [|intros; apply steady_settled].
    steady_by @steady_now. intros sys. by apply delete_at.
  - intros err. steady_by @steady_then; [|intros; apply steady_settled].
    apply steady_read. auto with wpts.
Qed.

End ending.

Lemma initiateTestInstance_task_steady fuel key opt b :
  steady R (initiateTestInstance_task (D:=D) fuel key opt b).
Proof.
  unfold initiateTestInstance_task.
  steady_by @steady_then; [steady_by @steady_await; apply turn_del|].
  intros _.
  apply (steady_read_await_now R wpts
    (fun o => on_world (getSeleniumDriver
                (grant_notifications (getUrl (_apiServer o)) b)))
    (fun _ => add_instance_at key)); [intros sys0 sys; apply turn_launch|].
  intros o driver testInstanceId. steady_by @steady_pieces. apply session_task_pieces.
Qed.

Lemma getSubscription_task_steady fuel r args :
  steady R (getSubscription_task (D:=D) fuel r args).
Proof.
  unfold getSubscription_task.
  destruct (missingRequiredArgs r args _) as [[] r1]; [apply steady_settled|].
  steady_by @steady_then; [apply steady_read; auto with wpts|]. intros sys. cbv zeta.
  destruct (validTestSuiteId r1 _ _) as [[] r2]; [|apply steady_settled]. cbn [negb].
  repeat (case_match; [apply steady_settled|]). case_match; [|apply steady_settled].
  repeat (case_match; [apply steady_settled|]).
  steady_by @steady_catch.
  - steady_by @steady_then; [apply initiateTestInstance_task_steady|].
    intros; apply steady_settled.
  - intros err. apply steady_read. intros I. apply subscription_failed_preserves.
Qed.

Lemma getNotificationStatus_task_steady fuel r args :
  steady R (getNotificationStatus_task (D:=D) fuel r args).
Proof.
  unfold getNotificationStatus_task.
  destruct (missingRequiredArgs r args _) as [[] r1]; [apply steady_settled|].
  steady_by @steady_then; [apply steady_read; auto with wpts|]. intros o.
  destruct (validTestId r1 _ _ o) as [[] r2]; [|apply steady_settled]. cbn [negb].
  steady_by @steady_then; [apply steady_read|].
  { intros I. apply preserves_pure. intros sys. unfold test_instance, then_, gets. simpl.
    by repeat case_match. }
  intros h. steady_by @steady_catch.
  - steady_by @steady_then; [|intros; apply steady_settled].
    steady_by @steady_pieces. apply session_task_pieces.
  - intros err. steady_by @steady_then; [|intros; apply steady_settled].
    apply steady_read. auto with wpts.
Qed.

(** Every turn of a handler that ends no suite but those the relation
    holds of the end of is related by [R]. *)
Lemma handle_task_spares (P : jsval -> Prop) fuel q r :
  (forall n hs sys, P (JNum n) -> R sys (suite_end_complete n hs sys).2) ->
  (forall key sys, P key -> R sys (delete_suite_at key sys).2) ->
  ends_only P q -> steady R (handle_task (D:=D) fuel q r).
Proof.
  intros Hend Hdel. destruct q; simpl;
    eauto using startTestSuite_task_steady, endTestSuite_task_steady,
      getSubscription_task_steady, getNotificationStatus_task_steady.
Qed.

End piece_facts.

Section turn_facts.
Context {D : Type} `{Driver D} (R : relation (Sys D)) `{!Turn R}.
Implicit Types (sys : Sys D) (q : request) (r : res) (args : jsobj) (fuel : nat).

(** Every turn of every handler is related by [R]. *)
Lemma handle_task_steady fuel q r : steady R (handle_task (D:=D) fuel q r).
Proof.
  apply (handle_task_spares R (fun _ => True)); [intros; apply turn_end
    |intros; apply turn_delete|by destruct q].
Qed.

(** The turn in which a request arrives, and the turns to come. *)
Lemma handle_task_arrives fuel q r sys :
  R sys (advance (handle_task fuel q r) sys).2 /\
  safe R (fun _ => True) (advance (handle_task fuel q r) sys).1
    (advance (handle_task fuel q r) sys).2.
Proof. apply (steady_advance R), handle_task_steady. Qed.

End turn_facts.
