(* ===== verification/Interleave.v ===== *)
(** * Requests that overlap

    The service takes a request while the handlers of earlier requests are
    suspended.  A configuration is the state of the orchestrator with the
    tasks of the requests taken so far; an event is the arrival of a
    request, the completion of the operation a task waits for, or the
    passing of time.  This file states what holds of every schedule of
    such events, and what only holds when requests do not overlap. *)

From stdpp Require Import base option list strings gmap pretty sorting.
From S2P Require Import Prelude Task JsValue ApiServer Driver Browser Selenium Suite Wpts.
From S2P Require Import Fixtures Checks Scripts Lifecycle Subscribe Notify Service Ownership.
From S2P Require Import Async Turns.

Import APIServer.

Local Open Scope Z_scope.

(** An event of a schedule. *)
Inductive ievent : Type :=
  | Arrive (q : request)      (* a request arrives; its task is the next of the pool *)
  | Complete (i : nat)        (* the operation task [i] waits for completes *)
  | Pass (n : N).             (* [n] milliseconds pass *)

#[export] Instance ievent_eq_dec : EqDecision ievent.
Proof. solve_decision. Defined.

(** The requests of a schedule, in the order of their arrival: the [j]-th
    is the request of the [j]-th task of the pool. *)
Definition requests_of (evs : list ievent) : list request :=
  omap (fun ev => match ev with Arrive q => Some q | _ => None end) evs.

Section interleave.
Context {D : Type} `{Driver D}.

(** The tasks of the requests taken, in the order of arrival, and the
    state they share. *)
Record config : Type := Config {
  pool : list (task jsval (Sys D) res);
  state : Sys D
}.

(** A request that arrives runs to its first suspension; a completion runs
    the task it resumes to its next suspension; a completion for a task that
    is not there, or that has settled, changes nothing. *)
Definition istep (fuel : nat) (ev : ievent) (c : config) : config :=
  match ev with
  | Arrive q =>
      let '(t, s) := advance (handle_task fuel q fresh_res) (state c) in
      Config (pool c ++ [t]) s
  | Complete i =>
      match pool c !! i with
      | Some t => let '(t', s) := resume t (state c) in Config (<[i := t']> (pool c)) s
      | None => c
      end
  | Pass n => Config (pool c) (step fuel (Wait n) (state c))
  end.

Definition irun (fuel : nat) (evs : list ievent) (c : config) : config :=
  foldl (fun c ev => istep fuel ev c) c evs.

(** What request [i] has been answered with. *)
Definition answer_of (i : nat) (c : config) : outcome jsval res :=
  match pool c !! i with
  | Some t => outcome_of t
  | None => Pending
  end.

(** The schedule in which no two requests overlap: each request is
    followed by the completions of its own task, as many as it has
    suspensions. *)
Fixpoint serial (fuel : nat) (evs : list event) (i : nat) (sys : Sys D) : list ievent :=
  match evs with
  | [] => []
  | Serve q :: evs' =>
      Arrive q ::
      replicate (suspensions (handle_task fuel q fresh_res) sys) (Complete i) ++
      serial fuel evs' (S i) (step fuel (Serve q) sys)
  | Wait n :: evs' => Pass n :: serial fuel evs' i (step fuel (Wait n) sys)
  end.

(** The answers of the requests of a run in which they are served one
    after the other. *)
Fixpoint served (fuel : nat) (evs : list event) (sys : Sys D) : list (outcome jsval res) :=
  match evs with
  | [] => []
  | Serve q :: evs' =>
      (handle fuel q fresh_res sys).1 :: served fuel evs' (step fuel (Serve q) sys)
  | Wait n :: evs' => served fuel evs' (step fuel (Wait n) sys)
  end.

(** The counters are in the range in which [++] is exact. *)
Definition in_range (sys : Sys D) : Prop :=
  _availableTestSuiteId (wpts sys) ≤ MAX_SAFE_INTEGER /\
  Z.of_nat (nextHandle (world sys)) ≤ MAX_SAFE_INTEGER.

(** What a turn of a task may do to the state: the counters do not go
    back, and a well-formed state stays well formed as long as the counters
    are in range. *)
Definition safe_step (sys sys' : Sys D) : Prop :=
  _availableTestSuiteId (wpts sys) ≤ _availableTestSuiteId (wpts sys') /\
  (nextHandle (world sys) <= nextHandle (world sys'))%nat /\
  (in_range sys' -> sys_wf sys -> sys_wf sys').

(** An outcome of a request taken with the response object [r]: when the
    request has been answered, one response has been sent. *)
Definition answered (r : res) (o : outcome jsval res) : Prop :=
  forall r', o = Resolved r' -> one_more r r'.

(** The turns to come of every task of the pool are related by [R], from
    the state of the configuration on. *)
Definition pool_safe (R : relation (Sys D)) (c : config) : Prop :=
  Forall (fun t => safe R (fun _ => True) t (state c)) (pool c).

(** Every task of the pool settles only with an outcome that satisfies
    [Q]. *)
Definition pool_leaves (Q : outcome jsval res -> Prop) (c : config) : Prop :=
  Forall (leaves Q) (pool c).

End interleave.

Arguments config D : clear implicits.

(** A schedule in which a suite is ended while a browser is launched for
    it: the suite is started; a subscription is asked for and its task
    comes to wait for the launch of the browser; the end of the suite is
    asked for, and the suite, which has no instance yet, asks no browser to
    close; the launch completes and the instance is registered; the end of
    the suite completes; the chain of the driver runs to its end. *)
Definition overlap : list ievent :=
  [Arrive StartTestSuite;
   Arrive (GetSubscription args_firefox);
   Complete 1;
   Arrive (EndTestSuite [("testSuiteId", JNum 0)]);
   Complete 1;
   Complete 2] ++ replicate 63 (Complete 1).

(** * Properties *)

Lemma requests_of_cons ev evs : requests_of (ev :: evs) = requests_of [ev] ++ requests_of evs.
Proof. by destruct ev. Qed.

Section interleave_facts.
Context {D : Type} `{Driver D} `{!DriverLaws D}.
Implicit Types (sys : Sys D) (c : config D) (q : request) (fuel : nat) (i : nat).

(** The configuration after an arrival, and after a completion. *)
Lemma istep_arrive fuel q c :
  istep fuel (Arrive q) c =
  Config (pool c ++ [(advance (handle_task fuel q fresh_res) (state c)).1])
    (advance (handle_task fuel q fresh_res) (state c)).2.
Proof. cbn [istep]. by destruct (advance _ _). Qed.

Lemma istep_complete fuel j c t :
  pool c !! j = Some t ->
  istep fuel (Complete j) c =
  Config (<[j:=(resume t (state c)).1]> (pool c)) (resume t (state c)).2.
Proof. intros Ht. cbn [istep]. rewrite Ht. by destruct (resume _ _). Qed.

Lemma irun_cons fuel ev evs c : irun fuel (ev :: evs) c = irun fuel evs (istep fuel ev c).
Proof. done. Qed.

Lemma irun_app fuel evs evs' c : irun fuel (evs ++ evs') c = irun fuel evs' (irun fuel evs c).
Proof. apply foldl_app. Qed.

(** ** Requests that do not overlap *)

(** The completions of the last task of the pool, as many as it has
    suspensions left, settle it as it settles when it runs alone. *)
Lemma complete_last fuel n ts (t : task jsval (Sys D) res) sys :
  parked t = true -> (suspensions t sys <= n)%nat ->
  irun fuel (replicate n (Complete (length ts))) (Config (ts ++ [t]) sys) =
  Config (ts ++ [Settled (run_task t sys).1]) (run_task t sys).2.
Proof.
  revert t sys. induction n as [|n IH]; intros t sys Hp Hn.
  - destruct t; simpl in *; (done || lia).
  - cbn [replicate irun foldl istep pool state].
    rewrite lookup_app_r, Nat.sub_diag by done. cbn [lookup list_lookup].
    pose proof (resume_parked t sys Hp) as Hp'.
    pose proof (suspensions_resume t sys Hp) as Hs.
    pose proof (run_resume t sys) as Hrun.
    destruct (resume t sys) as [t' sys']. cbn [fst snd pool state] in *.
    replace (<[length ts := t']> (ts ++ [t])) with (ts ++ [t']).
    + fold (irun fuel (replicate n (Complete (length ts))) (Config (ts ++ [t']) sys')).
      rewrite IH by (done || lia). by rewrite Hrun.
    + rewrite insert_app_r_alt, Nat.sub_diag by done. done.
Qed.

(** A request served without overlap: when as many operations of its
    task have completed as the task waits for, or more, the task has
    settled with the answer of the handler, in the state the handler
    leaves. *)
Lemma serve_enough fuel q c n :
  (suspensions (handle_task fuel q fresh_res) (state c) <= n)%nat ->
  irun fuel (Arrive q :: replicate n (Complete (length (pool c)))) c =
  Config (pool c ++ [Settled (handle fuel q fresh_res (state c)).1])
    (step fuel (Serve q) (state c)).
Proof.
  intros Hn. rewrite irun_cons, istep_arrive. cbn [step].
  assert (run_task (handle_task fuel q fresh_res) (state c) = handle fuel q fresh_res (state c))
    as <- by (destruct q; simpl;
              auto using startTestSuite_task_run, endTestSuite_task_run,
                getSubscription_task_run, getNotificationStatus_task_run).
  pose proof (advance_parked (handle_task fuel q fresh_res) (state c)) as Hp.
  pose proof (suspensions_advance (handle_task fuel q fresh_res) (state c)) as Hs.
  pose proof (run_advance (handle_task fuel q fresh_res) (state c)) as Hrun.
  destruct (advance _ _) as [t sys1]. cbn [fst snd] in *.
  rewrite complete_last by (done || lia). by rewrite Hrun.
Qed.

Lemma serve_alone fuel q c :
  irun fuel
    (Arrive q :: replicate (suspensions (handle_task fuel q fresh_res) (state c))
                   (Complete (length (pool c)))) c =
  Config (pool c ++ [Settled (handle fuel q fresh_res (state c)).1])
    (step fuel (Serve q) (state c)).
Proof. by apply serve_enough. Qed.


(** ** What a turn does to the state *)

#[export] Instance safe_step_preorder : PreOrder (safe_step (D:=D)).
Proof.
  split.
  - intros sys. by split_and!.
  - intros s1 s2 s3 (Hc & Hh & Hwf) (Hc' & Hh' & Hwf'). split_and!; [lia..|].
    intros [Hr1 Hr2] H1. apply Hwf'; [done|]. apply Hwf; [|done]. split; lia.
Qed.

(** A promise that gives out ids and keeps a state in range well formed
    takes a safe step. *)
Lemma safe_step_of {A} k (m : Promise jsval (Sys D) A) sys :
  advances k m -> (in_range sys -> sys_wf sys -> sys_wf (m sys).2) ->
  safe_step sys (m sys).2.
Proof.
  intros Hk Hm. destruct (Hk sys) as [Hc Hh]. split_and!; [lia..|].
  intros [Hr1 Hr2]. apply Hm. split; lia.
Qed.

Lemma safe_step_pure {A} (m : Promise jsval (Sys D) A) sys :
  (m sys).2 = sys -> safe_step sys (m sys).2.
Proof. by intros ->. Qed.

Lemma safe_step_world {A} (m : Promise jsval (World D) A) sys :
  grows m -> (forall w, nextHandle (m w).2 = nextHandle w) ->
  safe_step sys (on_world m sys).2.
Proof.
  intros Hm Hn. apply (safe_step_of 0).
  - apply advances_on_world. intros w. rewrite Hn. lia.
  - intros _. apply preserves_state, on_world_preserves, Hm.
Qed.

(** A promise that leaves the state as it is, however it settles. *)
Lemma safe_step_kept {A} (m : Promise jsval (Sys D) A) sys :
  (forall I, preserves I m) -> safe_step sys (m sys).2.
Proof.
  intros Hm. apply safe_step_pure. symmetry.
  by apply (preserves_state (fun s => sys = s) m sys (Hm _)).
Qed.

Lemma safe_step_start r sys : safe_step sys (startTestSuite r sys).2.
Proof.
  apply (safe_step_of 1); [apply startTestSuite_advances|]. intros [Hr _] Hwf.
  by apply (preserves_state_post _ _ _ _ (startTestSuite_preserves r)).
Qed.

Lemma safe_step_del sys : safe_step sys (on_world del_temp sys).2.
Proof.
  apply safe_step_world; [apply del_temp_grows|].
  intros w. unfold del_temp. by destruct (delError w).
Qed.

(** The launch of a browser and the registration of its session, in one
    turn. *)
Lemma safe_step_launch b key sys :
  safe_step sys (then_ (on_world (getSeleniumDriver b)) (add_instance_at key) sys).2.
Proof.
  apply (safe_step_of 1).
  - apply (advances_then 1 0).
    + apply advances_on_world. intros w. unfold getSeleniumDriver.
      destruct (spawn w _ _); simpl; lia.
    + intros h sys'. unfold add_instance_at. repeat case_match; simpl; lia.
  - intros [_ Hr] Hwf.
    apply (preserves_state_post handles_in_range _ sys_wf); [|done].
    apply (hoare_then _ _ _ launched_free); [apply getSeleniumDriver_launched|].
    intros h. apply add_instance_at_wf.
Qed.

(** A command of a session changes that session only. *)
Lemma safe_step_session h (upd : D -> D) sys : safe_step sys (session_step h upd sys).
Proof.
  unfold session_step.
  destruct (sessions (world sys) !! h) as [d|] eqn:Hd; [|by destruct sys].
  split_and!; [done..|]. intros _ Hwf. apply (sys_wf_world _ (world sys)); simpl.
  - by destruct sys.
  - intros h' [d' Hd']. simpl in Hd'.
    apply lookup_insert_Some in Hd' as [[<- <-]|[_ Hd']]; apply (wf_world _ Hwf); eauto.
  - rewrite dom_insert_L. set_solver.
  - done.
Qed.

Lemma safe_step_end n hs sys : safe_step sys (suite_end_complete n hs sys).2.
Proof.
  apply (safe_step_of 0).
  - intros sys'. unfold suite_end_complete.
    pose proof (kill_all_nextHandle hs (world sys')).
    destruct (TestSuite.kill_all hs (world sys')). simpl in *. lia.
  - intros _ Hwf. unfold suite_end_complete.
    destruct (kill_all_grows hs (world sys) (wf_world _ Hwf)) as (Hw & Hd & Hn).
    destruct (TestSuite.kill_all hs (world sys)) as [o w']. simpl in *.
    apply (sys_wf_world _ (world sys)); [|done..]. unfold set_testSuites.
    destruct (_testSuites (wpts sys) !! n) as [s|] eqn:Hs.
    + rewrite (alter_as_insert _ _ _ s) by done. by apply (sys_wf_clear sys).
    + rewrite alter_id' by done. by destruct sys as [[]].
Qed.

Lemma safe_step_delete key sys : safe_step sys (delete_suite_at key sys).2.
Proof.
  destruct key; try (by apply safe_step_pure). apply (safe_step_of 0).
  - apply delete_suite_advances.
  - intros _. apply preserves_state, delete_suite_preserves.
Qed.

Lemma safe_step_wait n sys : safe_step sys (MkSys (wpts sys) (idle n (world sys))).
Proof. split_and!; [done..|]. intros _. apply idle_wf. Qed.

(** Every turn of every handler is a safe step. *)
#[export] Instance safe_step_turn : Turn (safe_step (D:=D)).
Proof.
  apply turn_of_pieces; [apply _|..]; auto using safe_step_start, safe_step_end, safe_step_delete,
    safe_step_del, safe_step_launch, safe_step_session, safe_step_wait.
Qed.

(** ** Every task sends one response *)

Lemma answered_resolved r r' : one_more r r' -> answered r (Resolved r').
Proof. by intros Hr r'' [= <-]. Qed.

Lemma answered_rejected r e : answered r (Rejected e).
Proof. by intros r'. Qed.

Lemma answered_pending r : answered r Pending.
Proof. by intros r'. Qed.

Local Hint Resolve answered_resolved answered_rejected answered_pending : wpts.

Local Ltac answers_now := solve [cbn [leaves ret]; auto with wpts].

Local Ltac answers_then :=
  apply leaves_then_any; [intros ?|auto with wpts..].

Lemma read_then_answers r (m : Promise jsval (Sys D) jsval) (f : jsval -> res) :
  (forall v, one_more r (f v)) ->
  leaves (answered r) (task_then (now m) (fun v => ret (f v))).
Proof. intros Hf. answers_then. answers_now. Qed.

Lemma endTestSuite_task_answers r args :
  leaves (answered r) (endTestSuite_task (D:=D) r args).
Proof.
  unfold endTestSuite_task. pose proof (missingRequiredArgs_res r args ["testSuiteId"]) as H1.
  destruct (missingRequiredArgs r args _) as [[] r1]; [answers_now|subst r1].
  answers_then. pose proof (validTestSuiteId_res r (lookup_prop "testSuiteId" args) a) as H2.
  destruct (validTestSuiteId r _ a) as [[] r2]; cbn [negb];
    [subst r2|answers_now].
  apply leaves_catch_weak; [intros err; apply read_then_answers; auto with wpts|].
  do 2 answers_then. answers_now.
Qed.

Lemma launch_task_answers fuel r key b opt :
  leaves (answered r) (launch_task (D:=D) fuel r key b opt).
Proof.
  apply leaves_catch_weak; [|answers_then; answers_now].
  intros err sys r'. revert sys r'. change (answers r (subscription_failed (D:=D) r err)).
  unfold subscription_failed. do 2 (apply answers_then; intros ?).
  case_match; auto with wpts.
Qed.

Lemma getSubscription_task_answers fuel r args :
  leaves (answered r) (getSubscription_task (D:=D) fuel r args).
Proof.
  unfold getSubscription_task.
  pose proof (missingRequiredArgs_res r args ["testSuiteId"; "browserName"; "browserVersion"])
    as H1.
  destruct (missingRequiredArgs r args _) as [[] r1]; [answers_now|subst r1].
  answers_then. cbv zeta.
  pose proof (validTestSuiteId_res r (lookup_prop "testSuiteId" args) (wpts a)) as H2.
  destruct (validTestSuiteId r _ _) as [[] r2]; cbn [negb];
    [subst r2|answers_now].
  repeat (case_match; [answers_now|]). case_match; [|answers_now].
  repeat (case_match; [answers_now|]). apply launch_task_answers.
Qed.

Lemma getNotificationStatus_task_answers fuel r args :
  leaves (answered r) (getNotificationStatus_task (D:=D) fuel r args).
Proof.
  unfold getNotificationStatus_task.
  pose proof (missingRequiredArgs_res r args ["testSuiteId"; "testId"]) as H1.
  destruct (missingRequiredArgs r args _) as [[] r1]; [answers_now|subst r1].
  answers_then.
  pose proof (validTestId_res r (lookup_prop "testSuiteId" args) (lookup_prop "testId" args) a)
    as H2.
  destruct (validTestId r _ _ a) as [[] r2]; cbn [negb];
    [subst r2|answers_now].
  answers_then.
  apply leaves_catch_weak; [intros err; apply read_then_answers; auto with wpts|].
  answers_then. answers_now.
Qed.

Lemma handle_task_answers fuel q r : leaves (answered r) (handle_task (D:=D) fuel q r).
Proof.
  destruct q; simpl;
    auto using endTestSuite_task_answers, getSubscription_task_answers,
      getNotificationStatus_task_answers with wpts.
Qed.

(** ** Every schedule *)

Section schedules.
Context (R : relation (Sys D)) `{!Piece R}.

(** The tasks of the pool stay safe when the state takes a step related
    by [R]. *)
Lemma pool_safe_mono c sys' :
  pool_safe R c -> R (state c) sys' -> pool_safe R (Config (pool c) sys').
Proof. intros Hp HR. eapply Forall_impl; [exact Hp|]. intros t. by apply safe_mono; [apply _|]. Qed.

(** An event is a turn of one task, or time that passes: the state it
    leaves is related by [R], and so are the turns to come, when the
    turns of the handler of the request that arrives are. *)
Lemma istep_steady fuel ev c :
  (forall q, ev = Arrive q -> steady R (handle_task (D:=D) fuel q fresh_res)) ->
  pool_safe R c -> R (state c) (state (istep fuel ev c)) /\ pool_safe R (istep fuel ev c).
Proof.
  intros Hq Hp. destruct ev as [q|i|n]; cbn [istep].
  - destruct (steady_advance R _ (state c) (Hq q eq_refl)) as [HR Hs].
    destruct (advance _ _) as [t sys']. split; [done|].
    apply Forall_app, conj, Forall_singleton; [|done]. by apply (pool_safe_mono c).
  - destruct (pool c !! i) as [t|] eqn:Ht; [|done].
    pose proof (Forall_lookup_1 _ _ _ _ Hp Ht) as Hs.
    destruct (resume_safe R _ t (state c) Hs) as [HR Hs'].
    destruct (resume t (state c)) as [t' sys']. split; [done|].
    apply Forall_insert; [|done]. by apply (pool_safe_mono c).
  - split; [apply turn_wait|]. apply (pool_safe_mono c), turn_wait. done.
Qed.

Lemma irun_steady fuel evs c :
  Forall (fun q => steady R (handle_task (D:=D) fuel q fresh_res)) (requests_of evs) ->
  pool_safe R c -> R (state c) (state (irun fuel evs c)) /\ pool_safe R (irun fuel evs c).
Proof.
  revert c. induction evs as [|ev evs IH]; intros c Hq Hp; [done|].
  rewrite requests_of_cons in Hq. apply Forall_app in Hq as [Hev Hevs].
  destruct (istep_steady fuel ev c) as [HR Hp']; [by intros q ->; inversion Hev|done|].
  destruct (IH _ Hevs Hp') as [HR' Hp'']. split; [by etrans|done].
Qed.

End schedules.

Section all_schedules.
Context (R : relation (Sys D)) `{!Turn R}.

Lemma istep_turn fuel ev c :
  pool_safe R c -> R (state c) (state (istep fuel ev c)) /\ pool_safe R (istep fuel ev c).
Proof. apply istep_steady; [apply _|]. intros q _. by apply handle_task_steady. Qed.

Lemma irun_turn fuel evs c :
  pool_safe R c -> R (state c) (state (irun fuel evs c)) /\ pool_safe R (irun fuel evs c).
Proof.
  apply irun_steady; [apply _|]. apply Forall_forall. intros q _. by apply handle_task_steady.
Qed.

(** From the construction on. *)
Lemma irun_related fuel evs sys : R sys (state (irun fuel evs (Config [] sys))).
Proof. by apply (irun_turn fuel evs (Config [] sys)), Forall_nil. Qed.

End all_schedules.

(** What the handlers settle with, the tasks of a schedule settle with. *)
Lemma irun_leaves (Q : outcome jsval res -> Prop) fuel evs c :
  (forall q, leaves Q (handle_task (D:=D) fuel q fresh_res)) ->
  pool_leaves Q c -> pool_leaves Q (irun fuel evs c).
Proof.
  intros HQ. revert c. induction evs as [|ev evs IH]; intros c Hp; [done|].
  apply IH. destruct ev as [q|i|n]; cbn [istep]; [| |done].
  - pose proof (advance_leaves _ _ (state c) (HQ q)) as Hl.
    destruct (advance _ _) as [t sys']. by apply Forall_app, conj, Forall_singleton.
  - destruct (pool c !! i) as [t|] eqn:Ht; [|done].
    pose proof (resume_leaves _ t (state c) (Forall_lookup_1 _ _ _ _ Hp Ht)) as Hl.
    destruct (resume t (state c)) as [t' sys']. by apply Forall_insert.
Qed.

(** C7. Requests may overlap in any way: in every configuration reached
    from the construction by any schedule of arrivals, completions and
    waits, as long as fewer than 2^53 suites and sessions have been
    created, the system is well formed; in particular no two instances, of
    the same or of different suites, refer to the same session. *)
Theorem interleaved_wf fuel evs port browsers versions w :
  sessions w = ∅ -> nextHandle w = 0%nat ->
  in_range (state (irun fuel evs (Config [] (MkSys (constructor port browsers versions) w)))) ->
  sys_wf (state (irun fuel evs (Config [] (MkSys (constructor port browsers versions) w)))).
Proof.
  intros Hs Hn Hr.
  destruct (irun_related safe_step fuel evs (MkSys (constructor port browsers versions) w))
    as (_ & _ & Hwf).
  apply Hwf; [done|]. by apply constructor_wf.
Qed.

(** C23. However requests overlap, a request that has been answered has
    been answered once: the task of every request of a schedule, when it
    has resolved, has sent exactly one response. *)
Theorem interleaved_one_response fuel evs sys i r :
  answer_of i (irun fuel evs (Config [] sys)) = Resolved r ->
  exists resp, sent r = [resp].
Proof.
  intros Ha.
  pose proof (irun_leaves (answered fresh_res) fuel evs (Config [] sys)
                (fun q => handle_task_answers fuel q fresh_res) (Forall_nil_2 _)) as Hp.
  unfold answer_of in Ha. destruct (pool _ !! i) as [t|] eqn:Ht; [|done].
  pose proof (Forall_lookup_1 _ _ _ _ Hp Ht) as Hl.
  destruct t as [o| |]; try done. simpl in *. subst o. by apply Hl.
Qed.

End interleave_facts.

(** * A browser left behind

    What [serial_no_orphan] shows of requests served one after the other
    fails when they overlap. *)


(** * The theorems at concrete systems *)

(** The schedule [overlap] leaves the system well formed. *)
Lemma interleaved_wf_witness : sys_wf (state (irun 40 overlap (Config [] sys0))).
Proof.
  apply (interleaved_wf 40 overlap None None None (world_of env_ok)); [done | done |].
  split; by vm_compute.
Defined.

(** In the schedule [overlap] the end of the suite is answered once. *)
Lemma interleaved_one_response_witness :
  exists resp, sent (sendValidResponse fresh_res JUndefined) = [resp].
Proof. apply (interleaved_one_response 40 overlap sys0 2). by vm_compute. Defined.
