(* ===== verification/Answers.v ===== *)
(** * The answers of the tasks

    What a request is answered with has the shape of its operation
    ([typed] of [Contract]) however the task of the request is interleaved
    with others: what a task settles with does not depend on the states it
    is resumed in.  This file shows it of the four handlers as tasks, and
    of every request of every schedule. *)

From stdpp Require Import base option list strings gmap pretty sorting.
From S2P Require Import Prelude Task JsValue ApiServer Driver Browser Selenium Suite Wpts.
From S2P Require Import Fixtures Checks Scripts Lifecycle Subscribe Notify Service Ownership.
From S2P Require Import Contract Async Interleave.

Import APIServer.

Local Open Scope Z_scope.

(** An outcome that has the shape of the answers of the operation. *)
Definition shaped (q : request) (o : outcome jsval res) : Prop := typed q (reply_of o).

(** The details of a test instance: its id and its subscription. *)
Definition test_details (i : Z) (o : outcome jsval jsval) : Prop :=
  forall v, o = Resolved v -> exists x, v = JObj [("testId", JNum i); ("subscription", x)].

(** * Properties *)

Section answers.
Context {D : Type} `{Driver D} `{!DriverLaws D}.
Implicit Types (sys : Sys D) (c : config D) (q : request) (r : res) (args : jsobj).
Implicit Types (fuel : nat).

(** ** Shapes *)

Lemma shaped_data q r d : typed q (Data d) -> shaped q (Resolved (sendValidResponse r d)).
Proof. unfold shaped. by rewrite reply_of_data. Qed.

Lemma shaped_error q r id m :
  typed q (Error (JStr id)) -> shaped q (Resolved (sendErrorResponse r (JStr id) m)).
Proof. unfold shaped. by rewrite reply_of_error. Qed.

(** An error of the checks of the suite id and of the test id is an error
    of every operation that makes the check. *)
Lemma typed_check q id :
  q <> StartTestSuite ->
  id ∈ ["missing_required_args"; "invalid_variable_type"; "invalid_test_suite_id"] \/
  (id = "invalid_test_id" /\ exists args, q = GetNotificationStatus args) ->
  typed q (Error (JStr id)).
Proof.
  intros Hq [Hid|[-> [args ->]]]; [|cbn; eexists; split; [done|set_solver]].
  destruct q; [done|..]; cbn [typed vocabulary];
    repeat (apply elem_of_cons in Hid as [->|Hid]);
    try (by apply elem_of_nil in Hid); try done; eexists; (split; [done|set_solver]).
Qed.

Local Ltac shaped_now :=
  solve [cbn [leaves ret];
         first [ done
               | apply shaped_error; first [done | cbn; eexists; split; [done|set_solver]]
               | apply shaped_data; cbn; eauto ]].

Local Ltac shaped_then := apply leaves_then_any; [intros ?|done..].

(** The answer of a check that refuses. *)
Lemma missingRequiredArgs_shaped q r args req :
  q <> StartTestSuite ->
  match missingRequiredArgs r args req with
  | (true, r') => shaped q (Resolved r')
  | (false, r') => r' = r
  end.
Proof.
  intros Hq. pose proof (missingRequiredArgs_error r args req) as He.
  destruct (missingRequiredArgs r args req) as [[] r']; [|done]. destruct He as [m ->].
  apply shaped_error, typed_check; [done|]. left. set_solver.
Qed.

Lemma validTestSuiteId_shaped q r v o :
  q <> StartTestSuite ->
  match validTestSuiteId r v o with
  | (true, r') => r' = r
  | (false, r') => shaped q (Resolved r')
  end.
Proof.
  intros Hq. pose proof (validTestSuiteId_error r v o) as He.
  destruct (validTestSuiteId r v o) as [[] r']; [by destruct He|].
  destruct He as (id & m & Hid & ->). apply shaped_error, typed_check; [done|]. left. set_solver.
Qed.

Lemma validTestId_shaped args' r v v' o :
  match validTestId r v v' o with
  | (true, r') => r' = r
  | (false, r') => shaped (GetNotificationStatus args') (Resolved r')
  end.
Proof.
  pose proof (validTestId_error r v v' o) as He.
  destruct (validTestId r v v' o) as [[] r']; [by destruct He|].
  destruct He as (id & m & Hid & ->). apply shaped_error, typed_check; [done|].
  apply elem_of_cons in Hid as [->|Hid]; [left; set_solver|].
  apply elem_of_cons in Hid as [->|Hid]; [left; set_solver|].
  assert (id = "invalid_test_id") as -> by set_solver. right. eauto.
Qed.

(** ** The handlers *)

Lemma startTestSuite_task_shaped r :
  leaves (shaped StartTestSuite) (startTestSuite_task (D:=D) r).
Proof. intros s1 s2. cbn. apply shaped_data. cbn. eauto. Qed.

Lemma endTestSuite_task_shaped r args :
  leaves (shaped (EndTestSuite args)) (endTestSuite_task (D:=D) r args).
Proof.
  unfold endTestSuite_task.
  pose proof (missingRequiredArgs_shaped (EndTestSuite args) r args ["testSuiteId"]) as H1.
  destruct (missingRequiredArgs r args _) as [[] r1]; [by apply H1|rewrite H1 by done].
  shaped_then.
  pose proof (validTestSuiteId_shaped (EndTestSuite args) r
                (lookup_prop "testSuiteId" args) a) as H2.
  destruct (validTestSuiteId r _ a) as [[] r2]; cbn [negb]; [|by apply H2].
  apply leaves_catch_weak; [intros err|shaped_then]; shaped_then; shaped_now.
Qed.

Lemma getNotificationStatus_task_shaped fuel r args :
  leaves (shaped (GetNotificationStatus args)) (getNotificationStatus_task (D:=D) fuel r args).
Proof.
  unfold getNotificationStatus_task.
  pose proof (missingRequiredArgs_shaped (GetNotificationStatus args) r args
                ["testSuiteId"; "testId"]) as H1.
  destruct (missingRequiredArgs r args _) as [[] r1]; [by apply H1|rewrite H1 by done].
  shaped_then.
  pose proof (validTestId_shaped args r (lookup_prop "testSuiteId" args)
                (lookup_prop "testId" args) a) as H2.
  destruct (validTestId r _ _ a) as [[] r2]; cbn [negb]; [|done].
  shaped_then. apply leaves_catch_weak; [intros err|]; shaped_then; shaped_now.
Qed.

(** The task of a session settles as the commands do, or with the error
    of a session that is gone. *)
Lemma session_task_leaves {A} (Q : outcome jsval A -> Prop) h (t : task jsval D A) :
  Q (Rejected no_session) -> leaves Q t -> leaves Q (session_task h t).
Proof.
  intros Hno. induction t as [o|next IH upd|next IH upd]; simpl; [done|..];
    intros Hl w; (destruct (sessions w !! h); [by apply IH|done]).
Qed.

(** The driver chain resolves with the id it was given and the
    subscription. *)
Lemma subscribe_flow_task_details fuel url i :
  leaves (test_details i) (subscribe_flow_task (D:=D) fuel url i).
Proof.
  unfold subscribe_flow_task. repeat (apply leaves_then_any; [intros ?|done..]).
  case_match; [done|]. intros v [= <-]. eauto.
Qed.

Lemma initiateTestInstance_task_details fuel key opt b :
  leaves (fun o => exists i, test_details i o)
    (initiateTestInstance_task (D:=D) fuel key opt b).
Proof.
  unfold initiateTestInstance_task.
  repeat (apply leaves_then_any; [intros ?|by exists 0..]).
  apply leaves_zoom, session_task_leaves; [by exists 0|].
  eapply leaves_weaken, subscribe_flow_task_details. eauto.
Qed.

Lemma launch_task_shaped fuel r args key b opt :
  leaves (shaped (GetSubscription args)) (launch_task (D:=D) fuel r key b opt).
Proof.
  apply leaves_catch, leaves_then.
  eapply leaves_weaken, initiateTestInstance_task_details.
  intros [v|e|] [i Hv]; cbn [leaves ret]; [|intros sys|done].
  - destruct (Hv v eq_refl) as [x ->]. apply shaped_data. cbn. eauto.
  - cbn [leaves]. unfold shaped.
    by destruct (subscription_failed_reply r e sys) as [_ [->|(id & -> & Ht)]].
Qed.

Lemma getSubscription_task_shaped fuel r args :
  leaves (shaped (GetSubscription args)) (getSubscription_task (D:=D) fuel r args).
Proof.
  unfold getSubscription_task.
  pose proof (missingRequiredArgs_shaped (GetSubscription args) r args
                ["testSuiteId"; "browserName"; "browserVersion"]) as H1.
  destruct (missingRequiredArgs r args _) as [[] r1]; [by apply H1|rewrite H1 by done].
  shaped_then. cbv zeta.
  pose proof (validTestSuiteId_shaped (GetSubscription args) r
                (lookup_prop "testSuiteId" args) (wpts a)) as H2.
  destruct (validTestSuiteId r _ _) as [[] r2]; cbn [negb]; [rewrite H2 by done|by apply H2].
  repeat (case_match; [shaped_now|]). case_match; [|shaped_now].
  repeat (case_match; [shaped_now|]). apply launch_task_shaped.
Qed.

(** Every task settles with an answer of the shape of its operation. *)
Lemma handle_task_shaped fuel q r : leaves (shaped q) (handle_task (D:=D) fuel q r).
Proof.
  destruct q; cbn [handle_task];
    auto using startTestSuite_task_shaped, endTestSuite_task_shaped,
      getSubscription_task_shaped, getNotificationStatus_task_shaped.
Qed.

(** ** Schedules *)

(** What holds of the task of every request after its first turn, and is
    kept by every turn, holds of the tasks of a schedule, each with its
    request. *)
Lemma irun_each (P : request -> task jsval (Sys D) res -> Prop) fuel evs c qs :
  (forall q sys, P q (advance (handle_task fuel q fresh_res) sys).1) ->
  (forall q t sys, P q t -> P q (resume t sys).1) ->
  Forall2 P qs (pool c) -> Forall2 P (qs ++ requests_of evs) (pool (irun fuel evs c)).
Proof.
  intros Ha Hr. revert c qs.
  induction evs as [|ev evs IH]; intros c qs Hp; [by rewrite app_nil_r|].
  rewrite requests_of_cons, app_assoc. apply IH.
  destruct ev as [q|i|n]; simpl requests_of; cbn [istep]; rewrite ?app_nil_r; [| |done].
  - pose proof (Ha q (state c)) as Hq. destruct (advance _ _) as [t sys'].
    apply Forall2_app; [done|by apply Forall2_cons].
  - destruct (pool c !! i) as [t|] eqn:Ht; [|done].
    destruct (Forall2_lookup_r _ _ _ _ _ Hp Ht) as (q & Hq & HP).
    pose proof (Hr q t (state c) HP) as Hr'. destruct (resume t (state c)) as [t' sys'].
    cbn [pool]. rewrite <- (list_insert_id qs i q Hq). by apply Forall2_insert.
Qed.

(** The task of a request settles with an answer of the shape of its
    operation; the task of start-test-suite has answered when it has run
    its first turn. *)
Lemma irun_shaped fuel evs sys :
  Forall2 (fun q t => leaves (shaped q) t /\
                      (q = StartTestSuite -> exists r, t = Settled (Resolved r)))
    (requests_of evs) (pool (irun fuel evs (Config [] sys))).
Proof.
  apply (irun_each _ fuel evs (Config [] sys) []); [| |done].
  - intros q s. split; [apply advance_leaves, handle_task_shaped|]. intros ->. cbn. eauto.
  - intros q t s [Hl Hs]. split; [by apply resume_leaves|].
    intros Hq. destruct (Hs Hq) as [r ->]. eauto.
Qed.

(** C25. The answers have the shape of their operation, however requests
    overlap: under every schedule, from every state and with every
    driver, what a request has been answered with is a payload of its
    operation (the suite id, nothing, the test id with the subscription,
    the messages), or an error whose id is one of the strings listed for
    the operation (for get-subscription, one that is not empty), or, for
    a request still in flight or whose chain was rejected, nothing;
    start-test-suite has always answered. *)
Theorem interleaved_typed fuel evs sys j q :
  requests_of evs !! j = Some q ->
  typed q (reply_of (answer_of j (irun fuel evs (Config [] sys)))).
Proof.
  intros Hq. destruct (Forall2_lookup_l _ _ _ _ _ (irun_shaped fuel evs sys) Hq)
    as (t & Ht & Hl & Hs).
  unfold answer_of. rewrite Ht. destruct t as [o|next upd|next upd]; [apply Hl|..];
    (destruct q; [by destruct Hs as [? [=]]|done..]).
Qed.

End answers.

(** * The theorem at a concrete schedule *)

(** The subscription of the schedule in which a suite is ended while the
    browser is launched. *)
Lemma interleaved_typed_witness :
  typed (GetSubscription args_firefox)
    (reply_of (answer_of 1 (irun 40 overlap (Config [] sys0)))).
Proof. by apply interleaved_typed. Defined.
