(* ===== verification/Identifiers.v ===== *)
(** * Identifiers are given out once

    A suite id is the value of the counter of the orchestrator when the
    suite is started, an instance id the value of the counter of its suite
    when the session is registered.  The client keeps both and names them
    in later requests, so an id that has stopped referring to a suite or to
    a session must not come to refer to another one.  The registry is
    changed by the handlers of requests that overlap; this file states what
    every piece of them keeps, as an instance of [Turn], and concludes for
    every schedule. *)

From stdpp Require Import base option list strings gmap pretty sorting.
From S2P Require Import Prelude Task JsValue ApiServer Driver Browser Selenium Suite Wpts.
From S2P Require Import Fixtures Checks Scripts Lifecycle Subscribe Notify Service Ownership.
From S2P Require Import Async Turns Interleave.

Import APIServer.

Local Open Scope Z_scope.

(** The instance id [i] has been given out by the suite. *)
Definition given (s : TestSuite.t) (i : Z) : Prop :=
  0 ≤ i < TestSuite._availableTestInstanceId s.

(** The suite id [n] has been given out, and the suite with this id, when
    it is registered, has given out the instance id [i]. *)
Definition given_out (o : WPTS) (n i : Z) : Prop :=
  0 ≤ n < _availableTestSuiteId o /\
  match _testSuites o !! n with
  | Some s => given s i
  | None => True
  end.

(** The session the pair of a suite id and an instance id refers to:
    [this._testSuites[n].getTestInstance(i)]. *)
Definition session_of (o : WPTS) (n i : Z) : option nat :=
  _testSuites o !! n ≫= TestSuite.getTestInstance i.

(** What a suite keeps: the counter does not go back, and an instance id
    given out refers to the session it referred to, or to none. *)
Definition suite_kept (s s' : TestSuite.t) : Prop :=
  TestSuite._availableTestInstanceId s ≤ TestSuite._availableTestInstanceId s' /\
  forall i, given s i ->
    TestSuite.getTestInstance i s' = None \/
    TestSuite.getTestInstance i s' = TestSuite.getTestInstance i s.

(** What the registry keeps: the counter does not go back, and a suite
    registered under an id given out before was registered under it
    before, and has been kept. *)
Definition keeps (o o' : WPTS) : Prop :=
  _availableTestSuiteId o ≤ _availableTestSuiteId o' /\
  forall n s', 0 ≤ n < _availableTestSuiteId o -> _testSuites o' !! n = Some s' ->
    exists s, _testSuites o !! n = Some s /\ suite_kept s s'.

Section identifiers.
Context {D : Type} `{Driver D}.

Definition no_reuse (sys sys' : Sys D) : Prop := keeps (wpts sys) (wpts sys').

End identifiers.

(** * Properties *)

#[export] Instance given_dec s i : Decision (given s i).
Proof. unfold given. apply _. Defined.

#[export] Instance given_out_dec o n i : Decision (given_out o n i).
Proof. unfold given_out. destruct (_testSuites o !! n); apply _. Defined.

#[export] Instance suite_kept_preorder : PreOrder suite_kept.
Proof.
  split; [split; [done|by right]|]. intros s1 s2 s3 [Hc Hi] [Hc' Hi']. split; [lia|].
  intros i Hg. destruct (Hi' i) as [?| ->]; [unfold given in *; lia|by left|by apply Hi].
Qed.

#[export] Instance keeps_preorder : PreOrder keeps.
Proof.
  split.
  - intros o. split; [done|]. intros n s' _ Hs. by exists s'.
  - intros o1 o2 o3 [Hc Hk] [Hc' Hk']. split; [lia|]. intros n s3 Hn Hs3.
    destruct (Hk' n s3 ltac:(lia) Hs3) as (s2 & Hs2 & H23).
    destruct (Hk n s2 Hn Hs2) as (s1 & Hs1 & H12). exists s1. split; [done|by etrans].
Qed.

(** An id given out stays given out. *)
Lemma keeps_given_out o o' n i : keeps o o' -> given_out o n i -> given_out o' n i.
Proof.
  intros [Hc Hk] [Hn Hi]. split; [lia|].
  destruct (_testSuites o' !! n) as [s'|] eqn:Hs'; [|done].
  destruct (Hk n s' Hn Hs') as (s & Hs & Hle & _). rewrite Hs in Hi. unfold given in *. lia.
Qed.

(** An id given out refers to the session it referred to, or to none. *)
Lemma keeps_session o o' n i :
  keeps o o' -> given_out o n i ->
  session_of o' n i = None \/ session_of o' n i = session_of o n i.
Proof.
  intros [Hc Hk] [Hn Hi]. unfold session_of.
  destruct (_testSuites o' !! n) as [s'|] eqn:Hs'; [|by left].
  destruct (Hk n s' Hn Hs') as (s & Hs & _ & Hkept). rewrite Hs in Hi |- *. by apply Hkept.
Qed.

(** A suite id given out that refers to no suite refers to none
    afterwards. *)
Lemma keeps_removed o o' n :
  keeps o o' -> 0 ≤ n < _availableTestSuiteId o ->
  _testSuites o !! n = None -> _testSuites o' !! n = None.
Proof.
  intros [_ Hk] Hn Hno. destruct (_testSuites o' !! n) as [s'|] eqn:Hs'; [|done].
  destruct (Hk n s' Hn Hs') as (s & Hs & _). by rewrite Hs in Hno.
Qed.

(** ** What the changes of the registry keep *)

Lemma suite_kept_clear s : suite_kept s (TestSuite.clear s).
Proof. split; [done|]. by left. Qed.

Lemma suite_kept_add h s : suite_kept s (TestSuite.addTestInstance h s).2.
Proof.
  split; [apply js_incr_mono|]. intros i [_ Hi]. right. unfold TestSuite.getTestInstance.
  simpl. by rewrite lookup_insert_ne by lia.
Qed.

(** The registry may take a new suite under the value of the counter,
    as long as the counter does not go back. *)
Lemma keeps_new o c' s :
  _availableTestSuiteId o ≤ c' ->
  keeps o (set_testSuites (insert (_availableTestSuiteId o) s) (set_availableTestSuiteId c' o)).
Proof.
  intros Hc. split; [done|]. intros n s' Hn. simpl. rewrite lookup_insert_ne by lia.
  intros Hs. by exists s'.
Qed.

Lemma keeps_insert o n s s' :
  _testSuites o !! n = Some s -> suite_kept s s' -> keeps o (set_testSuites (insert n s') o).
Proof.
  intros Hs Hk. split; [done|]. intros n' s'' _. simpl.
  intros [[<- <-]|[_ Hs'']]%lookup_insert_Some; eauto. by exists s''.
Qed.

Lemma keeps_alter o n f :
  (forall s, suite_kept s (f s)) -> keeps o (set_testSuites (alter f n) o).
Proof.
  intros Hf. split; [done|]. intros n' s' _. simpl.
  destruct (decide (n = n')) as [<-|Hne].
  - rewrite lookup_alter_eq. intros (s & Hs & ->)%fmap_Some. by exists s.
  - rewrite lookup_alter_ne by done. intros Hs'. by exists s'.
Qed.

Lemma keeps_delete o n : keeps o (set_testSuites (delete n) o).
Proof.
  split; [done|]. intros n' s' _. unfold set_testSuites. cbn [_testSuites].
  rewrite lookup_delete_Some. intros [_ Hs']. by exists s'.
Qed.

Section identifiers_facts.
Context {D : Type} `{Driver D} `{!DriverLaws D}.
Implicit Types (sys : Sys D) (c : config D) (fuel : nat) (n i : Z).

(** A piece that leaves the orchestrator as it is. *)
Lemma no_reuse_same sys sys' : wpts sys' = wpts sys -> no_reuse sys sys'.
Proof. unfold no_reuse. by intros ->. Qed.

Lemma no_reuse_launch b key sys :
  no_reuse sys (then_ (on_world (getSeleniumDriver b)) (add_instance_at key) sys).2.
Proof.
  pose proof (on_world_wpts (getSeleniumDriver b) sys) as Hw. unfold then_.
  destruct (on_world (getSeleniumDriver b) sys) as [[h|e|] sys1]; simpl in Hw;
    [|by apply no_reuse_same..].
  unfold add_instance_at, no_reuse.
  destruct key as [| | |n| | |]; try (by apply no_reuse_same).
  destruct (_testSuites (wpts sys1) !! n) as [s|] eqn:Hs; [|by apply no_reuse_same].
  pose proof (suite_kept_add h s) as Hk. destruct (TestSuite.addTestInstance h s) as [i s'].
  simpl. rewrite <- Hw. by eapply keeps_insert.
Qed.

(** Every turn of every handler keeps the ids given out. *)
#[export] Instance no_reuse_turn : Turn (no_reuse (D:=D)).
Proof.
  apply turn_of_pieces.
  - split; [intros sys|intros s1 s2 s3]; unfold no_reuse; [reflexivity|apply transitivity].
  - intros r sys. rewrite startTestSuite_eq. apply keeps_new, js_incr_mono.
  - intros n hs sys. unfold suite_end_complete.
    destruct (TestSuite.kill_all hs (world sys)). apply keeps_alter, suite_kept_clear.
  - intros [| | |n| | |] sys; try (by apply no_reuse_same). apply keeps_delete.
  - intros sys. apply no_reuse_same, on_world_wpts.
  - intros b key sys0 sys _. apply no_reuse_launch.
  - intros h upd sys. by apply no_reuse_same.
  - intros n sys. by apply no_reuse_same.
Qed.

(** The session a request of get-notification-status names is the
    session its pair of ids refers to. *)
Lemma target_session_of args sys h :
  target args sys = Some h <->
  exists n i, lookup_prop "testSuiteId" args = JNum n /\
    lookup_prop "testId" args = JNum i /\ session_of (wpts sys) n i = Some h.
Proof.
  rewrite target_Some. unfold session_of. split.
  - intros (n & i & s & Hn & Hi & Hs & Hh). exists n, i. by rewrite Hs.
  - intros (n & i & Hn & Hi & Hh). destruct (_testSuites (wpts sys) !! n) as [s|] eqn:Hs; [|done].
    by exists n, i, s.
Qed.

(** In a well-formed state, the ids that refer to a session have been
    given out. *)
Lemma session_of_given_out sys n i :
  sys_wf sys -> is_Some (session_of (wpts sys) n i) -> given_out (wpts sys) n i.
Proof.
  unfold session_of. intros Hwf [h Hh]. destruct (_testSuites (wpts sys) !! n) as [s|] eqn:Hs; [|done].
  destruct (wf_suites _ Hwf n s Hs) as (Hn & _ & [_ Hi] & _).
  split; [done|]. rewrite Hs. apply Hi. unfold TestSuite.getTestInstance in Hh. simpl in Hh.
  by rewrite Hh.
Qed.

(** C13. Identifiers are not given out twice, however requests overlap:
    take any schedule from the construction that leaves the counters
    below 2^53, any continuation of it, and any continuation of that.  A
    suite id that referred to a suite after the first and to none after the
    second refers to none after the third.  An instance id that referred to
    a session after the first refers to the same session after the second,
    or to none; and when it refers to none after the second, it refers to
    none after the third. *)
Theorem retired_forever fuel evs evs' evs'' port browsers versions w n i :
  let c1 := irun fuel evs (Config [] (MkSys (constructor port browsers versions) w)) in
  let c2 := irun fuel evs' c1 in
  let c3 := irun fuel evs'' c2 in
  sessions w = ∅ -> in_range (state c1) ->
  (is_Some (_testSuites (wpts (state c1)) !! n) ->
   _testSuites (wpts (state c2)) !! n = None -> _testSuites (wpts (state c3)) !! n = None) /\
  (is_Some (session_of (wpts (state c1)) n i) ->
   (session_of (wpts (state c2)) n i = None \/
    session_of (wpts (state c2)) n i = session_of (wpts (state c1)) n i) /\
   (session_of (wpts (state c2)) n i = None -> session_of (wpts (state c3)) n i = None)).
Proof.
  intros c1 c2 c3 Hw Hr.
  assert (sys_wf (state c1)) as Hwf.
  { destruct (irun_related safe_step fuel evs (MkSys (constructor port browsers versions) w))
      as (_ & _ & Hwf). apply Hwf; [done|by apply constructor_wf]. }
  destruct (irun_turn no_reuse fuel evs (Config [] (MkSys (constructor port browsers versions) w)))
    as [_ Hp1]; [by apply Forall_nil|].
  destruct (irun_turn no_reuse fuel evs' c1 Hp1) as [H12 Hp2].
  destruct (irun_turn no_reuse fuel evs'' c2 Hp2) as [H23 _].
  split.
  - intros [s Hs] Hno. apply (keeps_removed _ _ n H23); [|done].
    destruct H12 as [Hc _]. destruct (wf_suites _ Hwf n s Hs) as [Hn _]. subst c1 c2 c3. lia.
  - intros Hi%session_of_given_out; [|done]. split; [by apply keeps_session|].
    intros Hno. destruct (keeps_session _ _ n i H23) as [?|Heq]; [|done|by rewrite <- Hno].
    by apply (keeps_given_out _ _ n i H12).
Qed.

End identifiers_facts.

(** * The theorem at a concrete schedule *)

(** A suite is started and a subscription taken in it; the suite is ended;
    another suite is started.  The first pair of ids refers to nothing
    afterwards. *)
Lemma retired_forever_witness :
  let taken := [Arrive StartTestSuite; Arrive (GetSubscription args_firefox)]
               ++ replicate 65 (Complete 1) in
  let ended := [Arrive (EndTestSuite [("testSuiteId", JNum 0)]); Complete 2] in
  let again := [Arrive StartTestSuite] in
  session_of (wpts (state (irun 40 (taken ++ ended ++ again) (Config [] sys0)))) 0 0 = None.
Proof.
  intros taken ended again. rewrite !irun_app.
  destruct (retired_forever 40 taken ended again None None None (world_of env_ok) 0 0)
    as [_ Hs]; [done | split; by vm_compute |].
  apply Hs; [by eexists; vm_compute | by vm_compute].
Defined.
