(* ===== verification/Unique.v ===== *)
(** * Test ids are answered once

    [testSuite.addTestInstance(driver)] gives the instance the value of the
    counter of the suite and advances the counter.  [getSubscription] of
    [src/src/index.js] calls it in the turn in which the launch of the
    browser completes, and answers with the id many turns later, when the
    page has subscribed; other requests for the same suite are served in
    between.  This file shows that no two requests for a suite are
    answered with the same test id, under every schedule.

    A task of the pool is followed through three stages: it is [Waiting]
    for the launch, and will get the value the counter of its suite has
    when the launch completes; it [Holds] an id, which is below the
    counter of the suite from then on; or it is [Mute] and answers with
    no id.  The ids held are distinct, since each was the value of a
    counter that was advanced when it was given out. *)

From stdpp Require Import base option list strings gmap pretty sorting.
From S2P Require Import Prelude Task JsValue ApiServer Driver Browser Selenium Suite Wpts.
From S2P Require Import Fixtures Checks Scripts Lifecycle Subscribe Notify Service Ownership.
From S2P Require Import Contract Async Turns Interleave Answers Identifiers.

Import APIServer.

Local Open Scope Z_scope.

(** The test id a request was answered with. *)
Definition test_of (o : outcome jsval res) : option Z :=
  match data_in o with
  | Some (JObj (("testId", JNum i) :: _)) => Some i
  | _ => None
  end.

(** The suite a request for a subscription names. *)
Definition suite_named (q : request) : option Z :=
  match q with
  | GetSubscription args =>
      match lookup_prop "testSuiteId" args with
      | JNum n => Some n
      | _ => None
      end
  | _ => None
  end.

(** The stage of a task. *)
Inductive status : Type :=
  | Mute                (* answers with no test id *)
  | Waiting (n : Z)       (* will register an instance in suite [n], or answer with no id *)
  | Holds (n i : Z).      (* has registered instance [i] of suite [n] *)

Section unique.
Context {D : Type} `{Driver D}.

(** The suite [n] has given out the instance id [i]: the ids it gives out
    from now on are above. *)
Definition below (sys : Sys D) (n i : Z) : Prop :=
  0 ≤ n < _availableTestSuiteId (wpts sys) /\
  forall st, _testSuites (wpts sys) !! n = Some st ->
    i < TestSuite._availableTestInstanceId st.

(** A turn in which the suite [n] has given out the id [i], and has
    registered an instance under it. *)
Definition assigns (n i : Z) (from sys : Sys D) : Prop :=
  exists st st',
    _testSuites (wpts from) !! n = Some st /\ TestSuite._availableTestInstanceId st = i /\
    _testSuites (wpts sys) !! n = Some st' /\
    TestSuite._availableTestInstanceId st' = js_incr i /\
    is_Some (TestSuite.getTestInstance i st').

(** An answer with the test id [i], or with none. *)
Definition only (i : Z) (o : outcome jsval res) : Prop :=
  forall i', test_of o = Some i' -> i' = i.

(** The task has registered an instance of suite [n] in the turn it is
    parked after, and settles as [Q] asks of the id of the instance. *)
Definition registered {A} (Q : Z -> outcome jsval A -> Prop) (n : Z)
    (t : task jsval (Sys D) A) (from sys : Sys D) : Prop :=
  exists i, assigns n i from sys /\ leaves (Q i) t.

(** A task that has registered no instance yet: its turns keep the ids
    given out, up to the turn in which it registers an instance of suite
    [n]; when it settles before, it answers with no id. *)
Definition fresh (n : Z) (t : task jsval (Sys D) res) (from sys : Sys D) : Prop :=
  until no_reuse (registered only n) t from sys
    (fun o from' sys' => no_reuse from' sys' /\ test_of o = None).

Definition in_status (sys : Sys D) (t : task jsval (Sys D) res) (g : status) : Prop :=
  match g with
  | Mute => leaves (fun o => test_of o = None) t
  | Waiting n =>
      0 ≤ n < _availableTestSuiteId (wpts sys) /\
      match t with
      | Later next upd => forall s1, no_reuse sys s1 -> fresh n (next s1) s1 (upd s1)
      | _ => False
      end
  | Holds n i => leaves (only i) t /\ below sys n i
  end.

(** The task after a turn in which it was to register an instance of
    suite [n]: it answers with no id, or has registered the instance, or
    is still to register it. *)
Definition turned (n : Z) (t : task jsval (Sys D) res) (from sys : Sys D) : Prop :=
  in_status sys t Mute \/ registered only n t from sys \/ in_status sys t (Waiting n).

(** A stage no task is in: the id it holds, if any, is held by none. *)
Definition unheld (sys : Sys D) (g : status) : Prop :=
  forall n i t, g = Holds n i -> ~ in_status sys t (Holds n i).

(** The stage of a task is about the suite its request names. *)
Definition agrees (q : request) (g : status) : Prop :=
  match g with
  | Mute => True
  | Waiting n | Holds n _ => suite_named q = Some n
  end.

(** The task of the request [a.1] is in the stage [a.2]. *)
Definition follows (sys : Sys D) (t : task jsval (Sys D) res) (a : request * status) : Prop :=
  in_status sys t a.2 /\ agrees a.1 a.2.

(** No two tasks hold the same id of the same suite. *)
Definition distinct (gs : list (request * status)) : Prop :=
  forall j k q q' n i,
    gs !! j = Some (q, Holds n i) -> gs !! k = Some (q', Holds n i) -> j = k.

(** The tasks of the pool are the tasks of the requests [qs], in the
    stages [gs]. *)
Definition tracked (qs : list request) (c : config D) (gs : list (request * status)) : Prop :=
  gs.*1 = qs /\ distinct gs /\ Forall2 (follows (state c)) (pool c) gs.

(** A configuration in which the stages of the tasks can be told. *)
Definition followed (qs : list request) (c : config D) : Prop :=
  sys_wf (state c) /\ pool_safe safe_step c /\ pool_safe no_reuse c /\
  exists gs, tracked qs c gs.

End unique.

(** A suite is started and two subscriptions are taken in it at once:
    both requests arrive, and their operations complete in turn. *)
Definition at_once : list ievent :=
  [Arrive StartTestSuite;
   Arrive (GetSubscription args_firefox);
   Arrive (GetSubscription args_firefox)] ++
  concat (replicate 65 [Complete 1; Complete 2]).

(** * Properties *)

Lemma test_of_error r id m : test_of (Resolved (sendErrorResponse r id m)) = None.
Proof. unfold test_of. by rewrite data_in_sendErrorResponse. Qed.

Lemma test_of_valid r d :
  test_of (Resolved (sendValidResponse r d)) =
  match d with JObj (("testId", JNum i) :: _) => Some i | _ => None end.
Proof. unfold test_of. by rewrite data_in_sendValidResponse. Qed.

Lemma only_none i o : test_of o = None -> only i o.
Proof. by intros Ho i'; rewrite Ho. Qed.

(** ** The answers of the checks *)

Lemma missingRequiredArgs_silent r args req :
  match missingRequiredArgs r args req with
  | (true, r') => test_of (Resolved r') = None
  | (false, r') => r' = r
  end.
Proof.
  pose proof (missingRequiredArgs_error r args req) as Hd.
  destruct (missingRequiredArgs r args req) as [[] r']; [|done].
  destruct Hd as [m ->]. apply test_of_error.
Qed.

Lemma validTestSuiteId_silent r v o :
  match validTestSuiteId r v o with
  | (true, r') => r' = r /\ exists n, v = JNum n /\ is_Some (_testSuites o !! n)
  | (false, r') => test_of (Resolved r') = None
  end.
Proof.
  pose proof (validTestSuiteId_error r v o) as Hd.
  destruct (validTestSuiteId r v o) as [[] r']; [done|].
  destruct Hd as (id & m & _ & ->). apply test_of_error.
Qed.

(** An answer of the shape of another operation, and a failure, carry no
    test id. *)
Lemma shaped_silent q o :
  (forall args, q <> GetSubscription args) -> shaped q o -> test_of o = None.
Proof.
  intros Hq. unfold shaped, reply_of, test_of. destruct (data_in o) as [d|]; [|done].
  destruct q as [|args|args|args]; cbn [typed]; [| |by destruct (Hq args)|].
  - by intros [n ->].
  - by intros ->.
  - by intros [messages ->].
Qed.

Lemma failure_silent o : failure (reply_of o) -> test_of o = None.
Proof.
  unfold reply_of, test_of. destruct (data_in o); [|done].
  by intros [?|(id & ? & _)].
Qed.

Section unique_facts.
Context {D : Type} `{Driver D} `{!DriverLaws D}.
Implicit Types (sys : Sys D) (c : config D) (fuel : nat) (n i : Z) (g : status).
Implicit Types (t : task jsval (Sys D) res).

(** ** What the handlers answer with *)

Lemma subscription_failed_silent r err sys :
  test_of (subscription_failed r err sys).1 = None.
Proof. apply failure_silent, subscription_failed_reply. Qed.

Lemma handle_task_silent fuel q r :
  (forall args, q <> GetSubscription args) ->
  leaves (fun o => test_of o = None) (handle_task (D:=D) fuel q r).
Proof.
  intros Hq. eapply leaves_weaken, handle_task_shaped. intros o. by apply shaped_silent.
Qed.

(** ** The turns of a subscription up to the registration *)

Lemma subscribe_flow_task_waits fuel url i h :
  exists next upd,
    world_task (session_task h (subscribe_flow_task (D:=D) fuel url i)) = Later next upd.
Proof. by eexists _, _. Qed.

(** The turns of [initiateTestInstance] keep the ids given out; the turn
    in which the launch completes registers the instance, and from then
    on the details, when they are answered, name its id. *)
Lemma initiateTestInstance_task_fresh fuel n opt b from sys :
  no_reuse from sys ->
  until no_reuse (registered test_details n)
    (initiateTestInstance_task (D:=D) fuel (JNum n) opt b) from sys
    (fun o from' sys' => no_reuse from' sys' /\ forall a, o <> Resolved a).
Proof.
  intros HR. unfold initiateTestInstance_task.
  apply until_await_then; [done|]. intros s1 Hs1.
  pose proof (turn_del (R:=no_reuse) s1) as Hdel.
  destruct (on_world del_temp s1) as [[[]|e|] s2]; cbn [fst snd] in *; [|done..].
  apply until_now_then. cbn [gets fst snd].
  apply until_await_then; [done|]. intros s3 Hs3.
  pose proof (on_world_wpts (getSeleniumDriver
                (grant_notifications (getUrl (_apiServer (wpts s2))) b)) s3) as Hw.
  destruct (on_world _ s3) as [[h|e|] s4]; cbn [fst snd] in *;
    [|by split; [apply no_reuse_same|]..].
  apply until_now_then. unfold add_instance_at.
  destruct (_testSuites (wpts s4) !! n) as [st|] eqn:Hst; cbn [fst snd];
    [|by split; [apply no_reuse_same|]].
  pose proof (suite_kept_add h st) as Hk. rewrite Hw in Hst.
  destruct (subscribe_flow_task_waits fuel
              (getUrl (_apiServer (wpts s2)) +:+ "/" +:+ urlGETArgs opt)
              (TestSuite._availableTestInstanceId st) h) as (next & upd & Heq).
  cbn [TestSuite.addTestInstance fst snd] in *. rewrite Heq. split.
  - unfold no_reuse. cbn [wpts]. rewrite Hw. by eapply keeps_insert.
  - left. exists (TestSuite._availableTestInstanceId st). split.
    + exists st. eexists. split_and!; [done|done|cbn; apply lookup_insert_eq|done|].
      unfold TestSuite.getTestInstance. cbn. by rewrite lookup_insert_eq.
    + rewrite <- Heq. by apply leaves_zoom, session_task_leaves, subscribe_flow_task_details.
Qed.

(** The same of the request, with its answer. *)
Lemma launch_task_fresh fuel r n b opt from sys :
  no_reuse from sys -> fresh n (launch_task (D:=D) fuel r (JNum n) b opt) from sys.
Proof.
  intros HR. unfold fresh, launch_task.
  apply (until_catch _ (fun t from sys => exists u,
           t = task_then u (fun testDetails => ret (sendValidResponse r testDetails)) /\
           registered test_details n u from sys)).
  { intros ? from' s (u & -> & i & Hi & Hl). exists i. split; [done|].
    apply leaves_catch, leaves_then. eapply leaves_weaken; [|exact Hl].
    intros [a|e|] Ho; cbn [leaves ret]; [| |by apply only_none].
    - destruct (Ho a eq_refl) as [x ->]. intros i'. rewrite test_of_valid. by intros [= <-].
    - intros sys'. apply only_none, subscription_failed_silent. }
  apply (until_then _ (registered test_details n)); [by eauto|].
  eapply until_weaken, initiateTestInstance_task_fresh; [done| |done].
  intros [a|e|] from' s [Hs Ho]; [by destruct (Ho a)| |done].
  cbn. split; [|apply subscription_failed_silent].
  etrans; [exact Hs|]. apply (turn_kept no_reuse). intros I. apply subscription_failed_preserves.
Qed.

(** ** Stages and steps *)

Lemma below_step sys sys' n i : no_reuse sys sys' -> below sys n i -> below sys' n i.
Proof.
  intros [Hc Hk] [Hn Hi]. split; [lia|]. intros st' Hst'.
  destruct (Hk n st' Hn Hst') as (st & Hst & Hle & _). specialize (Hi st Hst). lia.
Qed.

(** A stage is kept by the steps of the other tasks. *)
Lemma in_status_step sys sys' t g :
  no_reuse sys sys' -> in_status sys t g -> in_status sys' t g.
Proof.
  intros HR. destruct g as [|n|n i]; cbn [in_status]; [done| |].
  - intros [Hn Ht]. split; [destruct HR; lia|].
    destruct t as [|?|next upd]; try done. intros s1 Hs1. apply Ht. by etrans.
  - intros [Hl Hb]. split; [done|]. by apply (below_step sys).
Qed.

(** The task parked after a turn of a task that had registered nothing. *)
Lemma fresh_parked n t from sys :
  parked t = true -> 0 ≤ n < _availableTestSuiteId (wpts from) -> fresh n t from sys ->
  no_reuse from sys /\ turned n t from sys.
Proof.
  destruct t as [o|?|next upd]; [|done|]; intros _ Hn; cbn.
  - intros [HR Ho]. split; [done|by left].
  - intros [HR [Hc|Hw]]; (split; [done|]); [by right; left|right; right].
    split; [destruct HR; lia|done].
Qed.

(** The turn of a task that waits. *)
Lemma resume_waiting sys t n :
  in_status sys t (Waiting n) ->
  no_reuse sys (resume t sys).2 /\ turned n (resume t sys).1 sys (resume t sys).2.
Proof.
  intros [Hn Ht]. destruct t as [|?|next upd]; try done. cbn [resume].
  apply fresh_parked; [apply advance_parked|done|]. by apply advance_until, Ht.
Qed.

(** The turn of a task that holds an id, or that is silent. *)
Lemma resume_status sys t g :
  (forall n, g <> Waiting n) -> no_reuse sys (resume t sys).2 ->
  in_status sys t g -> in_status (resume t sys).2 (resume t sys).1 g.
Proof.
  intros Hg HR. destruct g as [|n|n i]; cbn [in_status]; [|by destruct (Hg n)|].
  - apply resume_leaves.
  - intros [Hl Hb]. split; [by apply resume_leaves|by apply (below_step sys)].
Qed.

(** ** The turn in which a request arrives *)

Lemma getSubscription_task_arrives fuel args sys :
  sys_wf sys ->
  in_status (advance (getSubscription_task fuel fresh_res args) sys).2
    (advance (getSubscription_task fuel fresh_res args) sys).1 Mute \/
  exists n, suite_named (GetSubscription args) = Some n /\
    turned n (advance (getSubscription_task fuel fresh_res args) sys).1 sys
      (advance (getSubscription_task fuel fresh_res args) sys).2.
Proof.
  intros Hwf. unfold getSubscription_task.
  pose proof (missingRequiredArgs_silent fresh_res args
                ["testSuiteId"; "browserName"; "browserVersion"]) as H1.
  destruct (missingRequiredArgs fresh_res args _) as [[] r1]; [by left|subst r1].
  cbn [task_then now advance get_state fst snd]. cbv zeta.
  pose proof (validTestSuiteId_silent fresh_res (lookup_prop "testSuiteId" args) (wpts sys))
    as H2.
  destruct (validTestSuiteId fresh_res _ _) as [[] r2]; cbn [negb];
    [destruct H2 as (-> & n & Hn & Hsome)|by left].
  repeat (case_match; [left; apply test_of_error|]). case_match; [|left; apply test_of_error].
  repeat (case_match; [left; apply test_of_error|]).
  right. exists n. split; [by simpl; rewrite Hn|]. rewrite Hn.
  apply fresh_parked; [apply advance_parked| |by apply advance_until, launch_task_fresh].
  destruct Hsome as [st Hst]. by destruct (wf_suites _ Hwf n st Hst).
Qed.

Lemma handle_task_turned fuel q sys :
  sys_wf sys ->
  in_status (advance (handle_task fuel q fresh_res) sys).2
    (advance (handle_task fuel q fresh_res) sys).1 Mute \/
  exists n, suite_named q = Some n /\
    turned n (advance (handle_task fuel q fresh_res) sys).1 sys
      (advance (handle_task fuel q fresh_res) sys).2.
Proof.
  intros Hwf. destruct q as [|args|args|args];
    [|
     |by apply getSubscription_task_arrives
     |]; left; by apply advance_leaves, handle_task_silent.
Qed.

(** ** The stage after a turn *)

(** No task holds the id that a turn gives out. *)
Lemma assigns_unheld n i sys sys' t :
  assigns n i sys sys' -> ~ in_status sys t (Holds n i).
Proof. intros (st & st' & Hst & Hi & _) [_ [_ Hb]]. specialize (Hb st Hst). lia. Qed.

(** The id a turn has given out is below the counter from then on. *)
Lemma assigns_below n i sys sys' :
  sys_wf sys -> Z.of_nat (nextHandle (world sys)) ≤ MAX_SAFE_INTEGER ->
  no_reuse sys sys' -> assigns n i sys sys' -> below sys' n i.
Proof.
  intros Hwf Hmax HR (st & st' & Hst & Hi & Hst' & Hi' & _).
  destruct (wf_suites _ Hwf n st Hst) as (Hn & _ & [[H0 _] _] & Hle).
  split; [destruct HR; lia|]. intros st'' Hst''. simplify_eq.
  rewrite Hi', js_incr_exact; lia.
Qed.

Lemma turned_follows n q t sys sys' :
  sys_wf sys -> Z.of_nat (nextHandle (world sys)) ≤ MAX_SAFE_INTEGER ->
  no_reuse sys sys' -> suite_named q = Some n -> turned n t sys sys' ->
  exists g, follows sys' t (q, g) /\ unheld sys g.
Proof.
  intros Hwf Hmax HR Hq [Hs|[(i & Ha & Hl)|Hw]];
    [exists Mute|exists (Holds n i)|exists (Waiting n)];
    (split; [split; [|done]|]); try done.
  - split; [done|]. by apply (assigns_below n i sys).
  - intros n' i' t' [= <- <-]. by apply (assigns_unheld n i sys sys').
Qed.

Lemma arrive_follows fuel q sys :
  sys_wf sys -> Z.of_nat (nextHandle (world sys)) ≤ MAX_SAFE_INTEGER ->
  no_reuse sys (advance (handle_task fuel q fresh_res) sys).2 ->
  exists g, follows (advance (handle_task fuel q fresh_res) sys).2
              (advance (handle_task fuel q fresh_res) sys).1 (q, g) /\ unheld sys g.
Proof.
  intros Hwf Hmax HR. destruct (handle_task_turned fuel q sys Hwf) as [Hs|(n & Hq & Ht)];
    [|by apply (turned_follows n)].
  exists Mute. by split.
Qed.

Lemma resume_follows q g0 t sys :
  sys_wf sys -> Z.of_nat (nextHandle (world sys)) ≤ MAX_SAFE_INTEGER ->
  no_reuse sys (resume t sys).2 -> follows sys t (q, g0) ->
  exists g, follows (resume t sys).2 (resume t sys).1 (q, g) /\ (g = g0 \/ unheld sys g).
Proof.
  intros Hwf Hmax HR [Hs Ha]. destruct g0 as [|n|n i]; cbn [fst snd] in *.
  - exists Mute. split; [split; [by apply resume_status|done]|by left].
  - destruct (resume_waiting _ _ _ Hs) as [_ Ht].
    destruct (turned_follows n q _ sys _ Hwf Hmax HR Ha Ht) as (g & Hg & Hu). eauto.
  - exists (Holds n i). split; [split; [by apply resume_status|done]|by left].
Qed.

(** ** The stages of a pool *)

Lemma follows_step sys sys' t a : no_reuse sys sys' -> follows sys t a -> follows sys' t a.
Proof. intros HR [Hs Ha]. split; [by apply (in_status_step sys)|done]. Qed.

Lemma in_range_back sys sys' : safe_step sys sys' -> in_range sys' -> in_range sys.
Proof. intros (Hc & Hh & _) [H1 H2]. split; lia. Qed.

(** An id that is held is held by a task of the pool. *)
Lemma held_in_pool sys p gs k q n i :
  Forall2 (follows sys) p gs -> gs !! k = Some (q, Holds n i) ->
  exists t, in_status sys t (Holds n i).
Proof.
  intros Hf Hk. destruct (Forall2_lookup_r _ _ _ _ _ Hf Hk) as (t & _ & [Ht _]). by exists t.
Qed.

Lemma distinct_insert gs j a :
  distinct gs ->
  (forall k q n i, k <> j -> a.2 = Holds n i -> gs !! k <> Some (q, Holds n i)) ->
  distinct (<[j:=a]> gs).
Proof.
  intros Hd Hnew k k' q q' n i
    [(<- & Ha & _)|[Hk Hk1]]%list_lookup_insert_Some
    [(<- & Ha' & _)|[Hk' Hk2]]%list_lookup_insert_Some; [done| | |by eapply Hd].
  - destruct (Hnew k' q' n i); [congruence|by rewrite Ha|done].
  - destruct (Hnew k q n i); [congruence|by rewrite Ha'|done].
Qed.

Lemma distinct_app gs a :
  distinct gs ->
  (forall k q n i, a.2 = Holds n i -> gs !! k <> Some (q, Holds n i)) ->
  distinct (gs ++ [a]).
Proof.
  intros Hd Hnew k k' q q' n i
    [Hk|(Hl & [Hk Ha]%list_lookup_singleton_Some)]%lookup_app_Some
    [Hk'|(Hl' & [Hk' Ha']%list_lookup_singleton_Some)]%lookup_app_Some.
  - by eapply Hd.
  - destruct (Hnew k q n i); [by rewrite Ha'|done].
  - destruct (Hnew k' q' n i); [by rewrite Ha|done].
  - lia.
Qed.

(** The stage of a task of the pool after its turn. *)
Lemma tracked_resume qs p sys sys' gs j q g0 g t :
  tracked qs (Config p sys) gs -> no_reuse sys sys' -> gs !! j = Some (q, g0) ->
  follows sys' t (q, g) -> g = g0 \/ unheld sys g ->
  tracked qs (Config (<[j:=t]> p) sys') (<[j:=(q, g)]> gs).
Proof.
  intros (Hq & Hd & Hf) HR Hj Hg Hnew. cbn [pool state] in *. split_and!.
  - rewrite list_fmap_insert. cbn [fst]. rewrite list_insert_id; [done|].
    by rewrite list_lookup_fmap, Hj.
  - apply distinct_insert; [done|]. intros k q' n i Hk Ha Hk'. cbn [snd] in Ha. subst g.
    destruct Hnew as [<-|Hu]; [by destruct Hk; apply (Hd k j q' q n i)|].
    destruct (held_in_pool _ _ _ _ _ _ _ Hf Hk') as [t' Ht']. by apply (Hu n i t').
  - apply Forall2_insert; [|done]. eapply Forall2_impl; [exact Hf|].
    intros t' a. by apply follows_step.
Qed.

(** The stage of the task of a request that arrives. *)
Lemma tracked_arrive qs p sys sys' gs q g t :
  tracked qs (Config p sys) gs -> no_reuse sys sys' ->
  follows sys' t (q, g) -> unheld sys g ->
  tracked (qs ++ [q]) (Config (p ++ [t]) sys') (gs ++ [(q, g)]).
Proof.
  intros (Hq & Hd & Hf) HR Hg Hu. cbn [pool state] in *. split_and!.
  - by rewrite fmap_app, Hq.
  - apply distinct_app; [done|]. intros k q' n i Ha Hk'. cbn [snd] in Ha. subst g.
    destruct (held_in_pool _ _ _ _ _ _ _ Hf Hk') as [t' Ht']. by apply (Hu n i t').
  - apply Forall2_app; [|by apply Forall2_cons]. eapply Forall2_impl; [exact Hf|].
    intros t' a. by apply follows_step.
Qed.

(** ** The stages under a schedule *)

Lemma istep_followed fuel ev c qs :
  followed qs c -> in_range (state (istep fuel ev c)) ->
  followed (qs ++ requests_of [ev]) (istep fuel ev c).
Proof.
  intros (Hwf & Hs & Hn & gs & Ht) Hr.
  destruct (istep_turn safe_step fuel ev c Hs) as [HS Hs'].
  destruct (istep_turn no_reuse fuel ev c Hn) as [HN Hn'].
  destruct (in_range_back _ _ HS Hr) as [_ Hmax].
  split_and!; [by apply HS|done|done|]. clear Hs Hs' Hn Hn' HS Hr.
  destruct c as [p sys]. cbn [state pool] in *. destruct ev as [q|j|k]; simpl requests_of.
  - rewrite istep_arrive in *. cbn [state pool] in *.
    destruct (arrive_follows fuel q sys Hwf Hmax HN) as (g & Hg & Hu).
    eexists. by eapply tracked_arrive.
  - rewrite app_nil_r. destruct (p !! j) as [t|] eqn:Hj; [|cbn [istep pool]; rewrite Hj; eauto].
    rewrite (istep_complete _ _ _ t) in * by done. cbn [state pool] in *.
    destruct (Forall2_lookup_l _ _ _ _ _ (proj2 (proj2 Ht)) Hj) as ([q g0] & Hgj & Hfol).
    destruct (resume_follows q g0 t sys Hwf Hmax HN Hfol) as (g & Hg & Hnew).
    eexists. by eapply (tracked_resume qs p sys).
  - rewrite app_nil_r. exists gs. destruct Ht as (Hq & Hd & Hf). split_and!; [done..|].
    cbn [istep state pool] in *. eapply Forall2_impl; [exact Hf|].
    intros t a. by apply follows_step.
Qed.

Lemma irun_followed fuel evs c qs :
  followed qs c -> in_range (state (irun fuel evs c)) ->
  followed (qs ++ requests_of evs) (irun fuel evs c).
Proof.
  revert c qs. induction evs as [|ev evs IH]; intros c qs Hf Hr; [by rewrite app_nil_r|].
  rewrite requests_of_cons, app_assoc. apply IH; [|done]. apply istep_followed; [done|].
  destruct Hf as (_ & Hs & _). destruct (istep_turn safe_step fuel ev c Hs) as [_ Hs'].
  destruct (irun_turn safe_step fuel evs _ Hs') as [HS _]. by apply (in_range_back _ _ HS).
Qed.

(** A request that has been answered with a test id holds it. *)
Lemma answered_holds qs c gs j n i :
  tracked qs c gs -> qs !! j ≫= suite_named = Some n ->
  test_of (answer_of j c) = Some i -> exists q, gs !! j = Some (q, Holds n i).
Proof.
  intros (Hq & Hd & Hf) Hn Hi. unfold answer_of in Hi.
  destruct (pool c !! j) as [t|] eqn:Hj; [|done].
  destruct (Forall2_lookup_l _ _ _ _ _ Hf Hj) as ([q g] & Hg & [Hs Ha]). exists q.
  rewrite <- Hq, list_lookup_fmap, Hg in Hn. cbn in Hn, Hs, Ha.
  destruct t as [o| |]; try done. destruct g as [|n'|n' i0]; cbn in Hs, Ha, Hi.
  - congruence.
  - by destruct Hs.
  - destruct Hs as [Ho _]. rewrite (Ho i Hi). congruence.
Qed.

(** C14. No two requests are answered with the same test id of the same
    suite, however they overlap: under any schedule of arrivals,
    completions and waits from the construction that leaves the counters
    below 2^53, two requests of get-subscription that name the same suite
    and are both answered with a test id are answered with different
    ids. *)
Theorem test_ids_unique fuel evs port browsers versions w j k n i i' :
  sessions w = ∅ -> nextHandle w = 0%nat ->
  in_range (state (irun fuel evs (Config [] (MkSys (constructor port browsers versions) w)))) ->
  j <> k ->
  requests_of evs !! j ≫= suite_named = Some n ->
  requests_of evs !! k ≫= suite_named = Some n ->
  test_of (answer_of j
    (irun fuel evs (Config [] (MkSys (constructor port browsers versions) w)))) = Some i ->
  test_of (answer_of k
    (irun fuel evs (Config [] (MkSys (constructor port browsers versions) w)))) = Some i' ->
  i <> i'.
Proof.
  intros Hw Hh Hr Hjk Hj Hk Hi Hi' <-.
  destruct (irun_followed fuel evs (Config [] (MkSys (constructor port browsers versions) w)) [])
    as (_ & _ & _ & gs & Ht); [|done|].
  { split_and!; [by apply constructor_wf|by apply Forall_nil..|]. by exists []. }
  destruct (answered_holds _ _ _ j n i Ht Hj Hi) as [q Hgj].
  destruct (answered_holds _ _ _ k n i Ht Hk Hi') as [q' Hgk].
  destruct Ht as (_ & Hd & _). by apply Hjk, (Hd j k q q' n i).
Qed.

End unique_facts.

(** * The theorem at a concrete schedule *)

(** Two subscriptions taken at once in the same suite, with the same
    browser, are answered with the test ids 0 and 1. *)
Lemma test_ids_unique_witness : (0 : Z) <> 1.
Proof.
  apply (test_ids_unique (D:=session) 40 at_once None None None (world_of env_ok) 1 2 0);
    [reflexivity | reflexivity | split; by vm_compute | lia
    | by vm_compute | by vm_compute | by vm_compute | by vm_compute].
Defined.
