(* ===== verification/Handover.v ===== *)
(** * Messages are handed over once, whatever overlaps

    [getNotificationStatus] of [src/src/index.js] waits for the page of
    an instance to hold messages, one script and one timer at a time, and
    then reads and clears the buffer of the page with one script.  Other
    requests run between these steps: polls of the same instance, polls
    of others, subscriptions that launch browsers, ends of suites that
    close them.  This file follows the messages of one session through
    every schedule, on the sessions of [Browser]: the messages that the
    polls of the session were answered with and those the session still
    holds are the messages it held at the start.

    Every turn of every task keeps the messages of the session ([kept]),
    but the turn in which a poll of the session reads the buffer, which
    hands over what the answer lists ([handed]).  The task of a
    subscription relies on the handle of the session being in use when
    the browser is launched: the new session gets another handle. *)

From stdpp Require Import base option list strings gmap pretty sorting.
From S2P Require Import Prelude Task JsValue ApiServer Driver Browser Selenium Suite Wpts.
From S2P Require Import Fixtures Checks Scripts Lifecycle Subscribe Notify Service Ownership.
From S2P Require Import Contract Delivery Async Interleave Answers.

Import APIServer TestSuite.

Local Open Scope Z_scope.

(** The handle is in use. *)
Definition in_use (h : nat) (sys : Sys session) : Prop := (h < nextHandle (world sys))%nat.

(** From [sys] to [sys'] the session [h] has kept its messages. *)
Definition kept (h : nat) (sys sys' : Sys session) : Prop :=
  passes h [] (world sys) (world sys').

(** The session a request polls, in the state in which it arrives. *)
Definition poll_target (q : request) (sys : Sys session) : option nat :=
  match q with
  | GetNotificationStatus args => target args sys
  | _ => None
  end.

(** The messages an answer hands over from the session [h], for a
    request that polls [g]. *)
Definition share (h : nat) (g : option nat) (o : outcome jsval res) : list string :=
  if decide (g = Some h) then messages_of o else [].

(** The last turn of the task of a request that polls [g]: the session
    [h] has handed over the messages of the answer, when it is the
    session poll_target, and has kept its messages otherwise. *)
Definition handed (h : nat) (g : option nat) (o : outcome jsval res)
    (sys sys' : Sys session) : Prop :=
  passes h (share h g o) (world sys) (world sys').

(** A task in flight of a request that polls [g], resumed while [h] is in
    use: its turns keep the messages of [h], and its last turn hands over
    those of its answer. *)
Definition owes (h : nat) (g : option nat) (t : task jsval (Sys session) res) : Prop :=
  match t with
  | Settled _ => True
  | Now _ _ => False
  | Later next upd =>
      forall s1, in_use h s1 ->
        turns (fun _ => in_use h) (kept h) (next s1) s1 (upd s1) (handed h g)
  end.

(** The session the request of an event polls, read in the state in
    which the request arrives. *)
Definition source (ev : ievent) (c : config session) : list (option nat) :=
  match ev with
  | Arrive q => [poll_target q (state c)]
  | _ => []
  end.

(** The sessions the requests of a schedule poll, in the order of their
    arrival. *)
Fixpoint sources (fuel : nat) (evs : list ievent) (c : config session) :
    list (option nat) :=
  match evs with
  | [] => []
  | ev :: evs' => source ev c ++ sources fuel evs' (istep fuel ev c)
  end.

(** The messages the requests that poll [gs] have been answered with
    from the session [h]. *)
Definition collected (h : nat) (gs : list (option nat))
    (p : list (task jsval (Sys session) res)) : list string :=
  concat (zip_with (fun g t => share h g (outcome_of t)) gs p).

(** Two polls of the instance 0 of the suite 0 at once: both requests
    arrive, and their operations complete in turn. *)
Definition two_polls : list ievent :=
  [Arrive (GetNotificationStatus args_one); Arrive (GetNotificationStatus args_one)] ++
  concat (replicate 12 [Complete 0%nat; Complete 1%nat]).

(** What a command of a session keeps: the messages of the session. *)
Definition same_payloads (d d' : session) : Prop := payloads d' ≡ₚ payloads d.

(** The messages a driver chain resolves with. *)
Definition read_out (o : outcome jsval jsval) : list string :=
  match o with
  | Resolved v => strings_of v
  | _ => []
  end.

(** What the last command of a chain of a poll does: the messages read
    and those the session holds are those it held. *)
Definition drained (o : outcome jsval jsval) (d d' : session) : Prop :=
  read_out o ++ payloads d' ≡ₚ payloads d.

(** * Properties *)

#[export] Instance same_payloads_preorder : PreOrder same_payloads.
Proof.
  split; [intros d; by unfold same_payloads|].
  intros d1 d2 d3 H12 H23. unfold same_payloads in *. by etrans.
Qed.

#[export] Instance kept_preorder h : PreOrder (kept h).
Proof.
  split; [intros sys; apply passes_refl|].
  intros s1 s2 s3 H12 H23. apply (passes_trans h [] [] _ _ _ H12 H23).
Qed.

Lemma passes_perm h ms ms' w w' : ms ≡ₚ ms' -> passes h ms w w' -> passes h ms' w w'.
Proof.
  intros Hp Hm Hh. destruct (Hm Hh) as [Hh' Hs]. split; [done|]. intros s Hl.
  destruct (Hs s Hl) as (s' & Hl' & Hms). exists s'. by rewrite <- Hp.
Qed.

(** The session [h] replaced by one that has handed over [ms]. *)
Lemma passes_insert h ms w d0 d :
  sessions w !! h = Some d0 -> ms ++ payloads d ≡ₚ payloads d0 ->
  passes h ms w (set_sessions (insert h d) w).
Proof.
  intros Hl Hp Hh. split; [done|]. intros s Hs. exists d. simpl.
  rewrite lookup_insert_eq. split; [done|]. congruence.
Qed.

(** Another session replaced. *)
Lemma passes_insert_other h h' w d :
  h' <> h -> passes h [] w (set_sessions (insert h' d) w).
Proof.
  intros Hne Hh. split; [done|]. intros s Hs. exists s. simpl.
  by rewrite lookup_insert_ne.
Qed.

(** ** The driver chain of a poll *)

Lemma messages_cond_task_pieces : pieces same_payloads (messages_cond_task (D:=session)).
Proof.
  unfold messages_cond_task. apply pieces_then.
  - apply pieces_await. intros d. apply session_executeScript_payloads, on_harness_reads.
  - intros v. destruct (truthy v); [done|]. apply pieces_then; [|done].
    apply pieces_await. intros d. unfold same_payloads. by cbn.
Qed.

Lemma wait_loop_task_pieces fuel (cond : task jsval session jsval) timeout start :
  pieces same_payloads cond -> pieces same_payloads (wait_loop_task fuel cond timeout start).
Proof.
  intros Hc. induction fuel as [|fuel IH]; [done|]. cbn [wait_loop_task].
  apply pieces_then; [done|]. intros v. destruct (truthy v); [done|].
  apply pieces_then; [by apply pieces_now|]. intros d. by case_match.
Qed.

Lemma wait_task_pieces fuel (cond : task jsval session jsval) timeout :
  pieces same_payloads cond -> pieces same_payloads (wait_task fuel cond timeout).
Proof.
  intros Hc. apply pieces_then; [by apply pieces_now|]. intros d.
  by apply wait_loop_task_pieces.
Qed.

(** The commands of a poll keep the messages, up to the script that reads
    them. *)
Lemma poll_messages_task_turns fuel d0 d :
  same_payloads d0 d ->
  turns (fun _ _ => True) same_payloads (poll_messages_task fuel) d0 d drained.
Proof.
  intros Hd. apply turns_then.
  apply (pieces_turns _ same_payloads); [by apply wait_task_pieces, messages_cond_task_pieces|done|].
  intros [v|e|] d1 d2 H12; try done. split; [done|]. intros d3 _.
  pose proof (session_drain_conserves d3) as Hc. change drv_executeScript with session_executeScript.
  destruct (session_executeScript script_drain d3) as [[v'|e|] d4]; cbn [fst snd] in *;
    try done.
  destruct Hc as (ms & -> & Hc). cbn [turns]. unfold drained, read_out.
  by rewrite strings_of_strings.
Qed.

(** ** Chains on a session *)

(** The chain of another session keeps the messages of [h]. *)
Lemma session_task_other {A} h h' (t : task jsval session A) :
  h' <> h -> pieces (kept h) (world_task (session_task h' t)).
Proof.
  intros Hne. induction t as [o|next IH upd|next IH upd]; [done|..]; intros sys;
    (split; [unfold kept|]); simpl;
    (destruct (sessions (world sys) !! h');
     [first [by apply passes_insert_other | apply IH] | first [apply passes_refl | done]]).
Qed.

Lemma set_sessions_insert h (d d' : session) w :
  set_sessions (insert h d') (set_sessions (insert h d) w) = set_sessions (insert h d') w.
Proof. unfold set_sessions. simpl. by rewrite insert_insert_eq. Qed.

(** The chain of the session [h], in a turn that began with the session
    as [d0] and has taken it to [d]: the turns of the chain are turns of
    the system. *)
Lemma session_task_turns R h (t : task jsval session jsval) d0 d (from s : Sys session) :
  sessions (world from) !! h = Some d0 ->
  world s = set_sessions (insert h d) (world from) ->
  turns (fun _ _ => True) same_payloads t d0 d drained ->
  turns R (kept h) (world_task (session_task h t)) from s
    (fun o from' s' => passes h (read_out o) (world from') (world s')).
Proof.
  revert d0 d from s.
  induction t as [o|next IH upd|next IH upd]; intros d0 d from s Hl Hs Ht; simpl in *.
  - rewrite Hs. by apply (passes_insert h _ _ d0).
  - rewrite Hs. simpl. rewrite lookup_insert_eq. apply (IH d d0 (upd d)); [done| |done].
    simpl. by rewrite set_sessions_insert.
  - destruct Ht as [Hd Hn]. split.
    + unfold kept. rewrite Hs. by apply (passes_insert h _ _ d0).
    + intros s1 _. destruct (sessions (world s1) !! h) as [d1|] eqn:Hl1;
        [|unfold read_out; apply passes_refl].
      apply (IH d1 d1 (upd d1)); [done|done|by apply Hn].
Qed.

(** ** Answers without messages *)

Lemma shaped_no_messages q o :
  (forall args, q <> GetNotificationStatus args) -> shaped q o -> messages_of o = [].
Proof.
  intros Hq. unfold shaped, reply_of, messages_of. destruct (data_in o) as [d|]; [|done].
  destruct q as [|args|args|args]; cbn [typed]; [| | |by destruct (Hq args)].
  - by intros [n ->].
  - by intros ->.
  - by intros (i & x & ->).
Qed.

Lemma share_nil h g o : messages_of o = [] -> share h g o = [].
Proof. intros Ho. unfold share. by case_decide. Qed.

(** A task whose turns keep the messages of [h] and that answers with no
    messages has handed over nothing when it has settled. *)
Lemma turns_handed R h g (t : task jsval (Sys session) res) from s :
  turns R (kept h) t from s (fun _ => kept h) -> leaves (fun o => messages_of o = []) t ->
  turns R (kept h) t from s (handed h g).
Proof.
  intros Ht Hl. eapply turns_weaken, turns_leaves; [|exact Ht|exact Hl].
  intros o from' s' [Hk Ho]. unfold handed. by rewrite share_nil.
Qed.

(** ** The pieces of the handlers *)

Lemma kept_world h sys sys' : world sys' = world sys -> kept h sys sys'.
Proof. intros Hw. unfold kept. rewrite Hw. apply passes_refl. Qed.

Lemma kept_preserved {A} h (m : Promise jsval (Sys session) A) sys :
  (forall I, preserves I m) -> kept h sys (m sys).2.
Proof.
  intros Hm. apply kept_world. symmetry.
  by apply (preserves_state (fun s => world sys = world s) m sys (Hm _)).
Qed.

Lemma kept_del h sys : kept h sys (on_world del_temp sys).2.
Proof.
  unfold kept, on_world, zoom, del_temp.
  by destruct (delError (world sys)); apply passes_sessions.
Qed.

Lemma kept_end h n hs sys : kept h sys (suite_end_complete n hs sys).2.
Proof.
  unfold kept, suite_end_complete. pose proof (passes_kill_all h hs (world sys)) as Hk.
  by destruct (kill_all hs (world sys)).
Qed.

Lemma kept_delete h key sys : kept h sys (delete_suite_at key sys).2.
Proof. destruct key; by apply kept_world. Qed.

(** The launch of a browser: the new session gets the next handle. *)
Lemma kept_launch h b sys :
  kept h sys (on_world (getSeleniumDriver b) sys).2 /\
  forall d, (on_world (getSeleniumDriver b) sys).1 = Resolved d -> d = nextHandle (world sys).
Proof.
  unfold kept, on_world, zoom, getSeleniumDriver.
  destruct (spawn (world sys) _ b) as [d| |]; cbn; [|by split; [apply passes_refl|]..].
  split; [|by intros ? [= <-]]. intros Hh. split; [simpl; lia|]. intros s Hs.
  exists s. split; [|done]. simpl. rewrite lookup_insert_ne; [done|lia].
Qed.

Lemma kept_add h key d sys : kept h sys (add_instance_at key d sys).2.
Proof.
  apply kept_world. unfold add_instance_at. destruct key; try done.
  destruct (_testSuites (wpts sys) !! _); [|done]. by destruct (addTestInstance d _).
Qed.

(** ** The handlers *)

Section handlers.
Context (h : nat).
Implicit Types (sys from : Sys session) (r : res) (args : jsobj) (fuel : nat).

Local Notation relies := (fun _ : Sys session => in_use h).

Lemma startTestSuite_task_pieces r : pieces (kept h) (startTestSuite_task (D:=session) r).
Proof.
  apply pieces_then; [apply pieces_now; intros sys; by apply kept_world|]. intros o.
  apply pieces_then; [|done]. apply pieces_now. intros sys. by apply kept_world.
Qed.

Lemma endTestSuite_task_pieces r args :
  pieces (kept h) (endTestSuite_task (D:=session) r args).
Proof.
  unfold endTestSuite_task. destruct (missingRequiredArgs r args _) as [[] r1]; [done|].
  apply pieces_then; [apply pieces_now; intros sys; by apply kept_world|]. intros o.
  destruct (validTestSuiteId r1 _ o) as [[] r2]; [|done]. cbn [negb].
  apply pieces_catch.
  - apply pieces_then; [|intros _; apply pieces_then; [|done]].
    + unfold suite_end_at_task. case_match; try done. apply pieces_then.
      * apply pieces_now. intros sys. by apply kept_world.
      * intros o'. case_match; [|done]. apply pieces_await, kept_end.
    + apply pieces_now, kept_delete.
  - intros err. apply pieces_then; [|done]. apply pieces_now. intros sys.
    apply kept_preserved. auto with wpts.
Qed.

(** The turns of [initiateTestInstance]: the browser is launched while
    [h] is in use, so that the commands of the chain go to another
    session. *)
Lemma initiateTestInstance_task_kept fuel key opt b from sys :
  kept h from sys ->
  turns relies (kept h) (initiateTestInstance_task fuel key opt b) from sys
    (fun _ => kept h).
Proof.
  intros Hk. unfold initiateTestInstance_task.
  apply turns_await_then; [done|]. intros s1 _.
  pose proof (kept_del h s1) as Hdel.
  destruct (on_world del_temp s1) as [[[]|e|] s2]; cbn [fst snd] in *; [|done..].
  apply turns_now_then. cbn [gets fst snd].
  apply turns_await_then; [done|]. intros s3 Hs3.
  destruct (kept_launch h (grant_notifications (getUrl (_apiServer (wpts s2))) b) s3)
    as [Hl Hd].
  destruct (on_world _ s3) as [[d|e|] s4]; cbn [fst snd] in *; [|done..].
  apply turns_now_then. pose proof (kept_add h key d s4) as Ha.
  destruct (add_instance_at key d s4) as [[i|e|] s5]; cbn [fst snd] in *;
    [|by etrans..].
  apply (pieces_turns _ (kept h)); [|by etrans|done].
  apply session_task_other. rewrite (Hd d eq_refl). unfold in_use in Hs3. lia.
Qed.

Lemma getSubscription_task_kept fuel r args from sys :
  kept h from sys ->
  turns relies (kept h) (getSubscription_task fuel r args) from sys (fun _ => kept h).
Proof.
  intros Hk. unfold getSubscription_task.
  destruct (missingRequiredArgs r args _) as [[] r1]; [done|].
  apply turns_now_then. cbn [get_state fst snd]. cbv zeta.
  destruct (validTestSuiteId r1 _ _) as [[] r2]; [|done]. cbn [negb].
  repeat (case_match; [done|]). case_match; [|done]. repeat (case_match; [done|]).
  apply turns_catch, turns_then.
  eapply turns_weaken, initiateTestInstance_task_kept; [|done].
  intros [v|e|] from' s' Hk'; [done| |done].
  apply turns_now. etrans; [exact Hk'|]. apply kept_preserved.
  intros I. apply subscription_failed_preserves.
Qed.

(** The instance a poll reads is the session it polls. *)
Lemma test_instance_target args sys g :
  target args sys = Some g ->
  test_instance (lookup_prop "testSuiteId" args) (lookup_prop "testId" args) sys =
  (Resolved g, sys).
Proof.
  unfold target, test_instance, then_, gets. cbn [fst snd].
  destruct (suite_at _ (wpts sys)) as [st|]; [cbn|done].
  by destruct (instance_at _ st); [intros [= ->]|].
Qed.

Lemma handed_error g r id m sys :
  handed h g (Resolved (sendErrorResponse r id m)) sys sys.
Proof.
  unfold handed. rewrite share_nil; [apply passes_refl|].
  unfold messages_of. by rewrite data_in_sendErrorResponse.
Qed.

Lemma poll_messages_task_now fuel :
  exists next upd, poll_messages_task (D:=session) fuel = Now next upd.
Proof. by eexists _, _. Qed.

(** The chain of a poll of [h], from the turn in which the request
    arrives. *)
Lemma poll_task_turns R fuel sys :
  turns R (kept h) (world_task (session_task h (poll_messages_task fuel))) sys sys
    (fun o from' s' => passes h (read_out o) (world from') (world s')).
Proof.
  destruct (sessions (world sys) !! h) as [d0|] eqn:Hl.
  - apply (session_task_turns R h _ d0 d0); [done| |by apply poll_messages_task_turns].
    destruct sys as [o w]. destruct w. unfold set_sessions. cbn in *.
    by rewrite insert_id.
  - destruct (poll_messages_task_now fuel) as (next & upd & ->). simpl. rewrite Hl.
    apply passes_refl.
Qed.

(** What the handler makes of the outcome of the chain. *)
Lemma poll_answer_handed R r (o : outcome jsval jsval) from sys :
  passes h (read_out o) (world from) (world sys) ->
  match o with
  | Resolved receivedMessages =>
      handed h (Some h)
        (Resolved (sendValidResponse r (JObj [("messages", receivedMessages)]))) from sys
  | Rejected err =>
      turns R (kept h)
        (task_then (now (read_prop err "message"))
           (fun message =>
              ret (sendErrorResponse r (JStr "web_driver_error") (status_message message))))
        from sys (handed h (Some h))
  | Pending => handed h (Some h) Pending from sys
  end.
Proof.
  intros Hp. destruct o as [v|e|]; [| |by unfold handed; rewrite share_nil].
  - unfold handed, share, messages_of. rewrite decide_True by done.
    by rewrite data_in_sendValidResponse.
  - apply turns_now_then. unfold read_prop.
    destruct (get_prop e "message"); cbn; unfold handed; rewrite share_nil; try done.
    unfold messages_of. by rewrite data_in_sendErrorResponse.
Qed.

Lemma getNotificationStatus_task_handed fuel r args sys :
  turns relies (kept h) (getNotificationStatus_task fuel r args) sys sys
    (handed h (target args sys)).
Proof.
  unfold getNotificationStatus_task.
  pose proof (missingRequiredArgs_error r args ["testSuiteId"; "testId"]) as H1.
  destruct (missingRequiredArgs r args _) as [[] r1];
    [destruct H1 as [m ->]; apply handed_error|subst r1].
  apply turns_now_then. cbn [gets fst snd].
  pose proof (validTestId_error r (lookup_prop "testSuiteId" args)
                (lookup_prop "testId" args) (wpts sys)) as H2.
  destruct (validTestId r _ _ _) as [[] r2]; cbn [negb];
    [destruct H2 as [-> [g Hg]]|destruct H2 as (id & m & _ & ->); apply handed_error].
  fold (target args sys) in Hg. rewrite Hg. apply turns_now_then.
  rewrite (test_instance_target args sys g Hg). cbn [fst snd].
  destruct (decide (g = h)) as [->|Hne].
  - apply turns_catch, turns_then. eapply turns_weaken, poll_task_turns.
    intros o from' s' Hp. apply (poll_answer_handed relies r o) in Hp. by destruct o.
  - apply (pieces_turns _ (kept h)); [|done|];
      [|intros o from' s' Hk; unfold handed, share; by rewrite decide_False by congruence].
    apply pieces_catch.
    + apply pieces_then; [by apply session_task_other|done].
    + intros err. apply pieces_then; [|done]. apply pieces_now. intros s.
      apply kept_preserved. auto with wpts.
Qed.

End handlers.

(** ** Every request *)

Section schedules.
Context (h : nat).
Implicit Types (sys : Sys session) (c : config session) (fuel : nat).
Implicit Types (t : task jsval (Sys session) res) (g : option nat).

Local Notation relies := (fun _ : Sys session => in_use h).

Lemma handle_task_quiet fuel q r :
  (forall args, q <> GetNotificationStatus args) ->
  leaves (fun o => messages_of o = []) (handle_task (D:=session) fuel q r).
Proof.
  intros Hq. eapply leaves_weaken, handle_task_shaped. intros o. by apply shaped_no_messages.
Qed.

(** The turns of the task of a request, from the turn in which the
    request arrives. *)
Lemma handle_task_handed fuel q sys :
  turns relies (kept h) (handle_task fuel q fresh_res) sys sys (handed h (poll_target q sys)).
Proof.
  destruct q as [|args|args|args]; cbn [handle_task poll_target];
    [apply turns_handed; [|by apply (handle_task_quiet fuel StartTestSuite)]
    |apply turns_handed; [|by apply (handle_task_quiet fuel (EndTestSuite args))]
    |apply turns_handed; [|by apply (handle_task_quiet fuel (GetSubscription args))]
    |apply getNotificationStatus_task_handed].
  - apply (pieces_turns _ (kept h)); [apply startTestSuite_task_pieces|done..].
  - apply (pieces_turns _ (kept h)); [apply endTestSuite_task_pieces|done..].
  - by apply getSubscription_task_kept.
Qed.

(** A task that has run a turn: what its answer hands over, if it has
    answered, has left the session in that turn. *)
Lemma parked_owes g t from sys :
  parked t = true -> turns relies (kept h) t from sys (handed h g) ->
  handed h g (outcome_of t) from sys /\ owes h g t.
Proof.
  destruct t as [o|?|next upd]; [done|done|]. intros _ [Hk Hn]. split; [|done].
  unfold handed. by rewrite share_nil.
Qed.

(** ** The messages collected *)

Lemma collected_cons g gs t p :
  collected h (g :: gs) (t :: p) = share h g (outcome_of t) ++ collected h gs p.
Proof. reflexivity. Qed.

Lemma collected_app gs p g t :
  length gs = length p ->
  collected h (gs ++ [g]) (p ++ [t]) = collected h gs p ++ share h g (outcome_of t).
Proof.
  intros Hl. unfold collected. rewrite zip_with_app by done. rewrite concat_app. simpl.
  by rewrite app_nil_r.
Qed.

(** A task that had handed over nothing is replaced. *)
Lemma collected_insert gs p j g t t' :
  gs !! j = Some g -> p !! j = Some t -> share h g (outcome_of t) = [] ->
  collected h gs (<[j:=t']> p) ≡ₚ collected h gs p ++ share h g (outcome_of t').
Proof.
  revert p j. induction gs as [|g0 gs IH]; intros [|t0 p] [|j]; try done; simpl.
  - intros [= ->] [= ->] Hn. rewrite !collected_cons, Hn. simpl. apply Permutation_app_comm.
  - intros Hg Ht Hn. rewrite !collected_cons, (IH p j) by done. by rewrite (assoc_L (++)).
Qed.

(** The turn of a task of the pool: what it hands over joins what was
    collected. *)
Lemma resume_owes g t sys :
  in_use h sys -> owes h g t ->
  owes h g (resume t sys).1 /\
  exists ms, passes h ms (world sys) (world (resume t sys).2) /\
    forall gs p j, gs !! j = Some g -> p !! j = Some t ->
      collected h gs (<[j:=(resume t sys).1]> p) ≡ₚ collected h gs p ++ ms.
Proof.
  intros Hu Ht. destruct t as [o|?|next upd]; [|done|]; cbn [resume fst snd].
  - split; [done|]. exists []. split; [apply passes_refl|]. intros gs p j Hg Hp.
    by rewrite list_insert_id, app_nil_r.
  - destruct (parked_owes g _ sys _ (advance_parked _ _)
                (advance_turns _ _ _ _ _ _ (Ht sys Hu))) as [Hh Ho].
    split; [done|]. eexists. split; [exact Hh|]. intros gs p j Hg Hp.
    by apply (collected_insert gs p j g (Later next upd)); [..|apply share_nil].
Qed.

(** ** Schedules *)

(** What has been collected from [h] since the world was [w0], and what
    the tasks in flight will hand over. *)
Lemma istep_handover w0 fuel ev gs c :
  (h < nextHandle w0)%nat ->
  Forall2 (owes h) gs (pool c) -> passes h (collected h gs (pool c)) w0 (world (state c)) ->
  Forall2 (owes h) (gs ++ source ev c) (pool (istep fuel ev c)) /\
  passes h (collected h (gs ++ source ev c) (pool (istep fuel ev c))) w0
    (world (state (istep fuel ev c))).
Proof.
  intros Hw Hf Hp. assert (in_use h (state c)) as Hu by by destruct (Hp Hw).
  destruct ev as [q|j|n]; cbn [source]; rewrite ?app_nil_r.
  - rewrite istep_arrive. cbn [pool state].
    destruct (parked_owes (poll_target q (state c)) _ (state c) _ (advance_parked _ _)
                (advance_turns _ _ _ _ _ _ (handle_task_handed fuel q (state c))))
      as [Hh Ho].
    split; [apply Forall2_app; [done|by apply Forall2_cons]|].
    rewrite collected_app by by apply Forall2_length in Hf.
    by apply (passes_trans h _ _ _ (world (state c))).
  - destruct (pool c !! j) as [t|] eqn:Hj; [|by cbn [istep]; rewrite Hj].
    rewrite (istep_complete _ _ _ t) by done. cbn [pool state].
    destruct (Forall2_lookup_r _ _ _ _ _ Hf Hj) as (g & Hg & Ho).
    destruct (resume_owes g t (state c) Hu Ho) as (Ho' & ms & Hms & Hc). split.
    + rewrite <- (list_insert_id gs j g Hg). by apply Forall2_insert.
    + eapply passes_perm; [symmetry; by apply Hc|].
      by apply (passes_trans h _ _ _ (world (state c))).
  - split; [done|]. cbn [istep pool state step world].
    rewrite <- (app_nil_r (collected _ _ _)).
    apply (passes_trans h _ _ _ (world (state c))); [done|apply passes_idle].
Qed.

Lemma irun_handover w0 fuel evs gs c :
  (h < nextHandle w0)%nat ->
  Forall2 (owes h) gs (pool c) -> passes h (collected h gs (pool c)) w0 (world (state c)) ->
  passes h (collected h (gs ++ sources fuel evs c) (pool (irun fuel evs c))) w0
    (world (state (irun fuel evs c))).
Proof.
  intros Hw. revert gs c. induction evs as [|ev evs IH]; intros gs c Hf Hp;
    [by rewrite app_nil_r|].
  cbn [sources]. rewrite app_assoc.
  destruct (istep_handover w0 fuel ev gs c Hw Hf Hp) as [Hf' Hp']. by apply IH.
Qed.

End schedules.

(** C11. Every message is handed over once, whatever overlaps: under any
    schedule of arrivals, completions and waits, from any state in which
    no request is in flight, for every session whose handle is in use,
    the messages that the polls of that session have been answered with,
    in all, and the messages the session holds are together the messages
    it held at the start.  Polls of the same session may overlap each
    other, and anything else. *)
Theorem schedule_conserves fuel evs sys h d :
  (h < nextHandle (world sys))%nat -> sessions (world sys) !! h = Some d ->
  exists d',
    sessions (world (state (irun fuel evs (Config [] sys)))) !! h = Some d' /\
    collected h (sources fuel evs (Config [] sys)) (pool (irun fuel evs (Config [] sys)))
      ++ payloads d' ≡ₚ payloads d.
Proof.
  intros Hh Hd.
  by apply (irun_handover h (world sys) fuel evs [] (Config [] sys) Hh);
    [constructor|apply passes_refl|..].
Qed.

(** * The theorem at a concrete schedule *)

(** The session of the instance holds a message that arrives at 5 s; two
    polls of the instance overlap. *)
Lemma schedule_conserves_witness :
  exists d',
    sessions (world (state (irun 121 two_polls
                              (Config [] (sys_with (subscribed env_ok)))))) !! 0%nat = Some d' /\
    collected 0 (sources 121 two_polls (Config [] (sys_with (subscribed env_ok))))
      (pool (irun 121 two_polls (Config [] (sys_with (subscribed env_ok)))))
      ++ payloads d' ≡ₚ payloads (subscribed env_ok).
Proof. apply schedule_conserves; [simpl; lia | done]. Defined.

(** In that schedule both polls see the message when they look for it;
    the first to read takes it, and the other is answered with an empty
    list at once. *)
Lemma two_polls_answers :
  let c := irun 121 two_polls (Config [] (sys_with (subscribed env_ok))) in
  data_in (answer_of 0 c) = Some (JObj [("messages", JArr [JStr "hello"])]) /\
  data_in (answer_of 1 c) = Some (JObj [("messages", JArr [])]) /\
  payloads <$> sessions (world (state c)) !! 0%nat = Some [].
Proof. by vm_compute. Qed.
