(* ===== verification/Exclusive.v ===== *)
(** * Sessions are never shared

    Each browser session is owned by one instance: no two instances, of
    the same or of different suites, refer to the same session, and every
    instance refers to a session that exists.  Unlike the well-formedness
    of [Wpts], this does not depend on the id counters: it holds when a
    counter has left the range in which [++] is exact, and when
    [endService] has reset the counter of the suites while suites are
    registered.  This file states it of the registry, shows that every
    piece of the handlers keeps it (an instance of [Turn]), and that the
    pieces of [endService] do. *)

From stdpp Require Import base option list strings gmap pretty sorting.
From S2P Require Import Prelude Task JsValue ApiServer Driver Browser Selenium Suite Wpts.
From S2P Require Import Fixtures Checks Scripts Lifecycle Subscribe Notify Service Ownership.
From S2P Require Import Async Turns Interleave Identifiers.

Import APIServer.

Local Open Scope Z_scope.

Section exclusive.
Context {D : Type} `{Driver D}.

(** Every instance refers to a session that exists, and no two instances
    refer to the same session. *)
Definition exclusive (sys : Sys D) : Prop :=
  world_wf (world sys) /\
  (forall n i h, session_of (wpts sys) n i = Some h -> is_Some (sessions (world sys) !! h)) /\
  (forall n i n' i' h,
     session_of (wpts sys) n i = Some h -> session_of (wpts sys) n' i' = Some h ->
     n = n' /\ i = i').

(** A step that keeps the sessions exclusive. *)
Definition stays_exclusive (sys sys' : Sys D) : Prop := exclusive sys -> exclusive sys'.

End exclusive.

(** * Properties *)

(** ** The instances of a registry that has changed *)

Lemma session_of_insert o n s m i :
  session_of (set_testSuites (insert n s) o) m i =
  if decide (n = m) then TestSuite.getTestInstance i s else session_of o m i.
Proof.
  unfold session_of, set_testSuites. cbn [_testSuites]. case_decide as Hn.
  - subst m. by rewrite lookup_insert_eq.
  - by rewrite lookup_insert_ne.
Qed.

Lemma session_of_delete o n m i h :
  session_of (set_testSuites (delete n) o) m i = Some h -> session_of o m i = Some h.
Proof.
  unfold session_of, set_testSuites. cbn [_testSuites].
  destruct (decide (n = m)) as [->|Hn]; [by rewrite lookup_delete_eq|].
  by rewrite lookup_delete_ne.
Qed.

Lemma session_of_clear o n m i h :
  session_of (set_testSuites (alter TestSuite.clear n) o) m i = Some h ->
  session_of o m i = Some h.
Proof.
  unfold session_of, set_testSuites. cbn [_testSuites].
  destruct (decide (n = m)) as [->|Hn]; [|by rewrite lookup_alter_ne].
  rewrite lookup_alter_eq. by destruct (_testSuites o !! m).
Qed.

(** The instances after a registration: the new one, and those that
    were there. *)
Lemma session_of_register o n s h0 m i h :
  _testSuites o !! n = Some s ->
  session_of (set_testSuites (insert n (TestSuite.addTestInstance h0 s).2) o) m i = Some h ->
  (m = n /\ i = TestSuite._availableTestInstanceId s /\ h = h0) \/ session_of o m i = Some h.
Proof.
  intros Hs. rewrite session_of_insert. case_decide as Hn; [subst m|by right].
  unfold TestSuite.getTestInstance. cbn.
  intros [[<- <-]|[_ Hi]]%lookup_insert_Some; [by left|right].
  unfold session_of. by rewrite Hs.
Qed.

Section exclusive_facts.
Context {D : Type} `{Driver D} `{!DriverLaws D}.
Implicit Types (sys : Sys D) (o : WPTS) (w : World D) (n i : Z) (h : nat).

#[export] Instance stays_exclusive_preorder : PreOrder (stays_exclusive (D:=D)).
Proof. split; [by intros sys Hex|]. intros s1 s2 s3 H12 H23 H1. auto. Qed.

(** A registry with no instance that was not there, over a world in which
    the sessions are still there, is exclusive. *)
Lemma exclusive_shrink o w o' w' :
  exclusive (MkSys o w) ->
  (forall n i h, session_of o' n i = Some h -> session_of o n i = Some h) ->
  world_wf w' -> dom (sessions w) ⊆ dom (sessions w') ->
  exclusive (MkSys o' w').
Proof.
  intros (Hw & Hh & He) Hsub Hw' Hdom. split_and!; simpl in *; [done| |].
  - intros n i h Hi%Hsub. by apply elem_of_dom, Hdom, elem_of_dom, (Hh n i).
  - intros n i n' i' h Hi%Hsub Hi'%Hsub. by apply (He n i n' i' h).
Qed.

(** A change of the orchestrator that adds no instance. *)
Lemma stays_exclusive_registry sys o' :
  (forall n i h, session_of o' n i = Some h -> session_of (wpts sys) n i = Some h) ->
  stays_exclusive sys (MkSys o' (world sys)).
Proof. intros Hsub Hex. destruct sys as [o w]. by apply (exclusive_shrink o w); [..|apply Hex|]. Qed.

(** A command on the world that only adds sessions. *)
Lemma stays_exclusive_world {A} (m : Promise jsval (World D) A) sys :
  grows m -> stays_exclusive sys (on_world m sys).2.
Proof.
  intros Hm Hex. destruct sys as [o w]. destruct (Hm w) as (Hw' & Hdom & _); [apply Hex|].
  unfold on_world, zoom. cbn. destruct (m w) as [a w']. by apply (exclusive_shrink o w).
Qed.

(** The registration of a session that exists and that no instance refers
    to. *)
Lemma exclusive_register o w n s h :
  exclusive (MkSys o w) -> _testSuites o !! n = Some s ->
  is_Some (sessions w !! h) -> (forall m i, session_of o m i <> Some h) ->
  exclusive (MkSys (set_testSuites (insert n (TestSuite.addTestInstance h s).2) o) w).
Proof.
  intros (Hw & Hh & He) Hs Hsome Hfree. split_and!; simpl in *; [done| |].
  - intros m i h' [(_ & _ & ->)|Hi]%session_of_register; [done|by apply (Hh m i)|done].
  - intros m i m' i' h' [(-> & -> & ->)|Hi]%session_of_register
      [(-> & -> & Heq)|Hi']%session_of_register; try done.
    + by destruct (Hfree m' i').
    + subst h'. by destruct (Hfree m i).
    + by apply (He m i m' i' h').
Qed.

Lemma stays_exclusive_launch b key sys :
  stays_exclusive sys (then_ (on_world (getSeleniumDriver b)) (add_instance_at key) sys).2.
Proof.
  intros Hex. pose proof (stays_exclusive_world (getSeleniumDriver b) sys
                            (getSeleniumDriver_grows b) Hex) as Hex1.
  destruct sys as [o w]. destruct Hex as (Hw & Hh & _).
  unfold then_, on_world, zoom in *. cbn [wpts world] in *.
  destruct (getSeleniumDriver b w) as [[h|e|] w'] eqn:Hg; cbn [fst snd] in *; [|done..].
  destruct (getSeleniumDriver_fresh b w h w' Hw Hg) as (Hno & Hsome & _).
  unfold add_instance_at. destruct key as [| | |n| | |]; try done. cbn [wpts world].
  destruct (_testSuites o !! n) as [s|] eqn:Hs; [|done].
  pose proof (exclusive_register o w' n s h Hex1 Hs Hsome) as Hreg.
  destruct (TestSuite.addTestInstance h s) as [i s']. apply Hreg.
  intros m j Hj. apply Hh in Hj as [d Hd]. by rewrite Hno in Hd.
Qed.

(** Every turn of every handler keeps the sessions exclusive. *)
#[export] Instance stays_exclusive_turn : Turn (stays_exclusive (D:=D)).
Proof.
  apply turn_of_pieces.
  - apply _.
  - intros r sys. rewrite startTestSuite_eq. apply stays_exclusive_registry.
    intros n i h. rewrite session_of_insert. case_decide; [|done].
    by rewrite create_no_instance.
  - intros n hs sys Hex. unfold suite_end_complete.
    pose proof (kill_all_wf hs (world sys) (proj1 Hex)) as Hw.
    pose proof (kill_all_dom hs (world sys)) as Hd.
    destruct (TestSuite.kill_all hs (world sys)) as [o w']. destruct sys as [o0 w]. cbn in *.
    apply (exclusive_shrink o0 w); [done|apply session_of_clear|done|by rewrite Hd].
  - intros [| | |n| | |] sys; try done. apply stays_exclusive_registry, session_of_delete.
  - intros sys. apply stays_exclusive_world, del_temp_grows.
  - intros b key sys0 sys _. apply stays_exclusive_launch.
  - intros h upd sys Hex. unfold session_step. destruct sys as [o w]. cbn.
    destruct (sessions w !! h) as [d|] eqn:Hd; [|done].
    apply (exclusive_shrink o w); [done|done| |].
    + intros h' [d' Hd']. cbn in *. apply (proj1 Hex h').
      apply lookup_insert_Some in Hd' as [[<- _]|[_ ?]]; by eexists.
    + cbn. rewrite dom_insert_L. set_solver.
  - intros n sys Hex. destruct sys as [o w].
    apply (exclusive_shrink o w); [done|done| |by unfold idle; cbn; rewrite dom_fmap_L].
    intros h. unfold idle. cbn. rewrite lookup_fmap, fmap_is_Some. apply (proj1 Hex h).
Qed.

(** At the construction no suite is registered. *)
Lemma constructor_exclusive port browsers versions w :
  sessions w = ∅ -> exclusive (MkSys (constructor port browsers versions) w).
Proof.
  intros Hw. split_and!; [|done..]. intros h [d Hd]. simpl in Hd. by rewrite Hw in Hd.
Qed.

End exclusive_facts.
