(* ===== verification/Shutdown.v ===== *)
(** * The end of the service among requests

    [endService] of [src/src/index.js] asks every registered suite to end,
    asks the server to close, and resets the id counter when all of that
    has completed.  The promises it makes complete one by one, and the
    handlers of the requests taken before go on in between.  A service is
    a configuration of [Interleave] with the promises of the shutdown in
    progress; its events are those of the requests, the call of
    [endService], and the completions of the promises of the call.  This
    file shows that a shutdown that nothing overlaps is the [endService] of
    [Lifecycle], and what a request in flight makes of it. *)

From stdpp Require Import base option list strings gmap pretty sorting.
From S2P Require Import Prelude Task JsValue ApiServer Driver Browser Selenium Suite Wpts.
From S2P Require Import Fixtures Checks Scripts Lifecycle Subscribe Notify Service Ownership.
From S2P Require Import Async Turns Interleave Identifiers Exclusive.

Import APIServer.

Local Open Scope Z_scope.

(** An event of the life of the service. *)
Inductive sevent : Type :=
  | Request (ev : ievent)     (* an event of the requests: arrival, completion, time *)
  | EndService                (* [endService()] is called *)
  | SuiteEnded (i : nat)      (* the end of the [i]-th suite of the call completes *)
  | ServerClosed.             (* [this._apiServer.kill()] completes *)

Section shutdown.
Context {D : Type} `{Driver D}.

(** One of the promises of [endService]:
    [testSuite.end().then(() => { delete this._testSuites[testSuiteId]; })]. *)
Definition end_one_task (testSuiteId : Z) : task jsval (Sys D) unit :=
  (suite_end_task testSuiteId ;; now (delete_suite testSuiteId))%task.

(** [testSuiteIds.map(...)]: the promises are made one after the other, in
    the turn of the call; each runs to its first suspension. *)
Fixpoint advance_all {A} (ts : list (task jsval (Sys D) A)) (sys : Sys D) :
    list (task jsval (Sys D) A) * Sys D :=
  match ts with
  | [] => ([], sys)
  | t :: ts' =>
      let '(t', sys1) := advance t sys in
      let '(ts'', sys2) := advance_all ts' sys1 in
      (t' :: ts'', sys2)
  end.

(** A shutdown in progress: the promises of the suites, in the order of
    their ids; whether the server has closed; what [endService()] has
    settled with. *)
Record shutdown : Type := Shutdown {
  promises : list (task jsval (Sys D) unit);
  killed : bool;
  report : outcome jsval unit
}.

(** The requests in flight with the state, and the shutdown in progress. *)
Record service : Type := Service {
  running : config D;
  ending : option shutdown
}.

(** [Promise.all(promises)], as the promises stand: rejected when one is,
    resolved when all are. *)
Definition all_settled (ts : list (task jsval (Sys D) unit)) : outcome jsval (list unit) :=
  foldr all_outcomes (Resolved []) (outcome_of <$> ts).

(** The end of the chain of [endService], once the server has closed:
    [.then(() => Promise.all(promises)).then(() => { this._availableTestSuiteId = 0; })].
    A chain that has settled stays as it is. *)
Definition conclude (sh : shutdown) (sys : Sys D) : shutdown * Sys D :=
  if killed sh && negb (is_settled (report sh)) then
    match all_settled (promises sh) with
    | Resolved _ =>
        (Shutdown (promises sh) (killed sh) (Resolved tt),
         MkSys (set_availableTestSuiteId 0 (wpts sys)) (world sys))
    | Rejected e => (Shutdown (promises sh) (killed sh) (Rejected e), sys)
    | Pending => (sh, sys)
    end
  else (sh, sys).

(** [this.endService()], up to its return: the promises of the suites are
    made and the server is asked to close. *)
Definition endService_call (c : config D) : service :=
  let '(ts, sys) := advance_all (end_one_task <$> testSuiteIds (wpts (state c))) (state c) in
  Service (Config (pool c) sys) (Some (Shutdown ts false Pending)).

(** An event of the service.  [endService] is called when no shutdown is
    in progress; a completion for a promise that is not there changes
    nothing. *)
Definition sstep (fuel : nat) (ev : sevent) (sv : service) : service :=
  let c := running sv in
  match ev, ending sv with
  | Request ev, sh => Service (istep fuel ev c) sh
  | EndService, None => endService_call c
  | EndService, Some sh => if is_settled (report sh) then endService_call c else sv
  | SuiteEnded i, Some sh =>
      match promises sh !! i with
      | Some t =>
          let '(t', sys) := resume t (state c) in
          let '(sh', sys') :=
            conclude (Shutdown (<[i := t']> (promises sh)) (killed sh) (report sh)) sys in
          Service (Config (pool c) sys') (Some sh')
      | None => sv
      end
  | ServerClosed, Some sh =>
      if killed sh then sv else
      let sys := MkSys (set_apiServer kill (wpts (state c))) (world (state c)) in
      let '(sh', sys') := conclude (Shutdown (promises sh) true (report sh)) sys in
      Service (Config (pool c) sys') (Some sh')
  | _, None => sv
  end.

Definition srun (fuel : nat) (evs : list sevent) (sv : service) : service :=
  foldl (fun sv ev => sstep fuel ev sv) sv evs.

(** What [endService()] has settled with. *)
Definition reported (sv : service) : outcome jsval unit :=
  match ending sv with
  | Some sh => report sh
  | None => Pending
  end.

(** A relation that holds of the pieces of the handlers and of those of
    [endService]: the close of the server and the reset of the counter. *)
Class ServiceTurn (R : relation (Sys D)) : Prop := {
  #[global] service_turn :: Turn R;
  turn_kill sys : R sys (MkSys (set_apiServer kill (wpts sys)) (world sys));
  turn_reset sys : R sys (MkSys (set_availableTestSuiteId 0 (wpts sys)) (world sys))
}.

(** The turns to come of every task and of every promise of the service
    are related by [R]. *)
Definition service_safe (R : relation (Sys D)) (sv : service) : Prop :=
  pool_safe R (running sv) /\
  forall sh, ending sv = Some sh ->
    Forall (fun t => safe R (fun _ => True) t (state (running sv))) (promises sh).

(** The shutdown that nothing overlaps: the call, the ends of the [k]
    suites in the order of their ids, the close of the server. *)
Definition alone (k : nat) : list sevent :=
  EndService :: (SuiteEnded <$> seq 0 k) ++ [ServerClosed].

End shutdown.

Arguments shutdown D : clear implicits.
Arguments service D : clear implicits.

(** A shutdown while a browser is launched: a suite is started; a
    subscription is asked for and its task comes to wait for the launch
    of the browser; [endService] is called, and the suite, which has no
    instance yet, asks no browser to close; the launch completes and the
    instance is registered; the end of the suite completes and the suite
    is removed; the server closes; the chain of the driver runs to its
    end. *)
Definition in_flight : list sevent :=
  [Request (Arrive StartTestSuite);
   Request (Arrive (GetSubscription args_firefox));
   Request (Complete 1);
   EndService;
   Request (Complete 1);
   SuiteEnded 0;
   ServerClosed] ++ replicate 63 (Request (Complete 1)).

(** * Properties *)

Section shutdown_facts.
Context {D : Type} `{Driver D}.
Implicit Types (sys : Sys D) (c : config D) (sv : service D) (fuel : nat) (n : Z).

Lemma srun_app fuel evs evs' sv : srun fuel (evs ++ evs') sv = srun fuel evs' (srun fuel evs sv).
Proof. apply foldl_app. Qed.

Lemma srun_cons fuel ev evs sv : srun fuel (ev :: evs) sv = srun fuel evs (sstep fuel ev sv).
Proof. reflexivity. Qed.

Lemma testSuiteIds_NoDup (o : WPTS) : NoDup (testSuiteIds o).
Proof. unfold testSuiteIds. rewrite merge_sort_Permutation. apply NoDup_elements. Qed.

(** ** A promise of the call *)

(** Making the promise of a suite reads the registry and changes
    nothing. *)
Lemma end_one_task_state n sys : (advance (end_one_task n) sys).2 = sys.
Proof.
  unfold end_one_task, suite_end_task. cbn. by destruct (_testSuites (wpts sys) !! n).
Qed.

Lemma advance_all_end_one ns sys :
  advance_all (end_one_task <$> ns) sys =
  ((fun n => (advance (end_one_task n) sys).1) <$> ns, sys).
Proof.
  induction ns as [|n ns IH]; [done|]. rewrite !fmap_cons. cbn [advance_all].
  pose proof (end_one_task_state n sys) as Hn.
  destruct (advance (end_one_task n) sys) as [t sys1]. simpl in Hn. subst sys1.
  by rewrite IH.
Qed.

(** When the end of the suite completes, in a state in which the suite is
    as it was at the call, the promise settles as the end of the suite
    followed by its removal. *)
Lemma end_one_task_resume n sys sys1 :
  _testSuites (wpts sys1) !! n = _testSuites (wpts sys) !! n ->
  resume (advance (end_one_task n) sys).1 sys1 =
  (Settled ((suite_end n ;; delete_suite n)%promise sys1).1,
   ((suite_end n ;; delete_suite n)%promise sys1).2).
Proof.
  intros Hn. rewrite end_one_state, Hn. unfold end_one_task, suite_end_task. cbn.
  destruct (_testSuites (wpts sys) !! n) as [s|] eqn:Hs; [|done]. cbn.
  unfold suite_end_complete, ended.
  destruct (TestSuite.kill_all (TestSuite.drivers s) (world sys1)) as [[l|e|] w']; cbn.
  - unfold delete_suite, on_wpts, zoom, modify, set_testSuites. cbn.
    by rewrite delete_alter_eq.
  - unfold set_testSuites. by rewrite (alter_as_insert _ _ _ s).
  - unfold set_testSuites. by rewrite (alter_as_insert _ _ _ s).
Qed.

(** The end of a suite leaves the other suites as they are. *)
Lemma end_one_other n m sys :
  m <> n ->
  _testSuites (wpts ((suite_end n ;; delete_suite n)%promise sys).2) !! m =
  _testSuites (wpts sys) !! m.
Proof.
  intros Hm. rewrite end_one_state.
  destruct (_testSuites (wpts sys) !! n) as [s|]; [|done]. by apply ended_other.
Qed.

(** ** A shutdown that nothing overlaps *)

Lemma all_settled_cons (t : task jsval (Sys D) unit) ts :
  all_settled (t :: ts) = all_outcomes (outcome_of t) (all_settled ts).
Proof. reflexivity. Qed.

(** The ends of the suites [ns], which are as they were at the call,
    complete in order while the server is open: the state is that of
    [end_all], and so is what the promises aggregate to. *)
Lemma srun_ends fuel pl sys ns : forall dn sys1,
  NoDup ns ->
  (forall n, n ∈ ns -> _testSuites (wpts sys1) !! n = _testSuites (wpts sys) !! n) ->
  exists ts,
    srun fuel (SuiteEnded <$> seq (length dn) (length ns))
      (Service (Config pl sys1)
         (Some (Shutdown (dn ++ ((fun n => (advance (end_one_task n) sys).1) <$> ns))
                  false Pending))) =
    Service (Config pl (end_all ns sys1).2) (Some (Shutdown (dn ++ ts) false Pending)) /\
    all_settled ts = (end_all ns sys1).1.
Proof.
  induction ns as [|n ns IH]; intros dn sys1 Hnd Hsame; [by exists []|].
  apply NoDup_cons in Hnd as [Hn Hnd].
  pose proof (end_one_task_resume n sys sys1 (Hsame n ltac:(left))) as Hres.
  set (one := (suite_end n ;; delete_suite n)%promise sys1) in *.
  destruct (IH (dn ++ [Settled one.1]) one.2 Hnd) as (ts & Hrun & Hall).
  { intros m Hm. unfold one. rewrite end_one_other by (by intros ->). apply Hsame. by right. }
  exists (Settled one.1 :: ts). split; [|by rewrite all_settled_cons, Hall, end_all_cons].
  rewrite length_app, Nat.add_1_r, <- !app_assoc in Hrun. cbn [app] in Hrun.
  rewrite end_all_cons. cbn [length seq fmap list_fmap srun foldl fst snd]. fold (one).
  cbn [snd]. rewrite <- Hrun. unfold srun. f_equal.
  cbn [sstep running ending promises state pool killed report].
  rewrite list_lookup_middle by done. rewrite Hres. unfold conclude. cbn [killed andb].
  do 3 f_equal. by rewrite insert_app_r_alt, Nat.sub_diag.
Qed.


(** ** Every schedule *)

Section service_turns.
Context (R : relation (Sys D)) `{!ServiceTurn R}.

Lemma end_one_task_steady n : steady R (end_one_task (D:=D) n).
Proof.
  apply steady_then; try apply _;
    [by apply (suite_end_at_task_steady R (fun _ => True)
                 (fun m hs sys _ => turn_end m hs sys) (JNum n))|].
  intros _. apply steady_now; try apply _. intros sys. apply (turn_delete (JNum n)).
Qed.

Lemma advance_all_safe ns sys :
  Forall (fun t => safe R (fun _ => True) t sys) (advance_all (end_one_task <$> ns) sys).1.
Proof.
  rewrite advance_all_end_one. cbn [fst]. apply Forall_fmap, Forall_forall. intros n _.
  destruct (steady_advance R (end_one_task n) sys (end_one_task_steady n)) as [_ Hs].
  by rewrite end_one_task_state in Hs.
Qed.

Lemma endService_call_turn c :
  pool_safe R c ->
  state (running (endService_call c)) = state c /\ service_safe R (endService_call c).
Proof.
  intros Hp. unfold endService_call.
  pose proof (advance_all_safe (testSuiteIds (wpts (state c))) (state c)) as Hs.
  rewrite advance_all_end_one in *. split; [done|]. split; [by destruct c|].
  by intros sh [= <-].
Qed.

(** The end of the chain changes the counter or nothing, and leaves the
    promises as they are. *)
Lemma conclude_turn sh sys :
  R sys (conclude sh sys).2 /\ promises (conclude sh sys).1 = promises sh.
Proof.
  unfold conclude. destruct (killed sh && _); [|done].
  destruct (all_settled (promises sh)); [split; [apply turn_reset|done]|done..].
Qed.

(** The tasks and the promises of a service stay safe when the state
    takes a step related by [R]. *)
Lemma service_safe_mono pl sys sys' ps sh' :
  Forall (fun t => safe R (fun _ => True) t sys) pl ->
  Forall (fun t => safe R (fun _ => True) t sys) ps ->
  R sys sys' -> promises sh' = ps ->
  service_safe R (Service (Config pl sys') (Some sh')).
Proof.
  intros Hpl Hps HR <-.
  split; [|intros ? [= <-]]; (eapply Forall_impl; [eassumption|]);
    intros t; by apply safe_mono; [apply _|].
Qed.

Lemma sstep_turn fuel ev sv :
  service_safe R sv ->
  R (state (running sv)) (state (running (sstep fuel ev sv))) /\
  service_safe R (sstep fuel ev sv).
Proof.
  intros Hsv. assert (R (state (running sv)) (state (running sv)) /\ service_safe R sv)
    as Hsame by done.
  destruct Hsv as [Hp Hs]. destruct sv as [c sh]. cbn [running ending] in *.
  assert (R (state c) (state (running (endService_call c))) /\
          service_safe R (endService_call c)) as Hcall.
  { destruct (endService_call_turn c Hp) as [-> ?]. by split. }
  destruct ev as [ev| |i|]; cbn [sstep running ending].
  - destruct (istep_turn R fuel ev c Hp) as [HR Hp'].
    split; [by destruct sh|]. split; [by destruct sh|]. intros sh0 Hsh0.
    assert (sh = Some sh0) as -> by by destruct sh. cbn [running].
    eapply Forall_impl; [by apply Hs|]. intros t. by apply safe_mono; [apply _|].
  - destruct sh as [sh|]; [|done]. by destruct (is_settled (report sh)).
  - destruct sh as [sh|]; [|done]. specialize (Hs sh eq_refl).
    destruct (promises sh !! i) as [t|] eqn:Ht; [|done].
    destruct (resume_safe R _ t (state c) (Forall_lookup_1 _ _ _ _ Hs Ht)) as [HR Ht'].
    destruct (resume t (state c)) as [t' sys]. cbn [fst snd] in *.
    destruct (conclude_turn (Shutdown (<[i:=t']> (promises sh)) (killed sh) (report sh)) sys)
      as [HR' Heq].
    destruct (conclude _ sys) as [sh' sys']. cbn [fst snd promises] in *.
    split; [by etrans|]. apply (service_safe_mono _ sys _ (<[i:=t']> (promises sh))); [..|done|done].
    + eapply Forall_impl; [exact Hp|]. intros t0. by apply safe_mono; [apply _|].
    + apply Forall_insert; [|done].
      eapply Forall_impl; [exact Hs|]. intros t0. by apply safe_mono; [apply _|].
  - destruct sh as [sh|]; [|done]. specialize (Hs sh eq_refl).
    destruct (killed sh); [done|].
    destruct (conclude_turn (Shutdown (promises sh) true (report sh))
                (MkSys (set_apiServer kill (wpts (state c))) (world (state c)))) as [HR' Heq].
    destruct (conclude _ _) as [sh' sys']. cbn [fst snd promises] in *.
    split; [etrans; [apply turn_kill|done]|].
    apply (service_safe_mono _ (state c) _ (promises sh)); [done|done| |done].
    etrans; [apply turn_kill|done].
Qed.

Lemma srun_turn fuel evs sv :
  service_safe R sv ->
  R (state (running sv)) (state (running (srun fuel evs sv))) /\
  service_safe R (srun fuel evs sv).
Proof.
  revert sv. induction evs as [|ev evs IH]; intros sv Hs; [done|].
  destruct (sstep_turn fuel ev sv Hs) as [HR Hs']. destruct (IH _ Hs') as [HR' Hs''].
  split; [by etrans|done].
Qed.

(** From a service that has taken no request. *)
Lemma srun_related fuel evs sys :
  R sys (state (running (srun fuel evs (Service (Config [] sys) None)))).
Proof. apply (srun_turn fuel evs (Service (Config [] sys) None)). by split; [apply Forall_nil|]. Qed.

End service_turns.

(** The close of the server and the reset of the counter leave the
    instances as they are. *)
#[export] Instance stays_exclusive_service `{!DriverLaws D} :
  ServiceTurn (stays_exclusive (D:=D)).
Proof. split; [apply _|intros sys; by apply stays_exclusive_registry..]. Qed.

(** C12. No session is ever shared, whatever overlaps: in every state
    reached from the construction by any schedule of requests that arrive,
    operations that complete, time that passes, calls of [endService] and
    completions of its promises, every instance of every suite refers to a
    session that exists, and no two instances, of the same or of different
    suites, refer to the same session.  Nothing is assumed of the
    counters: this holds beyond 2^53 ids and after the reset of the
    counter by a shutdown. *)
Theorem service_exclusive `{!DriverLaws D} fuel evs port browsers versions w :
  sessions w = ∅ ->
  exclusive (state (running (srun fuel evs
    (Service (Config [] (MkSys (constructor port browsers versions) w)) None)))).
Proof.
  intros Hw. apply (srun_related stays_exclusive fuel evs). by apply constructor_exclusive.
Qed.

End shutdown_facts.

(** * A browser left open by the shutdown *)


(** * The theorems at a concrete schedule *)

(** A shutdown called while a subscription is taken, and not completed:
    the instance the suite has got is the only one of its session. *)
Lemma service_exclusive_witness :
  let evs := [Request (Arrive StartTestSuite); Request (Arrive (GetSubscription args_firefox));
              Request (Complete 1); EndService; Request (Complete 1)] in
  exclusive (state (running (srun 40 evs (Service (Config [] sys0) None)))).
Proof. intros evs. by apply (service_exclusive 40 evs None None None (world_of env_ok)). Defined.
