(* ===== verification/Range.v ===== *)
(** * The id counters under every schedule

    The counters of the registry are only ever changed by [++], which is
    exact up to [2^53] and gives [2^53] again there, and by the reset of
    the suite counter to [0] when the service is shut down.  Each piece of
    code that a turn of a handler or of [endService] runs keeps them in
    [[0, 2^53]]; so they are in that range in every state the service
    reaches, however the requests and the shutdown overlap. *)

From stdpp Require Import base option list strings gmap pretty sorting.
From S2P Require Import Prelude Task JsValue ApiServer Driver Browser Selenium Suite Wpts.
From S2P Require Import Fixtures Checks Scripts Lifecycle Subscribe Notify Service.
From S2P Require Import Ownership Contract Counters Async Turns Interleave Shutdown.

Import APIServer.

Local Open Scope Z_scope.

Section range.
Context {D : Type} `{Driver D}.

(** The counters of a registry are doubles that [++] has produced from
    [0]. *)
Definition exact (o : WPTS) : Prop :=
  0 ≤ _availableTestSuiteId o ≤ 2 ^ 53 /\
  map_Forall (fun _ s => 0 ≤ TestSuite._availableTestInstanceId s ≤ 2 ^ 53) (_testSuites o).

Definition stays_exact (sys sys' : Sys D) : Prop := exact (wpts sys) -> exact (wpts sys').

End range.

(** * Properties *)

Lemma exact_insert o n s :
  exact o -> 0 ≤ TestSuite._availableTestInstanceId s ≤ 2 ^ 53 ->
  exact (set_testSuites (insert n s) o).
Proof. intros [Hc Hs] Hn. split; [done|]. by apply map_Forall_insert_2. Qed.

Lemma exact_alter o n :
  exact o -> exact (set_testSuites (alter TestSuite.clear n) o).
Proof.
  intros [Hc Hs]. split; [done|].
  intros m s Hm. cbn in Hm.
  apply lookup_alter_Some in Hm as [(_ & s0 & Hm & ->)|[_ Hm]]; [apply (Hs m s0 Hm)|].
  by apply (Hs m s).
Qed.

Section range_facts.
Context {D : Type} `{Driver D}.
Implicit Types (sys : Sys D) (fuel : nat).

#[export] Instance stays_exact_preorder : PreOrder (stays_exact (D:=D)).
Proof. split; [by intros sys Hex|]. intros s1 s2 s3 H12 H23 H1. by apply H23, H12. Qed.

(** A piece that leaves the registry as it is. *)
Lemma stays_exact_world sys sys' : wpts sys' = wpts sys -> stays_exact sys sys'.
Proof. unfold stays_exact. by intros ->. Qed.

Lemma stays_exact_add key h sys : stays_exact sys (add_instance_at key h sys).2.
Proof.
  unfold add_instance_at. destruct key as [| | |n| | |]; try done.
  destruct (_testSuites (wpts sys) !! n) as [s|] eqn:Hs; [|done]. intros Hex.
  apply exact_insert; [done|]. apply js_incr_bounded, (proj2 Hex n s Hs).
Qed.

#[export] Instance stays_exact_turn : Turn (stays_exact (D:=D)).
Proof.
  apply turn_of_pieces.
  - apply _.
  - intros r sys Hex. rewrite startTestSuite_eq. apply exact_insert; [|done].
    destruct Hex as [Hc Hs]. split; [by apply js_incr_bounded|done].
  - intros n hs sys Hex. unfold suite_end_complete.
    destruct (TestSuite.kill_all hs (world sys)) as [o w']. by apply exact_alter.
  - intros [| | |n| | |] sys; try done. intros [Hc Hs]. split; [done|].
    by apply map_Forall_delete.
  - intros sys. apply stays_exact_world, on_world_wpts.
  - intros b key sys0 sys _. unfold then_.
    pose proof (on_world_wpts (getSeleniumDriver
      (grant_notifications (getUrl (_apiServer (wpts sys0))) b)) sys) as Hw.
    destruct (on_world _ sys) as [[h| |] sys1]; cbn [snd] in *;
      [|by apply stays_exact_world..].
    etrans; [by apply stays_exact_world|apply stays_exact_add].
  - intros h upd sys. by apply stays_exact_world.
  - intros n sys. by apply stays_exact_world.
Qed.

(** The close of the server leaves the counters; the reset of the suite
    counter sets it to [0]. *)
#[export] Instance stays_exact_service : ServiceTurn (stays_exact (D:=D)).
Proof. split; [apply _|..]; intros sys [Hc Hs]; by split. Qed.


End range_facts.
