(* ===== verification/Lasting.v ===== *)
(** * A test id stays valid until its suite is ended

    [getSubscription] of [src/src/index.js] answers with the id under
    which [addTestInstance] has registered the instance, many turns after
    the registration; [getNotificationStatus] looks the id up when it
    arrives.  Other requests are served in between.  This file shows that
    the id a request has been answered with reaches its instance, under
    every schedule in which no request asks to end the suite: the
    instance is still registered when the poll arrives, whatever was
    started, subscribed or polled meanwhile, and once the poll has found
    it, nothing that follows makes it answer that the id is unknown.

    The turns of the handlers that do not end suite [n] leave the
    instances of suite [n] registered ([spares]); the task of a
    subscription is followed through the stages of [Unique.v], with the
    instance it holds registered. *)

From stdpp Require Import base option list strings gmap pretty sorting.
From S2P Require Import Prelude Task JsValue ApiServer Driver Browser Selenium Suite Wpts.
From S2P Require Import Fixtures Checks Scripts Lifecycle Subscribe Notify Service Ownership.
From S2P Require Import Contract Async Turns Interleave Answers Identifiers Unique Exclusive.

Import APIServer.

Local Open Scope Z_scope.

Section lasting.
Context {D : Type} `{Driver D}.

(** The instance [i] of suite [n] is registered. *)
Definition held (sys : Sys D) (n i : Z) : Prop := is_Some (session_of (wpts sys) n i).

(** A step that is safe and leaves the instances of suite [n] registered,
    as long as the counters are in range. *)
Definition spares (n : Z) (sys sys' : Sys D) : Prop :=
  safe_step sys sys' /\
  (in_range sys' -> sys_wf sys -> forall i, held sys n i -> held sys' n i).

(** The stage of a task, for suite [n]: the instance a task holds in
    suite [n] is registered. *)
Definition in_stage (n : Z) (sys : Sys D) (t : task jsval (Sys D) res) (g : Unique.status) : Prop :=
  match g with
  | Holds m i => leaves (only i) t /\ (m = n -> held sys n i)
  | _ => in_status sys t g
  end.

(** The task of the request [q] is in a stage. *)
Definition staged (n : Z) (sys : Sys D) (q : request) (t : task jsval (Sys D) res) : Prop :=
  exists g, in_stage n sys t g /\ agrees q g.

(** A configuration in which the tasks of the requests [qs] are in their
    stages, and the turns to come spare suite [n]. *)
Definition lasting (n : Z) (qs : list request) (c : config D) : Prop :=
  sys_wf (state c) /\ pool_safe (spares n) c /\ pool_safe no_reuse c /\
  Forall2 (staged n (state c)) qs (pool c).

(** An answer of a poll that reached its instance. *)
Definition reached (o : outcome jsval res) : Prop := polled (reply_of o).

End lasting.

(** The operations of the fourth request of a schedule complete, one
    after the other. *)
Definition fourth_completes : list ievent := replicate 40 (Complete 3).

(** * Properties *)

Lemma ends_only_other n q : ends n q = false -> ends_only (fun key => key <> JNum n) q.
Proof. destruct q; cbn; try done. by intros ?%bool_decide_eq_false. Qed.

Section lasting_facts.
Context {D : Type} `{Driver D} `{!DriverLaws D}.
Implicit Types (sys : Sys D) (c : config D) (fuel : nat) (n i : Z) (g : Unique.status).
Implicit Types (t : task jsval (Sys D) res) (q : request).

(** ** The steps that spare a suite *)

(** A safe step under which the instances of the suite are found again. *)
Lemma spares_of n sys sys' :
  safe_step sys sys' ->
  (sys_wf sys -> forall i h,
     session_of (wpts sys) n i = Some h -> session_of (wpts sys') n i = Some h) ->
  spares n sys sys'.
Proof. intros Hs Hk. split; [done|]. intros _ Hwf i [h Hh]. exists h. by apply Hk. Qed.

(** A safe step that leaves the registry as it is. *)
Lemma spares_same n sys sys' : safe_step sys sys' -> wpts sys' = wpts sys -> spares n sys sys'.
Proof. intros Hs Hw. apply spares_of; [done|]. by rewrite Hw. Qed.

#[export] Instance spares_preorder n : PreOrder (spares (D:=D) n).
Proof.
  split; [by intros sys|]. intros s1 s2 s3 [H12 K12] [H23 K23]. split; [by etrans|].
  intros Hr Hwf i Hi. pose proof (in_range_back _ _ H23 Hr) as Hr2.
  apply K23; [done|by apply H12|by apply K12].
Qed.

(** A suite that has instances is not the one that is started. *)
Lemma spares_start n r sys : spares n sys (startTestSuite r sys).2.
Proof.
  apply spares_of; [apply safe_step_start|]. intros Hwf i h. rewrite startTestSuite_eq.
  cbn [snd wpts]. rewrite session_of_insert. case_decide as Hn; [|done]. subst n.
  unfold session_of. destruct (_testSuites (wpts sys) !! _) as [s|] eqn:Hs; [|done].
  destruct (wf_suites _ Hwf _ s Hs). lia.
Qed.

(** The instance that is registered gets an id that no instance has. *)
Lemma add_instance_at_keeps n key h sys i h' :
  (forall m s, _testSuites (wpts sys) !! m = Some s -> TestSuite.wf s) ->
  session_of (wpts sys) n i = Some h' ->
  session_of (wpts (add_instance_at key h sys).2) n i = Some h'.
Proof.
  intros Hwf. unfold add_instance_at. destruct key as [| | |m| | |]; try done.
  destruct (_testSuites (wpts sys) !! m) as [s|] eqn:Hs; [|done].
  unfold TestSuite.addTestInstance. cbn [snd wpts].
  rewrite session_of_insert. case_decide as Hm; [subst m|done].
  unfold session_of. rewrite Hs. cbn. unfold TestSuite.getTestInstance. cbn. intros Hi.
  rewrite lookup_insert_ne; [done|]. intros <-.
  destruct (Hwf _ s Hs) as [_ Hlt].
  destruct (Hlt (TestSuite._availableTestInstanceId s)); [by eexists|lia].
Qed.

Lemma spares_launch n b key sys :
  spares n sys (then_ (on_world (getSeleniumDriver b)) (add_instance_at key) sys).2.
Proof.
  apply spares_of; [apply safe_step_launch|]. intros Hwf i h'. unfold then_.
  pose proof (on_world_wpts (getSeleniumDriver b) sys) as Hw.
  destruct (on_world _ sys) as [[h| |] sys1]; cbn [snd] in *; [|by rewrite Hw..].
  rewrite <- Hw. apply add_instance_at_keeps. intros m s Hs. rewrite Hw in Hs.
  by destruct (wf_suites _ Hwf m s Hs) as (_ & _ & ? & _).
Qed.

(** The end and the removal of another suite. *)
Lemma spares_end n m hs sys : JNum m <> JNum n -> spares n sys (suite_end_complete m hs sys).2.
Proof.
  intros Hm. apply spares_of; [apply safe_step_end|]. intros _ i h.
  unfold suite_end_complete. destruct (TestSuite.kill_all hs (world sys)) as [o w'].
  unfold session_of. cbn. rewrite lookup_alter_ne; [done|congruence].
Qed.

Lemma spares_delete n key sys : key <> JNum n -> spares n sys (delete_suite_at key sys).2.
Proof.
  intros Hm. apply spares_of; [apply safe_step_delete|]. intros _ i h.
  destruct key as [| | |m| | |]; try done.
  unfold session_of. cbn. rewrite lookup_delete_ne; [done|congruence].
Qed.

#[export] Instance spares_piece n : Piece (spares (D:=D) n).
Proof.
  split; [apply _|..].
  - apply spares_start.
  - intros sys. apply spares_same; [apply safe_step_del|apply on_world_wpts].
  - intros b key sys0 sys _. apply spares_launch.
  - intros h upd sys. by apply spares_same; [apply safe_step_session|].
  - intros k sys. by apply spares_same; [apply safe_step_wait|].
Qed.

(** Every turn of a handler that does not end the suite spares it. *)
Lemma handle_task_lasts n fuel q r :
  ends n q = false -> steady (spares n) (handle_task (D:=D) fuel q r).
Proof.
  intros Hq. apply (handle_task_spares _ (fun key => key <> JNum n));
    [intros m hs sys; apply spares_end|intros key sys; apply spares_delete
    |by apply ends_only_other].
Qed.

(** ** Stages and steps *)

Lemma held_step n sys sys' i :
  spares n sys sys' -> in_range sys' -> sys_wf sys -> held sys n i -> held sys' n i.
Proof. intros [_ Hk] Hr Hwf. by apply Hk. Qed.

(** A stage is kept by the steps of the other tasks. *)
Lemma staged_step n sys sys' q t :
  spares n sys sys' -> no_reuse sys sys' -> in_range sys' -> sys_wf sys ->
  staged n sys q t -> staged n sys' q t.
Proof.
  intros HS HN Hr Hwf (g & Hg & Ha). exists g. split; [|done].
  destruct g as [|m|m i]; [by apply (in_status_step sys)..|].
  destruct Hg as [Hl Hh]. split; [done|]. intros Hm. by apply (held_step n sys), Hh.
Qed.

(** The stage after a turn in which the task was to register an
    instance. *)
Lemma turned_staged n m q t sys sys' :
  suite_named q = Some m -> turned m t sys sys' -> staged n sys' q t.
Proof.
  intros Hq [Hs|[(i & Ha & Hl)|Hw]]; [by exists Mute|exists (Holds m i)|by exists (Waiting m)].
  split; [|done]. split; [done|]. intros ->.
  destruct Ha as (st & st' & _ & _ & Hst' & _ & Hi). unfold held, session_of. by rewrite Hst'.
Qed.

Lemma arrive_staged n fuel q sys :
  sys_wf sys ->
  staged n (advance (handle_task fuel q fresh_res) sys).2 q
    (advance (handle_task fuel q fresh_res) sys).1.
Proof.
  intros Hwf. destruct (handle_task_turned fuel q sys Hwf) as [Hs|(m & Hq & Ht)];
    [by exists Mute|by apply (turned_staged n m q _ sys)].
Qed.

Lemma resume_staged n q t sys :
  spares n sys (resume t sys).2 -> no_reuse sys (resume t sys).2 ->
  in_range (resume t sys).2 -> sys_wf sys ->
  staged n sys q t -> staged n (resume t sys).2 q (resume t sys).1.
Proof.
  intros HS HN Hr Hwf ([|m|m i] & Hg & Ha).
  - exists Mute. split; [by apply resume_status|done].
  - destruct (resume_waiting _ _ _ Hg) as [_ Ht]. by apply (turned_staged n m q _ sys).
  - exists (Holds m i). destruct Hg as [Hl Hh]. split; [|done].
    split; [by apply resume_leaves|]. intros Hm. by apply (held_step n sys), Hh.
Qed.

(** ** The stages under a schedule *)

Lemma istep_lasting n fuel ev c qs :
  lasting n qs c -> (forall q, ev = Arrive q -> ends n q = false) ->
  in_range (state (istep fuel ev c)) ->
  lasting n (qs ++ requests_of [ev]) (istep fuel ev c).
Proof.
  intros (Hwf & Hs & Hn & Hf) Hq Hr.
  destruct (istep_steady (spares n) fuel ev c) as [HS Hs'];
    [by intros q ->; apply handle_task_lasts, Hq|done|].
  destruct (istep_turn no_reuse fuel ev c Hn) as [HN Hn'].
  split_and!; [by apply HS|done|done|].
  assert (Forall2 (staged n (state (istep fuel ev c))) qs (pool c)) as Hf'.
  { eapply Forall2_impl; [exact Hf|]. intros q t. by apply staged_step. }
  clear Hs Hs' Hn Hn'. destruct c as [p sys]. cbn [state pool] in *.
  destruct ev as [q|j|k]; simpl requests_of; rewrite ?app_nil_r; [| |done].
  - rewrite istep_arrive in *. cbn [state pool] in *.
    apply Forall2_app; [done|]. constructor; [by apply arrive_staged|done].
  - destruct (p !! j) as [t|] eqn:Hj; [|by cbn [istep pool]; rewrite Hj].
    rewrite (istep_complete _ _ _ t) in * by done. cbn [state pool] in *.
    destruct (Forall2_lookup_r _ _ _ _ _ Hf Hj) as (q & Hqj & Hst).
    rewrite <- (list_insert_id qs j q Hqj). apply Forall2_insert; [done|].
    by apply resume_staged.
Qed.

Lemma irun_lasting n fuel evs c qs :
  lasting n qs c -> Forall (fun q => ends n q = false) (requests_of evs) ->
  in_range (state (irun fuel evs c)) ->
  lasting n (qs ++ requests_of evs) (irun fuel evs c).
Proof.
  revert c qs. induction evs as [|ev evs IH]; intros c qs Hl Hq Hr; [by rewrite app_nil_r|].
  rewrite requests_of_cons in Hq |- *. apply Forall_app in Hq as [Hev Hevs].
  rewrite app_assoc. apply IH; [|done..]. apply istep_lasting; [done| |].
  - intros q ->. by inversion Hev.
  - destruct Hl as (_ & Hs & _).
    destruct (istep_steady (spares n) fuel ev c) as [_ Hs'];
      [intros q ->; apply handle_task_lasts; by inversion Hev|done|].
    destruct (irun_steady (spares n) fuel evs (istep fuel ev c)) as [[HS _] _]; [|exact Hs'|].
    + eapply Forall_impl; [exact Hevs|]. intros q. apply handle_task_lasts.
    + by apply (in_range_back _ _ HS).
Qed.

(** A request that has been answered with a test id holds it. *)
Lemma answered_held n qs c j i :
  Forall2 (staged n (state c)) qs (pool c) -> qs !! j ≫= suite_named = Some n ->
  test_of (answer_of j c) = Some i -> held (state c) n i.
Proof.
  intros Hf Hn Hi. unfold answer_of in Hi. destruct (pool c !! j) as [t|] eqn:Hj; [|done].
  destruct (Forall2_lookup_r _ _ _ _ _ Hf Hj) as (q & Hq & g & Hg & Ha).
  rewrite Hq in Hn. cbn in Hn. destruct t as [o| |]; try done. cbn in Hi.
  destruct g as [|m|m i0]; cbn in Hg, Ha.
  - congruence.
  - by destruct Hg.
  - destruct Hg as [Ho Hh]. rewrite (Ho i Hi). apply Hh. congruence.
Qed.

(** ** The poll *)

(** A poll that finds its instance when it arrives answers with the
    messages or with the error of the driver, whatever happens while it
    waits. *)
Lemma getNotificationStatus_task_reaches fuel args sys n i :
  held sys n i ->
  lookup_prop "testSuiteId" args = JNum n -> lookup_prop "testId" args = JNum i ->
  leaves reached (advance (getNotificationStatus_task fuel fresh_res args) sys).1.
Proof.
  intros [h Hh] Hn Hi. unfold getNotificationStatus_task.
  rewrite missingRequiredArgs_false; [|repeat constructor; set_solver|].
  2:{ intros f Hf. assert (f = "testSuiteId" \/ f = "testId") as [-> | ->] by set_solver;
        [rewrite Hn|rewrite Hi]; by intros [|]. }
  cbn [task_then now advance get_state gets fst snd]. rewrite Hn, Hi.
  unfold session_of in Hh. destruct (_testSuites (wpts sys) !! n) as [s|] eqn:Hs; [|done].
  rewrite (validTestId_ok _ n i _ s h) by done. cbn [negb].
  apply advance_leaves. intros s0. destruct (test_instance _ _ s0).1 as [h0|e|]; [|by right; right..].
  apply leaves_catch_weak.
  - intros err s1. destruct (read_prop err "message" s1).1; [|by right; right..].
    cbn [leaves ret]. unfold reached. rewrite reply_of_error. by right; left.
  - apply leaves_then_any; [|by right; right..]. intros msgs.
    cbn [leaves ret]. unfold reached. rewrite reply_of_data. left. by eexists.
Qed.

(** What a task of the pool settles with is kept by every schedule. *)
Lemma irun_leaves_at (Q : outcome jsval res -> Prop) fuel evs c j t :
  pool c !! j = Some t -> leaves Q t -> Q Pending ->
  Q (answer_of j (irun fuel evs c)).
Proof.
  intros Hj Hl Hp. revert c t Hj Hl. induction evs as [|ev evs IH]; intros c t Hj Hl.
  { unfold answer_of. cbn. rewrite Hj. by destruct t. }
  destruct ev as [q|k|m]; cbn [irun foldl]; [| |by apply (IH _ t)].
  - apply (IH _ t); [|done]. rewrite istep_arrive. by apply lookup_app_l_Some.
  - destruct (pool c !! k) as [u|] eqn:Hk; [|apply (IH _ t); [|done]; cbn; by rewrite Hk].
    rewrite (istep_complete _ _ _ u) by done.
    destruct (decide (k = j)) as [->|Hkj].
    + apply (IH _ (resume u (state c)).1).
      * cbn. apply list_lookup_insert_eq. by eapply lookup_lt_Some.
      * apply resume_leaves. congruence.
    + apply (IH _ t); [|done]. cbn. by rewrite list_lookup_insert_ne.
Qed.

(** C9. A test id stays valid until its suite is ended, whatever
    overlaps: when a request of get-subscription for a suite has been
    answered with a test id, under any schedule of arrivals, completions
    and waits in which no request asks to end that suite and which leaves
    the counters below 2^53, then a poll that arrives with that suite id
    and that test id finds the instance; whatever the schedule brings
    afterwards, the end of the suite included, the poll is answered with
    the messages or with the error [web_driver_error], or is not
    answered, and never refused as an unknown id. *)
Theorem test_id_stays_valid fuel evs evs' sys j n i args :
  sys_wf sys ->
  in_range (state (irun fuel evs (Config [] sys))) ->
  Forall (fun q => ends n q = false) (requests_of evs) ->
  requests_of evs !! j ≫= suite_named = Some n ->
  test_of (answer_of j (irun fuel evs (Config [] sys))) = Some i ->
  lookup_prop "testSuiteId" args = JNum n -> lookup_prop "testId" args = JNum i ->
  polled (reply_of (answer_of (length (requests_of evs))
    (irun fuel (evs ++ Arrive (GetNotificationStatus args) :: evs') (Config [] sys)))).
Proof.
  intros Hwf Hr Hq Hj Ha Hn Hi.
  destruct (irun_lasting n fuel evs (Config [] sys) []) as (_ & _ & _ & Hf); [|done..|].
  { split_and!; [done|by apply Forall_nil..|by constructor]. }
  pose proof (answered_held n _ _ j i Hf Hj Ha) as Hh.
  rewrite irun_app. cbn [irun foldl app] in *.
  apply (irun_leaves_at reached fuel evs' _ _
           (advance (handle_task fuel (GetNotificationStatus args) fresh_res)
              (state (irun fuel evs (Config [] sys)))).1).
  - rewrite istep_arrive. cbn [pool]. rewrite (Forall2_length _ _ _ Hf).
    by apply list_lookup_middle.
  - by apply (getNotificationStatus_task_reaches fuel args _ n i).
  - by right; right.
Qed.

End lasting_facts.

(** * The theorem at a concrete schedule *)

(** Two subscriptions are taken at once in a suite; when both have been
    answered, the instance of the first is polled. *)
Lemma test_id_stays_valid_witness :
  polled (reply_of (answer_of (length (requests_of at_once))
    (irun 40 (at_once ++ Arrive (GetNotificationStatus args_one) :: fourth_completes)
       (Config [] sys0)))).
Proof.
  apply (test_id_stays_valid (D:=session) 40 at_once fourth_completes sys0 1 0 0 args_one);
    [apply sys_of_wf | split; by vm_compute | by repeat constructor
    | by vm_compute | by vm_compute | reflexivity | reflexivity].
Defined.

(** In that schedule the poll is answered with the message that was
    pushed. *)
Example poll_after_overlap :
  reply_of (answer_of 3
    (irun 40 (at_once ++ Arrive (GetNotificationStatus args_one) :: fourth_completes)
       (Config [] sys0))) = Data (JObj [("messages", JArr [JStr "hello"])]).
Proof. by vm_compute. Qed.
