(* ===== verification/Independent.v ===== *)
(** * Polls of different instances do not interfere

    The chain of [getNotificationStatus] of [src/src/index.js] looks the
    instance up when the request arrives; from then on every piece of it
    is a command on the driver of that instance.  A task all of whose
    pieces read and change one session only is [local] to it.  The turns
    of two tasks that are local to different sessions commute, so that
    the configuration a schedule of their completions leaves depends on
    how many operations of each have completed, and not on the order in
    which they did.  No two instances share a session ([sys_wf]): the
    polls of different instances are answered, and leave the service, as
    if each had run alone. *)

From stdpp Require Import base option list strings gmap pretty sorting.
From S2P Require Import Prelude Task JsValue ApiServer Driver Browser Selenium Suite Wpts.
From S2P Require Import Fixtures Checks Scripts Lifecycle Subscribe Notify Service Ownership.
From S2P Require Import Contract Async Turns Interleave Answers Identifiers Unique Exclusive.
From S2P Require Import Lasting.

Import APIServer.

Local Open Scope Z_scope.

Section independent.
Context {D : Type} `{Driver D}.

(** The two states have the same session under the handle [h]. *)
Definition agree (h : nat) (sys sys' : Sys D) : Prop :=
  sessions (world sys) !! h = sessions (world sys') !! h.

(** The state with the session [od] under the handle [h]; no session, no
    change. *)
Definition put (h : nat) (od : option D) (sys : Sys D) : Sys D :=
  match od with
  | Some d => MkSys (wpts sys) (set_sessions (insert h d) (world sys))
  | None => sys
  end.

(** A task on the session [h]: each piece is a command on that session,
    and what follows depends on that session only. *)
Fixpoint local (h : nat) {A} (t : task jsval (Sys D) A) : Prop :=
  match t with
  | Settled _ => True
  | Now next upd | Later next upd =>
      (exists u, forall sys, upd sys = session_step h u sys) /\
      (forall sys sys', agree h sys sys' -> next sys = next sys') /\
      (forall sys, local h (next sys))
  end.

(** The chain of [getNotificationStatus] from the wait on: the commands
    on the driver of the instance, and the answer. *)
Definition poll_chain (fuel : nat) (r : res) (testInstance : nat) : task jsval (Sys D) res :=
  task_catch
    (task_then (world_task (session_task testInstance (poll_messages_task fuel)))
       (fun receivedMessages =>
          ret (sendValidResponse r (JObj [("messages", receivedMessages)]))))
    (fun err =>
       task_then (now (read_prop err "message"))
         (fun message =>
            ret (sendErrorResponse r (JStr "web_driver_error") (status_message message)))).

(** The tasks of the pool that [loc] names are local to the sessions it
    gives, no two of them to the same. *)
Definition apart (loc : gmap nat nat) (c : config D) : Prop :=
  (forall k k' h, loc !! k = Some h -> loc !! k' = Some h -> k = k') /\
  (forall k h, loc !! k = Some h -> exists t, pool c !! k = Some t /\ local h t).

(** A completion of one of those tasks. *)
Definition completes (loc : gmap nat nat) (ev : ievent) : Prop :=
  exists k, ev = Complete k /\ is_Some (loc !! k).

End independent.

(** The arguments of a poll of the second instance of suite 0. *)
Definition args_second : jsobj := [("testSuiteId", JNum 0); ("testId", JNum 1)].

(** The operations of the fourth and of the fifth request of a schedule
    complete in turn. *)
Definition in_turns : list ievent := concat (replicate 40 [Complete 3; Complete 4]).

(** * Properties *)

Section independent_facts.
Context {D : Type} `{Driver D}.
Implicit Types (sys : Sys D) (c : config D) (fuel : nat) (h k : nat) (od : option D).

(** ** Sessions put into a state *)

Lemma put_same h sys : put h (sessions (world sys) !! h) sys = sys.
Proof.
  unfold put. destruct (sessions (world sys) !! h) as [d|] eqn:Hd; [|done].
  destruct sys as [o w]. f_equal. destruct w. unfold set_sessions. cbn in *.
  by rewrite insert_id.
Qed.

Lemma put_lookup h od sys :
  sessions (world (put h od sys)) !! h = from_option Some (sessions (world sys) !! h) od.
Proof. destruct od as [d|]; [|done]. cbn. apply lookup_insert_eq. Qed.

Lemma put_agree h h' od sys : h <> h' -> agree h (put h' od sys) sys.
Proof. intros Hh. destruct od as [d|]; [|done]. unfold agree. cbn. by rewrite lookup_insert_ne. Qed.

Lemma put_put h d od sys : put h (Some d) (put h od sys) = put h (Some d) sys.
Proof.
  destruct od as [d'|]; [|done]. unfold put, set_sessions. cbn. by rewrite insert_insert_eq.
Qed.

Lemma put_commute h h' od od' sys :
  h <> h' -> put h od (put h' od' sys) = put h' od' (put h od sys).
Proof.
  intros Hh. destruct od as [d|], od' as [d'|]; try done.
  unfold put, set_sessions. cbn. by rewrite insert_insert_ne.
Qed.

Lemma session_step_put h (u : D -> D) sys :
  session_step h u sys = put h (u <$> sessions (world sys) !! h) sys.
Proof. unfold session_step. destruct (sessions (world sys) !! h); [done|by destruct sys]. Qed.

(** ** The turns of a local task *)

(** What a turn does depends on the session only. *)
Lemma advance_agree h {A} (t : task jsval (Sys D) A) sys sys' :
  local h t -> agree h sys sys' ->
  (advance t sys).1 = (advance t sys').1 /\ agree h (advance t sys).2 (advance t sys').2.
Proof.
  revert sys sys'. induction t as [o|next IH upd|next IH upd]; intros sys sys'; [done| |done].
  intros ([u Hu] & Hn & Hl) Ha. cbn [advance]. rewrite (Hn sys sys' Ha).
  apply IH; [done|]. unfold agree. rewrite !Hu, !session_step_put, !put_lookup.
  by rewrite Ha.
Qed.

(** A turn changes the session only. *)
Lemma advance_put h {A} (t : task jsval (Sys D) A) sys :
  local h t -> (advance t sys).2 = put h (sessions (world (advance t sys).2) !! h) sys.
Proof.
  revert sys. induction t as [o|next IH upd|next IH upd]; intros sys;
    [by rewrite put_same| |by rewrite put_same].
  intros ([u Hu] & Hn & Hl). cbn [advance]. rewrite (IH _ _ (Hl sys)) at 1.
  pose proof (f_equal (fun s => sessions (world s) !! h) (IH sys (upd sys) (Hl sys))) as Hf.
  cbn beta in Hf. rewrite put_lookup in Hf.
  rewrite Hu, session_step_put in *. rewrite put_lookup in Hf.
  destruct (sessions (world (advance _ _).2) !! h) as [d'|];
    destruct (sessions (world sys) !! h) as [d|]; try done.
  apply (put_put h d' (Some (u d))).
Qed.

Lemma advance_local h {A} (t : task jsval (Sys D) A) sys :
  local h t -> local h (advance t sys).1.
Proof.
  revert sys. induction t as [o|next IH upd|next IH upd]; intros sys Hl; [done| |done].
  cbn [advance]. apply IH, Hl.
Qed.

(** A turn of a task on a session goes through a change of another
    session. *)
Lemma advance_frame h h' {A} (t : task jsval (Sys D) A) od sys :
  local h t -> h <> h' ->
  advance t (put h' od sys) = ((advance t sys).1, put h' od (advance t sys).2).
Proof.
  intros Hl Hh.
  destruct (advance_agree h t (put h' od sys) sys Hl) as [Ht Hs]; [by apply put_agree|].
  rewrite (surjective_pairing (advance t (put h' od sys))). f_equal; [done|].
  rewrite (advance_put h t (put h' od sys)), (advance_put h t sys) by done.
  rewrite Hs. apply put_commute. done.
Qed.

Lemma resume_frame h h' {A} (t : task jsval (Sys D) A) od sys :
  local h t -> h <> h' ->
  resume t (put h' od sys) = ((resume t sys).1, put h' od (resume t sys).2).
Proof.
  destruct t as [o|next upd|next upd]; [done..|]. intros Hl Hh.
  by apply (advance_frame h h' (Now next upd)).
Qed.

Lemma resume_put h {A} (t : task jsval (Sys D) A) sys :
  local h t -> exists od, (resume t sys).2 = put h od sys.
Proof.
  destruct t as [o|next upd|next upd]; [by exists None..|]. intros Hl.
  eexists. by apply (advance_put h (Now next upd)).
Qed.

Lemma resume_local h {A} (t : task jsval (Sys D) A) sys :
  local h t -> local h (resume t sys).1.
Proof.
  destruct t as [o|next upd|next upd]; [done..|]. intros Hl.
  by apply (advance_local h (Now next upd)).
Qed.

(** ** The tasks that are local *)

Lemma session_step_id h sys : session_step h id sys = sys.
Proof. by rewrite session_step_put, option_fmap_id, put_same. Qed.

(** The commands on the driver of a handle. *)
Lemma local_session h {A} (t : task jsval D A) : local h (world_task (session_task h t)).
Proof.
  induction t as [o|next IH upd|next IH upd]; [done|..];
    (split_and!; [by exists upd| |]); intros sys; cbn.
  - intros sys' Ha. unfold agree in Ha. by rewrite Ha.
  - destruct (sessions (world sys) !! h); [apply IH|done].
  - intros sys' Ha. unfold agree in Ha. by rewrite Ha.
  - destruct (sessions (world sys) !! h); [apply IH|done].
Qed.

Lemma local_then h {A B} (t : task jsval (Sys D) A) (f : A -> task jsval (Sys D) B) :
  local h t -> (forall a, local h (f a)) -> local h (task_then t f).
Proof.
  intros Ht Hf. induction t as [[a|e|]|next IH upd|next IH upd]; cbn; try done;
    destruct Ht as (Hu & Hn & Hl); (split_and!; [done| |by intros sys; apply IH]);
    intros sys sys' Ha; by rewrite (Hn sys sys' Ha).
Qed.

Lemma local_catch h {A} (t : task jsval (Sys D) A) (hd : jsval -> task jsval (Sys D) A) :
  local h t -> (forall e, local h (hd e)) -> local h (task_catch t hd).
Proof.
  intros Ht Hf. induction t as [[a|e|]|next IH upd|next IH upd]; cbn; try done;
    destruct Ht as (Hu & Hn & Hl); (split_and!; [done| |by intros sys; apply IH]);
    intros sys sys' Ha; by rewrite (Hn sys sys' Ha).
Qed.

(** A read that does not depend on the state. *)
Lemma local_read h {A} (m : Promise jsval (Sys D) A) :
  (forall sys, (m sys).2 = sys) -> (forall sys sys', (m sys).1 = (m sys').1) ->
  local h (now m).
Proof.
  intros Hs Ho. split_and!; [|by intros sys sys' _; rewrite (Ho sys sys')|done].
  exists id. intros sys. by rewrite session_step_id.
Qed.

(** ** The poll *)

Lemma test_instance_found n i sys h :
  session_of (wpts sys) n i = Some h -> test_instance (JNum n) (JNum i) sys = (Resolved h, sys).
Proof.
  unfold session_of, test_instance, then_, gets. cbn.
  destruct (_testSuites (wpts sys) !! n) as [s|]; [cbn|done]. by intros ->.
Qed.

Lemma put_wpts h od sys : wpts (put h od sys) = wpts sys.
Proof. by destruct od. Qed.

Lemma poll_chain_local fuel r h : local h (poll_chain (D:=D) fuel r h).
Proof.
  apply local_catch; [apply local_then; [apply local_session|done]|]. intros err.
  apply local_then; [|done]. apply local_read; intros sys; unfold read_prop;
    by destruct (get_prop err "message").
Qed.

(** A poll that finds its instance when it arrives: the rest of the turn
    is the first turn of its chain. *)
Lemma poll_arrives fuel r args sys n i h :
  session_of (wpts sys) n i = Some h ->
  lookup_prop "testSuiteId" args = JNum n -> lookup_prop "testId" args = JNum i ->
  advance (getNotificationStatus_task fuel r args) sys = advance (poll_chain fuel r h) sys.
Proof.
  intros Hh Hn Hi. unfold getNotificationStatus_task.
  rewrite missingRequiredArgs_false; [|repeat constructor; set_solver|].
  2:{ intros f Hf. assert (f = "testSuiteId" \/ f = "testId") as [-> | ->] by set_solver;
        [rewrite Hn|rewrite Hi]; by intros [|]. }
  rewrite advance_now_then. cbn [gets fst snd task_then]. rewrite Hn, Hi.
  pose proof Hh as Hv. unfold session_of in Hv.
  destruct (_testSuites (wpts sys) !! n) as [s|] eqn:Hs; [|done].
  rewrite (validTestId_ok _ n i _ s h) by done. cbn [negb].
  by rewrite advance_now_then, (test_instance_found n i sys h Hh).
Qed.

(** The task of a poll that has found its instance is local to the
    session of the instance, and the turn in which it arrives changes
    that session only. *)
Lemma getNotificationStatus_task_local fuel r args sys n i h :
  session_of (wpts sys) n i = Some h ->
  lookup_prop "testSuiteId" args = JNum n -> lookup_prop "testId" args = JNum i ->
  local h (advance (getNotificationStatus_task fuel r args) sys).1 /\
  (advance (getNotificationStatus_task fuel r args) sys).2 =
    put h (sessions (world (advance (getNotificationStatus_task fuel r args) sys).2) !! h) sys.
Proof.
  intros Hh Hn Hi. rewrite (poll_arrives fuel r args sys n i h) by done.
  split; [apply advance_local|apply advance_put]; apply poll_chain_local.
Qed.

(** The arrival of a poll goes through a change of another session. *)
Lemma poll_arrives_frame fuel r args sys n i h h' od :
  session_of (wpts sys) n i = Some h -> h <> h' ->
  lookup_prop "testSuiteId" args = JNum n -> lookup_prop "testId" args = JNum i ->
  advance (getNotificationStatus_task fuel r args) (put h' od sys) =
  ((advance (getNotificationStatus_task fuel r args) sys).1,
   put h' od (advance (getNotificationStatus_task fuel r args) sys).2).
Proof.
  intros Hh Hne Hn Hi. rewrite !(poll_arrives fuel r args _ n i h) by (by rewrite ?put_wpts).
  apply (advance_frame h h'); [apply poll_chain_local|done].
Qed.

(** ** Tasks on sessions of their own *)

Lemma apart_complete loc fuel c k : apart loc c -> apart loc (istep fuel (Complete k) c).
Proof.
  intros [Hinj Hloc]. split; [done|]. intros k' h' Hk'.
  destruct (Hloc k' h' Hk') as (t' & Ht' & Hl').
  destruct (pool c !! k) as [t|] eqn:Hk; [|cbn [istep]; rewrite Hk; eauto].
  rewrite (istep_complete _ _ _ t) by done. cbn [pool].
  destruct (decide (k = k')) as [->|Hne].
  - exists (resume t (state c)).1. split; [apply list_lookup_insert_eq; by eapply lookup_lt_Some|].
    simplify_eq. by apply resume_local.
  - exists t'. by rewrite list_lookup_insert_ne.
Qed.

(** The turns of two tasks on different sessions commute. *)
Lemma istep_swap loc fuel c k k' :
  apart loc c -> is_Some (loc !! k) -> is_Some (loc !! k') ->
  istep fuel (Complete k) (istep fuel (Complete k') c) =
  istep fuel (Complete k') (istep fuel (Complete k) c).
Proof.
  intros [Hinj Hloc] [h Hk] [h' Hk']. destruct (decide (k = k')) as [->|Hne]; [done|].
  destruct (Hloc k h Hk) as (t & Ht & Hl), (Hloc k' h' Hk') as (t' & Ht' & Hl').
  assert (h <> h') as Hh by (intros ->; by apply Hne, (Hinj k k' h')).
  rewrite (istep_complete _ _ c t'), (istep_complete _ _ c t) by done.
  rewrite (istep_complete _ _ _ t), (istep_complete _ _ _ t');
    [|cbn; by rewrite list_lookup_insert_ne..].
  cbn [pool state].
  destruct (resume_put h t (state c) Hl) as [o E], (resume_put h' t' (state c) Hl') as [o' E'].
  rewrite E, E', (resume_frame h h' t), (resume_frame h' h t') by done. cbn [fst snd].
  rewrite E, E'.
  f_equal; [by apply list_insert_insert_ne|by apply put_commute].
Qed.

(** The configuration after the completions does not depend on their
    order. *)
Lemma irun_permutation loc fuel evs evs' c :
  evs ≡ₚ evs' -> apart loc c -> Forall (completes loc) evs ->
  irun fuel evs c = irun fuel evs' c.
Proof.
  intros Hp. revert c.
  induction Hp as [|ev evs evs' Hp IH|ev ev' evs|evs evs' evs'' Hp IH Hp' IH']; intros c Ha Hc.
  - done.
  - apply Forall_cons in Hc as [(k & -> & Hk) Hc]. rewrite !irun_cons.
    apply IH; [by apply apart_complete|done].
  - apply Forall_cons in Hc as [(k & -> & Hk) Hc].
    apply Forall_cons in Hc as [(k' & -> & Hk') Hc].
    rewrite !irun_cons. by rewrite (istep_swap loc).
  - rewrite IH by done. apply IH'; [done|]. by rewrite <- Hp.
Qed.

(** The two polls, when they have arrived, are on sessions of their
    own. *)
Lemma polls_apart fuel c args args' n i n' i' h h' :
  sys_wf (state c) ->
  session_of (wpts (state c)) n i = Some h -> session_of (wpts (state c)) n' i' = Some h' ->
  (n, i) <> (n', i') ->
  lookup_prop "testSuiteId" args = JNum n -> lookup_prop "testId" args = JNum i ->
  lookup_prop "testSuiteId" args' = JNum n' -> lookup_prop "testId" args' = JNum i' ->
  h <> h' /\
  apart {[length (pool c) := h; S (length (pool c)) := h']}
    (irun fuel [Arrive (GetNotificationStatus args); Arrive (GetNotificationStatus args')] c).
Proof.
  intros Hwf Hh Hh' Hne Hn Hi Hn' Hi'.
  assert (h <> h') as Hhh.
  { intros <-. destruct Hne. apply bind_Some in Hh as (s & Hs1 & Hi1).
    apply bind_Some in Hh' as (s' & Hs2 & Hi2).
    by destruct (wf_exclusive _ Hwf _ _ _ _ _ _ _ Hs1 Hi1 Hs2 Hi2) as [-> ->]. }
  split; [done|]. rewrite !irun_cons, !istep_arrive. cbn [pool state handle_task irun foldl].
  destruct (getNotificationStatus_task_local fuel fresh_res args (state c) n i h Hh Hn Hi)
    as [Hl Hs].
  destruct (getNotificationStatus_task_local fuel fresh_res args'
              (advance (getNotificationStatus_task fuel fresh_res args) (state c)).2 n' i' h')
    as [Hl' _]; [by rewrite Hs, put_wpts|done..|].
  split; cbn [pool].
  - intros k k' h0 [[<- <-]|[_ [<- <-]%lookup_singleton_Some]]%lookup_insert_Some
      [[<- Hk]|[Hk' [<- Hk]%lookup_singleton_Some]]%lookup_insert_Some; done.
  - intros k h0 [[<- <-]|[_ [<- <-]%lookup_singleton_Some]]%lookup_insert_Some; eexists.
    + split; [|exact Hl]. rewrite lookup_app_l by (rewrite length_app; simpl; lia).
      by apply list_lookup_middle.
    + split; [|exact Hl']. apply list_lookup_middle. rewrite length_app. simpl. lia.
Qed.

Lemma completes_either j h h' ev :
  ev = Complete j \/ ev = Complete (S j) -> completes {[j := h; S j := h']} ev.
Proof.
  intros [->| ->]; eexists; (split; [done|]); [by rewrite lookup_insert_eq|].
  rewrite lookup_insert_ne by lia. by rewrite lookup_singleton_eq.
Qed.

(** C15. Polls of different instances do not interfere: when two polls
    arrive for two different instances that are registered, in a state
    that is well formed, the configuration that is reached when
    operations of the two have completed (the answers of both and the
    state of the service) depends on how many operations of each have
    completed, and not on the order in which they did. *)
Theorem polls_independent fuel c args args' n i n' i' evs evs' :
  sys_wf (state c) -> held (state c) n i -> held (state c) n' i' -> (n, i) <> (n', i') ->
  lookup_prop "testSuiteId" args = JNum n -> lookup_prop "testId" args = JNum i ->
  lookup_prop "testSuiteId" args' = JNum n' -> lookup_prop "testId" args' = JNum i' ->
  Forall (fun ev => ev = Complete (length (pool c)) \/ ev = Complete (S (length (pool c)))) evs ->
  evs ≡ₚ evs' ->
  irun fuel evs
    (irun fuel [Arrive (GetNotificationStatus args); Arrive (GetNotificationStatus args')] c) =
  irun fuel evs'
    (irun fuel [Arrive (GetNotificationStatus args); Arrive (GetNotificationStatus args')] c).
Proof.
  intros Hwf [h Hh] [h' Hh'] Hne Hn Hi Hn' Hi' Hev Hp.
  destruct (polls_apart fuel c args args' n i n' i' h h') as [_ Ha]; [done..|].
  apply (irun_permutation _ _ _ _ _ Hp Ha). eapply Forall_impl; [exact Hev|].
  apply completes_either.
Qed.

(** The polls are answered, and leave the service, as if the one had run
    before the other: every schedule of their completions leaves the
    configuration that the completions of the first, followed by those of
    the second, leave. *)
Corollary polls_in_turn fuel c args args' n i n' i' evs :
  sys_wf (state c) -> held (state c) n i -> held (state c) n' i' -> (n, i) <> (n', i') ->
  lookup_prop "testSuiteId" args = JNum n -> lookup_prop "testId" args = JNum i ->
  lookup_prop "testSuiteId" args' = JNum n' -> lookup_prop "testId" args' = JNum i' ->
  Forall (fun ev => ev = Complete (length (pool c)) \/ ev = Complete (S (length (pool c)))) evs ->
  irun fuel evs
    (irun fuel [Arrive (GetNotificationStatus args); Arrive (GetNotificationStatus args')] c) =
  irun fuel (filter (fun ev => ev = Complete (length (pool c))) evs ++
             filter (fun ev => ev <> Complete (length (pool c))) evs)
    (irun fuel [Arrive (GetNotificationStatus args); Arrive (GetNotificationStatus args')] c).
Proof.
  intros Hwf [h Hh] [h' Hh'] Hne Hn Hi Hn' Hi' Hev.
  destruct (polls_apart fuel c args args' n i n' i' h h') as [_ Ha]; [done..|].
  apply (irun_permutation _ _ _ _ _ (symmetry (filter_app_complement _ evs)) Ha).
  eapply Forall_impl; [exact Hev|]. apply completes_either.
Qed.

(** ** Polls one after the other *)

(** The completion of an operation of a task on a session and the
    arrival of a poll of an instance on another session commute. *)
Lemma arrive_swap fuel c j t h args n i h' :
  pool c !! j = Some t -> local h t ->
  session_of (wpts (state c)) n i = Some h' -> h <> h' ->
  lookup_prop "testSuiteId" args = JNum n -> lookup_prop "testId" args = JNum i ->
  istep fuel (Complete j) (istep fuel (Arrive (GetNotificationStatus args)) c) =
  istep fuel (Arrive (GetNotificationStatus args)) (istep fuel (Complete j) c).
Proof.
  intros Hj Hl Hh Hne Hn Hi.
  rewrite (istep_complete _ _ c t) by done. rewrite !istep_arrive. cbn [pool state handle_task].
  rewrite (istep_complete _ _ _ t) by (cbn; by apply lookup_app_l_Some). cbn [pool state].
  destruct (resume_put h t (state c) Hl) as [o E].
  assert (exists o', (advance (getNotificationStatus_task fuel fresh_res args) (state c)).2 =
                     put h' o' (state c)) as [o' E']
    by (eexists; by apply (getNotificationStatus_task_local fuel fresh_res args _ n i)).
  rewrite E', (resume_frame h h' t) by done. cbn [fst snd]. rewrite E.
  rewrite (poll_arrives_frame fuel fresh_res args _ n i h' h) by done. cbn [fst snd].
  rewrite E'. f_equal; [|by apply put_commute].
  apply insert_app_l. by eapply lookup_lt_Some.
Qed.

(** The poll may arrive after the operations of the task have
    completed. *)
Lemma arrive_past fuel k c j t h args n i h' :
  pool c !! j = Some t -> local h t ->
  session_of (wpts (state c)) n i = Some h' -> h <> h' ->
  lookup_prop "testSuiteId" args = JNum n -> lookup_prop "testId" args = JNum i ->
  irun fuel (replicate k (Complete j)) (istep fuel (Arrive (GetNotificationStatus args)) c) =
  istep fuel (Arrive (GetNotificationStatus args)) (irun fuel (replicate k (Complete j)) c).
Proof.
  intros Hj Hl Hh Hne Hn Hi. revert c t Hj Hl Hh. induction k as [|k IH]; intros c t Hj Hl Hh; [done|].
  cbn [replicate]. rewrite !irun_cons, (arrive_swap fuel c j t h args n i h') by done.
  destruct (resume_put h t (state c) Hl) as [o E].
  apply (IH _ (resume t (state c)).1); rewrite ?(istep_complete _ _ c t) by done;
    cbn [pool state].
  - apply list_lookup_insert_eq. by eapply lookup_lt_Some.
  - by apply resume_local.
  - by rewrite E, put_wpts.
Qed.

(** A schedule of completions of two tasks, up to their order. *)
Lemma completions_sorted (j : nat) evs :
  Forall (fun ev => ev = Complete j \/ ev = Complete (S j)) evs ->
  evs ≡ₚ replicate (length (filter (fun ev => ev = Complete j) evs)) (Complete j) ++
         replicate (length (filter (fun ev => ev = Complete (S j)) evs)) (Complete (S j)).
Proof.
  induction 1 as [|ev evs [->| ->] _ IH]; [done|..].
  - rewrite filter_cons_True, filter_cons_False by (done || (intros [=]; lia)).
    cbn. by rewrite <- IH.
  - rewrite filter_cons_False, filter_cons_True by (done || (intros [=]; lia)).
    cbn. by rewrite <- Permutation_middle, <- IH.
Qed.

(** C16. Polls of different instances that overlap are served as if one
    after the other: when two polls arrive for two different instances
    that are registered, in a state that is well formed, and as many
    operations of each have completed as its task waits for, in whatever
    order, both are answered as the handlers answer them when the first
    is served before the second arrives, and the service is left in the
    state in which that run leaves it. *)
Theorem polls_serializable fuel c args args' n i n' i' evs :
  sys_wf (state c) -> held (state c) n i -> held (state c) n' i' -> (n, i) <> (n', i') ->
  lookup_prop "testSuiteId" args = JNum n -> lookup_prop "testId" args = JNum i ->
  lookup_prop "testSuiteId" args' = JNum n' -> lookup_prop "testId" args' = JNum i' ->
  Forall (fun ev => ev = Complete (length (pool c)) \/ ev = Complete (S (length (pool c)))) evs ->
  (suspensions (handle_task fuel (GetNotificationStatus args) fresh_res) (state c) <=
   length (filter (fun ev => ev = Complete (length (pool c))) evs))%nat ->
  (suspensions (handle_task fuel (GetNotificationStatus args') fresh_res)
     (step fuel (Serve (GetNotificationStatus args)) (state c)) <=
   length (filter (fun ev => ev = Complete (S (length (pool c)))) evs))%nat ->
  irun fuel evs
    (irun fuel [Arrive (GetNotificationStatus args); Arrive (GetNotificationStatus args')] c) =
  Config
    (pool c ++ (Settled <$> served fuel [Serve (GetNotificationStatus args);
                                         Serve (GetNotificationStatus args')] (state c)))
    (run fuel [Serve (GetNotificationStatus args); Serve (GetNotificationStatus args')]
       (state c)).
Proof.
  intros Hwf [h Hh] [h' Hh'] Hne Hn Hi Hn' Hi' Hev Hk Hk'.
  destruct (polls_apart fuel c args args' n i n' i' h h') as [Hhh Ha]; [done..|].
  rewrite (irun_permutation _ _ _ _ _ (completions_sorted _ _ Hev) Ha)
    by (eapply Forall_impl; [exact Hev|apply completes_either]).
  destruct (getNotificationStatus_task_local fuel fresh_res args (state c) n i h Hh Hn Hi)
    as [Hl Hs].
  rewrite irun_app, !irun_cons. cbn [irun foldl].
  rewrite (arrive_past fuel _ _ (length (pool c))
             (advance (getNotificationStatus_task fuel fresh_res args) (state c)).1
             h args' n' i' h');
    [|by rewrite istep_arrive; apply list_lookup_middle|done
     |by rewrite istep_arrive; cbn [state handle_task]; rewrite Hs, put_wpts|done..].
  rewrite <- (irun_cons fuel (Arrive (GetNotificationStatus args))), serve_enough by done.
  pose proof (serve_enough fuel (GetNotificationStatus args')
                (Config (pool c ++ [Settled (handle fuel (GetNotificationStatus args)
                                               fresh_res (state c)).1])
                   (step fuel (Serve (GetNotificationStatus args)) (state c)))) as Hse.
  cbn [pool state] in Hse. rewrite length_app, Nat.add_1_r in Hse.
  rewrite <- (irun_cons fuel (Arrive (GetNotificationStatus args'))), Hse by done.
  cbn [pool state served run foldl fmap list_fmap]. by rewrite <- app_assoc.
Qed.

End independent_facts.

(** * The theorem at a concrete schedule *)

(** Two subscriptions have been taken in a suite; the two instances are
    polled at once, and the first operations of the two polls complete in
    either order. *)
Lemma polls_independent_witness :
  irun 40 [Complete 3; Complete 4]
    (irun 40 [Arrive (GetNotificationStatus args_one); Arrive (GetNotificationStatus args_second)]
       (irun 40 at_once (Config [] sys0))) =
  irun 40 [Complete 4; Complete 3]
    (irun 40 [Arrive (GetNotificationStatus args_one); Arrive (GetNotificationStatus args_second)]
       (irun 40 at_once (Config [] sys0))).
Proof.
  apply (polls_independent (D:=session) 40 (irun 40 at_once (Config [] sys0))
           args_one args_second 0 0 0 1);
    [|by vm_compute; eexists|by vm_compute; eexists|done|reflexivity..| |apply perm_swap].
  - apply (irun_related safe_step 40 at_once sys0); [split; by vm_compute|apply sys_of_wf].
  - repeat (constructor; [first [by (left; vm_compute) | by (right; vm_compute)]|]).
    constructor.
Defined.

(** The two instances are polled at once, and the operations of the two
    polls complete in turn, forty of each. *)
Lemma polls_serializable_witness :
  irun 40 in_turns
    (irun 40 [Arrive (GetNotificationStatus args_one); Arrive (GetNotificationStatus args_second)]
       (irun 40 at_once (Config [] sys0))) =
  Config
    (pool (irun 40 at_once (Config [] sys0)) ++
     (Settled <$> served 40 [Serve (GetNotificationStatus args_one);
                             Serve (GetNotificationStatus args_second)]
                    (state (irun 40 at_once (Config [] sys0)))))
    (run 40 [Serve (GetNotificationStatus args_one); Serve (GetNotificationStatus args_second)]
       (state (irun 40 at_once (Config [] sys0)))).
Proof.
  apply (polls_serializable (D:=session) 40 (irun 40 at_once (Config [] sys0))
           args_one args_second 0 0 0 1);
    [|by vm_compute; eexists|by vm_compute; eexists|done|reflexivity..
     | |vm_compute; lia|vm_compute; lia].
  - apply (irun_related safe_step 40 at_once sys0); [split; by vm_compute|apply sys_of_wf].
  - apply Forall_concat, Forall_replicate.
    constructor; [by (left; vm_compute)|constructor; [by (right; vm_compute)|constructor]].
Defined.
