(* ===== verification/Permissions.v ===== *)
(** * Notification permission

    The flow of a subscription must never stop at a permission prompt of
    the browser: [initiateTestInstance] of [src/src/index.js] sets, before
    it launches the browser, the preferences that grant the permission to
    the pages of the server.  This file says what the preferences it sets
    mean to the browser (the exception of the content settings of a
    Chromium, the testing preferences of a Firefox), shows that they grant
    the permission whatever the options held before, and that every
    browser the service launches has been given them, under every
    schedule: the handler reads the URL of the server in one turn and the
    browser is launched in a later one, and no turn of any task changes
    the URL in between. *)

From stdpp Require Import base option list strings gmap pretty sorting.
From S2P Require Import Prelude Task JsValue ApiServer Driver Browser Selenium Suite Wpts.
From S2P Require Import Fixtures Checks Scripts Lifecycle Subscribe Notify Service Ownership.
From S2P Require Import Async Turns Interleave Shutdown.

Import APIServer.

Local Open Scope Z_scope.

(** The value of a preference of a Firefox: the last that was set. *)
Definition preference (k : string) (o : seleniumOptions) : option jsval :=
  snd <$> last (filter (fun kv => kv.1 = k) (preferences o)).

(** The value at the end of a path of property names. *)
Fixpoint lookup_path (ks : list string) (v : jsval) : jsval :=
  match ks, v with
  | [], _ => v
  | k :: ks', JObj o => lookup_path ks' (lookup_prop k o)
  | _ :: _, _ => JUndefined
  end.

(** The browsers [initiateTestInstance] sets preferences for. *)
Definition granted_browsers : list string := ["chrome"; "opera"; "firefox"].

(** The browser, launched with its options, shows the notifications of the
    pages of [url] without asking: a Firefox by its testing preferences, a
    Chromium by the exception of its content settings for the origin. *)
Definition allows_notifications (url : string) (b : localBrowser) : Prop :=
  let o := getSeleniumOptions b in
  if decide (getId b = "firefox") then
    preference "dom.push.testing.ignorePermission" o = Some (JBool true) /\
    preference "notification.prompt.testing" o = Some (JBool true) /\
    preference "notification.prompt.testing.allow" o = Some (JBool true)
  else
    lookup_path ["profile"; "content_settings"; "exceptions"; "notifications";
                 url +:+ ",*"; "setting"] (userPreferences o) = JNum 1.

(** The browser is [b0] with the preferences of [initiateTestInstance] for
    the server at [url]: it shows notifications without asking when it is
    one of the three browsers the code knows, and is [b0] as it came
    otherwise. *)
Definition prepared (url : string) (b : localBrowser) : Prop :=
  exists b0, b = grant_notifications url b0 /\
    (getId b0 ∈ granted_browsers -> allows_notifications url b) /\
    (getId b0 ∉ granted_browsers -> b = b0).

Section permissions.
Context {D : Type} `{Driver D}.

(** The URL of the server, as the handlers read it. *)
Definition server_url (sys : Sys D) : string := getUrl (_apiServer (wpts sys)).

(** From [sys] to [sys'] the URL of the server is the same, and the
    browsers launched were prepared for it. *)
Definition launches_prepared (sys sys' : Sys D) : Prop :=
  server_url sys' = server_url sys /\
  exists l, launched (world sys') = launched (world sys) ++ l /\
    Forall (fun hb => prepared (server_url sys) hb.2) l.

End permissions.

(** * Properties *)

#[export] Instance allows_notifications_dec url b : Decision (allows_notifications url b).
Proof. unfold allows_notifications. cbv zeta. case_decide; apply _. Defined.

(** ** The preferences *)

Lemma preference_set k v o : preference k (setPreference k v o) = Some v.
Proof.
  unfold preference, setPreference. cbn [preferences].
  by rewrite filter_app, filter_cons_True, filter_nil, last_snoc.
Qed.

Lemma preference_set_other k k' v o :
  k <> k' -> preference k (setPreference k' v o) = preference k o.
Proof.
  intros Hk. unfold preference, setPreference. cbn [preferences].
  rewrite filter_app, filter_cons_False, filter_nil, app_nil_r; [done|]. simpl. congruence.
Qed.

Lemma lookup_prop_head k v o : lookup_prop k ((k, v) :: o) = v.
Proof. simpl. by rewrite decide_True. Qed.

(** The preferences of a Chromium allow the notifications of [url]. *)
Lemma blinkPreferences_allows url :
  lookup_path ["profile"; "content_settings"; "exceptions"; "notifications";
               url +:+ ",*"; "setting"] (blinkPreferences url) = JNum 1.
Proof. unfold blinkPreferences. cbn [lookup_path]. by rewrite !lookup_prop_head. Qed.

Lemma grant_notifications_id url b : getId (grant_notifications url b) = getId b.
Proof. unfold grant_notifications. by repeat case_decide. Qed.

(** The preferences [initiateTestInstance] sets grant the permission,
    whatever the options of the browser held before. *)
Lemma grant_notifications_allows url b :
  getId b ∈ granted_browsers -> allows_notifications url (grant_notifications url b).
Proof.
  intros Hb. unfold allows_notifications. cbv zeta. rewrite grant_notifications_id.
  unfold grant_notifications. destruct (decide (getId b = "firefox")) as [Hff|Hff].
  - rewrite decide_False by (rewrite Hff; by intros [|]).
    cbn [with_options getSeleniumOptions].
    by repeat first [rewrite preference_set | rewrite preference_set_other by done].
  - rewrite decide_True; [apply blinkPreferences_allows|].
    unfold granted_browsers in Hb. set_solver.
Qed.

Lemma grant_notifications_prepared url b : prepared url (grant_notifications url b).
Proof.
  exists b. split_and!; [done|apply grant_notifications_allows|].
  intros Hb. unfold grant_notifications, granted_browsers in *.
  rewrite !decide_False; [done|set_solver..].
Qed.

Section permissions_facts.
Context {D : Type} `{Driver D} `{!DriverLaws D}.
Implicit Types (sys : Sys D) (w : World D) (fuel : nat).

(** ** What the pieces of the handlers launch *)

#[export] Instance launches_prepared_preorder : PreOrder (launches_prepared (D:=D)).
Proof.
  split; [intros sys; split; [done|]; exists []; by rewrite app_nil_r|].
  intros s1 s2 s3 [Ha (l & Hl & Hp)] [Ha' (l' & Hl' & Hp')]. split; [congruence|].
  exists (l ++ l'). rewrite Ha in Hp'. split; [by rewrite Hl', Hl, app_assoc|by apply Forall_app].
Qed.

(** A step that changes neither the URL nor the browsers launched. *)
Lemma launches_prepared_same sys sys' :
  server_url sys' = server_url sys ->
  launched (world sys') = launched (world sys) -> launches_prepared sys sys'.
Proof. intros Ha Hl. split; [done|]. exists []. by rewrite app_nil_r. Qed.

Lemma with_session_launched {A} h (m : Promise jsval D A) w :
  launched (with_session h m w).2 = launched w.
Proof. unfold with_session. destruct (sessions w !! h); [|done]. by destruct (m _). Qed.

Lemma kill_all_launched hs w : launched (TestSuite.kill_all hs w).2 = launched w.
Proof.
  revert w. induction hs as [|h hs IH]; intros w; [done|].
  rewrite kill_all_cons. cbn [snd]. rewrite IH. apply with_session_launched.
Qed.

(** The launch of a browser with the preferences for the URL the server
    has. *)
Lemma launches_prepared_launch b key sys :
  launches_prepared sys
    (then_ (on_world (getSeleniumDriver (grant_notifications (server_url sys) b)))
       (add_instance_at key) sys).2.
Proof.
  unfold then_, on_world, zoom, getSeleniumDriver.
  destruct (spawn (world sys) _ _) as [d|e|]; cbn [fst snd];
    [|by apply launches_prepared_same..].
  unfold add_instance_at. destruct key as [| | |n| | |];
    try (split; [done|]; eexists; split; [done|];
         apply Forall_singleton, grant_notifications_prepared).
  cbn [wpts world]. destruct (_testSuites (wpts sys) !! n) as [s|];
    [destruct (TestSuite.addTestInstance _ s)|];
    (split; [done|]; eexists; split; [done|];
     apply Forall_singleton, grant_notifications_prepared).
Qed.

(** Every turn of every handler, and the pieces of [endService], launch
    prepared browsers only. *)
#[export] Instance launches_prepared_turn : Turn (launches_prepared (D:=D)).
Proof.
  apply turn_of_pieces.
  - apply _.
  - intros r sys. rewrite startTestSuite_eq. by apply launches_prepared_same.
  - intros n hs sys. unfold suite_end_complete.
    pose proof (kill_all_launched hs (world sys)) as Hk.
    destruct (TestSuite.kill_all hs (world sys)). by apply launches_prepared_same.
  - intros [| | |n| | |] sys; by apply launches_prepared_same.
  - intros sys. apply launches_prepared_same; [by unfold server_url; rewrite on_world_wpts|].
    unfold on_world, zoom, del_temp. by destruct (delError (world sys)).
  - intros b key sys0 sys [Hurl _]. unfold server_url in Hurl. rewrite <- Hurl.
    apply launches_prepared_launch.
  - intros h upd sys. apply launches_prepared_same; [done|]. unfold session_step.
    by destruct (sessions (world sys) !! h).
  - intros n sys. by apply launches_prepared_same.
Qed.

#[export] Instance launches_prepared_service : ServiceTurn (launches_prepared (D:=D)).
Proof. split; [apply _|intros sys; by apply launches_prepared_same..]. Qed.

(** C24. Every browser the service launches has been prepared for the
    server, whatever overlaps: under any schedule of requests that arrive,
    operations that complete, time that passes and shutdowns, each browser
    launched is the browser of the provisioning with the preferences of
    [initiateTestInstance] for the URL of the server; when it is a Chrome,
    an Opera or a Firefox, these grant the pages of the server the
    permission to show notifications, whatever its options held before;
    a browser of another name is launched as it came. *)
Theorem launched_with_permission fuel evs sys :
  launched (world sys) = [] ->
  Forall (fun hb => prepared (server_url sys) hb.2)
    (launched (world (state (running (srun fuel evs (Service (Config [] sys) None)))))).
Proof.
  intros Hl. destruct (srun_related launches_prepared fuel evs sys) as [_ (l & -> & Hp)].
  by rewrite Hl.
Qed.

End permissions_facts.

(** * The theorem at a concrete schedule *)

(** A suite is started and a subscription taken in it with a Firefox,
    while the service is ended: the browser launched has been prepared. *)
Lemma launched_with_permission_witness :
  Forall (fun hb => prepared (server_url sys0) hb.2)
    (launched (world (state (running (srun 40 in_flight (Service (Config [] sys0) None)))))).
Proof. by apply (launched_with_permission 40). Defined.
